(* ===== verification/_CoqProject ===== *)
-Q . S2P
Prelude.v
GoStrings.v
GoTime.v
Sha256.v
Proto.v
Store.v
Dedup.v
Identity.v
Replay.v
Tenants.v
Signer.v
Issue.v
Routing.v
Limiter.v
Float64.v
Correlator.v
Json.v
Fmt.v
GoEncoding.v
HttpSig.v
Sealed.v
Trust.v
Analysis.v
Prompt.v
Providers.v
Evaluator.v
Embed.v
Cache.v
Feedback.v
History.v
SilenceClient.v
Notify.v
Channels.v
ChannelText.v
Config.v
Ingest.v
GrpcSrv.v
SignedSrv.v
Metrics.v
Counts.v
Pipeline.v
Goroutines.v
Service.v
Startup.v
Shutdown.v
Records.v
Backstop.v
Spares.v
Budget.v
Replays.v
Once.v
Instruments.v
Meters.v
Boot.v
