(* ===== verification/Prelude.v ===== *)
(** * muthur: verification development

    muthur is the central "brain" of a monitoring system. Collectors in the
    clusters push alerts to it over mutual TLS, or over plain HTTP with signed and
    sealed requests; it authenticates them, removes duplicates, optionally groups
    alerts into incidents, asks an LLM for an analysis, may silence noise in
    AlertManager, and notifies the receivers the routing rules name. This library
    models the Go code under [src/internal] and [src/cmd/muthur] and proves what
    makes it correct.

    ** Parts

    Every file models one package or file of the source; names follow the code,
    prefixed by the package where two packages use the same name ([dedup_New],
    [cache_Get]).

    Foundations: [Prelude] (results, machine integers, the clock, the state
    monad [M]), [GoStrings] (the functions of [strings], [strconv] and
    [encoding/hex] the code calls), [GoTime] (durations and RFC 3339),
    [Sha256], [Json] ([encoding/json] as the code uses it: UTF-8, escapes, the
    nesting limit, case-insensitive members), [Fmt] ([%q], [%.4f],
    [strconv.FormatFloat]), [GoEncoding] (base64, [strconv.Unquote], big-endian
    integers, HTTP headers, the interface of [encoding/pem]), [Proto] (the
    messages of [proto/alert.pb.go]).

    Storage: [Store] is the interface of [store/store.go] as a class, with the
    contract [StoreSpec] its clients are proved against. Module [Memory]
    ([store/memory.go]) and the adapter [Redis] ([store/redis.go]) implement it.
    The contract is what the two have in common: an entry lives at least the whole
    milliseconds of its time-to-live and no longer than all of it ([whole]; go-redis
    sends milliseconds), and a listing may miss what others write in its course
    ([meddled]; Redis lists with one SCAN after another and one MGET).
    [Dedup] ([dedup], [alertkey]), [Cache] ([llmcache], with [Embed] for
    [embed]), [Feedback], [History], [Replay] ([auth/replay.go]) and [Issue]
    ([auth/bootstrap.go], [auth/renew.go]) are its clients.

    Authentication: [Identity] ([auth/identity.go]), [Replay], [Tenants] (the
    tenant index and [auth/tenants_reloader.go]), [Signer] ([auth/sign.go]),
    [Issue], [Ingest] ([ingest/handler.go]) and [GrpcSrv] ([grpcsrv], and the
    chain of interceptors that [cmd/muthur/main.go] mounts). The second
    transport: [HttpSig] ([auth/httpsig.go]), [Sealed] ([auth/sealed.go] and the
    payload signatures of [auth/sign.go]), [Trust] ([auth/tls.go],
    [auth/trust.go] and the loading of the CA's key pair) and [SignedSrv]
    ([signedsrv]), which serves the handlers of [GrpcSrv] over HTTP.

    Evaluation: [Analysis] ([evaluator/types.go], [schema.go]), [Prompt],
    [Providers] ([anthropic.go], [openai.go]), [Evaluator] ([analyzer.go]) and
    [Limiter] ([llmlimit]), with [Float64] for the rounding of its arithmetic.

    Delivery: [Routing], [Notify] (messages, evidence and the registry of
    receivers of [notify]), [Channels] (Discord, Slack, webhook, PagerDuty),
    [ChannelText] (Telegram, email, and the table of factories),
    [SilenceClient] ([silence]), [Correlator] ([incident]) and [Pipeline], which
    composes all of them as [pipeline/pipeline.go] does when nothing interrupts
    it. [Metrics] lists the instruments of [metrics]; [Counts] has the operations of
    the other components once more with the instruments they feed, which can panic,
    and relates each to its component's definition ([tells]). [Goroutines] is
    [pipeline/pipeline.go] again, as the sequences of accesses a goroutine makes
    to what it shares; run without interruption it is [Pipeline]
    ([go_Process_agrees], [go_flushKey_agrees], [go_Drain_agrees]), up to a panic.

    The program: [Config] ([config], [appconfig]), [Startup] (what [run] in
    [cmd/muthur/main.go] builds, from the environment to the mounted
    transports), [Service] (the running brain: the transports, the public
    listener, the goroutines, the timers, the reloads and the shutdown as steps
    over one state), and what holds in it: [Shutdown] (what the end leaves
    behind), [Backstop] and [Budget] (the LLM limits), [Once] (deduplication),
    [Replays] (replayed requests), [Instruments] and [Meters] (what the metrics say)
    and [Boot] (from the arguments and the environment to the exit status). Two files carry
    these proofs: [Records] (the accesses of a run are those of its goroutines, each
    a trace of its program, which can be followed by a protocol) and [Spares] (no
    part of the program touches a key of the store that another part reserves, so
    that what a client of the store is proved against [evolves] holds in a run).

    ** How the code is represented

    A component's state is a record, each operation a function
    [M S A = nat * S -> A * (nat * S)]: it passes the state and the number of
    clock readings made so far. The clock is a class: its readings never
    decrease. A Go [(value, error)] is a [result]; a panic is [None] where the
    code can panic. A panic in a goroutine ends the process: [panicked] of [Pipeline]'s
    state is set, deferred calls run, nothing else does ([unless_panicked]), and
    [Service.alive] stops every step. A goroutine can panic in two places, over a byte
    metric that is no number ([AttachEvidence]) and over a negative number of tokens
    (in the evaluator, so that an [Analyzer] may have no answer); the theorems say
    which of the two they exclude. Integers are [Z], wrapped to 64 bits where the code
    multiplies or converts ([wrap64]); floating-point numbers are Rocq's
    [spec_float], rounded like float64 and float32. Alerts passed by pointer
    are [ref]s, since the code compares pointers. Logs are left out, and so are
    context deadlines, whose effect is that of a failing call.

    Goroutines appear at two grains. [Limiter.Interleaving] and
    [Correlator.Schedule] are step relations whose steps are the critical
    sections of one component. [Service.step] is the whole program: each goroutine
    of the ingest handler, each timer's flush and the drain of [run] is a
    [Goroutines.proc], a tree whose nodes are its accesses: a call of
    a client of the store, a critical section of the correlator, [Acquire] or
    [Release], a question to the LLM, a request, a message, an instrument. Between
    two accesses of one goroutine any other may run, calls may arrive, timers fire,
    the tenants be reloaded and other replicas write to the store. One access, and
    one call of a transport, is one step: the interleavings inside
    [cache_Get], or between the lookups of one bootstrap, are those that
    [evolves] (what other requests and the janitor may do to a store between two
    calls) and [bootstrap_env] (other bootstrap attempts) add to the components'
    own theorems. [Service.schedule] executes chosen steps; the witnesses and the
    examples of lost alerts are runs of it.

    Code outside the repository is a parameter: the HTTP client ([Net]), the
    Anthropic SDK, x509 ([CertLib], [X509], [CaLib]), the commands of go-redis
    ([RedisClient], with their documented contract [RedisSpec], which [Store.Server]
    meets: a server that others write to and that counts in milliseconds), the
    cryptography ([Ecdsa], [Hpke], [Gcm], [PayloadLib], [KeyLib], with the
    correctness their users rely on in [EcdsaSpec], [HpkeSpec] and the like), PEM
    ([Pem]), the protobuf codec ([Wire]), SMTP ([Mailer]), YAML, the environment
    and the file system, [unicode.IsPrint] and the text of a float32. Whatever
    these answer, the theorems hold; each witness instantiates them concretely.

    ** What is shown

    - Delivery ([Pipeline], [Correlator]): no failure of the LLM, of
      AlertManager, of the store or of a receiver loses an alert, short of a panic;
      groups and
      drained buckets are announced as one message per receiver; alerts are
      conserved under every interleaving of arrivals, timers and drains.
      The theorems are proved against the class [Observer], which says only that
      calls are seen once.
    - Isolation and authentication ([GrpcSrv], [Replay], [Issue], [Signer],
      [Tenants]): the exact condition under which an alert is accepted, replay
      and bootstrap single use over any evolution of the store, the round trip
      from signing to extraction, and validity bounds free of overflow.
    - The signed transport ([SignedSrv], [HttpSig], [Sealed], [Trust]): the same
      isolation over HTTP; that an edge which sees and rewrites the traffic cannot
      forge, alter or redirect an alert, up to collisions of SHA-256 exhibited on
      the texts compared; round trips of signing and sealing; well-formed key
      sets, loaded in bounded time; handshakes during a certificate rotation.
    - Channels ([Channels], [ChannelText]): Telegram's HTML is well formed for
      every message, texts are bounded, failures are reported, and the events of
      one alert pair up.
    - The running brain ([Service], [Instruments]): in any interleaving receivers
      hear only of alerts accepted from active tenants, one cluster per message;
      every accepted alert is accounted for at every moment, and each announced
      alert or group gets exactly one message per receiver; a goroutine panics just
      when the analyzer did; every goroutine keeps
      to its script; a revoked cluster is cut off by the next reload; the
      pipeline's instruments agree with what happened, and so do the counters the other
      packages feed ([Meters], [Counts]): the run of the brain that counts is the run
      that does not ([counting_is_silent]), panics of the counters included. A negative
      number of tokens ends the process ([negative_tokens_panic]).
    - What the store remembers, in the running brain ([Once], [Replays]): a receiver
      is told of one alert at most once per deduplication window while the store
      answers, and a captured
      push is accepted again over neither transport, whatever runs in between.
    - The program ([Config], [Startup], [Shutdown], [Boot]): which environments
      start the brain, that the brain that starts is the one configured and runs
      as configured, what malformed settings switch off, which alerts the shutdown
      accounts for and which it can lose ([late_alert_lost],
      [flush_left_behind]), and what the exit status says.
    - Cost ([Limiter], [Backstop], [Pipeline]): bounds on concurrency and rate in
      any interleaving, over numbers that keep [NumLaws], which [float64] does
      ([f64_laws]: each operation is off by at most one unit in the last place, for
      buckets of up to 2^30 tokens); in the running
      brain no question without a slot, no slot is kept, and the questions charged
      to a cluster stay within its burst and rate.
    - Silencing ([SilenceClient], [Pipeline]): the guards, for groups too.
    - Evaluation ([Evaluator], [Providers], [Analysis], [Prompt]): the structured
      output loop, the schema downgrade, the agreement of the validator with the
      published schema, read by an interpreter of its own ([meets_schema]), the
      audit trail.
    - Storage ([Store], [Dedup], [Cache], [Feedback], [History]): refinement of
      the store contract by both backends, and the round trips of its clients.

    ** Fuel and bounds

    [Evaluator.attempts] runs [maxRetries + 1] times and the providers three
    times, which are the bounds of the code's loops; [parse_value] has the length
    of its input as fuel and the nesting limit of [encoding/json]; [parse_units]
    has the length of the text, since every unit consumes a character;
    [scale_bytes] has the four divisions of the code; [parse_blocks] has one round
    more than its data has bytes, since every PEM block takes at least one;
    [unquote_chars] and [unescape_from] have the length of their text.
    [json_parse_print], [hpke_key_loading_terminates], [unescape_escape] and the
    theorems on the loops show that the bounds suffice. Runs of the program are
    unbounded: [Service.steps] has as many steps as one likes.

    ** Not modelled

    Log lines; the values of the observed durations; the generated code of [proto] beyond its structs, request
    types and method names; the texts of error bodies of the signed transport; the
    branches of the channels for a message without a payload, which the pipeline
    never makes; and of [cmd/muthur/main.go] the sockets (a listener that fails is
    a step), the middleware of the public router, the rendering of the metrics
    page, gRPC reflection and the logger's encoding. *)
From stdpp Require Export gmap strings list.
From Stdlib Require Export ZArith Lia.

Open Scope string_scope.
Open Scope Z_scope.

(** ** Results of fallible Go calls *)

(** A Go call that returns [(value, error)]: [Ok v] when the error is [nil]. *)
Inductive result (E A : Type) : Type :=
| Ok (a : A)
| Err (e : E).
Arguments Ok {E A} a.
Arguments Err {E A} e.

#[export] Instance result_ret E : MRet (result E) := λ A a, Ok a.
#[export] Instance result_bind E : MBind (result E) := λ A B f r,
  match r with Ok a => f a | Err e => Err e end.

Definition is_Ok {E A} (r : result E A) : bool :=
  match r with Ok _ => true | Err _ => false end.

Lemma result_bind_Ok {E A B} (f : A → result E B) (r : result E A) b :
  r ≫= f = Ok b → ∃ a, r = Ok a ∧ f a = Ok b.
Proof. destruct r; [eauto | done]. Qed.

(** ** Machine integers *)

(** Two's-complement wrap-around of a 64-bit signed integer. *)
Definition wrap64 (z : Z) : Z := (z + 2 ^ 63) mod 2 ^ 64 - 2 ^ 63.

Definition in_int64 (z : Z) : Prop := - 2 ^ 63 <= z < 2 ^ 63.

Definition in_int64b (z : Z) : bool := (- 2 ^ 63 <=? z) && (z <? 2 ^ 63).
Arguments in_int64b : simpl never.

Lemma in_int64b_spec z : in_int64b z = true ↔ in_int64 z.
Proof. unfold in_int64b, in_int64. lia. Qed.

Lemma wrap64_id z : in_int64 z → wrap64 z = z.
Proof.
  unfold in_int64, wrap64. intros H. rewrite Z.mod_small; lia.
Qed.

Lemma wrap64_range z : in_int64 (wrap64 z).
Proof.
  unfold in_int64, wrap64.
  pose proof (Z.mod_pos_bound (z + 2 ^ 63) (2 ^ 64) ltac:(lia)). lia.
Qed.

Lemma wrap64_eq z : ∃ k, wrap64 z = z + k * 2 ^ 64.
Proof.
  exists (- ((z + 2 ^ 63) / 2 ^ 64)). unfold wrap64.
  pose proof (Z.div_mod (z + 2 ^ 63) (2 ^ 64) ltac:(lia)). lia.
Qed.

(** ** Time

    A [time.Time] is the number of nanoseconds since the zero time (year 1,
    UTC), so that [IsZero] is a test against 0; a [time.Duration] is an int64
    count of nanoseconds. *)
Abbreviation Time := Z (only parsing).
Abbreviation Duration := Z (only parsing).

Definition Nanosecond : Duration := 1.
Definition Second : Duration := 10 ^ 9.
Definition Minute : Duration := 60 * 10 ^ 9.
Definition Hour : Duration := 3600 * 10 ^ 9.

Definition IsZero (t : Time) : bool := t =? 0.

(** [t.After(u)] and [t.Add(d)]. *)
Definition After (t u : Time) : bool := u <? t.
Definition Add (t : Time) (d : Duration) : Time := t + d.

(** [t.Sub(u)] saturates at the ends of the int64 range. *)
Definition Sub (t u : Time) : Duration := Z.max (- 2 ^ 63) (Z.min (2 ^ 63 - 1) (t - u)).

(** Seconds from the zero time to the Unix epoch. *)
Definition unixToInternal : Z := 62135596800.

(** [time.Unix(sec, 0)]: the seconds field is an int64 and wraps. *)
Definition time_Unix (sec : Z) : Time := wrap64 (sec + unixToInternal) * Second.

(** [t.Unix()]: whole seconds since the Unix epoch. *)
Definition Unix (t : Time) : Z := t / Second - unixToInternal.

(** The successive readings of the wall clock by [time.Now()]: reading number
    [n] is [clk n]. Readings never decrease and come after the zero time. *)
Class Clock := {
  clk : nat → Time;
  clk_mono : ∀ i j, (i ≤ j)%nat → clk i <= clk j;
  clk_pos : 0 < clk 0;
}.

Lemma clk_gt0 `{!Clock} n : 0 < clk n.
Proof. pose proof (clk_mono 0 n ltac:(lia)). pose proof clk_pos. lia. Qed.

(** A concrete clock for examples: one reading per second, from the Unix epoch. *)
Definition unix_seconds_clock : Clock.
Proof.
  refine {| clk n := (unixToInternal + Z.of_nat n) * Second |}.
  - unfold Second. intros. lia.
  - unfold unixToInternal, Second. lia.
Defined.

(** ** Stateful code

    A computation reads and updates the number of clock readings made so far
    and the state [S] of its component. *)
Definition M (S A : Type) : Type := nat * S → A * (nat * S).

#[export] Instance M_ret S : MRet (M S) := λ A a c, (a, c).
#[export] Instance M_bind S : MBind (M S) := λ A B f m c,
  let '(a, c') := m c in f a c'.

Definition run {S A} (m : M S A) (c : nat * S) : A * (nat * S) := m c.
Definition get {S} : M S S := λ c, (c.2, c).
Definition put {S} (s : S) : M S unit := λ c, (tt, (c.1, s)).
Definition modify {S} (f : S → S) : M S unit := λ c, (tt, (c.1, f c.2)).

(** [time.Now()]. *)
Definition time_Now `{!Clock} {S} : M S Time := λ c, (clk c.1, (Datatypes.S c.1, c.2)).

(** Run a component's code inside a larger state that holds it. *)
Definition zoom {S T A} (proj : S → T) (upd : T → S → S) (m : M T A) : M S A :=
  λ c, let '(a, (n, t)) := m (c.1, proj c.2) in (a, (n, upd t c.2)).

(** [for _, x := range l { ... }] where the body only has effects. *)
Fixpoint for_each {S A} (l : list A) (body : A → M S unit) : M S unit :=
  match l with
  | [] => mret tt
  | x :: l => body x;; for_each l body
  end.

Lemma for_each_app {S A} (l1 l2 : list A) (body : A → M S unit) c :
  for_each (l1 ++ l2)%list body c = for_each l2 body (for_each l1 body c).2.
Proof.
  revert c. induction l1 as [|x l1 IH]; intros c; simpl; [done|].
  unfold mbind, M_bind. destruct (body x c) as [u c']. apply IH.
Qed.

(** ** Automation *)

Ltac munfold :=
  repeat (unfold mbind, M_bind, mret, M_ret, run, get, put, modify, time_Now in *; cbn [fst snd] in *).

(** Reduce the control structure exposed by a rewrite. *)
Ltac mstep := cbv beta iota zeta; cbn [fst snd].

(** Case analysis on the tests of the code, in the goal and the hypotheses. *)
Ltac code_cases :=
  repeat match goal with
  | |- context [if ?b then _ else _] => destruct b eqn:?
  | H : context [if ?b then _ else _] |- _ => destruct b eqn:?
  end.

Ltac zbool :=
  repeat match goal with
  | H : (_ <=? _) = true |- _ => apply Z.leb_le in H
  | H : (_ <=? _) = false |- _ => apply Z.leb_gt in H
  | H : (_ <? _) = true |- _ => apply Z.ltb_lt in H
  | H : (_ <? _) = false |- _ => apply Z.ltb_ge in H
  | H : (_ =? _) = true |- _ => apply Z.eqb_eq in H
  | H : (_ =? _) = false |- _ => apply Z.eqb_neq in H
  end.

Create HintDb muthur.
#[export] Hint Resolve clk_mono clk_gt0 wrap64_range : muthur.

(** ** Pointers

    A pointer to an immutable value: its address, which is what [==] compares,
    and the value it points to. *)
Record ref (A : Type) := Ref { addr : N; deref : A }.
Arguments Ref {A} addr deref.
Arguments addr {A} _.
Arguments deref {A} _.

#[export] Instance ref_dec {A} `{EqDecision A} : EqDecision (ref A).
Proof. solve_decision. Defined.

Definition ref_eqb {A} (p q : ref A) : bool := (addr p =? addr q)%N.

(** ** Strings *)

Arguments String.append !s1 s2 / : simpl nomatch.

Definition seqb (s t : string) : bool := bool_decide (s = t).

Lemma seqb_true s t : seqb s t = true ↔ s = t.
Proof. unfold seqb. by rewrite bool_decide_eq_true. Qed.

Lemma seqb_false s t : seqb s t = false ↔ s ≠ t.
Proof. unfold seqb. by rewrite bool_decide_eq_false. Qed.

Lemma seqb_refl s : seqb s s = true.
Proof. by apply seqb_true. Qed.

Ltac sbool :=
  repeat match goal with
  | H : seqb _ _ = true |- _ => apply seqb_true in H
  | H : seqb _ _ = false |- _ => apply seqb_false in H
  | H : negb _ = true |- _ => apply negb_true_iff in H
  | H : negb _ = false |- _ => apply negb_false_iff in H
  | H : _ && _ = true |- _ => apply andb_true_iff in H as [? ?]
  | H : _ || _ = false |- _ => apply orb_false_iff in H as [? ?]
  end.
