(* ===== verification/GoStrings.v ===== *)
(** * Go strings

    A Go [string] or [[]byte] is a sequence of bytes, here a [string] of 8-bit
    characters. This file models what the code uses of the packages [strings],
    [strconv], [encoding/hex] and [fmt]. *)
From S2P Require Import Prelude.
From Stdlib Require Import Ascii DecimalString DecimalZ DecimalN.

(** ** Bytes *)

Definition byte_of_Z (z : Z) : ascii := ascii_of_N (Z.to_N (z mod 256)).
Definition Z_of_byte (c : ascii) : Z := Z.of_N (N_of_ascii c).

Abbreviation chars := String.list_ascii_of_string (only parsing).
Abbreviation unchars := String.string_of_list_ascii (only parsing).

(** [len(s)]. *)
Definition len (s : string) : Z := Z.of_nat (String.length s).

(** ** Prefixes, suffixes, substrings *)

(** [strings.CutPrefix], [strings.HasPrefix], [strings.TrimPrefix]. *)
Fixpoint CutPrefix (s p : string) {struct p} : option string :=
  match p, s with
  | EmptyString, _ => Some s
  | String _ _, EmptyString => None
  | String a p', String b s' => if Ascii.eqb a b then CutPrefix s' p' else None
  end.

Definition HasPrefix (s p : string) : bool :=
  match CutPrefix s p with Some _ => true | None => false end.

Definition TrimPrefix (s p : string) : string :=
  match CutPrefix s p with Some r => r | None => s end.

Fixpoint rev_append_string (s acc : string) : string :=
  match s with
  | EmptyString => acc
  | String a s => rev_append_string s (String a acc)
  end.

Definition rev_string (s : string) : string := rev_append_string s EmptyString.

(** [strings.HasSuffix], [strings.TrimSuffix]. *)
Definition CutSuffix (s p : string) : option string :=
  rev_string <$> CutPrefix (rev_string s) (rev_string p).

Definition HasSuffix (s p : string) : bool :=
  match CutSuffix s p with Some _ => true | None => false end.

Definition TrimSuffix (s p : string) : string :=
  match CutSuffix s p with Some r => r | None => s end.

(** [strings.Contains]. *)
Fixpoint Contains (s p : string) : bool :=
  HasPrefix s p || match s with EmptyString => false | String _ s' => Contains s' p end.

(** [s[:n]] and [s[n:]] for [0 <= n <= len(s)]. *)
Definition take_bytes (n : nat) (s : string) : string := String.substring 0 n s.
Definition drop_bytes (n : nat) (s : string) : string := String.substring n (String.length s - n) s.

(** ** Trimming *)

Fixpoint TrimLeftFunc (f : ascii → bool) (s : string) : string :=
  match s with
  | EmptyString => EmptyString
  | String a s' => if f a then TrimLeftFunc f s' else s
  end.

Definition TrimRightFunc (f : ascii → bool) (s : string) : string :=
  rev_string (TrimLeftFunc f (rev_string s)).

Definition in_cutset (cutset : string) (a : ascii) : bool :=
  existsb (Ascii.eqb a) (chars cutset).

(** [strings.TrimRight(s, cutset)] and [strings.Trim(s, cutset)] for a cutset
    of ASCII characters. *)
Definition TrimRight (s cutset : string) : string := TrimRightFunc (in_cutset cutset) s.
Definition TrimLeft (s cutset : string) : string := TrimLeftFunc (in_cutset cutset) s.
Definition Trim (s cutset : string) : string := TrimRight (TrimLeft s cutset) cutset.

(** The UTF-8 encodings of the characters [unicode.IsSpace] accepts. *)
Definition space_encodings : list string :=
  let b := λ l, unchars (map byte_of_Z l) in
  (map (λ c, b [c]) [9; 10; 11; 12; 13; 32]) ++
  [b [0xC2; 0x85]; b [0xC2; 0xA0]; b [0xE1; 0x9A; 0x80];
   b [0xE2; 0x80; 0xA8]; b [0xE2; 0x80; 0xA9]; b [0xE2; 0x80; 0xAF];
   b [0xE2; 0x81; 0x9F]; b [0xE3; 0x80; 0x80]] ++
  map (λ c, b [0xE2; 0x80; c])
    [0x80; 0x81; 0x82; 0x83; 0x84; 0x85; 0x86; 0x87; 0x88; 0x89; 0x8A].

(** Strip one encoded space from the front, if there is one. *)
Fixpoint cut_one (encs : list string) (s : string) : option string :=
  match encs with
  | [] => None
  | e :: encs => match CutPrefix s e with Some r => Some r | None => cut_one encs s end
  end.

(** Every encoding is at least one byte long, so [String.length s] rounds
    exhaust the leading spaces. *)
Fixpoint cut_all (fuel : nat) (encs : list string) (s : string) : string :=
  match fuel with
  | O => s
  | S fuel => match cut_one encs s with Some r => cut_all fuel encs r | None => s end
  end.

(** [strings.TrimSpace]. *)
Definition TrimSpace (s : string) : string :=
  let l := cut_all (String.length s) space_encodings s in
  rev_string (cut_all (String.length l) (map rev_string space_encodings) (rev_string l)).

(** ** Case

    [strings.ToLower] on the ASCII letters and on the two runes outside ASCII
    whose lower case is an ASCII letter, the dotted capital I (U+0130) and the
    Kelvin sign (U+212A): the code compares the results only with ASCII words and
    hexadecimal digits, and the lower case of every other rune is outside ASCII.
    Other bytes are left as they are. *)
Definition lower_ascii (a : ascii) : ascii :=
  let n := N_of_ascii a in
  if ((65 <=? n) && (n <=? 90))%N then ascii_of_N (n + 32) else a.

Fixpoint map_string (f : ascii → ascii) (s : string) : string :=
  match s with
  | EmptyString => EmptyString
  | String a s => String (f a) (map_string f s)
  end.

Fixpoint ToLower (s : string) : string :=
  match s with
  | String "196" (String "176" s) => String "i" (ToLower s)
  | String "226" (String "132" (String "170" s)) => String "k" (ToLower s)
  | String a s => String (lower_ascii a) (ToLower s)
  | EmptyString => EmptyString
  end.

(** [strings.EqualFold] with an ASCII word that has neither a k nor an s, the
    letters that fold with runes outside ASCII: there it compares up to ASCII
    case. *)
Definition EqualFold (s t : string) : bool := seqb (map_string lower_ascii s) (map_string lower_ascii t).

Example ToLower_special : ToLower (String "196" (String "176" "NL")) = "inl" ∧ ToLower "SPI" = "spi".
Proof. done. Qed.

(** ** Splitting and joining *)

(** [strings.Cut(s, sep)] for a one-byte separator. *)
Fixpoint Cut (s : string) (sep : ascii) : option (string * string) :=
  match s with
  | EmptyString => None
  | String a s' =>
      if Ascii.eqb a sep then Some (EmptyString, s')
      else '(b, r) ← Cut s' sep; Some (String a b, r)
  end.

(** [strings.Split(s, sep)] for a one-byte separator. *)
Fixpoint Split (s : string) (sep : ascii) : list string :=
  match s with
  | EmptyString => [EmptyString]
  | String a s' =>
      if Ascii.eqb a sep then EmptyString :: Split s' sep
      else match Split s' sep with
           | [] => [String a EmptyString]
           | h :: t => String a h :: t
           end
  end.

(** [strings.Join]. *)
Fixpoint Join (l : list string) (sep : string) : string :=
  match l with
  | [] => EmptyString
  | [x] => x
  | x :: l => x +:+ sep +:+ Join l sep
  end.

(** ** Integers *)

(** [strconv.FormatInt(z, 10)], and [%d] in [fmt]. *)
Definition FormatInt (z : Z) : string := NilZero.string_of_int (Z.to_int z).

(** [strconv.ParseInt(s, 10, 64)]: an optional sign, decimal digits, and the
    int64 range. *)
Definition ParseInt (s : string) : option Z :=
  let '(neg, digits) :=
    match s with
    | String "-" r => (true, r)
    | String "+" r => (false, r)
    | _ => (false, s)
    end in
  d ← NilZero.uint_of_string digits;
  let z := Z.of_N (N.of_uint d) in
  let z := if neg : bool then - z else z in
  if in_int64b z then Some z else None.

(** ** Hexadecimal *)

Definition hex_digit (n : Z) : ascii :=
  if n <? 10 then byte_of_Z (48 + n) else byte_of_Z (87 + n).

(** [hex.EncodeToString], and [%x] in [fmt] on bytes. *)
Fixpoint hex_EncodeToString (s : string) : string :=
  match s with
  | EmptyString => EmptyString
  | String a s =>
      let z := Z_of_byte a in
      String (hex_digit (z / 16)) (String (hex_digit (z mod 16)) (hex_EncodeToString s))
  end.

Definition hex_value (a : ascii) : option Z :=
  let z := Z_of_byte a in
  if (48 <=? z) && (z <=? 57) then Some (z - 48)
  else if (97 <=? z) && (z <=? 102) then Some (z - 87)
  else if (65 <=? z) && (z <=? 70) then Some (z - 55)
  else None.

(** [hex.DecodeString]: [None] on an odd length or a byte that is no digit. *)
Fixpoint hex_DecodeString (s : string) : option string :=
  match s with
  | EmptyString => Some EmptyString
  | String a (String b s) =>
      hi ← hex_value a; lo ← hex_value b; r ← hex_DecodeString s;
      Some (String (byte_of_Z (16 * hi + lo)) r)
  | String _ EmptyString => None
  end.

(** ** Lemmas *)

Lemma append_assoc (s t u : string) : (s +:+ t) +:+ u = s +:+ (t +:+ u).
Proof. induction s; cbn; congruence. Qed.

Lemma append_nil_r (s : string) : s +:+ "" = s.
Proof. induction s; cbn; congruence. Qed.

Lemma length_append (s t : string) :
  String.length (s +:+ t) = (String.length s + String.length t)%nat.
Proof. induction s; cbn; congruence. Qed.

Lemma append_inv_l (s t u : string) : s +:+ t = s +:+ u → t = u.
Proof. apply String.app_inj. Qed.

Lemma append_inj (s1 t1 s2 t2 : string) :
  String.length s1 = String.length s2 →
  s1 +:+ t1 = s2 +:+ t2 → s1 = s2 ∧ t1 = t2.
Proof.
  revert s2. induction s1 as [|a s1 IH]; intros [|b s2]; cbn; try done.
  intros Hl [= -> H]. destruct (IH s2) as [-> ->]; auto.
Qed.

Lemma CutPrefix_Some s p r : CutPrefix s p = Some r ↔ s = p +:+ r.
Proof.
  revert s. induction p as [|a p IH]; intros s; simpl.
  { split; [by intros [= ->] | by intros ->]. }
  destruct s as [|b s]; [by split|].
  destruct (Ascii.eqb_spec a b) as [->|Hne]; [rewrite IH|]; split; congruence.
Qed.

Lemma HasPrefix_spec s p : HasPrefix s p = true ↔ ∃ r, s = p +:+ r.
Proof.
  unfold HasPrefix. destruct (CutPrefix s p) as [r|] eqn:E.
  - apply CutPrefix_Some in E. naive_solver.
  - split; [done|]. intros [r Hr]. apply CutPrefix_Some in Hr. congruence.
Qed.

Lemma HasPrefix_append p s : HasPrefix (p +:+ s) p = true.
Proof. apply HasPrefix_spec. eauto. Qed.

(** The byte [a] does not occur in [s]. *)
Fixpoint lacks (a : ascii) (s : string) : bool :=
  match s with
  | EmptyString => true
  | String b s => negb (Ascii.eqb b a) && lacks a s
  end.

Lemma lacks_append a s t : lacks a (s +:+ t) = lacks a s && lacks a t.
Proof. induction s; cbn; [done|]. by rewrite IHs, andb_assoc. Qed.

(** A field that lacks the separator is recovered from the joined string. *)
Lemma sep_inj a s1 t1 s2 t2 :
  lacks a s1 = true → lacks a s2 = true →
  s1 +:+ String a t1 = s2 +:+ String a t2 → s1 = s2 ∧ t1 = t2.
Proof.
  revert s2. induction s1 as [|b s1 IH]; intros [|c s2]; cbn; intros H1 H2 [=]; sbool; subst.
  - done.
  - destruct (Ascii.eqb_spec c c); congruence.
  - destruct (Ascii.eqb_spec a a); congruence.
  - destruct (IH s2) as [-> ->]; auto.
Qed.

Lemma to_int_nonnil z : Z.to_int z ≠ Decimal.Pos Decimal.Nil ∧ Z.to_int z ≠ Decimal.Neg Decimal.Nil.
Proof.
  destruct z as [|p|p]; simpl; [done| |];
    pose proof (DecimalPos.Unsigned.to_uint_nonnil p); split; congruence.
Qed.

Lemma FormatInt_inj x y : FormatInt x = FormatInt y → x = y.
Proof.
  unfold FormatInt. intros H.
  apply (f_equal NilZero.int_of_string) in H.
  rewrite !NilZero.isi in H by apply to_int_nonnil.
  injection H as H. by apply DecimalZ.to_int_inj.
Qed.

Lemma string_of_uint_first d :
  ∃ a s, NilZero.string_of_uint d = String a s ∧ a ≠ "-"%char ∧ a ≠ "+"%char.
Proof. destruct d; simpl; eauto. Qed.

(** Printing an int64 and parsing it back gives the same number. *)
Lemma ParseInt_FormatInt z : in_int64 z → ParseInt (FormatInt z) = Some z.
Proof.
  intros Hz. apply in_int64b_spec in Hz. unfold FormatInt, ParseInt.
  destruct z as [|p|p]; simpl; [done| |].
  - destruct (string_of_uint_first (Pos.to_uint p)) as (a & s & Hs & H1 & H2).
    assert (NilZero.uint_of_string (String a s) = Some (Pos.to_uint p)) as E.
    { rewrite <- Hs. apply NilZero.usu, DecimalPos.Unsigned.to_uint_nonnil. }
    rewrite Hs. destruct a as [[] [] [] [] [] [] [] []]; try done;
      rewrite E; simpl; unfold N.of_uint; rewrite DecimalPos.Unsigned.of_to;
      simpl; by rewrite Hz.
  - rewrite NilZero.usu by apply DecimalPos.Unsigned.to_uint_nonnil.
    simpl. unfold N.of_uint. rewrite DecimalPos.Unsigned.of_to.
    simpl. change (- Z.pos p) with (Z.neg p). by rewrite Hz.
Qed.

Lemma Z_of_byte_range a : 0 <= Z_of_byte a < 256.
Proof. destruct a as [[] [] [] [] [] [] [] []]; by vm_compute. Qed.

Lemma byte_of_Z_of_byte a : byte_of_Z (Z_of_byte a) = a.
Proof. by destruct a as [[] [] [] [] [] [] [] []]. Qed.

Lemma hex_value_digit n : 0 <= n < 16 → hex_value (hex_digit n) = Some n.
Proof.
  intros H. assert (n ∈ seqZ 0 16) as Hn by (apply elem_of_seqZ; lia).
  clear H. revert n Hn. apply Forall_forall. by repeat constructor.
Qed.

(** Encoding bytes in hexadecimal and decoding gives them back. *)
Lemma hex_decode_encode s : hex_DecodeString (hex_EncodeToString s) = Some s.
Proof.
  induction s as [|a s IH]; [done|]. simpl.
  pose proof (Z_of_byte_range a) as Ha.
  rewrite !hex_value_digit by (split; [Z.div_mod_to_equations; lia|Z.div_mod_to_equations; lia]).
  simpl. rewrite IH. simpl. f_equal. f_equal.
  rewrite <- (byte_of_Z_of_byte a) at 3. f_equal.
  pose proof (Z.div_mod (Z_of_byte a) 16). lia.
Qed.

Lemma hex_encode_inj s t : hex_EncodeToString s = hex_EncodeToString t → s = t.
Proof.
  intros H. apply (f_equal hex_DecodeString) in H.
  rewrite !hex_decode_encode in H. congruence.
Qed.

Lemma length_hex_encode s : String.length (hex_EncodeToString s) = (2 * String.length s)%nat.
Proof. induction s; simpl; lia. Qed.

(** A decodable string holds no byte that is not a hexadecimal digit. *)
Fixpoint hex_decode_lacks a s {struct s} : ∀ v,
  hex_value a = None → hex_DecodeString s = Some v → lacks a s = true.
Proof.
  destruct s as [|b [|c s]]; simpl; [done|done|]. intros v Ha Hv.
  destruct (hex_value b) eqn:Eb; [|done]. destruct (hex_value c) eqn:Ec; [|done].
  simpl in Hv. destruct (hex_DecodeString s) eqn:Es; [|done].
  rewrite (hex_decode_lacks a s _ Ha Es).
  destruct (Ascii.eqb_spec b a), (Ascii.eqb_spec c a); simpl; congruence.
Qed.

Lemma rev_append_spec s acc : rev_append_string s acc = rev_string s +:+ acc.
Proof.
  unfold rev_string. revert acc. induction s as [|a s IH]; intros acc; [done|]. simpl.
  rewrite IH, (IH (String a "")), append_assoc. done.
Qed.

Lemma rev_string_append s t : rev_string (s +:+ t) = rev_string t +:+ rev_string s.
Proof.
  induction s as [|a s IH]; [symmetry; apply append_nil_r|].
  change (rev_append_string (s +:+ t) (String a "") = rev_string t +:+ rev_append_string s (String a "")).
  by rewrite !rev_append_spec, IH, append_assoc.
Qed.

Lemma rev_string_involutive s : rev_string (rev_string s) = s.
Proof.
  induction s as [|a s IH]; [done|].
  change (String a s) with (String a "" +:+ s). rewrite rev_string_append, rev_string_append, IH. done.
Qed.

Lemma TrimSuffix_append s p : TrimSuffix (s +:+ p) p = s.
Proof.
  unfold TrimSuffix, CutSuffix. rewrite rev_string_append.
  assert (CutPrefix (rev_string p +:+ rev_string s) (rev_string p) = Some (rev_string s)) as ->
    by (by apply CutPrefix_Some).
  apply rev_string_involutive.
Qed.

Lemma lacks_rev a s : lacks a (rev_string s) = lacks a s.
Proof.
  induction s as [|b s IH]; [done|].
  change (String b s) with (String b "" +:+ s).
  rewrite rev_string_append, !lacks_append, IH. apply andb_comm.
Qed.

(** Trimming stops at the first byte outside the cutset. *)
Lemma TrimLeftFunc_stop f a s : f a = false → TrimLeftFunc f (String a s) = String a s.
Proof. intros H. simpl. by rewrite H. Qed.

Lemma Split_lacks s a : lacks a s = true → Split s a = [s].
Proof.
  induction s as [|b s IH]; simpl; [done|]. intros [Hb Hs]%andb_true_iff.
  apply negb_true_iff in Hb. rewrite Hb. by rewrite (IH Hs).
Qed.

Lemma Split_sep s a t : lacks a s = true → Split (s +:+ String a t) a = s :: Split t a.
Proof.
  induction s as [|b s IH]; simpl.
  - by rewrite Ascii.eqb_refl.
  - intros [Hb Hs]%andb_true_iff. apply negb_true_iff in Hb. rewrite Hb. by rewrite (IH Hs).
Qed.

(** A nonempty string without the byte [a] keeps its ends when [a] is trimmed. *)
Lemma Trim_between a s t :
  s ≠ "" → t ≠ "" → lacks a s = true → lacks a t = true →
  Trim (String a (s +:+ String a t)) (String a "") = s +:+ String a t.
Proof.
  intros Hs Ht Ls Lt. unfold Trim, TrimRight, TrimRightFunc, TrimLeft.
  assert (∀ b, negb (Ascii.eqb b a) = true → in_cutset (String a "") b = false) as Hc.
  { intros b Hb. unfold in_cutset. simpl. apply negb_true_iff in Hb. by rewrite Hb. }
  destruct s as [|b s]; [done|]. simpl in Ls. apply andb_true_iff in Ls as [Lb Ls].
  assert (in_cutset (String a "") a = true) as Ha.
  { unfold in_cutset. simpl. by rewrite Ascii.eqb_refl. }
  cbn [TrimLeftFunc]. rewrite Ha.
  change (String b s +:+ String a t) with (String b (s +:+ String a t)).
  rewrite TrimLeftFunc_stop by (by apply Hc).
  rewrite <- (rev_string_involutive (String b (s +:+ String a t))) at 2. f_equal.
  change (String b (s +:+ String a t)) with (String b s +:+ (String a "" +:+ t)).
  rewrite !rev_string_append. rewrite <- lacks_rev in Lt.
  assert (rev_string t ≠ "") as Hr.
  { intros E. apply Ht. by rewrite <- (rev_string_involutive t), E. }
  destruct (rev_string t) as [|d u]; [done|]. simpl in Lt. apply andb_true_iff in Lt as [Ld _].
  change (((String d u) +:+ rev_string (String a "")) +:+ rev_string (String b s)) with
    (String d ((u +:+ rev_string (String a "")) +:+ rev_string (String b s))).
  apply TrimLeftFunc_stop. by apply Hc.
Qed.
