(* ===== verification/GoTime.v ===== *)
(** * Durations and dates as text

    [time.ParseDuration] and the RFC 3339 rendering of a UTC time, as the
    standard library computes them. *)
From S2P Require Import Prelude GoStrings.
From Stdlib Require Import Ascii SpecFloat.

(** ** float64

    IEEE 754 binary64 with the executable operations of [SpecFloat]. *)
Definition f64_add := SFadd 53 1024.
Definition f64_sub := SFsub 53 1024.
Definition f64_mul := SFmul 53 1024.
Definition f64_div := SFdiv 53 1024.
Definition f64_of_Z (z : Z) : spec_float := binary_normalize 53 1024 z 0 false.

(** Truncation toward zero of a finite value. *)
Definition f64_trunc (f : spec_float) : Z :=
  match f with
  | S754_finite s m e =>
      let a := if e <? 0 then Z.shiftr (Zpos m) (- e) else Z.shiftl (Zpos m) e in
      if s then - a else a
  | _ => 0
  end.

(** ** [time.ParseDuration] *)

Definition is_digit (a : ascii) : bool := (48 <=? Z_of_byte a) && (Z_of_byte a <=? 57).

(** [leadingInt]: the value, or an overflow of 2^63, and the rest. *)
Fixpoint leadingInt (s : string) (x : Z) : option (Z * string) :=
  match s with
  | String c s' =>
      if is_digit c then
        if 2 ^ 63 / 10 <? x then None
        else
          let x := x * 10 + (Z_of_byte c - 48) in
          if 2 ^ 63 <? x then None else leadingInt s' x
      else Some (x, s)
  | EmptyString => Some (x, s)
  end.

(** [leadingFraction]: value, scale (a power of ten) and the rest; digits past
    an overflow are dropped. *)
Fixpoint leadingFraction (s : string) (x : Z) (scale : spec_float) (overflow : bool)
    : Z * spec_float * string :=
  match s with
  | String c s' =>
      if is_digit c then
        if overflow then leadingFraction s' x scale true
        else if (2 ^ 63 - 1) / 10 <? x then leadingFraction s' x scale true
        else
          let y := x * 10 + (Z_of_byte c - 48) in
          if 2 ^ 63 <? y then leadingFraction s' x scale true
          else leadingFraction s' y (f64_mul scale (f64_of_Z 10)) false
      else (x, scale, s)
  | EmptyString => (x, scale, s)
  end.

(** The unit name: everything up to a digit or a point. *)
Fixpoint leadingUnit (s : string) : string * string :=
  match s with
  | String c s' =>
      if Ascii.eqb c "." || is_digit c then ("", s)
      else let '(u, r) := leadingUnit s' in (String c u, r)
  | EmptyString => ("", "")
  end.

Definition unitMap (u : string) : option Z :=
  if seqb u "ns" then Some Nanosecond
  else if seqb u "us" || seqb u "µs" || seqb u "μs" then Some 1000
  else if seqb u "ms" then Some (10 ^ 6)
  else if seqb u "s" then Some Second
  else if seqb u "m" then Some Minute
  else if seqb u "h" then Some Hour
  else None.

(** The loop over number-unit pairs; every round consumes at least two bytes,
    so [String.length s] rounds are enough. *)
Fixpoint parse_units (fuel : nat) (s : string) (d : Z) : option Z :=
  match fuel with
  | O => None
  | S fuel =>
    match s with
    | EmptyString => Some d
    | String c _ =>
      if negb (Ascii.eqb c "." || is_digit c) then None else
      '(v, s1) ← leadingInt s 0;
      let pre := negb (String.length s =? String.length s1)%nat in
      let '(f, scale, s2, post) :=
        match s1 with
        | String "." r =>
            let '(f, scale, s2) := leadingFraction r 0 (f64_of_Z 1) false in
            (f, scale, s2, negb (String.length r =? String.length s2)%nat)
        | _ => (0, f64_of_Z 1, s1, false)
        end in
      if negb pre && negb post then None else
      let '(u, s3) := leadingUnit s2 in
      if seqb u "" then None else
      unit ← unitMap u;
      if 2 ^ 63 / unit <? v then None else
      let v := v * unit in
      let v := if 0 <? f
               then v + f64_trunc (f64_mul (f64_of_Z f) (f64_div (f64_of_Z unit) scale))
               else v in
      if 2 ^ 63 <? v then None else
      let d := d + v in
      if 2 ^ 63 <? d then None else parse_units fuel s3 d
    end
  end.

Definition ParseDuration (s : string) : option Duration :=
  let '(neg, s) :=
    match s with
    | String "-" r => (true, r)
    | String "+" r => (false, r)
    | _ => (false, s)
    end in
  if seqb s "0" then Some 0
  else if seqb s "" then None
  else
    d ← parse_units (S (String.length s)) s 0;
    if neg : bool then Some (- d)
    else if 2 ^ 63 - 1 <? d then None else Some d.

Example parse_720h : ParseDuration "720h" = Some (720 * Hour).
Proof. vm_compute. reflexivity. Qed.
Example parse_mixed : ParseDuration "-1h15m30.918s" = Some (- (Hour + 15 * Minute + 30918000000)).
Proof. vm_compute. reflexivity. Qed.
Example parse_days : ParseDuration "30d" = None.
Proof. vm_compute. reflexivity. Qed.

(** ** [t.UTC().Format(time.RFC3339)] *)

(** Civil date of a day number counted from 0000-03-01, Gregorian. *)
Definition civil_of_days (z : Z) : Z * Z * Z :=
  let era := z / 146097 in
  let doe := z mod 146097 in
  let yoe := (doe - doe / 1460 + doe / 36524 - doe / 146096) / 365 in
  let doy := doe - (365 * yoe + yoe / 4 - yoe / 100) in
  let mp := (5 * doy + 2) / 153 in
  let d := doy - (153 * mp + 2) / 5 + 1 in
  let m := if mp <? 10 then mp + 3 else mp - 9 in
  (yoe + era * 400 + (if m <=? 2 then 1 else 0), m, d).

(** Decimal with at least [w] digits, zero padded. *)
Definition pad_int (w : nat) (z : Z) : string :=
  let s := FormatInt (Z.abs z) in
  (if z <? 0 then "-" else "") +:+
  String.string_of_list_ascii (replicate (w - String.length s) "0"%char) +:+ s.

(** The time is in nanoseconds from 0001-01-01; day 0 is 306 days after
    0000-03-01. *)
Definition FormatRFC3339 (t : Time) : string :=
  let secs := t / Second in
  let days := secs / 86400 in
  let rem := secs mod 86400 in
  let '(y, m, d) := civil_of_days (days + 306) in
  pad_int 4 y +:+ "-" +:+ pad_int 2 m +:+ "-" +:+ pad_int 2 d +:+ "T" +:+
  pad_int 2 (rem / 3600) +:+ ":" +:+ pad_int 2 (rem mod 3600 / 60) +:+ ":" +:+
  pad_int 2 (rem mod 60) +:+ "Z".

Example format_epoch : FormatRFC3339 (time_Unix 0) = "1970-01-01T00:00:00Z".
Proof. vm_compute. reflexivity. Qed.
Example format_leap : FormatRFC3339 (time_Unix 951782399) = "2000-02-28T23:59:59Z".
Proof. vm_compute. reflexivity. Qed.
Example format_2038 : FormatRFC3339 (time_Unix 2147483647) = "2038-01-19T03:14:07Z".
Proof. vm_compute. reflexivity. Qed.
