(* ===== verification/Sha256.v ===== *)
(** * SHA-256

    [crypto/sha256.Sum256] (FIPS 180-4), executable, on byte strings. The code
    uses it for every store key, so the keys of the model are the real ones. *)
From S2P Require Import Prelude GoStrings.

Definition w32 (z : Z) : Z := Z.land z (Z.ones 32).
Definition rotr (n x : Z) : Z := Z.lor (Z.shiftr x n) (w32 (Z.shiftl x (32 - n))).

Definition Ch (x y z : Z) : Z := Z.lxor (Z.land x y) (Z.land (Z.lxor x (Z.ones 32)) z).
Definition Maj (x y z : Z) : Z := Z.lxor (Z.land x y) (Z.lxor (Z.land x z) (Z.land y z)).
Definition bsig0 (x : Z) : Z := Z.lxor (rotr 2 x) (Z.lxor (rotr 13 x) (rotr 22 x)).
Definition bsig1 (x : Z) : Z := Z.lxor (rotr 6 x) (Z.lxor (rotr 11 x) (rotr 25 x)).
Definition ssig0 (x : Z) : Z := Z.lxor (rotr 7 x) (Z.lxor (rotr 18 x) (Z.shiftr x 3)).
Definition ssig1 (x : Z) : Z := Z.lxor (rotr 17 x) (Z.lxor (rotr 19 x) (Z.shiftr x 10)).

(** The constants: 32 bits of the fractional parts of the cube roots of the
    first 64 primes and of the square roots of the first eight. *)
Definition prime (n : nat) : bool :=
  forallb (λ d, negb (n mod d =? 0)%nat) (seq 2 (n - 2)).

Definition primes : list Z := map Z.of_nat (List.filter prime (seq 2 310)).

(** The largest [r + k] with [k < 2 ^ bits] whose cube is at most [n]. *)
Fixpoint cube_root (bits : nat) (n r : Z) : Z :=
  match bits with
  | O => r
  | S b => let c := r + 2 ^ Z.of_nat b in cube_root b n (if c * c * c <=? n then c else r)
  end.

Definition round_constants : list Z :=
  Eval vm_compute in map (λ p, w32 (cube_root 36 (p * 2 ^ 96) 0)) primes.

Record regs := Regs { ra : Z; rb : Z; rc : Z; rd : Z; re : Z; rf : Z; rg : Z; rh : Z }.

Definition initial_words : list Z :=
  Eval vm_compute in map (λ p, w32 (Z.sqrt (p * 2 ^ 64))) (take 8 primes).

Definition iv : regs :=
  Eval vm_compute in
    let h i := nth i initial_words 0 in 
    Regs (h 0%nat) (h 1%nat) (h 2%nat) (h 3%nat) (h 4%nat) (h 5%nat) (h 6%nat) (h 7%nat).

Definition sha_round (r : regs) (k w : Z) : regs :=
  let t1 := rh r + bsig1 (re r) + Ch (re r) (rf r) (rg r) + k + w in
  let t2 := bsig0 (ra r) + Maj (ra r) (rb r) (rc r) in
  Regs (w32 (t1 + t2)) (ra r) (rb r) (rc r) (w32 (rd r + t1)) (re r) (rf r) (rg r).

(** The message schedule, most recent word first. *)
Fixpoint extend (n : nat) (ws : list Z) : list Z :=
  match n with
  | O => ws
  | S n =>
      let at_ i := nth i ws 0 in
      extend n (w32 (ssig1 (at_ 1%nat) + at_ 6%nat + ssig0 (at_ 14%nat) + at_ 15%nat) :: ws)
  end.

Fixpoint rounds (r : regs) (ks ws : list Z) : regs :=
  match ks, ws with
  | k :: ks, w :: ws => rounds (sha_round r k w) ks ws
  | _, _ => r
  end.

Definition compress (h : regs) (block : list Z) : regs :=
  let r := rounds h round_constants (rev (extend 48 (rev block))) in
  Regs (w32 (ra h + ra r)) (w32 (rb h + rb r)) (w32 (rc h + rc r)) (w32 (rd h + rd r))
       (w32 (re h + re r)) (w32 (rf h + rf r)) (w32 (rg h + rg r)) (w32 (rh h + rh r)).

Fixpoint words (bs : list Z) : list Z :=
  match bs with
  | a :: b :: c :: d :: bs =>
      (Z.shiftl a 24 + Z.shiftl b 16 + Z.shiftl c 8 + d) :: words bs
  | _ => []
  end.

(** Process 16 words at a time; [n] bounds the number of blocks. *)
Fixpoint blocks (n : nat) (h : regs) (ws : list Z) : regs :=
  match n with
  | O => h
  | S n => match ws with
           | [] => h
           | _ => blocks n (compress h (take 16 ws)) (drop 16 ws)
           end
  end.

Definition be_bytes (n : nat) (z : Z) : list Z :=
  rev (map (λ i, Z.land (Z.shiftr z (8 * Z.of_nat i)) 255) (seq 0 n)).

(** The padding: a one bit, zeros to 56 modulo 64, the bit length in 8 bytes. *)
Definition pad (bs : list Z) : list Z :=
  let n := Z.of_nat (length bs) in
  bs ++ [128] ++ replicate (Z.to_nat ((55 - n) mod 64)) 0 ++ be_bytes 8 (8 * n).

Definition sha256_words (bs : list Z) : regs :=
  let ws := words (pad bs) in
  blocks (S (length ws / 16)) iv ws.

(** [sha256.Sum256]: 32 bytes. *)
Definition Sum256 (s : string) : string :=
  let r := sha256_words (map Z_of_byte (String.list_ascii_of_string s)) in
  String.string_of_list_ascii (map byte_of_Z (concat (map (be_bytes 4)
    [ra r; rb r; rc r; rd r; re r; rf r; rg r; rh r]))).

(** [fmt.Sprintf("%x", sha256.Sum256(s))]. *)
Definition sha256_hex (s : string) : string := hex_EncodeToString (Sum256 s).

Lemma length_unchars (l : list Ascii.ascii) :
  String.length (String.string_of_list_ascii l) = length l.
Proof. induction l; simpl; congruence. Qed.

Lemma Sum256_length s : String.length (Sum256 s) = 32%nat.
Proof. unfold Sum256. by rewrite length_unchars, length_map. Qed.

Lemma sha256_hex_length s : String.length (sha256_hex s) = 64%nat.
Proof. unfold sha256_hex. by rewrite length_hex_encode, Sum256_length. Qed.

Lemma sha256_hex_decodes s : ∃ v, hex_DecodeString (sha256_hex s) = Some v.
Proof. eexists. apply hex_decode_encode. Qed.

(** The two published test vectors of one and two blocks. *)
Example sha256_abc :
  sha256_hex "abc" = "ba7816bf8f01cfea414140de5dae2223b00361a396177a9cb410ff61f20015ad".
Proof. vm_compute. reflexivity. Qed.

Example sha256_two_blocks :
  sha256_hex "abcdbcdecdefdefgefghfghighijhijkijkljklmklmnlmnomnopnopq"
  = "248d6a61d20638b8e5c026930c3e6039a33ce45964ff2167f6ecedd419db06c1".
Proof. vm_compute. reflexivity. Qed.

(** Proofs never look inside the digest; [vm_compute] still evaluates it. *)
#[global] Opaque Sum256.
