(* ===== verification/Proto.v ===== *)
(** * Wire messages

    The messages of [proto/alert.proto] as the code sees them. Strings are byte
    strings, [int64]/[int32] fields are integers, [double] fields are left
    abstract ([float64] below), repeated fields are lists and the optional
    sub-message [target] is an option. *)
From S2P Require Import Prelude.
From Stdlib Require Import SpecFloat.

(** A [float64], as its IEEE 754 value. *)
Abbreviation float64 := spec_float (only parsing).

Record AlertTarget := MkAlertTarget {
  TargetType : string;
  Target_PodName : string;
  Deployment : string;
  Daemonset : string;
  Node : string;
  Pvc : string;
  Target_Namespace : string;
  ResolvedPods : list string;
}.

Record DataPoint := MkDataPoint { Timestamp : Z; Value : float64 }.

Record MetricSeries := MkMetricSeries {
  MetricName : string;
  Series_Description : string;
  Unit : string;
  Points : list DataPoint;
}.

Record PodMeta := MkPodMeta {
  Meta_PodName : string;
  MemoryLimit : string;
  MemoryRequest : string;
  CpuLimit : string;
  CpuRequest : string;
  NodeName : string;
  RestartCount : Z;
  Phase : string;
}.

Record Label := MkLabel { Label_Name : string; Label_Value : string }.

Record KubernetesEvent := MkKubernetesEvent {
  Event_Type : string;
  Reason : string;
  Event_Message : string;
  FirstTimestamp : Z;
  LastTimestamp : Z;
  Count : Z;
  InvolvedObjectName : string;
}.

Record AlertPayload := MkAlertPayload {
  ClusterId : string;
  AlertName : string;
  Severity : string;
  Namespace : string;
  PodName : string;
  FiredAt : Z;
  Summary : string;
  Description : string;
  Target : option AlertTarget;
  RedactedLogs : list string;
  Metrics : list MetricSeries;
  PodMetas : list PodMeta;
  Labels : list Label;
  TotalLogLines : Z;
  RedactedLogLines : Z;
  TotalReplacements : Z;
  Status : string;
  GrafanaBaseUrl : string;
  Events : list KubernetesEvent;
}.

#[export] Instance float64_dec : EqDecision float64.
Proof. solve_decision. Defined.
#[export] Instance AlertTarget_dec : EqDecision AlertTarget.
Proof. solve_decision. Defined.
#[export] Instance DataPoint_dec : EqDecision DataPoint.
Proof. solve_decision. Defined.
#[export] Instance MetricSeries_dec : EqDecision MetricSeries.
Proof. solve_decision. Defined.
#[export] Instance PodMeta_dec : EqDecision PodMeta.
Proof. solve_decision. Defined.
#[export] Instance Label_dec : EqDecision Label.
Proof. solve_decision. Defined.
#[export] Instance KubernetesEvent_dec : EqDecision KubernetesEvent.
Proof. solve_decision. Defined.
#[export] Instance AlertPayload_dec : EqDecision AlertPayload.
Proof. solve_decision. Defined.

(** The identity-bearing fields, everything else at its zero value: a
    convenient base for concrete payloads. *)
Definition mk_alert (cluster alert severity namespace pod status : string) (fired : Z)
    (target : option AlertTarget) : AlertPayload :=
  MkAlertPayload cluster alert severity namespace pod fired "" "" target
    [] [] [] [] 0 0 0 status "" [].
