(* ===== verification/Store.v ===== *)
(** * The key/value store

    [internal/store]: the [Store] interface as a class, the contract its
    clients rely on ([StoreSpec]), the in-memory implementation with its
    janitor, which satisfies the contract, and the Redis adapter over an
    abstract client. *)
From S2P Require Import Prelude GoStrings.
From Stdlib Require Import Ascii Btauto.

(** ** The interface *)

(** Errors of the backend carry a message. [Get] answers [Ok None] when Go
    returns [ok = false] with a nil error. *)
Class Store (S : Type) := {
  store_Get : string → M S (result string (option string));
  store_Set : string → string → Duration → M S (result string unit);
  store_SetNX : string → string → Duration → M S (result string bool);
  store_Delete : string → M S (result string unit);
  store_ListByPrefix : string → M S (result string (list string));
  store_Kind : string;
}.

(** Times-to-live are cut to milliseconds by backends that count in them. *)
Definition ms : Duration := 1000000.

Definition whole (ttl : Duration) : Duration := ttl - ttl mod ms.

(** A value written at [te] with time-to-live [ttl] is visible until then, at
    least: for ever, if [ttl] is not positive. *)
Definition expires (te : Time) (ttl : Duration) : option Time :=
  if ttl <=? 0 then None else Some (te + whole ttl).

(** When it stops being visible: up to the granularity, [ttl] later. *)
Definition lifetime (te : Time) (ttl : Duration) (e : option Time) : Prop :=
  if ttl <=? 0 then e = None
  else ∃ x, e = Some x ∧ te + whole ttl <= x < te + ttl + 2 * ms.

(** To the Redis client this time-to-live means: keep the one the key has. *)
Definition KeepTTL : Duration := -1.

Definition before (t : Time) (e : option Time) : bool :=
  match e with None => true | Some e => t <=? e end.

(** What a write leaves under its key if it is visible until [e]. *)
Definition written (e : option Time) (v : string) (t : Time) : option string :=
  if before t e then Some v else None.

Lemma whole_le ttl : whole ttl <= ttl.
Proof. unfold whole. pose proof (Z.mod_pos_bound ttl ms). unfold ms in *. lia. Qed.

Lemma whole_exact ttl : ttl mod ms = 0 → whole ttl = ttl.
Proof. unfold whole. lia. Qed.

Lemma whole_ge x ttl : x mod ms = 0 → x <= ttl → x <= whole ttl.
Proof.
  intros Hx Hl. unfold whole. pose proof (Z.div_mod x ms). pose proof (Z.div_mod ttl ms).
  pose proof (Z.div_le_mono x ttl ms). unfold ms in *. lia.
Qed.

Lemma whole_gt ttl : ttl - ms < whole ttl.
Proof. unfold whole. pose proof (Z.mod_pos_bound ttl ms). unfold ms in *. lia. Qed.

Lemma lifetime_exact te ttl : lifetime te ttl (if ttl <=? 0 then None else Some (te + ttl)).
Proof.
  unfold lifetime. destruct (ttl <=? 0); [done|]. exists (te + ttl). split; [done|].
  pose proof (whole_le ttl). unfold ms. lia.
Qed.

Lemma lifetime_before te ttl e t : lifetime te ttl e → before t (expires te ttl) = true → before t e = true.
Proof. unfold lifetime, expires. destruct (ttl <=? 0); [by intros ->|]. intros (x & -> & ?). simpl. lia. Qed.

Lemma before_mono t t' e : t <= t' → before t' e = true → before t e = true.
Proof. destruct e; simpl; lia. Qed.

(** A prefix without the special characters of Redis patterns; the adapter
    does not escape them. *)
Definition glob_free (s : string) : bool :=
  lacks "*" s && lacks "?" s && lacks "[" s && lacks "\" s.

Lemma glob_free_append s t : glob_free (s +:+ t) = glob_free s && glob_free t.
Proof. unfold glob_free. rewrite !lacks_append. btauto. Qed.

(** ** The contract

    [sview s t k] is the value a reader of state [s] sees under [k] at time
    [t]. A call that fails may or may not have taken effect. *)
Section contract.
Context `{!Clock} {S : Type} (sview : S → Time → string → option string).

Definition same_at (k : string) (s s' : S) : Prop := ∀ t, sview s' t k = sview s t k.

Definition same_but (k : string) (s s' : S) : Prop := ∀ k', k' ≠ k → same_at k' s s'.

Definition set_effect k v ttl (n n' : nat) (s' : S) : Prop :=
  ∃ te e, clk n <= te <= clk n' ∧ (ttl ≠ KeepTTL → lifetime te ttl e) ∧ ∀ t, sview s' t k = written e v t.

(** [SetNX] tests and writes atomically: the test at [tc], the expiry of the
    new value counted from [te]. *)
Definition setnx_effect k v ttl (b : bool) (n n' : nat) (s s' : S) : Prop :=
  ∃ tc te e, clk n <= tc <= te ∧ te <= clk n' ∧ lifetime te ttl e ∧
    b = bool_decide (sview s tc k = None) ∧
    ∀ t, sview s' t k = if b then written e v t else sview s t k.
End contract.

(** A listing may be several commands to a store that other processes share:
    [meddled s s' k] says that they wrote [k] while the call went from [s] to [s'].
    Their writes to keys the listing does not read commute with it, and count as
    steps before or after. What is listed was visible, but not all of it at one
    time. *)
Class StoreSpec (S : Type) `{!Clock, !Store S} := {
  sview : S → Time → string → option string;
  meddled : S → S → string → Prop;
  Get_spec k n s r n' s' :
    store_Get k (n, s) = (r, (n', s')) →
    (n ≤ n')%nat ∧ (∀ k', same_at sview k' s s') ∧
    (∀ o, r = Ok o → ∃ t, clk n <= t <= clk n' ∧ o = sview s t k);
  Set_spec k v ttl n s r n' s' :
    store_Set k v ttl (n, s) = (r, (n', s')) →
    (n ≤ n')%nat ∧ same_but sview k s s' ∧
    (set_effect sview k v ttl n n' s' ∨ (is_Ok r = false ∧ same_at sview k s s'));
  SetNX_spec k v ttl n s r n' s' :
    store_SetNX k v ttl (n, s) = (r, (n', s')) →
    (n ≤ n')%nat ∧ same_but sview k s s' ∧
    match r with
    | Ok b => setnx_effect sview k v ttl b n n' s s'
    | Err _ => same_at sview k s s' ∨ setnx_effect sview k v ttl true n n' s s'
    end;
  Delete_spec k n s r n' s' :
    store_Delete k (n, s) = (r, (n', s')) →
    (n ≤ n')%nat ∧ same_but sview k s s' ∧
    ((∀ t, sview s' t k = None) ∨ (is_Ok r = false ∧ same_at sview k s s'));
  ListByPrefix_spec p n s r n' s' :
    store_ListByPrefix p (n, s) = (r, (n', s')) →
    (n ≤ n')%nat ∧ (∀ k, ¬ meddled s s' k → same_at sview k s s') ∧
    (glob_free p = true →
      (∀ k, meddled s s' k → HasPrefix k p = true) ∧
      (∀ vs, r = Ok vs →
        (∀ v, v ∈ vs → ∃ k t, HasPrefix k p = true ∧ clk n <= t <= clk n' ∧ sview s' t k = Some v) ∧
        (∀ k v, HasPrefix k p = true → ¬ meddled s s' k → sview s (clk n') k = Some v → v ∈ vs)));
}.

(** ** Evolution

    What other requests and background work may do to the store between two
    calls of a client, except overwriting or deleting the key [k]. *)
Section evolution.
Context `{HC : !Clock} {S : Type} `{HS : !Store S, HSp : !StoreSpec S}.

Inductive evolves (k : string) : nat * S → nat * S → Prop :=
| ev_time n n' s : (n ≤ n')%nat → evolves k (n, s) (n', s)
| ev_background n n' s s' :
    (n ≤ n')%nat → (∀ t k', clk n <= t → sview s' t k' = sview s t k') →
    evolves k (n, s) (n', s')
| ev_get k' c c' r : store_Get k' c = (r, c') → evolves k c c'
| ev_list p c c' r : ¬ meddled c.2 c'.2 k → store_ListByPrefix p c = (r, c') → evolves k c c'
| ev_set k' v ttl c c' r : k' ≠ k → store_Set k' v ttl c = (r, c') → evolves k c c'
| ev_setnx k' v ttl c c' r : store_SetNX k' v ttl c = (r, c') → evolves k c c'
| ev_delete k' c c' r : k' ≠ k → store_Delete k' c = (r, c') → evolves k c c'.

(** From now on and up to [e], readers see [v] under [k]. *)
Definition holds_until (k v : string) (e : option Time) (c : nat * S) : Prop :=
  ∀ t, clk c.1 <= t → before t e = true → sview c.2 t k = Some v.

Lemma evolves_time k c c' : evolves k c c' → (c.1 ≤ c'.1)%nat.
Proof.
  destruct 1 as [ | | k' [n s] [n' s'] r H | p [n s] [n' s'] r _ H
    | k' v ttl [n s] [n' s'] r _ H | k' v ttl [n s] [n' s'] r H | k' [n s] [n' s'] r _ H ];
    try done; simpl.
  - by apply Get_spec in H as [? _].
  - by apply ListByPrefix_spec in H as [? _].
  - by apply Set_spec in H as [? _].
  - by apply SetNX_spec in H as [? _].
  - by apply Delete_spec in H as [? _].
Qed.

Lemma evolves_star_time k c c' : rtc (evolves k) c c' → (c.1 ≤ c'.1)%nat.
Proof.
  induction 1 as [|x y z Hxy _ IH]; [done|].
  apply evolves_time in Hxy. lia.
Qed.

Lemma holds_until_same k v e n n' s s' :
  (n ≤ n')%nat → (∀ t, clk n <= t → sview s' t k = sview s t k) →
  holds_until k v e (n, s) → holds_until k v e (n', s').
Proof.
  intros Hn Hs H t Ht He. simpl in *.
  pose proof (clk_mono n n' Hn). rewrite Hs by lia. apply H; [simpl; lia|done].
Qed.

(** While [v] is held, a [SetNX] of the same key finds it taken. *)
Lemma setnx_effect_held k v e v' ttl n n' s s' :
  (n ≤ n')%nat →
  setnx_effect sview k v' ttl true n n' s s' →
  holds_until k v e (n, s) → holds_until k v e (n', s').
Proof.
  intros Hn (tc & te & e' & Htc & Hte & _ & Hb & _) H t Ht He.
  symmetry in Hb. apply bool_decide_eq_true in Hb. simpl in *.
  assert (sview s tc k = Some v) as E; [|congruence].
  apply (H tc); [simpl; lia|]. eapply before_mono; [|exact He]. lia.
Qed.

Lemma holds_until_step k v e c c' :
  evolves k c c' → holds_until k v e c → holds_until k v e c'.
Proof.
  destruct 1 as [ n n' s Hn | n n' s s' Hn Hs | k' [n s] [n' s'] r H | p [n s] [n' s'] r Hm H
    | k' v' ttl [n s] [n' s'] r Hk H | k' v' ttl [n s] [n' s'] r H | k' [n s] [n' s'] r Hk H ].
  - by apply holds_until_same.
  - apply holds_until_same; auto.
  - apply Get_spec in H as (Hn & Hs & _). apply holds_until_same; [done|intros; apply Hs].
  - apply ListByPrefix_spec in H as (Hn & Hs & _).
    apply holds_until_same; [done|intros; by apply Hs].
  - apply Set_spec in H as (Hn & Hs & _). apply holds_until_same; [done|].
    intros; by apply Hs.
  - apply SetNX_spec in H as (Hn & Hs & He).
    destruct (decide (k' = k)) as [->|Hne].
    2: { apply holds_until_same; [done|]. intros; by apply Hs. }
    destruct r as [[]|]; [ | | destruct He as [He|He]].
    + by eapply setnx_effect_held.
    + destruct He as (tc & te & e' & _ & _ & _ & _ & He).
      apply holds_until_same; [done|intros; apply He].
    + apply holds_until_same; [done|intros; apply He].
    + by eapply setnx_effect_held.
  - apply Delete_spec in H as (Hn & Hs & _). apply holds_until_same; [done|].
    intros; by apply Hs.
Qed.

Lemma holds_until_star k v e c c' :
  rtc (evolves k) c c' → holds_until k v e c → holds_until k v e c'.
Proof. induction 1; eauto using holds_until_step. Qed.

(** A successful [SetNX] holds the key until its value expires. *)
Lemma SetNX_true_holds k v ttl n s n' s' :
  store_SetNX k v ttl (n, s) = (Ok true, (n', s')) →
  ∃ te, clk n <= te <= clk n' ∧ holds_until k v (expires te ttl) (n', s').
Proof.
  intros H. apply SetNX_spec in H as (Hn & _ & tc & te & e & Htc & Hte & Hl & _ & Hs).
  exists te. split; [lia|]. intros t _ He. simpl. rewrite Hs.
  unfold written. by rewrite (lifetime_before te ttl).
Qed.

(** Against a held key, [SetNX] succeeds only when it looks after the expiry. *)
Lemma SetNX_true_late k v e v' ttl n s n' s' :
  holds_until k v e (n, s) →
  store_SetNX k v' ttl (n, s) = (Ok true, (n', s')) →
  ∃ tc, clk n <= tc <= clk n' ∧ before tc e = false.
Proof.
  intros Hh H. apply SetNX_spec in H as (Hn & _ & tc & te & e' & Htc & Hte & _ & Hb & _).
  symmetry in Hb. apply bool_decide_eq_true in Hb.
  exists tc. split; [lia|]. destruct (before tc e) eqn:He; [|done].
  assert (sview s tc k = Some v) as E; [|congruence]. apply (Hh tc); [simpl; lia|done].
Qed.

(** A successful [Set] holds the key until its value expires. *)
Lemma Set_holds k v ttl n s n' s' :
  ttl ≠ KeepTTL → store_Set k v ttl (n, s) = (Ok tt, (n', s')) →
  ∃ te, clk n <= te <= clk n' ∧ holds_until k v (expires te ttl) (n', s').
Proof.
  intros Hk H. apply Set_spec in H as (Hn & _ & [(te & e & Hte & Hl & Hs)|[? _]]); [|done].
  exists te. split; [done|]. intros t _ He. simpl. rewrite Hs. unfold written. by rewrite (lifetime_before te ttl); auto.
Qed.

(** A read of a held key sees its value, if it succeeds in time. *)
Lemma Get_held k v e n s o n' s' :
  holds_until k v e (n, s) → before (clk n') e = true →
  store_Get k (n, s) = (Ok o, (n', s')) → o = Some v.
Proof.
  intros Hh He H. apply Get_spec in H as (Hn & _ & Ho).
  destruct (Ho o eq_refl) as (t & Ht & ->). apply Hh; [simpl; lia|].
  eapply before_mono; [|exact He]. lia.
Qed.

(** A listing in time contains the value of every held key that nobody writes
    meanwhile. *)
Lemma List_held k v e p n s vs n' s' :
  holds_until k v e (n, s) → before (clk n') e = true → HasPrefix k p = true → glob_free p = true →
  ¬ meddled s s' k → store_ListByPrefix p (n, s) = (Ok vs, (n', s')) → v ∈ vs.
Proof.
  intros Hh He Hp Hg Hm H. apply ListByPrefix_spec in H as (Hn & _ & Ho).
  destruct (Ho Hg) as (_ & Hl). destruct (Hl vs eq_refl) as (_ & Hc). apply (Hc k v); [done|done|].
  apply Hh; [by apply clk_mono|done].
Qed.
End evolution.

(** ** The in-memory implementation *)
Module Memory.
Record memItem := MemItem { val : string; expiresAt : Time }.

(** The map and whether [Close] has closed the [stop] channel. *)
Record t := Mem { items : gmap string memItem; stop : bool }.

Definition expired (i : memItem) (now : Time) : bool :=
  negb (IsZero (expiresAt i)) && After now (expiresAt i).

Definition NewMemory : t := Mem ∅ false.

Definition expiry `{!Clock} (ttl : Duration) : M t Time :=
  if ttl <=? 0 then mret 0
  else now ← time_Now; mret (Add now ttl).

Definition set_item (key : string) (it : memItem) (m : t) : t :=
  Mem (<[key := it]> (items m)) (stop m).

Definition Get `{!Clock} (key : string) : M t (result string (option string)) :=
  m ← get;
  match items m !! key with
  | None => mret (Ok None)
  | Some it =>
      now ← time_Now;
      if expired it now then mret (Ok None) else mret (Ok (Some (val it)))
  end.

Definition Set_ `{!Clock} (key v : string) (ttl : Duration) : M t (result string unit) :=
  e ← expiry ttl;
  modify (set_item key (MemItem v e));;
  mret (Ok tt).

Definition SetNX `{!Clock} (key v : string) (ttl : Duration) : M t (result string bool) :=
  now ← time_Now;
  m ← get;
  if match items m !! key with Some it => negb (expired it now) | None => false end
  then mret (Ok false)
  else
    e ← expiry ttl;
    modify (set_item key (MemItem v e));;
    mret (Ok true).

Definition Delete (key : string) : M t (result string unit) :=
  modify (λ m, Mem (delete key (items m)) (stop m));;
  mret (Ok tt).

Definition ListByPrefix `{!Clock} (prefix : string) : M t (result string (list string)) :=
  now ← time_Now;
  m ← get;
  mret (Ok (omap (λ '(k, it),
    if expired it now || negb (HasPrefix k prefix) then None else Some (val it))
    (map_to_list (items m)))).

(** Closing twice panics in Go: [None]. *)
Definition Close : M t (option unit) :=
  m ← get;
  if stop m then mret None else put (Mem (items m) true);; mret (Some tt).

(** One turn of the janitor's loop: nothing once stopped, else evict. *)
Definition janitor `{!Clock} : M t unit :=
  m ← get;
  if stop m then mret tt
  else
    now ← time_Now;
    modify (λ m, Mem (filter (λ '(k, it), expired it now = false) (items m)) (stop m)).

#[global] Instance memory_store `{!Clock} : Store t := {|
  store_Get := Get;
  store_Set := Set_;
  store_SetNX := SetNX;
  store_Delete := Delete;
  store_ListByPrefix := ListByPrefix;
  store_Kind := "memory";
|}.

(** What a reader sees. *)
Definition view (m : t) (now : Time) (k : string) : option string :=
  it ← items m !! k; if expired it now then None else Some (val it).

Section proofs.
Context `{HC : !Clock}.

Lemma expiry_spec ttl n m :
  ∃ te n', expiry ttl (n, m) = (if ttl <=? 0 then 0 else te + ttl, (n', m)) ∧
    clk n <= te <= clk n' ∧ (n ≤ n')%nat.
Proof.
  unfold expiry. munfold. destruct (ttl <=? 0).
  - exists (clk n), n. split_and!; done || lia.
  - exists (clk n), (S n). split_and!; [done|lia| |lia]. apply clk_mono. lia.
Qed.

Lemma view_set m k v te ttl t' :
  0 < te →
  view (set_item k (MemItem v (if ttl <=? 0 then 0 else te + ttl)) m) t' k =
    written (if ttl <=? 0 then None else Some (te + ttl)) v t'.
Proof.
  intros Hte. unfold view, written, set_item. simpl. rewrite lookup_insert_eq. simpl.
  unfold expired, IsZero, After. simpl. destruct (ttl <=? 0) eqn:E; zbool; simpl; [done|].
  destruct (te + ttl =? 0) eqn:E0; zbool; [lia|]. simpl.
  destruct (te + ttl <? t') eqn:E1, (t' <=? te + ttl) eqn:E2; zbool; done || lia.
Qed.

Lemma view_set_ne m k k' it t' : k' ≠ k → view (set_item k it m) t' k' = view m t' k'.
Proof. intros. unfold view. simpl. by rewrite lookup_insert_ne. Qed.

Lemma view_delete m k k' t' :
  view (Mem (delete k (items m)) (stop m)) t' k' =
  if decide (k = k') then None else view m t' k'.
Proof. unfold view. simpl. rewrite lookup_delete. by case_decide. Qed.

Lemma expired_mono it now now' : now <= now' → expired it now = true → expired it now' = true.
Proof. unfold expired, After, IsZero. lia. Qed.

Lemma view_live m now now' k v : now' <= now → view m now k = Some v → view m now' k = Some v.
Proof.
  unfold view. destruct (items m !! k) as [it|]; [simpl|done]. intros Ht.
  destruct (expired it now) eqn:E; [done|]. destruct (expired it now') eqn:E'; [|done].
  by rewrite (expired_mono it now' now Ht E') in E.
Qed.

(** The janitor removes nothing that anyone can still see. *)
Lemma janitor_view n m u n' m' :
  janitor (n, m) = (u, (n', m')) →
  (n ≤ n')%nat ∧ ∀ t' k, clk n <= t' → view m' t' k = view m t' k.
Proof.
  unfold janitor. munfold. destruct (stop m) eqn:Es; intros [= <- <- <-]; [done|].
  split; [lia|]. intros t' k Ht. unfold view. simpl.
  rewrite map_lookup_filter. destruct (items m !! k) as [it|]; simpl; [|done].
  case_guard as Hg; simpl; [done|]. apply not_false_is_true in Hg.
  by rewrite (expired_mono it _ _ Ht Hg).
Qed.

Lemma view_None m now k :
  view m now k = None ↔
  match items m !! k with Some it => negb (expired it now) | None => false end = false.
Proof.
  unfold view. destruct (items m !! k) as [it|]; simpl; [|done]. by destruct (expired it now).
Qed.

Lemma list_view p m now v :
  v ∈ omap (λ '(k, it), if expired it now || negb (HasPrefix k p) then None else Some (val it))
    (map_to_list (items m))
  ↔ ∃ k, HasPrefix k p = true ∧ view m now k = Some v.
Proof.
  rewrite list_elem_of_omap. split.
  - intros ([k it] & Hk & Hv). apply elem_of_map_to_list in Hk. exists k.
    unfold view. rewrite Hk. simpl.
    by destruct (expired it now), (HasPrefix k p).
  - intros (k & Hp & Hv). unfold view in Hv. destruct (items m !! k) as [it|] eqn:E; [|done].
    exists (k, it). rewrite Hp. split; [by apply elem_of_map_to_list|].
    simpl in *. by destruct (expired it now).
Qed.

Lemma mem_Get_spec k n s r n' s' :
  Get k (n, s) = (r, (n', s')) →
  (n ≤ n')%nat ∧ (∀ k', same_at view k' s s') ∧
  (∀ o, r = Ok o → ∃ t, clk n <= t <= clk n' ∧ o = view s t k).
Proof.
  unfold Get. munfold. pose proof (clk_mono n (S n) ltac:(lia)) as Hc.
  destruct (items s !! k) as [it|] eqn:E; intros H.
  - assert (n' = S n ∧ s' = s ∧ r = Ok (view s (clk n) k)) as (-> & -> & ->).
    { unfold view. rewrite E. revert H. simpl. by destruct (expired it (clk n)); intros [= <- <- <-]. }
    split_and!; [lia|done|]. intros o [= <-]. exists (clk n). split; [lia|done].
  - injection H as <- <- <-. split_and!; [lia|done|]. intros o [= <-].
    exists (clk n). split; [lia|]. unfold view. by rewrite E.
Qed.

Lemma mem_Set_spec k v ttl n s r n' s' :
  Set_ k v ttl (n, s) = (r, (n', s')) →
  (n ≤ n')%nat ∧ same_but view k s s' ∧
  (set_effect view k v ttl n n' s' ∨ (is_Ok r = false ∧ same_at view k s s')).
Proof.
  unfold Set_. munfold. destruct (expiry_spec ttl n s) as (te & n1 & -> & Hte & Hn1).
  intros [= <- <- <-]. split_and!; [done| |].
  - intros k' Hk t'. by apply view_set_ne.
  - left. eexists te, _. split; [done|]. split; [intros _; apply lifetime_exact|].
    intros t'. apply view_set. pose proof (clk_gt0 n). lia.
Qed.

Lemma mem_SetNX_spec k v ttl n s r n' s' :
  SetNX k v ttl (n, s) = (r, (n', s')) →
  (n ≤ n')%nat ∧ same_but view k s s' ∧
  match r with
  | Ok b => setnx_effect view k v ttl b n n' s s'
  | Err _ => same_at view k s s' ∨ setnx_effect view k v ttl true n n' s s'
  end.
Proof.
  unfold SetNX. munfold. pose proof (clk_mono n (S n) ltac:(lia)) as Hc.
  destruct (match items s !! k with Some it => _ | None => _ end) eqn:E.
  - intros [= <- <- <-]. split_and!; [lia|by intros|].
    eexists (clk n), (clk n), _. split_and!; [lia|lia|lia|apply lifetime_exact| |done].
    symmetry. apply bool_decide_eq_false. intros H'. apply view_None in H'. congruence.
  - destruct (expiry_spec ttl (S n) s) as (te & n1 & -> & Hte & Hn1).
    intros [= <- <- <-]. split_and!; [lia| |].
    + intros k' Hk t'. by apply view_set_ne.
    + eexists (clk n), te, _. split_and!; [lia|lia|lia|apply lifetime_exact| |].
      * symmetry. apply bool_decide_eq_true. by apply view_None.
      * intros t'. apply view_set. pose proof (clk_gt0 n). lia.
Qed.

Lemma mem_Delete_spec k n s r n' s' :
  Delete k (n, s) = (r, (n', s')) →
  (n ≤ n')%nat ∧ same_but view k s s' ∧
  ((∀ t, view s' t k = None) ∨ (is_Ok r = false ∧ same_at view k s s')).
Proof.
  unfold Delete. munfold. intros [= <- <- <-]. split_and!; [lia| |].
  - intros k' Hk t'. rewrite view_delete. by rewrite decide_False.
  - left. intros t'. rewrite view_delete. by rewrite decide_True.
Qed.

(** The map is read under its lock: nobody meddles. *)
Definition alone (m m' : t) (k : string) : Prop := False.

Lemma mem_ListByPrefix_spec p n s r n' s' :
  ListByPrefix p (n, s) = (r, (n', s')) →
  (n ≤ n')%nat ∧ (∀ k, ¬ alone s s' k → same_at view k s s') ∧
  (glob_free p = true →
    (∀ k, alone s s' k → HasPrefix k p = true) ∧
    (∀ vs, r = Ok vs →
      (∀ v, v ∈ vs → ∃ k t, HasPrefix k p = true ∧ clk n <= t <= clk n' ∧ view s' t k = Some v) ∧
      (∀ k v, HasPrefix k p = true → ¬ alone s s' k → view s (clk n') k = Some v → v ∈ vs))).
Proof.
  unfold ListByPrefix. munfold. intros [= <- <- <-].
  pose proof (clk_mono n (S n) ltac:(lia)) as Hc.
  split_and!; [lia|done|]. intros _. split; [done|]. intros vs [= <-]. split.
  - intros v (k & Hk & Hv)%list_view. exists k, (clk n). split_and!; done || lia.
  - intros k v Hk _ Hv. apply list_view. exists k. split; [done|]. by eapply view_live.
Qed.

#[global] Instance memory_spec : StoreSpec t := {|
  sview := view;
  meddled := alone;
  Get_spec := mem_Get_spec;
  Set_spec := mem_Set_spec;
  SetNX_spec := mem_SetNX_spec;
  Delete_spec := mem_Delete_spec;
  ListByPrefix_spec := mem_ListByPrefix_spec;
|}.
End proofs.
End Memory.

Lemma janitor_evolves `{!Clock} k u c c' : Memory.janitor c = (u, c') → evolves k c c'.
Proof.
  destruct c as [n m], c' as [n' m']. intros Hj.
  apply Memory.janitor_view in Hj as [Hn Hv]. apply ev_background; [done|exact Hv].
Qed.

(** ** The Redis adapter

    The go-redis client is not part of the repository: its commands are
    parameters. [cmd_Get] answers [Ok None] for [redis.Nil]; [cmd_MGet] gives
    one optional value per key. *)
Class RedisClient (S : Type) := {
  cmd_Get : string → M S (result string (option string));
  cmd_Set : string → string → Duration → M S (result string unit);
  cmd_SetNX : string → string → Duration → M S (result string bool);
  cmd_Del : string → M S (result string unit);
  cmd_Scan : string → M S (result string (list string));
  cmd_MGet : list string → M S (result string (list (option string)));
}.

Module Redis.
Section adapter.
Context {S : Type} `{!RedisClient S} (prefix : string).

Definition k (key : string) : string := prefix +:+ key.

Definition wrap {A} (what : string) (r : result string A) : result string A :=
  match r with Ok a => Ok a | Err e => Err (what +:+ ": " +:+ e) end.

Definition Get (key : string) : M S (result string (option string)) :=
  r ← cmd_Get (k key); mret (wrap "redis get" r).

Definition Set_ (key v : string) (ttl : Duration) : M S (result string unit) :=
  r ← cmd_Set (k key) v ttl; mret (wrap "redis set" r).

Definition SetNX (key v : string) (ttl : Duration) : M S (result string bool) :=
  r ← cmd_SetNX (k key) v ttl; mret (wrap "redis setnx" r).

Definition Delete (key : string) : M S (result string unit) :=
  r ← cmd_Del (k key); mret (wrap "redis del" r).

Definition ListByPrefix (p : string) : M S (result string (list string)) :=
  let pattern := k p +:+ "*" in
  r ← cmd_Scan pattern;
  match r with
  | Err e => mret (Err ("redis scan: " +:+ e))
  | Ok [] => mret (Ok [])
  | Ok keys =>
      r ← cmd_MGet keys;
      match r with
      | Err e => mret (Err ("redis mget: " +:+ e))
      | Ok vals => mret (Ok (omap id vals))
      end
  end.

Definition redis_store : Store S := {|
  store_Get := Get;
  store_Set := Set_;
  store_SetNX := SetNX;
  store_Delete := Delete;
  store_ListByPrefix := ListByPrefix;
  store_Kind := "redis";
|}.
End adapter.
End Redis.

(** The server's side of the contract, as documented for the commands. Each command
    is atomic; a time-to-live is counted in milliseconds; an expired key does not come
    back. [SCAN] is an iteration: [rmeddled s s' k] says that other clients wrote
    [k] in the course of it, or before the next command. Of a pattern [p*], where
    [p] has no special characters, it gives only keys that start with [p], and all of
    those that stay live and unwritten until it ends, possibly more than once. [MGET]
    reads its keys at one time, as the others have left them. *)
Class RedisSpec (S : Type) `{!Clock, !RedisClient S} := {
  rview : S → Time → string → option string;
  rview_live s t t' k v : t' <= t → rview s t k = Some v → rview s t' k = Some v;
  rmeddled : S → S → string → Prop;
  cmd_Get_spec k n s r n' s' :
    cmd_Get k (n, s) = (r, (n', s')) →
    (n ≤ n')%nat ∧ (∀ k', same_at rview k' s s') ∧
    (∀ o, r = Ok o → ∃ t, clk n <= t <= clk n' ∧ o = rview s t k);
  cmd_Set_spec k v ttl n s r n' s' :
    cmd_Set k v ttl (n, s) = (r, (n', s')) →
    (n ≤ n')%nat ∧ same_but rview k s s' ∧
    (set_effect rview k v ttl n n' s' ∨ (is_Ok r = false ∧ same_at rview k s s'));
  cmd_SetNX_spec k v ttl n s r n' s' :
    cmd_SetNX k v ttl (n, s) = (r, (n', s')) →
    (n ≤ n')%nat ∧ same_but rview k s s' ∧
    match r with
    | Ok b => setnx_effect rview k v ttl b n n' s s'
    | Err _ => same_at rview k s s' ∨ setnx_effect rview k v ttl true n n' s s'
    end;
  cmd_Del_spec k n s r n' s' :
    cmd_Del k (n, s) = (r, (n', s')) →
    (n ≤ n')%nat ∧ same_but rview k s s' ∧
    ((∀ t, rview s' t k = None) ∨ (is_Ok r = false ∧ same_at rview k s s'));
  cmd_Scan_spec p n s r n' s' :
    cmd_Scan (p +:+ "*") (n, s) = (r, (n', s')) →
    (n ≤ n')%nat ∧ (∀ k, ¬ rmeddled s s' k → same_at rview k s s') ∧
    (glob_free p = true →
      (∀ k, rmeddled s s' k → HasPrefix k p = true) ∧
      (∀ ks, r = Ok ks →
        (∀ k, k ∈ ks → HasPrefix k p = true) ∧
        (∀ k, HasPrefix k p = true → ¬ rmeddled s s' k → is_Some (rview s (clk n') k) → k ∈ ks)));
  cmd_MGet_spec ks n s r n' s' :
    cmd_MGet ks (n, s) = (r, (n', s')) →
    (n ≤ n')%nat ∧ s' = s ∧
    (∀ vs, r = Ok vs → ∃ t, clk n <= t <= clk n' ∧ vs = map (rview s t) ks);
}.

Section redis_refinement.
Context `{HC : !Clock} {S : Type} `{HR : !RedisClient S, HRS : !RedisSpec S} (prefix : string).

Definition redis_view (s : S) (t : Time) (key : string) : option string :=
  rview s t (Redis.k prefix key).

Definition redis_meddled (s s' : S) (key : string) : Prop := rmeddled s s' (Redis.k prefix key).

Lemma redis_k_inj a b : Redis.k prefix a = Redis.k prefix b → a = b.
Proof. apply append_inv_l. Qed.

Lemma redis_same_but key s s' :
  same_but rview (Redis.k prefix key) s s' → same_but redis_view key s s'.
Proof. intros H k' Hk t. apply H. intros E. by apply redis_k_inj in E. Qed.

Lemma wrap_is_Ok {A} what (r : result string A) : is_Ok (Redis.wrap what r) = is_Ok r.
Proof. by destruct r. Qed.

Lemma redis_Get_spec key n s r n' s' :
  Redis.Get prefix key (n, s) = (r, (n', s')) →
  (n ≤ n')%nat ∧ (∀ k', same_at redis_view k' s s') ∧
  (∀ o, r = Ok o → ∃ t, clk n <= t <= clk n' ∧ o = redis_view s t key).
Proof.
  unfold Redis.Get. munfold. destruct (cmd_Get _ _) as [r0 [n0 s0]] eqn:E. intros [= <- <- <-].
  apply cmd_Get_spec in E as (Hn & Hs & Ho). split_and!; [done| |].
  - intros k' t. apply Hs.
  - intros o Hr. apply Ho. by destruct r0.
Qed.

Lemma redis_Set_spec key v ttl n s r n' s' :
  Redis.Set_ prefix key v ttl (n, s) = (r, (n', s')) →
  (n ≤ n')%nat ∧ same_but redis_view key s s' ∧
  (set_effect redis_view key v ttl n n' s' ∨ (is_Ok r = false ∧ same_at redis_view key s s')).
Proof.
  unfold Redis.Set_. munfold. destruct (cmd_Set _ _ _ _) as [r0 [n0 s0]] eqn:E. intros [= <- <- <-].
  apply cmd_Set_spec in E as (Hn & Hs & He). rewrite wrap_is_Ok.
  eauto using redis_same_but.
Qed.

Lemma redis_SetNX_spec key v ttl n s r n' s' :
  Redis.SetNX prefix key v ttl (n, s) = (r, (n', s')) →
  (n ≤ n')%nat ∧ same_but redis_view key s s' ∧
  match r with
  | Ok b => setnx_effect redis_view key v ttl b n n' s s'
  | Err _ => same_at redis_view key s s' ∨ setnx_effect redis_view key v ttl true n n' s s'
  end.
Proof.
  unfold Redis.SetNX. munfold. destruct (cmd_SetNX _ _ _ _) as [r0 [n0 s0]] eqn:E.
  intros [= <- <- <-]. apply cmd_SetNX_spec in E as (Hn & Hs & He).
  split_and!; [done|by apply redis_same_but|]. by destruct r0.
Qed.

Lemma redis_Delete_spec key n s r n' s' :
  Redis.Delete prefix key (n, s) = (r, (n', s')) →
  (n ≤ n')%nat ∧ same_but redis_view key s s' ∧
  ((∀ t, redis_view s' t key = None) ∨ (is_Ok r = false ∧ same_at redis_view key s s')).
Proof.
  unfold Redis.Delete. munfold. destruct (cmd_Del _ _) as [r0 [n0 s0]] eqn:E. intros [= <- <- <-].
  apply cmd_Del_spec in E as (Hn & Hs & He). rewrite wrap_is_Ok. eauto using redis_same_but.
Qed.

Lemma HasPrefix_k key p : HasPrefix (Redis.k prefix key) (Redis.k prefix p) = HasPrefix key p.
Proof.
  apply eq_true_iff_eq. rewrite !HasPrefix_spec. unfold Redis.k. split; intros [r Hr]; exists r.
  - rewrite append_assoc in Hr. by apply append_inv_l in Hr.
  - by rewrite Hr, append_assoc.
Qed.

Context (Hprefix : glob_free prefix = true).

Lemma redis_ListByPrefix_spec p n s r n' s' :
  Redis.ListByPrefix prefix p (n, s) = (r, (n', s')) →
  (n ≤ n')%nat ∧ (∀ k, ¬ redis_meddled s s' k → same_at redis_view k s s') ∧
  (glob_free p = true →
    (∀ k, redis_meddled s s' k → HasPrefix k p = true) ∧
    (∀ vs, r = Ok vs →
      (∀ v, v ∈ vs → ∃ k t, HasPrefix k p = true ∧ clk n <= t <= clk n' ∧ redis_view s' t k = Some v) ∧
      (∀ k v, HasPrefix k p = true → ¬ redis_meddled s s' k → redis_view s (clk n') k = Some v → v ∈ vs))).
Proof.
  unfold Redis.ListByPrefix. munfold. destruct (cmd_Scan _ _) as [rs [n1 s1]] eqn:E.
  apply cmd_Scan_spec in E as (Hn1 & Hs1 & Hg). pose proof (clk_mono n n1 Hn1) as Hc1.
  assert (∀ k, ¬ redis_meddled s s1 k → same_at redis_view k s s1) as Hs by (intros k Hk t; by apply Hs1).
  assert (glob_free p = true → ∀ k, redis_meddled s s1 k → HasPrefix k p = true) as Hm.
  { intros Hp k Hk. rewrite <- HasPrefix_k. apply Hg; [|exact Hk]. unfold Redis.k. by rewrite glob_free_append, Hprefix, Hp. }
  destruct rs as [ks|e]; [|intros [= <- <- <-]; split_and!; [done|exact Hs|intros Hp; split; [by apply Hm|done]]].
  assert (glob_free p = true → (∀ k, k ∈ ks → ∃ k', k = Redis.k prefix k' ∧ HasPrefix k' p = true) ∧
    ∀ k v t, HasPrefix k p = true → ¬ redis_meddled s s1 k → clk n1 <= t → redis_view s t k = Some v →
      Redis.k prefix k ∈ ks) as Hks.
  { intros Hp. destruct Hg as (_ & Hl); [unfold Redis.k; by rewrite glob_free_append, Hprefix, Hp|].
    destruct (Hl ks eq_refl) as (Hin & Hall). split.
    - intros k [u ->]%Hin%HasPrefix_spec. exists (p +:+ u). rewrite HasPrefix_append. split; [|done].
      unfold Redis.k. by rewrite append_assoc.
    - intros k v t Hk Hn Ht Hv. apply Hall; [by rewrite HasPrefix_k|done|]. exists v. by eapply rview_live. }
  destruct ks as [|k0 ks].
  { intros [= <- <- <-]. split_and!; [done|exact Hs|]. intros Hp. split; [by apply Hm|]. intros vs [= <-].
    split; [by intros v ?%elem_of_nil|]. intros k v Hk Hn Hv. exfalso.
    apply (proj2 (Hks Hp) k v (clk n1)) in Hv; [by apply elem_of_nil in Hv|done..]. }
  destruct (cmd_MGet _ _) as [rm [n2 s2]] eqn:E. apply cmd_MGet_spec in E as (Hn2 & -> & Hv).
  pose proof (clk_mono n1 n2 Hn2). destruct rm as [vals|e]; intros [= <- <- <-];
    (split_and!; [lia|exact Hs|]; intros Hp; split; [by apply Hm|]); [|done].
  intros vs [= <-]. destruct (Hv vals eq_refl) as (t & Ht & ->). split.
  - intros v (o & Ho & Hv')%list_elem_of_omap. apply list_elem_of_fmap in Ho as (k & -> & Hk).
    apply (proj1 (Hks Hp)) in Hk as (k' & -> & Hk). exists k', t. split_and!; [done|lia|lia|done].
  - intros k v Hk Hn Hv'. apply list_elem_of_omap. exists (Some v). split; [|done].
    apply list_elem_of_fmap. exists (Redis.k prefix k). split.
    + fold (redis_view s1 t k). rewrite (Hs k Hn). symmetry. eapply rview_live; [|exact Hv']. lia.
    + apply (proj2 (Hks Hp) k v (clk n2)); done || lia.
Qed.

(** Over a server that keeps its documented contract, the adapter is a store. *)
Definition redis_spec : @StoreSpec S HC (Redis.redis_store prefix).
Proof.
  refine (@Build_StoreSpec S HC (Redis.redis_store prefix) redis_view redis_meddled _ _ _ _ _).
  - exact redis_Get_spec.
  - exact redis_Set_spec.
  - exact redis_SetNX_spec.
  - exact redis_Delete_spec.
  - exact redis_ListByPrefix_spec.
Defined.
End redis_refinement.

(** A backend that is up: no call fails. *)
Class StoreUp (S : Type) `{!Store S} := {
  Get_up k c : is_Ok (store_Get k c).1 = true;
  Set_up k v ttl c : is_Ok (store_Set k v ttl c).1 = true;
  SetNX_up k v ttl c : is_Ok (store_SetNX k v ttl c).1 = true;
  ListByPrefix_up p c : is_Ok (store_ListByPrefix p c).1 = true;
}.

#[export] Instance memory_up `{!Clock} : StoreUp Memory.t.
Proof.
  split; intros; destruct c as [n m]; cbn [store_Get store_Set store_SetNX store_ListByPrefix Memory.memory_store];
    unfold Memory.Get, Memory.Set_, Memory.SetNX, Memory.ListByPrefix, Memory.expiry; munfold.
  - destruct (Memory.items m !! k); [|done]. munfold. by destruct (Memory.expired _ _).
  - by destruct (ttl <=? 0).
  - destruct (match Memory.items m !! k with Some _ => _ | None => _ end); [done|]. by destruct (ttl <=? 0).
  - done.
Qed.

(** ** A Redis server for examples

    The map of the in-memory store behind the commands of a client, and the writes
    another replica is about to make: those to the keys of a [SCAN] land when it
    ends. *)
Module Server.
Record t := Srv { db : Memory.t; others : list (string * string); landed : list string }.

Definition on_db {A} : M Memory.t A → M t A := zoom db (λ m s, Srv m (others s) (landed s)).

Definition put_all (l : list (string * string)) (m : Memory.t) : Memory.t :=
  foldr (λ x, Memory.set_item x.1 (Memory.MemItem x.2 0)) m l.

Definition scan `{!Clock} (pattern : string) : M t (result string (list string)) :=
  let p := TrimSuffix pattern "*" in
  now ← time_Now;
  s ← get;
  let due := List.filter (λ x, HasPrefix x.1 p) (others s) in
  put (Srv (put_all due (db s)) (List.filter (λ x, negb (HasPrefix x.1 p)) (others s)) (map fst due ++ landed s)%list);;
  mret (Ok (omap (λ '(k, it),
    if Memory.expired it now || negb (HasPrefix k p) then None else Some k)
    (map_to_list (Memory.items (db s))))).

Definition mget `{!Clock} (ks : list string) : M t (result string (list (option string))) :=
  now ← time_Now; s ← get; mret (Ok (map (Memory.view (db s) now) ks)).

#[export] Instance client `{!Clock} : RedisClient t := {|
  cmd_Get k := on_db (Memory.Get k);
  cmd_Set k v ttl := on_db (Memory.Set_ k v ttl);
  cmd_SetNX k v ttl := on_db (Memory.SetNX k v ttl);
  cmd_Del k := on_db (Memory.Delete k);
  cmd_Scan := scan;
  cmd_MGet := mget;
|}.

Definition view (s : t) : Time → string → option string := Memory.view (db s).

Definition wrote (s s' : t) (k : string) : Prop := ∃ new, landed s' = (new ++ landed s)%list ∧ k ∈ new.

Lemma scan_keys m now p k :
  k ∈ omap (λ '(k, it), if Memory.expired it now || negb (HasPrefix k p) then None else Some k)
        (map_to_list (Memory.items m)) ↔ HasPrefix k p = true ∧ is_Some (Memory.view m now k).
Proof.
  rewrite list_elem_of_omap. unfold Memory.view. split.
  - intros ([k' it] & Hk & Hv). apply elem_of_map_to_list in Hk.
    destruct (Memory.expired it now) eqn:E, (HasPrefix k' p) eqn:E'; try done. injection Hv as ->.
    split; [done|]. rewrite Hk. simpl. rewrite E. eauto.
  - intros [Hp [v Hv]]. destruct (Memory.items m !! k) as [it|] eqn:E; [|done]. simpl in Hv.
    exists (k, it). split; [by apply elem_of_map_to_list|]. rewrite Hp. by destruct (Memory.expired it now).
Qed.

Lemma view_put_all l m now k : k ∉ map fst l → Memory.view (put_all l m) now k = Memory.view m now k.
Proof.
  induction l as [|[k' v] l IH]; [done|]. cbn [map]. intros [Hk Hl]%not_elem_of_cons.
  cbn [put_all foldr]. rewrite Memory.view_set_ne by done. by apply IH.
Qed.

Lemma on_db_run {A} (m : M Memory.t A) n s r n' s' :
  on_db m (n, s) = (r, (n', s')) → m (n, db s) = (r, (n', db s')).
Proof. unfold on_db, zoom. cbn [fst snd]. destruct (m _) as [a [n1 m1]]. by intros [= <- <- <-]. Qed.

#[export] Instance server `{HC : !Clock} : RedisSpec t.
Proof.
  refine {| rview := view; rview_live s := Memory.view_live (db s); rmeddled := wrote |}.
  - intros k n s r n' s' H%on_db_run. by apply Memory.mem_Get_spec in H.
  - intros k v ttl n s r n' s' H%on_db_run. by apply Memory.mem_Set_spec in H.
  - intros k v ttl n s r n' s' H%on_db_run. by apply Memory.mem_SetNX_spec in H.
  - intros k n s r n' s' H%on_db_run. by apply Memory.mem_Delete_spec in H.
  - intros p n s r n' s'. cbn [cmd_Scan client]. unfold scan. munfold. rewrite (TrimSuffix_append p "*").
    set (due := List.filter _ _). intros [= <- <- <-].
    pose proof (clk_mono n (S n) ltac:(lia)) as Hc.
    assert (∀ k, wrote s (Srv (put_all due (db s)) (List.filter (λ x, negb (HasPrefix x.1 p)) (others s)) (map fst due ++ landed s)%list) k ↔
      k ∈ map fst due) as Hw.
    { intros k. unfold wrote. cbn [landed]. split; [intros (new & E & Hk); by apply app_inv_tail in E as ->|eauto]. }
    split_and!; [lia| |].
    + intros k Hk t'. unfold view. cbn [db]. apply view_put_all. by rewrite <- Hw.
    + intros _. split.
      * intros k Hk%Hw. apply list_elem_of_fmap in Hk as (x & -> & Hx). apply list_elem_of_In, List.filter_In in Hx as [_ Hx]. done.
      * intros ks [= <-]. split; intros k Hk; [by apply scan_keys in Hk as []|].
        intros _ [v Hv]. apply scan_keys. split; [done|]. exists v. by eapply Memory.view_live.
  - intros ks n s r n' s'. cbn [cmd_MGet client]. unfold mget. munfold. intros [= <- <- <-].
    pose proof (clk_mono n (S n) ltac:(lia)) as Hc. split_and!; [lia|done|]. intros vs [= <-].
    exists (clk n). split; [lia|done].
Defined.

(** A listing is no snapshot: while it runs, another replica adds [vec:b] and then
    changes [vec:a]. It gives the new [vec:a] without [vec:b], which no state in
    between would. *)
Example listing_torn :
  let HC := unix_seconds_clock in
  let listing m w := (Redis.ListByPrefix "m:" "vec:" (0%nat, Srv m w [])).1 in
  let m0 := put_all [("m:vec:a", "1")] Memory.NewMemory in
  let m1 := put_all [("m:vec:b", "9")] m0 in
  let m2 := put_all [("m:vec:a", "2")] m1 in
  listing m0 [("m:vec:a", "2"); ("m:vec:b", "9")] = Ok ["2"] ∧
  map (λ m, listing m []) [m0; m1; m2] = [Ok ["1"]; Ok ["1"; "9"]; Ok ["2"; "9"]].
Proof. vm_compute. split; reflexivity. Qed.
End Server.

(** ** Properties *)

(** C27: both backends are the same store to their clients. The in-memory map, with
    or without its janitor, satisfies the one contract the other components are
    proved against, and there a listing is a snapshot. So does the Redis adapter, under
    a key prefix without pattern characters and over a server that keeps the documented
    contract of its commands, where times-to-live count in milliseconds and other
    replicas write in the course of a listing ([listing_torn]). A reader of the adapter
    sees under a key what the server holds under the prefixed key, and the keys that
    others write while it lists are theirs under the prefix. *)
Theorem stores_refine_contract `{HC : !Clock} {S : Type} `{HR : !RedisClient S, HRS : !RedisSpec S} (prefix : string) :
  glob_free prefix = true →
  (∃ H : @StoreSpec Memory.t HC Memory.memory_store,
    (∀ m t k, @sview _ _ _ H m t k = Memory.view m t k) ∧ (∀ m m' k, ¬ @meddled _ _ _ H m m' k) ∧
    (∀ k u c c', Memory.janitor c = (u, c') → @evolves HC _ Memory.memory_store H k c c')) ∧
  (∃ H : @StoreSpec S HC (Redis.redis_store prefix),
    (∀ s t k, @sview _ _ _ H s t k = rview s t (prefix +:+ k)) ∧
    (∀ s s' k, @meddled _ _ _ H s s' k ↔ rmeddled s s' (prefix +:+ k))).
Proof.
  intros Hp. split.
  - exists Memory.memory_spec. split_and!; [done|by intros m m' k []|]. intros k u c c'. apply janitor_evolves.
  - by exists (redis_spec prefix Hp).
Qed.

Lemma stores_refine_contract_witness :
  let HC := unix_seconds_clock in
  (∃ H : @StoreSpec Memory.t HC Memory.memory_store,
    (∀ m t k, @sview _ _ _ H m t k = Memory.view m t k) ∧ (∀ m m' k, ¬ @meddled _ _ _ H m m' k) ∧
    (∀ k u c c', Memory.janitor c = (u, c') → @evolves HC _ Memory.memory_store H k c c')) ∧
  (∃ H : @StoreSpec Server.t HC (@Redis.redis_store _ Server.client "muthur:"),
    (∀ s t k, @sview _ _ _ H s t k = @rview _ _ _ Server.server s t ("muthur:" +:+ k)) ∧
    (∀ s s' k, @meddled _ _ _ H s s' k ↔ Server.wrote s s' ("muthur:" +:+ k))).
Proof.
  intros HC. apply (stores_refine_contract (HC := HC) (HR := Server.client) (HRS := Server.server) "muthur:").
  reflexivity.
Defined.
