(* ===== verification/Dedup.v ===== *)
(** * Alert identifiers and deduplication

    [internal/alertkey] and [internal/dedup]. *)
From S2P Require Import Prelude GoStrings Sha256 Proto Store.
From Stdlib Require Import Ascii.

(** ** Identifiers *)

(** [fmt.Sprintf("%s|%s|%s|%s", ...)] over the identity of an alert. *)
Definition raw4 (p : AlertPayload) : string :=
  ClusterId p +:+ "|" +:+ AlertName p +:+ "|" +:+ Namespace p +:+ "|" +:+ PodName p.

(** [fmt.Sprintf("%s|%s|%s|%s|%d", ...)], the firing time included. *)
Definition raw5 (p : AlertPayload) : string := raw4 p +:+ "|" +:+ FormatInt (FiredAt p).

Module alertkey.
(** The first 16 hex characters of the digest. *)
Definition ID (p : AlertPayload) : string := take_bytes 16 (sha256_hex (raw5 p)).
End alertkey.

(** ** The deduplicator *)

Record Deduplicator := MkDeduplicator { window : Duration }.

(** [time.Duration(windowMinutes) * time.Minute], in int64. *)
Definition dedup_New (windowMinutes : Z) : Deduplicator :=
  MkDeduplicator (wrap64 (windowMinutes * Minute)).

Definition dedup_key (p : AlertPayload) : string := sha256_hex (raw4 p).
Definition resolvedKey (p : AlertPayload) : string := sha256_hex (raw5 p).

Section dedup.
Context {S : Type} `{!Store S}.

(** A store error counts as not duplicate. *)
Definition IsDuplicate (d : Deduplicator) (p : AlertPayload) : M S bool :=
  let key := "dedup:" +:+ dedup_key p in
  r ← store_SetNX key "1" (window d);
  match r with
  | Err _ => mret false
  | Ok set => if negb set then mret true else mret false
  end.

Definition IsDuplicateResolved (d : Deduplicator) (p : AlertPayload) : M S bool :=
  let key := "dedup:resolved:" +:+ resolvedKey p in
  r ← store_SetNX key "1" (window d);
  match r with
  | Err _ => mret false
  | Ok set => if negb set then mret true else mret false
  end.
End dedup.

(** ** Keys *)

(** Two different strings with the same digest. *)
Definition collision (s t : string) : Prop := s ≠ t ∧ Sum256 s = Sum256 t.

Definition no_bar (p : AlertPayload) : bool :=
  lacks "|"%char (ClusterId p) && lacks "|"%char (AlertName p) && lacks "|"%char (Namespace p) && lacks "|"%char (PodName p).

Definition same_alert (p q : AlertPayload) : Prop :=
  ClusterId p = ClusterId q ∧ AlertName p = AlertName q ∧
  Namespace p = Namespace q ∧ PodName p = PodName q.

Lemma raw4_fields (p q : AlertPayload) s t :
  no_bar p = true → no_bar q = true →
  raw4 p +:+ "|" +:+ s = raw4 q +:+ "|" +:+ t → same_alert p q ∧ s = t.
Proof.
  unfold no_bar, raw4, same_alert. intros Hp Hq. rewrite !append_assoc. simpl. intros H.
  apply andb_true_iff in Hp as [Hp Hp4]. apply andb_true_iff in Hp as [Hp Hp3].
  apply andb_true_iff in Hp as [Hp1 Hp2].
  apply andb_true_iff in Hq as [Hq Hq4]. apply andb_true_iff in Hq as [Hq Hq3].
  apply andb_true_iff in Hq as [Hq1 Hq2].
  apply sep_inj in H as [E1 H]; [|done..]. apply sep_inj in H as [E2 H]; [|done..].
  apply sep_inj in H as [E3 H]; [|done..]. apply sep_inj in H as [E4 H]; [|done..].
  done.
Qed.

Lemma raw4_inj p q : no_bar p = true → no_bar q = true → raw4 p = raw4 q → same_alert p q.
Proof. intros Hp Hq H. apply (raw4_fields p q "" "" Hp Hq). by rewrite H. Qed.

Lemma raw5_inj p q :
  no_bar p = true → no_bar q = true → raw5 p = raw5 q → same_alert p q ∧ FiredAt p = FiredAt q.
Proof.
  intros Hp Hq H. apply raw4_fields in H as [? H]; [|done..]. by apply FormatInt_inj in H.
Qed.

Lemma sha256_hex_eq s t : sha256_hex s = sha256_hex t → s = t ∨ collision s t.
Proof.
  intros H%hex_encode_inj. destruct (decide (s = t)); [by left|by right].
Qed.

(** The two kinds of markers never share a store key. *)
Lemma dedup_keys_disjoint p q : "dedup:" +:+ dedup_key p ≠ "dedup:resolved:" +:+ resolvedKey q.
Proof.
  intros H. change ("dedup:resolved:") with ("dedup:" +:+ "resolved:") in H.
  rewrite append_assoc in H. apply append_inv_l in H.
  destruct (sha256_hex_decodes (raw4 p)) as [v Hv].
  unfold dedup_key in H. apply (hex_decode_lacks "r"%char) in Hv; [|done].
  rewrite H in Hv. by simpl in Hv.
Qed.

(** ** Windows *)
Section window.
Context `{HC : !Clock} {S : Type} `{HS : !Store S, HSp : !StoreSpec S}.

(** A verdict of the marker: [SetNX] with the value and window both
    deduplication calls use. *)
Definition mark (d : Deduplicator) (k : string) : M S bool :=
  r ← store_SetNX k "1" (window d);
  match r with
  | Err _ => mret false
  | Ok set => if negb set then mret true else mret false
  end.

Lemma mark_false d k n s n' s' :
  mark d k (n, s) = (false, (n', s')) →
  (∃ e, store_SetNX k "1" (window d) (n, s) = (Err e, (n', s'))) ∨
  store_SetNX k "1" (window d) (n, s) = (Ok true, (n', s')).
Proof.
  unfold mark. munfold. destruct (store_SetNX _ _ _ _) as [[[]|e] [n1 s1]]; naive_solver.
Qed.

(** No error, not a duplicate: the marker was set and holds for the window. *)
Lemma mark_sets d k n s n' s' :
  is_Ok (store_SetNX k "1" (window d) (n, s)).1 = true →
  mark d k (n, s) = (false, (n', s')) →
  ∃ te, clk n <= te <= clk n' ∧ holds_until k "1" (expires te (window d)) (n', s').
Proof.
  intros Hok [[e H]|H]%mark_false; [by rewrite H in Hok|]. by apply SetNX_true_holds in H.
Qed.

Lemma mark_held d k e n s b n' s' :
  holds_until k "1" e (n, s) →
  is_Ok (store_SetNX k "1" (window d) (n, s)).1 = true →
  mark d k (n, s) = (b, (n', s')) → before (clk n') e = true → b = true.
Proof.
  intros Hh Hok Hm Hb. destruct b; [done|].
  apply mark_false in Hm as [[er Hm]|Hm]; [by rewrite Hm in Hok|].
  destruct (SetNX_true_late _ _ _ _ _ _ _ _ _ Hh Hm) as (tc & Htc & Hl).
  rewrite (before_mono tc (clk n')) in Hl; [done|lia|done].
Qed.

Lemma expires_mono t t' te w : t <= t' → before te (expires t w) = true → before te (expires t' w) = true.
Proof. unfold expires. destruct (w <=? 0); simpl; lia. Qed.

(** Two calls with one key inside one window: the second is a duplicate,
    whatever happens to the store in between. *)
Lemma mark_twice d k c c1 c2 b c3 :
  is_Ok (store_SetNX k "1" (window d) c).1 = true →
  mark d k c = (false, c1) →
  rtc (evolves k) c1 c2 →
  is_Ok (store_SetNX k "1" (window d) c2).1 = true →
  mark d k c2 = (b, c3) →
  before (clk c3.1) (expires (clk c.1) (window d)) = true →
  b = true.
Proof.
  destruct c as [n s], c1 as [n1 s1], c2 as [n2 s2], c3 as [n3 s3].
  intros Hok1 H1 Hev Hok2 H2 Hb. apply mark_sets in H1 as (te & Hte & Hh); [|done].
  eapply mark_held; [|done|exact H2|].
  - by eapply holds_until_star.
  - eapply expires_mono; [|exact Hb]. simpl. lia.
Qed.
End window.

(** ** The fixed window of the in-memory store *)
Section fixed_window.
Context `{HC : !Clock}.
Import Memory.

Definition marked (k : string) (te : Time) (w : Duration) (m : t) : Prop :=
  items m !! k = Some (MemItem "1" (te + w)).

(** A call answered "duplicate" leaves the map alone. *)
Lemma mark_true_same d k n (m : t) n' m' : mark d k (n, m) = (true, (n', m')) → m' = m ∧ n' = Datatypes.S n.
Proof.
  unfold mark. simpl. unfold SetNX. munfold.
  destruct (match items m !! k with Some it => _ | None => _ end); [naive_solver|].
  destruct (expiry_spec (window d) (Datatypes.S n) m) as (te & n1 & -> & _ & _). naive_solver.
Qed.

Lemma mark_false_marked d k n (m : t) n' m' :
  0 < window d → mark d k (n, m) = (false, (n', m')) →
  n' = Datatypes.S (Datatypes.S n) ∧ marked k (clk (Datatypes.S n)) (window d) m'.
Proof.
  intros Hw. unfold mark. simpl. unfold SetNX, marked. munfold.
  destruct (match items m !! k with Some it => _ | None => _ end); [naive_solver|].
  unfold expiry. munfold. destruct (window d <=? 0) eqn:E; zbool; [lia|].
  intros [= <- <-]. split; [done|]. simpl. by rewrite lookup_insert_eq.
Qed.

(** Time passing and calls answered "duplicate". *)
Definition dup_step (d : Deduplicator) (p : AlertPayload) (x y : nat * t) : Prop :=
  (∃ n', x.1 ≤ n' ∧ y = (n', x.2))%nat ∨ IsDuplicate d p x = (true, y).

Lemma dup_steps_same d p x y : rtc (dup_step d p) x y → y.2 = x.2.
Proof.
  induction 1 as [|x y z Hxy _ IH]; [done|]. rewrite IH.
  destruct Hxy as [(n' & _ & ->)|Hy]; [done|]. destruct x as [n m], y as [n' m'].
  by apply mark_true_same in Hy as [-> _].
Qed.

Lemma mark_after d k te n (m : t) b c' :
  0 < te → marked k te (window d) m → 0 < window d → te + window d < clk n →
  mark d k (n, m) = (b, c') → b = false.
Proof.
  intros Hte Hm Hw Hn. unfold mark. simpl. unfold SetNX. munfold. rewrite Hm.
  assert (expired (MemItem "1" (te + window d)) (clk n) = true) as ->.
  { unfold expired, IsZero, After. simpl. lia. }
  simpl. destruct (expiry_spec (window d) (Datatypes.S n) m) as (te' & n1 & -> & _ & _). naive_solver.
Qed.
End fixed_window.

(** ** Properties *)

(** With any store that keeps its contract, a firing alert that was let
    through is not let through again while its window lasts, whatever else
    other requests and background work do to the store (short of deleting or
    overwriting the marker) and for any payload with the same key. *)
Theorem dedup_no_repeat_in_window `{HC : !Clock} {S : Type} `{HS : !Store S, HSp : !StoreSpec S}
    (d : Deduplicator) (p q : AlertPayload) (c c1 c2 c3 : nat * S) (b : bool) :
  let k := "dedup:" +:+ dedup_key p in
  dedup_key q = dedup_key p →
  is_Ok (store_SetNX k "1" (window d) c).1 = true →
  IsDuplicate d p c = (false, c1) →
  rtc (evolves k) c1 c2 →
  is_Ok (store_SetNX k "1" (window d) c2).1 = true →
  IsDuplicate d q c2 = (b, c3) →
  before (clk c3.1) (expires (clk c.1) (window d)) = true →
  b = true.
Proof.
  intros k Hk Hok1 H1 Hev Hok2 H2 Hb. unfold IsDuplicate in H2. rewrite Hk in H2.
  exact (mark_twice d k c c1 c2 b c3 Hok1 H1 Hev Hok2 H2 Hb).
Qed.

Definition sample_alert : AlertPayload := mk_alert "prod-a" "KubePodCrashLooping" "warning" "default" "api-0" "firing" 1000 None.

Lemma dedup_no_repeat_in_window_witness :
  let HC := unix_seconds_clock in
  let d := dedup_New 15 in
  let c1 := (IsDuplicate d sample_alert (0%nat, Memory.NewMemory)).2 in
  (IsDuplicate d sample_alert c1).1 = true.
Proof.
  intros HC d c1.
  eapply (dedup_no_repeat_in_window (HC := HC) d sample_alert sample_alert
    (0%nat, Memory.NewMemory) c1 c1 _ _).
  - reflexivity.
  - vm_compute. reflexivity.
  - vm_compute. reflexivity.
  - apply rtc_refl.
  - vm_compute. reflexivity.
  - apply surjective_pairing.
  - vm_compute. reflexivity.
Defined.

(** The firing key identifies the alert: two payloads with the same key
    agree on cluster, alert name, namespace and pod, unless SHA-256 collides
    on exactly their key material (fields must not contain the separator). *)
Theorem dedup_key_identifies (p q : AlertPayload) :
  no_bar p = true → no_bar q = true → dedup_key p = dedup_key q →
  same_alert p q ∨ collision (raw4 p) (raw4 q).
Proof.
  unfold dedup_key. intros Hp Hq H. apply sha256_hex_eq in H as [H|H].
  - left. exact (raw4_inj p q Hp Hq H).
  - right. exact H.
Qed.

Lemma dedup_key_identifies_witness :
  same_alert sample_alert sample_alert ∨ collision (raw4 sample_alert) (raw4 sample_alert).
Proof. apply (dedup_key_identifies sample_alert sample_alert); reflexivity. Defined.

(** The resolved key identifies the firing episode: equal keys mean the
    same alert and the same firing time, unless SHA-256 collides; and it never
    coincides with the store key of a firing alert. *)
Theorem resolved_key_identifies (p q : AlertPayload) :
  no_bar p = true → no_bar q = true →
  (resolvedKey p = resolvedKey q →
     (same_alert p q ∧ FiredAt p = FiredAt q) ∨ collision (raw5 p) (raw5 q)) ∧
  "dedup:" +:+ dedup_key p ≠ "dedup:resolved:" +:+ resolvedKey q.
Proof.
  intros Hp Hq. split; [|apply dedup_keys_disjoint].
  unfold resolvedKey. intros H. apply sha256_hex_eq in H as [H|H].
  - left. exact (raw5_inj p q Hp Hq H).
  - right. exact H.
Qed.

Lemma resolved_key_identifies_witness :
  "dedup:" +:+ dedup_key sample_alert ≠ "dedup:resolved:" +:+ resolvedKey sample_alert.
Proof. apply (resolved_key_identifies sample_alert sample_alert); reflexivity. Defined.

(** On the in-memory store the window is fixed at the first alert:
    duplicates in between do not extend it, so the first call after the window
    is let through again. *)
Theorem dedup_window_not_extended `{HC : !Clock} (d : Deduplicator) (p : AlertPayload)
    (n : nat) (m : Memory.t) (c1 c2 c3 : nat * Memory.t) (b : bool) :
  0 < window d →
  IsDuplicate d p (n, m) = (false, c1) →
  rtc (dup_step d p) c1 c2 →
  clk (Datatypes.S n) + window d < clk c2.1 →
  IsDuplicate d p c2 = (b, c3) →
  b = false.
Proof.
  intros Hw H1 Hs Hlate H2. destruct c1 as [n1 m1].
  destruct (mark_false_marked d _ n m n1 m1 Hw H1) as [_ Hm].
  apply dup_steps_same in Hs. destruct c2 as [n2 m2]. simpl in Hs. subst m2.
  eapply mark_after; [|exact Hm|exact Hw|exact Hlate|exact H2]. apply clk_gt0.
Qed.

Lemma dedup_window_not_extended_witness :
  let HC := unix_seconds_clock in
  let d := MkDeduplicator (3 * Second) in
  let c1 := (IsDuplicate d sample_alert (0%nat, Memory.NewMemory)).2 in
  let c2 := (IsDuplicate d sample_alert c1).2 in
  let c4 := (9%nat, c2.2) in
  (IsDuplicate d sample_alert c4).1 = false.
Proof.
  intros HC d c1 c2 c4.
  eapply (dedup_window_not_extended (HC := HC) d sample_alert 0 Memory.NewMemory c1 c4 _ _).
  - vm_compute. reflexivity.
  - vm_compute. reflexivity.
  - apply (rtc_l _ _ c2); [right; vm_compute; reflexivity|]. apply rtc_once.
    left. exists 9%nat. split; [vm_compute; lia|reflexivity].
  - vm_compute. reflexivity.
  - apply surjective_pairing.
Defined.

(** With a window that is not positive (DEDUP_WINDOW_MINUTES set to 0, to a
    negative number or to text that is no number) the marker never expires: an
    alert let through once is a duplicate for ever. *)
Theorem dedup_nonpositive_window_forever `{HC : !Clock} {S : Type} `{HS : !Store S, HSp : !StoreSpec S}
    (d : Deduplicator) (p q : AlertPayload) (c c1 c2 c3 : nat * S) (b : bool) :
  let k := "dedup:" +:+ dedup_key p in
  window d <= 0 →
  dedup_key q = dedup_key p →
  is_Ok (store_SetNX k "1" (window d) c).1 = true →
  IsDuplicate d p c = (false, c1) →
  rtc (evolves k) c1 c2 →
  is_Ok (store_SetNX k "1" (window d) c2).1 = true →
  IsDuplicate d q c2 = (b, c3) →
  b = true.
Proof.
  intros k Hw Hk Hok1 H1 Hev Hok2 H2. unfold IsDuplicate in H2. rewrite Hk in H2.
  refine (mark_twice d k c c1 c2 b c3 Hok1 H1 Hev Hok2 H2 _).
  unfold expires. apply Z.leb_le in Hw. by rewrite Hw.
Qed.

Lemma dedup_nonpositive_window_forever_witness :
  let HC := unix_seconds_clock in
  let d := dedup_New 0 in
  let c1 := (IsDuplicate d sample_alert (0%nat, Memory.NewMemory)).2 in
  let c2 := (1000%nat, c1.2) in
  (IsDuplicate d sample_alert c2).1 = true.
Proof.
  intros HC d c1 c2.
  eapply (dedup_nonpositive_window_forever (HC := HC) d sample_alert sample_alert
    (0%nat, Memory.NewMemory) c1 c2 _ _).
  - vm_compute. discriminate.
  - reflexivity.
  - vm_compute. reflexivity.
  - vm_compute. reflexivity.
  - apply rtc_once. apply (ev_time _ 1 1000). lia.
  - vm_compute. reflexivity.
  - apply surjective_pairing.
Defined.
