(* ===== verification/Identity.v ===== *)
(** * Caller identity

    [internal/auth/identity.go]: the identity a verified client certificate
    carries. *)
From S2P Require Import Prelude GoStrings.
From Stdlib Require Import Ascii HexadecimalString.

(** The parts of [url.URL] and [x509.Certificate] the code reads. *)
Record URL := MkURL { Scheme : string; Host : string; Path : string }.

Record Certificate := MkCertificate {
  Cert_SerialNumber : Z;
  URIs : list URL;
  CommonName : string;
  Cert_NotAfter : Time;
}.

Record Identity := MkIdentity {
  TenantID : string;
  ClusterID : string;
  NotAfter : Time;
  SerialNumber : string;
}.

(** [Identity.String]. *)
Definition Identity_String (i : Identity) : string :=
  if seqb (TenantID i) "" then ClusterID i
  else TenantID i +:+ "/" +:+ ClusterID i.

Inductive identity_error := ErrNoIdentity | ErrMalformedSAN.

Definition spiffeScheme : string := "spiffe".
Definition spiffeHost : string := "muthur".

Definition parseSpiffePath (u : URL) : result identity_error (string * string) :=
  if negb (seqb (Host u) spiffeHost) then Err ErrMalformedSAN
  else
    match Split (Trim (Path u) "/") "/" with
    | [tenant; cluster] =>
        if seqb tenant "" || seqb cluster "" then Err ErrMalformedSAN
        else Ok (tenant, cluster)
    | _ => Err ErrMalformedSAN
    end.

(** [big.Int.Text(16)]: lower-case hexadecimal, no prefix. *)
Definition Text16 (z : Z) : string := NilZero.string_of_int (Z.to_hex_int z).

(** The loop over the URI SANs: stop at the first SPIFFE one. *)
Fixpoint first_spiffe (us : list URL) : result identity_error (string * string) :=
  match us with
  | [] => Ok ("", "")
  | u :: us =>
      if negb (seqb (Scheme u) spiffeScheme) then first_spiffe us
      else parseSpiffePath u
  end.

(** A nil certificate is [None]. *)
Definition ExtractFromCert (cert : option Certificate) : result identity_error Identity :=
  match cert with
  | None => Err ErrNoIdentity
  | Some cert =>
      '(tenant, cluster) ← first_spiffe (URIs cert);
      let cluster := if seqb cluster "" then TrimSpace (CommonName cert) else cluster in
      if seqb cluster "" then Err ErrNoIdentity
      else Ok (MkIdentity tenant cluster (Cert_NotAfter cert)
                 (ToLower (Text16 (Cert_SerialNumber cert))))
  end.

(** [WithContext] and [FromContext]: the request context carries at most one
    identity. *)
Abbreviation Context := (option Identity) (only parsing).
Definition WithContext (ctx : Context) (id : Identity) : Context := Some id.
Definition FromContext (ctx : Context) : option Identity := ctx.

(** ** Lemmas *)

Lemma last_sep_inj (a : ascii) s1 t1 s2 t2 :
  lacks a t1 = true → lacks a t2 = true →
  s1 +:+ String a t1 = s2 +:+ String a t2 → s1 = s2 ∧ t1 = t2.
Proof.
  intros H1 H2. revert s2.
  assert (∀ s t u, lacks a t = true → t ≠ s +:+ String a u) as Hno.
  { intros s t u Ht ->. rewrite lacks_append in Ht. simpl in Ht.
    rewrite Ascii.eqb_refl in Ht. by rewrite andb_false_r in Ht. }
  induction s1 as [|b s1 IH]; intros [|c s2]; simpl; intros H.
  - by injection H.
  - injection H as _ H. by destruct (Hno s2 t1 t2 H1).
  - injection H as _ H. by destruct (Hno s1 t2 t1 H2).
  - injection H as -> H. by destruct (IH s2 H) as [-> ->].
Qed.

(** Identities the signer issues from a SPIFFE name: a tenant, no slash in it. *)
Definition spiffe_identity (i : Identity) : bool :=
  negb (seqb (TenantID i) "") && lacks "/" (TenantID i).

Lemma Identity_String_inj i j :
  spiffe_identity i = true → spiffe_identity j = true →
  Identity_String i = Identity_String j → TenantID i = TenantID j ∧ ClusterID i = ClusterID j.
Proof.
  unfold spiffe_identity, Identity_String. intros [Hi Hi']%andb_true_iff [Hj Hj']%andb_true_iff.
  apply negb_true_iff in Hi as ->. apply negb_true_iff in Hj as ->.
  intros H. by apply sep_inj in H.
Qed.

Lemma parseSpiffePath_nonempty u t c :
  parseSpiffePath u = Ok (t, c) → t ≠ "" ∧ c ≠ "".
Proof.
  unfold parseSpiffePath. destruct (negb _); [done|].
  destruct (Split _ _) as [|x [|y [|z l]]]; [done..| |done].
  destruct (seqb x "" || seqb y "") eqn:E; [done|]. intros [= <- <-]. by sbool.
Qed.

Lemma first_spiffe_cases us t c :
  first_spiffe us = Ok (t, c) → (t = "" ∧ c = "") ∨ (t ≠ "" ∧ c ≠ "").
Proof.
  induction us as [|u us IH]; simpl; [intros [= <- <-]; by left|].
  destruct (negb _); [done|]. intros H. right. by apply parseSpiffePath_nonempty in H.
Qed.
