(* ===== verification/Replay.v ===== *)
(** * Replay protection

    [internal/auth/replay.go]: freshness of the timestamp and single use of
    the nonce, per identity. *)
From S2P Require Import Prelude GoStrings Store Identity.
From Stdlib Require Import Ascii.

Definition minNonceHexLen : Z := 32.

(** The sentinel errors, and the two errors [Verify] passes on. *)
Inductive replay_error :=
| ErrReplayNoIdentity
| ErrReplayMissingTimestamp
| ErrReplayBadTimestamp
| ErrReplayClockSkew
| ErrReplayMissingNonce
| ErrReplayBadNonce
| ErrReplayNonceReused
| ErrReplayStore (msg : string).

Record ReplayGuard := MkReplayGuard {
  rg_window : Duration;
  rg_nonceTTL : Duration;
  rg_prefix : string;
}.

(** [2 * window] is an int64 product. *)
Definition NewReplayGuard (window : Duration) (prefix : string) : ReplayGuard :=
  let window := if window <=? 0 then 5 * Minute else window in
  MkReplayGuard window (wrap64 (2 * window)) prefix.

Definition nonceKey (g : ReplayGuard) (id : Identity) (nonce : string) : string :=
  rg_prefix g +:+ "nonce:" +:+ Identity_String id +:+ ":" +:+ nonce.

Section verify.
Context `{!Clock} {S : Type} `{!Store S}.

(** [None] is a nil error. *)
Definition Verify (g : ReplayGuard) (id : option Identity) (tsStr nonce : string)
    : M S (option replay_error) :=
  match id with
  | None => mret (Some ErrReplayNoIdentity)
  | Some id =>
    if seqb tsStr "" then mret (Some ErrReplayMissingTimestamp) else
    match ParseInt tsStr with
    | None => mret (Some ErrReplayBadTimestamp)
    | Some tsUnix =>
      let reqTime := time_Unix tsUnix in
      now ← time_Now;
      let delta := Sub now reqTime in
      if (rg_window g <? delta) || (delta <? - rg_window g)
      then mret (Some ErrReplayClockSkew) else
      if seqb nonce "" then mret (Some ErrReplayMissingNonce) else
      if len nonce <? minNonceHexLen then mret (Some ErrReplayBadNonce) else
      match hex_DecodeString nonce with
      | None => mret (Some ErrReplayBadNonce)
      | Some _ =>
        let key := nonceKey g id nonce in
        r ← store_SetNX key (String (byte_of_Z 1) "") (rg_nonceTTL g);
        match r with
        | Err e => mret (Some (ErrReplayStore e))
        | Ok set => if negb set then mret (Some ErrReplayNonceReused) else mret None
        end
      end
    end
  end.
End verify.

(** ** Lemmas *)

(** [Sub] saturates, so a window below the maximum really bounds the distance. *)
Lemma Sub_window w t u :
  0 <= w < 2 ^ 62 → (w <? Sub t u) || (Sub t u <? - w) = false ↔ - w <= t - u <= w.
Proof. unfold Sub. intros Hw. rewrite orb_false_iff, !Z.ltb_ge. lia. Qed.

(** A timestamp far outside the range of the clock wraps into the distant past
    and stays outside the window. *)
Lemma time_Unix_window z w t :
  in_int64 z → 0 < t → 0 <= w < 2 ^ 62 → - w <= t - time_Unix z <= w →
  time_Unix z = (z + unixToInternal) * Second.
Proof.
  unfold in_int64, time_Unix. intros Hz Ht Hw Hd.
  destruct (decide (z + unixToInternal < 2 ^ 63)) as [Hlt|Hge].
  - rewrite wrap64_id; [done|]. unfold in_int64, unixToInternal in *. lia.
  - exfalso. assert (wrap64 (z + unixToInternal) = z + unixToInternal - 2 ^ 64) as E.
    { unfold wrap64. replace (z + unixToInternal + 2 ^ 63) with
        ((z + unixToInternal - 2 ^ 63) + 1 * 2 ^ 64) by lia.
      rewrite Z.mod_add by lia. rewrite Z.mod_small; unfold unixToInternal in *; lia. }
    rewrite E in Hd. unfold unixToInternal, Second in *. lia.
Qed.

Lemma ParseInt_range s z : ParseInt s = Some z → in_int64 z.
Proof.
  unfold ParseInt. destruct (match s with EmptyString => _ | String _ _ => _ end) as [neg d].
  destruct (DecimalString.NilZero.uint_of_string d); simpl; [|done].
  destruct (in_int64b _) eqn:E; [|done]. intros [= <-]. by apply in_int64b_spec.
Qed.

Section accept.
Context `{HC : !Clock} {S : Type} `{HS : !Store S, HSp : !StoreSpec S}.

(** Everything an accepted request satisfied. *)
Lemma Verify_None g id ts nonce n s c' :
  Verify g id ts nonce (n, s) = (None, c') →
  ∃ i z v, id = Some i ∧ ParseInt ts = Some z ∧
    (rg_window g <? Sub (clk n) (time_Unix z)) || (Sub (clk n) (time_Unix z) <? - rg_window g) = false ∧
    minNonceHexLen <= len nonce ∧ hex_DecodeString nonce = Some v ∧
    store_SetNX (nonceKey g i nonce) (String (byte_of_Z 1) "") (rg_nonceTTL g) (Datatypes.S n, s)
      = (Ok true, c').
Proof.
  unfold Verify. munfold. destruct id as [i|]; [|done].
  destruct (seqb ts ""); [done|]. destruct (ParseInt ts) as [z|] eqn:Ez; [|done].
  destruct (_ || _) eqn:Ew; [done|]. destruct (seqb nonce ""); [done|].
  destruct (len nonce <? _) eqn:El; [done|]. destruct (hex_DecodeString nonce) as [v|] eqn:Ev; [|done].
  destruct (store_SetNX _ _ _ _) as [[[]|e] c1] eqn:Es; [|done|done]. intros [= <-].
  zbool. eauto 10.
Qed.
End accept.

Lemma nonceKey_inj g i j a b va vb :
  hex_DecodeString a = Some va → hex_DecodeString b = Some vb →
  nonceKey g i a = nonceKey g j b → Identity_String i = Identity_String j ∧ a = b.
Proof.
  unfold nonceKey. intros Ha Hb H.
  apply append_inv_l in H. apply append_inv_l in H.
  apply (hex_decode_lacks ":"%char) in Ha; [|done]. apply (hex_decode_lacks ":"%char) in Hb; [|done].
  by apply last_sep_inj in H.
Qed.

(** The configured window, when it is one a duration can double, in whole
    milliseconds: the granularity of the nonces' times-to-live. *)
Definition guard_ok (g : ReplayGuard) : Prop :=
  0 < rg_window g < 2 ^ 62 ∧ rg_nonceTTL g = 2 * rg_window g ∧ rg_window g mod ms = 0.

Lemma NewReplayGuard_ok w p : w < 2 ^ 62 → w mod ms = 0 → guard_ok (NewReplayGuard w p).
Proof.
  intros Hw Hm. unfold guard_ok, NewReplayGuard. simpl.
  destruct (w <=? 0) eqn:E; zbool.
  - done.
  - split_and!; [lia|lia| |done]. apply wrap64_id. unfold in_int64. lia.
Qed.

(** The same request again: its nonce is still there, or its timestamp is stale. *)
Lemma Verify_again `{HC : !Clock} {S : Type} `{HS : !Store S, HSp : !StoreSpec S}
    (g : ReplayGuard) (i : Identity) (ts nonce : string) (c c1 c2 c3 : nat * S) (r : option replay_error) :
  guard_ok g →
  Verify g (Some i) ts nonce c = (None, c1) →
  rtc (evolves (nonceKey g i nonce)) c1 c2 →
  Verify g (Some i) ts nonce c2 = (r, c3) →
  clk c3.1 = clk c2.1 ∨ clk c3.1 <= clk c.1 + 2 * rg_window g →
  r ≠ None.
Proof.
  destruct c as [n s], c1 as [n1 s1], c2 as [n2 s2], c3 as [n3 s3]. cbn [fst snd].
  intros (Hw & Httl & Hms) H1 Hev H2 Hclk ->.
  apply Verify_None in H1 as (i1 & z & v & [= <-] & Hz & Hd1 & _ & _ & Hs1).
  apply Verify_None in H2 as (i2 & z' & v' & [= <-] & Hz' & Hd2 & _ & _ & Hs2).
  rewrite Hz in Hz'. injection Hz' as <-.
  rewrite Sub_window in Hd1, Hd2 by lia.
  apply SetNX_true_holds in Hs1 as (te & Hte & Hh).
  apply (holds_until_star _ _ _ _ _ Hev) in Hh.
  apply (holds_until_step _ _ _ _ (Datatypes.S n2, s2)) in Hh; [|apply ev_time; lia].
  destruct (SetNX_true_late _ _ _ _ _ _ _ _ _ Hh Hs2) as (tc & Htc & Hl).
  revert Hl. unfold expires. rewrite Httl, whole_exact by (rewrite <- Z.mul_mod_idemp_r, Hms by done; done).
  destruct (_ <=? 0) eqn:E; zbool; [lia|].
  simpl. rewrite Z.leb_gt. pose proof (clk_mono n (Datatypes.S n) ltac:(lia)). lia.
Qed.

(** ** Properties *)

Definition replay_sample_id : Identity := MkIdentity "acme" "prod-a" 0 "1f".
Definition replay_sample_nonce : string := "00112233445566778899aabbccddeeff".

(** [Verify] accepts exactly the requests of a known identity whose
    timestamp parses and lies in the window around the clock, whose nonce is
    hexadecimal of at least 32 digits, and whose nonce key the store accepts
    as new. *)
Theorem replay_accepts_iff `{HC : !Clock} {S : Type} `{HS : !Store S}
    (g : ReplayGuard) (id : option Identity) (ts nonce : string) (n : nat) (s : S) (c' : nat * S) :
  Verify g id ts nonce (n, s) = (None, c') ↔
  ∃ i z v, id = Some i ∧ ParseInt ts = Some z ∧
    (rg_window g <? Sub (clk n) (time_Unix z)) || (Sub (clk n) (time_Unix z) <? - rg_window g) = false ∧
    minNonceHexLen <= len nonce ∧ hex_DecodeString nonce = Some v ∧
    store_SetNX (nonceKey g i nonce) (String (byte_of_Z 1) "") (rg_nonceTTL g) (Datatypes.S n, s)
      = (Ok true, c').
Proof.
  split; [apply Verify_None|].
  intros (i & z & v & -> & Hz & Hw & Hl & Hv & Hs). unfold Verify. munfold.
  assert (seqb ts "" = false) as ->.
  { apply seqb_false. intros ->. by vm_compute in Hz. }
  rewrite Hz. mstep. rewrite Hw.
  assert (seqb nonce "" = false) as ->.
  { apply seqb_false. intros ->. by vm_compute in Hl. }
  apply Z.ltb_ge in Hl. by rewrite Hl, Hv, Hs.
Qed.

(** C18: an accepted request was sent, by its own timestamp, within the
    configured window of the brain's clock; no wrap-around or saturation of
    the 64-bit arithmetic lets another timestamp through. *)
Theorem replay_accepted_is_fresh `{HC : !Clock} {S : Type} `{HS : !Store S}
    (w : Duration) (prefix : string) (id : option Identity) (ts nonce : string)
    (n : nat) (s : S) (c' : nat * S) :
  0 < w < 2 ^ 62 →
  Verify (NewReplayGuard w prefix) id ts nonce (n, s) = (None, c') →
  ∃ z, ParseInt ts = Some z ∧ - w <= clk n - (z + unixToInternal) * Second <= w.
Proof.
  intros Hw H. apply Verify_None in H as (i & z & v & _ & Hz & Hd & _).
  exists z. split; [done|]. revert Hd. unfold NewReplayGuard. simpl.
  destruct (w <=? 0) eqn:E; zbool; [lia|]. rewrite Sub_window by lia. intros Hd.
  rewrite <- (time_Unix_window z w (clk n)); [done| |apply clk_gt0|lia|done].
  by eapply ParseInt_range.
Qed.

Lemma replay_accepted_is_fresh_witness :
  let HC := unix_seconds_clock in
  ∃ z, ParseInt "200" = Some z ∧
    - (5 * Minute) <= clk 0 - (z + unixToInternal) * Second <= 5 * Minute.
Proof.
  intros HC.
  apply (replay_accepted_is_fresh (HC := HC) (5 * Minute) "muthur:" (Some replay_sample_id)
    "200" replay_sample_nonce 0 Memory.NewMemory
    (Verify (NewReplayGuard (5 * Minute) "muthur:") (Some replay_sample_id) "200"
       replay_sample_nonce (0%nat, Memory.NewMemory)).2).
  - vm_compute. split; reflexivity.
  - vm_compute. reflexivity.
Defined.

(** A captured request cannot be replayed: once a request was accepted,
    the same identity, timestamp and nonce are refused later, however the
    store evolves in between, provided the second check looks the nonce up at
    the instant it read the clock or within twice the window of the first. *)
Theorem replay_refused `{HC : !Clock} {S : Type} `{HS : !Store S, HSp : !StoreSpec S}
    (g : ReplayGuard) (i : Identity) (ts nonce : string) (c c1 c2 c3 : nat * S)
    (r : option replay_error) :
  guard_ok g →
  Verify g (Some i) ts nonce c = (None, c1) →
  rtc (evolves (nonceKey g i nonce)) c1 c2 →
  Verify g (Some i) ts nonce c2 = (r, c3) →
  clk c3.1 = clk c2.1 ∨ clk c3.1 <= clk c.1 + 2 * rg_window g →
  r ≠ None.
Proof. apply Verify_again. Qed.

Lemma replay_refused_witness :
  let HC := unix_seconds_clock in
  let g := NewReplayGuard (5 * Minute) "muthur:" in
  let c1 := (Verify g (Some replay_sample_id) "0" replay_sample_nonce (0%nat, Memory.NewMemory)).2 in
  (Verify g (Some replay_sample_id) "0" replay_sample_nonce c1).1 ≠ None.
Proof.
  intros HC g c1.
  eapply (replay_refused (HC := HC) g replay_sample_id "0" replay_sample_nonce
    (0%nat, Memory.NewMemory) c1 c1 _ _).
  - apply NewReplayGuard_ok; vm_compute; reflexivity.
  - vm_compute. reflexivity.
  - apply rtc_refl.
  - apply surjective_pairing.
  - right. apply Z.leb_le. vm_compute. reflexivity.
Defined.

(** Nonces are scoped to the caller: two acceptable nonces of identities
    with tenants share a store key only if tenant, cluster and nonce are all
    the same, so no tenant can burn another tenant's nonces. *)
Theorem nonce_key_scoped (g : ReplayGuard) (i j : Identity) (a b va vb : string) :
  spiffe_identity i = true → spiffe_identity j = true →
  hex_DecodeString a = Some va → hex_DecodeString b = Some vb →
  nonceKey g i a = nonceKey g j b →
  TenantID i = TenantID j ∧ ClusterID i = ClusterID j ∧ a = b.
Proof.
  intros Hi Hj Ha Hb H. destruct (nonceKey_inj g i j a b va vb Ha Hb H) as [Hid ->].
  by destruct (Identity_String_inj i j Hi Hj Hid).
Qed.

Lemma nonce_key_scoped_witness :
  TenantID replay_sample_id = TenantID replay_sample_id ∧
  ClusterID replay_sample_id = ClusterID replay_sample_id ∧ replay_sample_nonce = replay_sample_nonce.
Proof.
  eapply (nonce_key_scoped (NewReplayGuard Minute "") replay_sample_id replay_sample_id);
    reflexivity.
Defined.
