(* ===== verification/Tenants.v ===== *)
(** * Tenants

    The tenant index of [internal/auth/bootstrap.go] and its hot reload of
    [internal/auth/tenants_reloader.go]. *)
From S2P Require Import Prelude GoStrings GoTime.

Record Tenant := MkTenant {
  T_ClusterID : string;
  T_TenantID : string;
  BootstrapTokenHash : string;
  BootstrapExpiresAt : Time;
  Revoked : bool;
  CertDuration : Duration;
  CertDurationStr : string;
}.

Abbreviation Tenants := (gmap string Tenant) (only parsing).

Inductive tenants_error :=
| MissingClusterID
| DuplicateClusterID (id : string)
| BadCertDuration (id dur : string).

Definition with_duration (t : Tenant) (d : Duration) : Tenant :=
  MkTenant (T_ClusterID t) (T_TenantID t) (BootstrapTokenHash t) (BootstrapExpiresAt t)
    (Revoked t) d (CertDurationStr t).

(** The parsing of the YAML-friendly duration of one entry. *)
Definition resolve_duration (t : Tenant) : result tenants_error Tenant :=
  if negb (seqb (CertDurationStr t) "") && (CertDuration t =? 0) then
    match ParseDuration (CertDurationStr t) with
    | None => Err (BadCertDuration (T_ClusterID t) (CertDurationStr t))
    | Some d => Ok (with_duration t d)
    end
  else Ok t.

(** The loop of [NewTenants], with the index built so far. *)
Fixpoint add_tenants (idx : Tenants) (list : list Tenant) : result tenants_error Tenants :=
  match list with
  | [] => Ok idx
  | t :: rest =>
      if seqb (T_ClusterID t) "" then Err MissingClusterID else
      match idx !! T_ClusterID t with
      | Some _ => Err (DuplicateClusterID (T_ClusterID t))
      | None =>
          t' ← resolve_duration t;
          add_tenants (<[T_ClusterID t := t']> idx) rest
      end
  end.

Definition NewTenants (list : list Tenant) : result tenants_error Tenants := add_tenants ∅ list.

(** A nil index finds nothing. *)
Definition Lookup (t : option Tenants) (clusterID : string) : option Tenant :=
  t ← t; t !! clusterID.

Definition Len (t : Tenants) : nat := size t.

(** ** The reloader

    [stat] and [read] are what the file system answers during one reload: the
    modification time and the contents, [None] for an error. The YAML decoder
    is not part of the repository and is a parameter. *)
Record tenantsState := MkTenantsState { ts_tenants : Tenants; ts_mtime : Time }.

Record TenantsReloader := MkTenantsReloader {
  cached : option tenantsState;
  pollEvery : Duration;
}.

Inductive reload_error :=
| StatError
| ReadError
| ParseError
| BuildError (e : tenants_error).

Section reloader.
Context (yaml_tenants : string → option (list Tenant)).

(** The new state, and whether the snapshot changed. *)
Definition reload (r : TenantsReloader) (stat : option Time) (read : option string)
    : result reload_error bool * TenantsReloader :=
  match stat with
  | None => (Err StatError, r)
  | Some modTime =>
    if match cached r with Some c => negb (After modTime (ts_mtime c)) | None => false end
    then (Ok false, r) else
    match read with
    | None => (Err ReadError, r)
    | Some data =>
      match yaml_tenants data with
      | None => (Err ParseError, r)
      | Some shape =>
        match NewTenants shape with
        | Err e => (Err (BuildError e), r)
        | Ok t => (Ok true, MkTenantsReloader (Some (MkTenantsState t modTime)) (pollEvery r))
        end
      end
    end
  end.

Definition NewTenantsReloader (pollEvery : Duration) (stat : option Time) (read : option string)
    : result reload_error TenantsReloader :=
  let pollEvery := if pollEvery <=? 0 then 5 * Second else pollEvery in
  match reload (MkTenantsReloader None pollEvery) stat read with
  | (Err e, _) => Err e
  | (Ok _, r) => Ok r
  end.

Definition Current (r : TenantsReloader) : option Tenants := ts_tenants <$> cached r.

(** The polling loop: one reload per tick, errors only logged. *)
Fixpoint loop (r : TenantsReloader) (ticks : list (option Time * option string)) : TenantsReloader :=
  match ticks with
  | [] => r
  | (stat, read) :: ticks => loop (reload r stat read).2 ticks
  end.
End reloader.

(** ** Lemmas *)

(** What an index built from a list holds. *)
Definition index_of (list : list Tenant) (idx : Tenants) : Prop :=
  ∀ k t', idx !! k = Some t' ↔ ∃ t, t ∈ list ∧ T_ClusterID t = k ∧ resolve_duration t = Ok t'.

Lemma resolve_duration_id t t' : resolve_duration t = Ok t' →
  T_ClusterID t' = T_ClusterID t ∧ Revoked t' = Revoked t ∧ T_TenantID t' = T_TenantID t ∧
  BootstrapTokenHash t' = BootstrapTokenHash t ∧ BootstrapExpiresAt t' = BootstrapExpiresAt t.
Proof.
  unfold resolve_duration. destruct (_ && _); [|by intros [= <-]].
  destruct (ParseDuration _); [|done]. by intros [= <-].
Qed.

Lemma add_tenants_Ok acc idx list idx' :
  index_of acc idx → add_tenants idx list = Ok idx' →
  index_of (acc ++ list) idx' ∧
  Forall (λ t, T_ClusterID t ≠ "") list ∧ NoDup (T_ClusterID <$> list) ∧
  Forall (λ t, idx !! T_ClusterID t = None) list.
Proof.
  revert acc idx. induction list as [|t rest IH]; intros acc idx Hd.
  { intros [= <-]. rewrite app_nil_r. split; [exact Hd|]. repeat constructor. }
  simpl. destruct (seqb _ _) eqn:E0; [done|]. sbool.
  destruct (idx !! T_ClusterID t) eqn:E1; [done|].
  destruct (resolve_duration t) as [t'|] eqn:E2; [simpl|done]. intros H.
  assert (index_of (acc ++ [t]) (<[T_ClusterID t := t']> idx)) as Hd'.
  { intros k u. unfold index_of in Hd. rewrite lookup_insert_Some, Hd. setoid_rewrite elem_of_app.
    setoid_rewrite list_elem_of_singleton. split.
    - intros [[<- <-]|[Hk (t0 & H1 & H2 & H3)]]; eauto 10.
    - intros (t0 & [H1| ->] & <- & H3).
      + right. split; [|eauto]. intros Hk.
        assert (idx !! T_ClusterID t0 = Some u) as Hu by (apply Hd; eauto). congruence.
      + left. split; [done|]. congruence. }
  destruct (IH _ _ Hd' H) as (Hi & Hne & Hnd & Hfr). rewrite <- app_assoc in Hi.
  split_and!; [exact Hi|by constructor| |].
  - constructor; [|done]. intros (u & Hu & Hin)%list_elem_of_fmap.
    rewrite Forall_forall in Hfr. specialize (Hfr u Hin). rewrite <- Hu, lookup_insert_eq in Hfr. done.
  - constructor; [done|]. eapply Forall_impl; [exact Hfr|]. intros u Hu.
    apply lookup_insert_None in Hu. tauto.
Qed.

Lemma add_tenants_resolves idx list idx' :
  add_tenants idx list = Ok idx' → Forall (λ t, is_Ok (resolve_duration t) = true) list.
Proof.
  revert idx. induction list as [|t rest IH]; intros idx; simpl; [by constructor|].
  destruct (seqb _ _); [done|]. destruct (idx !! _); [done|].
  destruct (resolve_duration t) eqn:Er; [simpl|done]. intros H. constructor; [by rewrite Er|eauto].
Qed.

Lemma index_of_nil : index_of [] ∅.
Proof. intros k t. rewrite lookup_empty. split; [done|]. by intros (? & ?%elem_of_nil & _). Qed.

(** Enough for [NewTenants] to succeed. *)
Lemma add_tenants_complete idx list :
  Forall (λ t, T_ClusterID t ≠ "") list → NoDup (T_ClusterID <$> list) →
  Forall (λ t, idx !! T_ClusterID t = None) list →
  Forall (λ t, is_Ok (resolve_duration t) = true) list →
  is_Ok (add_tenants idx list) = true.
Proof.
  revert idx. induction list as [|t rest IH]; intros idx Hne Hnd Hfr Hok; [done|]. simpl.
  apply Forall_cons in Hne as [Hne1 Hne], Hfr as [Hfr1 Hfr], Hok as [Hok1 Hok].
  apply NoDup_cons in Hnd as [Hnd1 Hnd].
  apply seqb_false in Hne1 as ->. rewrite Hfr1.
  destruct (resolve_duration t) as [t'|]; [simpl|done]. apply IH; [done..| |done].
  rewrite Forall_forall in *. intros u Hu. apply lookup_insert_None. split; [auto|].
  intros E. apply Hnd1. apply list_elem_of_fmap. eauto.
Qed.

Lemma reload_cached y r stat read res r' :
  reload y r stat read = (res, r') → res ≠ Ok true → r' = r.
Proof.
  unfold reload. destruct stat; [|naive_solver].
  destruct (match cached r with Some _ => _ | None => _ end); [naive_solver|].
  destruct read; [|naive_solver]. destruct (y s); [|naive_solver].
  destruct (NewTenants l); naive_solver.
Qed.

(** ** Properties *)

(** [NewTenants] accepts a list exactly when every entry has a cluster id,
    no id occurs twice and every textual duration parses; the index then holds
    exactly the entries of the list, durations resolved. *)
Theorem NewTenants_correct (list : list Tenant) :
  (is_Ok (NewTenants list) = true ↔
     Forall (λ t, T_ClusterID t ≠ "") list ∧ NoDup (T_ClusterID <$> list) ∧
     Forall (λ t, is_Ok (resolve_duration t) = true) list) ∧
  (∀ idx, NewTenants list = Ok idx → index_of list idx).
Proof.
  assert (∀ idx, NewTenants list = Ok idx → index_of list idx ∧
    Forall (λ t, T_ClusterID t ≠ "") list ∧ NoDup (T_ClusterID <$> list)) as Hok.
  { intros idx H. apply (add_tenants_Ok []) in H as (Hi & Hne & Hnd & _); [done|apply index_of_nil]. }
  split; [split|intros idx H; by apply Hok].
  - intros H. destruct (NewTenants list) as [idx|] eqn:E; [|done].
    destruct (Hok idx eq_refl) as (_ & Hne & Hnd). split_and!; [done|done|].
    by eapply add_tenants_resolves.
  - intros (Hne & Hnd & Hd). apply add_tenants_complete; [done..| |done].
    apply Forall_forall. intros. apply lookup_empty.
Qed.

(** A reload that fails, or finds nothing newer, keeps serving the previous
    snapshot; a reload of a newer, valid file serves exactly that file, so a
    tenant marked revoked in it is revoked from then on. *)
Theorem reload_correct (yaml_tenants : string → option (list Tenant))
    (r r' : TenantsReloader) (stat : option Time) (read : option string)
    (res : result reload_error bool) :
  reload yaml_tenants r stat read = (res, r') →
  (res ≠ Ok true → Current r' = Current r) ∧
  (res = Ok true → ∃ data list idx,
     read = Some data ∧ yaml_tenants data = Some list ∧ index_of list idx ∧
     Current r' = Some idx ∧
     (∀ t, t ∈ list → Revoked t = true →
        Revoked <$> Lookup (Current r') (T_ClusterID t) = Some true)).
Proof.
  intros H. split.
  { intros Hr. by rewrite (reload_cached _ _ _ _ _ _ H Hr). }
  intros ->. unfold reload in H. destruct stat as [mt|]; [|done].
  destruct (match cached r with Some _ => _ | None => _ end); [done|].
  destruct read as [data|]; [|done]. destruct (yaml_tenants data) as [l|] eqn:Ey; [|done].
  destruct (NewTenants l) as [idx|] eqn:En; [|done]. injection H as <-.
  pose proof (add_tenants_resolves _ _ _ En) as Hres.
  apply (add_tenants_Ok []) in En as (Hi & _); [|apply index_of_nil].
  exists data, l, idx. split_and!; [done..|]. intros t Ht Hrev.
  rewrite Forall_forall in Hres. specialize (Hres t Ht).
  destruct (resolve_duration t) as [t'|] eqn:Er; [|done]. simpl.
  rewrite (proj2 (Hi (T_ClusterID t) t')) by eauto. simpl.
  apply resolve_duration_id in Er as (_ & -> & _). by rewrite Hrev.
Qed.

Definition sample_tenant : Tenant :=
  MkTenant "prod-a" "acme" "" 0 true 0 "720h".

Lemma reload_correct_witness :
  let y := λ _ : string, Some [sample_tenant] in
  let r := MkTenantsReloader None Second in
  Revoked <$> Lookup (Current (reload y r (Some 5) (Some "tenants")).2) "prod-a" = Some true.
Proof.
  intros y r.
  destruct (reload_correct y r _ (Some 5) (Some "tenants") _ (surjective_pairing _)) as [_ H].
  destruct H as (data & list & idx & [= <-] & [= <-] & _ & _ & H); [vm_compute; reflexivity|].
  apply (H sample_tenant); [apply list_elem_of_here|reflexivity].
Defined.

(** A day count is no Go duration: an entry with certDuration "30d" makes the
    whole list invalid. *)
Lemma day_duration_rejected t :
  T_ClusterID t ≠ "" → CertDuration t = 0 → CertDurationStr t = "30d" →
  NewTenants [t] = Err (BadCertDuration (T_ClusterID t) "30d").
Proof.
  intros H1%seqb_false H2 H3. unfold NewTenants. simpl. rewrite H1, lookup_empty.
  unfold resolve_duration. by rewrite H2, H3.
Qed.
