(* ===== verification/Signer.v ===== *)
(** * Certificate signing

    [internal/auth/sign.go]: the leaf certificate minted for an authoritative
    identity. PEM and ASN.1 decoding, signatures and the random serial come
    from the cryptographic library and are parameters. *)
From S2P Require Import Prelude GoStrings Identity.
From Stdlib Require Import Ascii.

(** ** SPIFFE names as URLs

    [url.Parse("spiffe://muthur/" + rest)]: the fragment and query are cut off,
    control bytes are refused and percent escapes decoded. *)
Definition is_ctl (a : ascii) : bool := (Z_of_byte a <? 32) || (Z_of_byte a =? 127).

Fixpoint unescape (s : string) : option string :=
  match s with
  | EmptyString => Some EmptyString
  | String "%" (String a (String b s)) =>
      hi ← hex_value a; lo ← hex_value b; r ← unescape s;
      Some (String (byte_of_Z (16 * hi + lo)) r)
  | String "%" _ => None
  | String c s => r ← unescape s; Some (String c r)
  end.

Definition before_byte (a : ascii) (s : string) : string :=
  match Cut s a with Some (b, _) => b | None => s end.

Definition after_byte (a : ascii) (s : string) : string :=
  match Cut s a with Some (_, r) => r | None => EmptyString end.

Definition parse_spiffe (rest : string) : option URL :=
  let u := before_byte "#" rest in
  if existsb is_ctl (String.list_ascii_of_string u) then None
  else
    path ← unescape ("/" +:+ before_byte "?" u);
    _ ← unescape (after_byte "#" rest);
    Some (MkURL spiffeScheme spiffeHost path).

(** ** The signer *)

(** A [pkix.Name]: the common name, and the other attributes (country,
    organization, unit, ...) with their values. *)
Record Name := MkName { Name_CommonName : string; Name_others : list (string * string) }.

(** A certificate request: its claimed subject and its public key. *)
Record CertificateRequest := MkCSR { CSR_Subject : Name; CSR_PublicKey : string }.

(** The [x509.KeyUsage] and [x509.ExtKeyUsage] constants the template uses. *)
Inductive KeyUsage := KeyUsageDigitalSignature | KeyUsageKeyEncipherment.
Inductive ExtKeyUsage := ExtKeyUsageClientAuth.

(** The certificate template handed to [x509.CreateCertificate]. A URI that
    failed to parse is a nil pointer, [None]. *)
Record Leaf := MkLeaf {
  Leaf_SerialNumber : Z;
  Leaf_Subject : Name;
  Leaf_URIs : list (option URL);
  Leaf_NotBefore : Time;
  Leaf_NotAfter : Time;
  Leaf_KeyUsage : list KeyUsage;
  Leaf_ExtKeyUsage : list ExtKeyUsage;
  Leaf_PublicKey : string;
}.

Definition Leaf_CommonName (l : Leaf) : string := Name_CommonName (Leaf_Subject l).

Inductive sign_error :=
| BadCSR
| BadCSRSignature
| NoSerial
| CreateFailed (msg : string).

(** The parameters: decoding a PEM request, its self-signature, and the
    creation of the PEM certificate. *)
Class CertLib := {
  parse_csr : string → option CertificateRequest;
  check_csr : string → bool;
  create_certificate : Leaf → result string string;
  ca_pem : string;
}.

(** [NewSignerFromFiles] sets the ceiling to 30 days. *)
Record Signer := MkSigner { MaxLeafDuration : Duration }.
Definition production_signer : Signer := MkSigner (30 * 24 * Hour).

Definition clamp_duration (sg : Signer) (duration : Duration) : Duration :=
  if (duration <=? 0) || (MaxLeafDuration sg <? duration) then MaxLeafDuration sg else duration.

Definition identity_uris (id : Identity) : list (option URL) :=
  if negb (seqb (TenantID id) "") then [parse_spiffe (TenantID id +:+ "/" +:+ ClusterID id)] else [].

(** The template: the subject is the request's, with the common name
    overwritten. *)
Definition template (serial : Z) (csr : CertificateRequest) (id : Identity) (notBefore notAfter : Time) : Leaf :=
  MkLeaf serial (MkName (ClusterID id) (Name_others (CSR_Subject csr))) (identity_uris id) notBefore notAfter
    [KeyUsageDigitalSignature; KeyUsageKeyEncipherment] [ExtKeyUsageClientAuth] (CSR_PublicKey csr).

Section sign.
Context `{!Clock, !CertLib} {S : Type}.

(** [serial] is the result of [randomSerial]. *)
Definition Sign (sg : Signer) (serial : option Z) (csrPEM : string) (id : Identity)
    (duration : Duration) : M S (result sign_error string) :=
  match parse_csr csrPEM with
  | None => mret (Err BadCSR)
  | Some csr =>
    if negb (check_csr csrPEM) then mret (Err BadCSRSignature) else
    let duration := clamp_duration sg duration in
    match serial with
    | None => mret (Err NoSerial)
    | Some serial =>
      t1 ← time_Now;
      t2 ← time_Now;
      let tpl := template serial csr id (Add t1 (- Minute)) (Add t2 duration) in
      match create_certificate tpl with
      | Err e => mret (Err (CreateFailed e))
      | Ok pem => mret (Ok pem)
      end
    end
  end.
End sign.

(** ** Lemmas *)

(** Bytes that stand for themselves in a path segment. *)
Definition plain_byte (a : ascii) : bool :=
  negb (is_ctl a) && negb (in_cutset "/#?%" a).

Definition plain (s : string) : bool := forallb plain_byte (String.list_ascii_of_string s).

Lemma plain_cons a s : plain (String a s) = true → plain_byte a = true ∧ plain s = true.
Proof. intros H. by apply andb_true_iff in H. Qed.

Lemma plain_byte_ne a b : plain_byte a = true → in_cutset "/#?%" b = true → Ascii.eqb a b = false.
Proof.
  intros Ha Hb. destruct (Ascii.eqb_spec a b) as [->|]; [|done].
  unfold plain_byte in Ha. rewrite Hb in Ha. by rewrite andb_false_r in Ha.
Qed.

(** Bytes a SPIFFE path is made of: plain bytes and slashes. *)
Definition path_byte (a : ascii) : bool := plain_byte a || Ascii.eqb a "/".

Definition pathy (s : string) : bool := forallb path_byte (String.list_ascii_of_string s).

Lemma pathy_cons a s : pathy (String a s) = true → path_byte a = true ∧ pathy s = true.
Proof. intros H. by apply andb_true_iff in H. Qed.

Lemma pathy_app s t : pathy (s +:+ t) = pathy s && pathy t.
Proof.
  unfold pathy. induction s as [|a s IH]; [done|]. simpl. rewrite <- andb_assoc. by f_equal.
Qed.

Lemma plain_pathy s : plain s = true → pathy s = true.
Proof.
  induction s as [|a s IH]; [done|]. intros [Ha Hs]%plain_cons. apply andb_true_iff.
  split; [by apply orb_true_iff; left|by apply IH].
Qed.

Lemma path_byte_cases a : path_byte a = true →
  is_ctl a = false ∧ Ascii.eqb a "#" = false ∧ Ascii.eqb a "?" = false ∧ Ascii.eqb a "%" = false.
Proof. destruct a as [[] [] [] [] [] [] [] []]; vm_compute; auto. Qed.

Lemma Cut_None s a : lacks a s = true → Cut s a = None.
Proof.
  induction s as [|b s IH]; simpl; [done|]. intros [Hb Hs]%andb_true_iff.
  apply negb_true_iff in Hb as ->. by rewrite IH.
Qed.

Lemma pathy_lacks s : pathy s = true →
  lacks "#" s = true ∧ lacks "?" s = true ∧
  existsb is_ctl (String.list_ascii_of_string s) = false ∧ unescape s = Some s.
Proof.
  induction s as [|a s IH]; [done|]. intros [Ha Hs]%pathy_cons.
  destruct (IH Hs) as (H1 & H2 & H3 & H4).
  destruct (path_byte_cases a Ha) as (E1 & E2 & E3 & E4).
  simpl. rewrite E1, E2, E3, H1, H2, H3. split_and!; [done..|].
  assert (∀ r, unescape s = Some r → unescape (String a s) = Some (String a r)) as Hu.
  { intros r Hr. destruct a as [[] [] [] [] [] [] [] []]; try (simpl; rewrite Hr; done).
    by vm_compute in E4. }
  exact (Hu s H4).
Qed.

Lemma parse_spiffe_plain t c :
  plain t = true → plain c = true →
  parse_spiffe (t +:+ "/" +:+ c) = Some (MkURL spiffeScheme spiffeHost ("/" +:+ t +:+ "/" +:+ c)).
Proof.
  intros Ht%plain_pathy Hc%plain_pathy.
  assert (pathy (t +:+ "/" +:+ c) = true) as Hp by (by rewrite pathy_app, Ht).
  assert (pathy ("/" +:+ t +:+ "/" +:+ c) = true) as Hp' by done.
  destruct (pathy_lacks _ Hp) as (H1 & H2 & H3 & _).
  destruct (pathy_lacks _ Hp') as (_ & _ & _ & H4).
  unfold parse_spiffe, before_byte, after_byte.
  rewrite (Cut_None _ _ H1), (Cut_None _ _ H2), H3, H4. done.
Qed.

Lemma plain_lacks_slash s : plain s = true → lacks "/" s = true.
Proof.
  induction s as [|a s IH]; [done|]. intros [Ha Hs]%plain_cons. simpl.
  by rewrite (plain_byte_ne a "/" Ha), (IH Hs).
Qed.

Lemma parseSpiffePath_plain t c :
  t ≠ "" → c ≠ "" → plain t = true → plain c = true →
  parseSpiffePath (MkURL spiffeScheme spiffeHost ("/" +:+ t +:+ "/" +:+ c)) = Ok (t, c).
Proof.
  intros Ht Hc Pt%plain_lacks_slash Pc%plain_lacks_slash. unfold parseSpiffePath. simpl Host.
  rewrite seqb_refl. simpl negb. cbv iota. simpl Path.
  change ("/" +:+ c) with (String "/" c).
  change (String "/" (t +:+ String "/" c)) with (String "/"%char (t +:+ String "/"%char c)).
  rewrite Trim_between by done. rewrite Split_sep, Split_lacks by done.
  apply seqb_false in Ht as ->. by apply seqb_false in Hc as ->.
Qed.

(** What a successful [Sign] handed to the certificate library. *)
Lemma Sign_Ok `{!Clock, !CertLib} {S} sg serial csrPEM id duration n (s : S) pem c' :
  Sign sg serial csrPEM id duration (n, s) = (Ok pem, c') →
  ∃ csr sn, parse_csr csrPEM = Some csr ∧ check_csr csrPEM = true ∧ serial = Some sn ∧
    c' = (Datatypes.S (Datatypes.S n), s) ∧
    create_certificate (template sn csr id (clk n - Minute)
      (clk (Datatypes.S n) + clamp_duration sg duration)) = Ok pem.
Proof.
  unfold Sign. munfold. destruct (parse_csr csrPEM) as [csr|]; [|done].
  destruct (check_csr csrPEM); [|done]. destruct serial as [sn|]; [|done]. simpl.
  unfold Add. destruct (create_certificate _) as [p|] eqn:E; [|done]. intros [= <- <-].
  exists csr, sn. split_and!; [done..|]. rewrite <- E. do 2 f_equal.
Qed.

(** [Sign] never touches the component's state. *)
Lemma Sign_state `{!Clock, !CertLib} {S} sg serial csrPEM id duration n (s : S) r n' s' :
  Sign sg serial csrPEM id duration (n, s) = (r, (n', s')) → s' = s ∧ (n ≤ n')%nat.
Proof.
  unfold Sign. munfold. destruct (parse_csr csrPEM) as [csr|]; [|intros [= <- <- <-]; done].
  destruct (check_csr csrPEM); [|intros [= <- <- <-]; done].
  destruct serial as [sn|]; [|intros [= <- <- <-]; done]. simpl.
  destruct (create_certificate _); intros [= <- <- <-]; split; (done || lia).
Qed.

(** ** Properties *)

(** Times of certificates are encoded in whole seconds. *)
Definition whole_second (t : Time) : Time := t - t mod Second.

(** A URI that certificates carry unchanged. *)
Definition spiffe_uri (u : option URL) : Prop :=
  ∃ t c, t ≠ "" ∧ c ≠ "" ∧ plain t = true ∧ plain c = true ∧
    u = Some (MkURL spiffeScheme spiffeHost ("/" +:+ t +:+ "/" +:+ c)).

(** What the certificate library promises to the one who presents a certificate it
    made: parsed back, it has the serial, the URIs and the common name of the
    template, and its last second of validity. *)
Class CertParse `{!CertLib} := {
  parse_certificate : string → option Certificate;
  parse_created l pem : create_certificate l = Ok pem → Forall spiffe_uri (Leaf_URIs l) →
    parse_certificate pem = Some (MkCertificate (Leaf_SerialNumber l) (omap id (Leaf_URIs l)) (Leaf_CommonName l)
      (whole_second (Leaf_NotAfter l)));
}.

(** C21: a minted certificate binds the caller's authoritative identity. For a tenant
    and a cluster that are not empty and have no slash, [#], [?], percent sign or
    control byte, the identity read back from the presented certificate is the tenant
    and the cluster it was signed for, whatever the request claims, and expires when
    the template does, cut to the second. The template is for client authentication
    only; of the request it has the public key and the attributes of the subject
    other than the common name. *)
Theorem sign_extract_roundtrip `{HC : !Clock, HL : !CertLib, HP : !CertParse} {S : Type}
    (sg : Signer) (serial : option Z) (csrPEM : string) (i : Identity) (d : Duration)
    (n : nat) (s : S) (pem : string) (c' : nat * S) :
  TenantID i ≠ "" → ClusterID i ≠ "" → plain (TenantID i) = true → plain (ClusterID i) = true →
  Sign sg serial csrPEM i d (n, s) = (Ok pem, c') →
  ∃ csr leaf cert i', parse_csr csrPEM = Some csr ∧ create_certificate leaf = Ok pem ∧
    Leaf_Subject leaf = MkName (ClusterID i) (Name_others (CSR_Subject csr)) ∧
    Leaf_PublicKey leaf = CSR_PublicKey csr ∧ Leaf_ExtKeyUsage leaf = [ExtKeyUsageClientAuth] ∧
    parse_certificate pem = Some cert ∧ ExtractFromCert (Some cert) = Ok i' ∧
    TenantID i' = TenantID i ∧ ClusterID i' = ClusterID i ∧
    NotAfter i' = whole_second (clk (Datatypes.S n) + clamp_duration sg d).
Proof.
  intros Ht Hc Pt Pc H. apply Sign_Ok in H as (csr & sn & Hr & _ & _ & _ & H).
  assert (identity_uris i = [Some (MkURL spiffeScheme spiffeHost ("/" +:+ TenantID i +:+ "/" +:+ ClusterID i))]) as Hu.
  { unfold identity_uris. rewrite (proj2 (seqb_false _ _) Ht). cbn [negb]. by rewrite parse_spiffe_plain. }
  eexists csr, _, _, _. split_and!; [done|exact H|done..| | | | |].
  - apply parse_created; [exact H|]. cbn [template Leaf_URIs]. rewrite Hu. apply Forall_singleton.
    exists (TenantID i), (ClusterID i). done.
  - cbn [template Leaf_URIs Leaf_SerialNumber Leaf_NotAfter]. rewrite Hu. unfold ExtractFromCert.
    cbn [omap list_omap id URIs first_spiffe Scheme].
    rewrite seqb_refl, parseSpiffePath_plain by done. cbn [negb]. unfold mbind, result_bind.
    rewrite !(proj2 (seqb_false _ _) Hc). reflexivity.
  - done.
  - done.
  - done.
Qed.

(** A certificate library for examples: any request parses and verifies. *)
Definition sample_certlib : CertLib := {|
  parse_csr := λ s, Some (MkCSR (MkName "mallory" [("O", "evil")]) s);
  check_csr := λ _, true;
  create_certificate := λ l, Ok ("leaf:" +:+ Leaf_CommonName l);
  ca_pem := "ca";
|}.

(** A library that makes one certificate, for examples. *)
Definition sample_leaf : Leaf :=
  template 7 (MkCSR (MkName "mallory" [("O", "evil")]) "pem") (MkIdentity "acme" "prod-a" 0 "")
    (@clk unix_seconds_clock 0 - Minute) (@clk unix_seconds_clock 1 + 30 * 24 * Hour).

#[local] Instance Leaf_eq_dec : EqDecision Leaf.
Proof.
  assert (EqDecision KeyUsage) by solve_decision. assert (EqDecision ExtKeyUsage) by solve_decision.
  assert (EqDecision URL) by solve_decision. assert (EqDecision Name) by solve_decision. solve_decision.
Defined.

Definition single_certlib : CertLib := {|
  parse_csr := λ s, Some (MkCSR (MkName "mallory" [("O", "evil")]) s);
  check_csr := λ _, true;
  create_certificate := λ l, if decide (l = sample_leaf) then Ok "leaf:prod-a" else Err "no";
  ca_pem := "ca";
|}.

Definition single_parse : @CertParse single_certlib.
Proof.
  refine (@Build_CertParse single_certlib (λ _, Some (MkCertificate 7 (omap id (Leaf_URIs sample_leaf)) "prod-a"
    (whole_second (Leaf_NotAfter sample_leaf)))) _).
  intros l pem. cbn. by destruct (decide (l = sample_leaf)) as [->|].
Defined.

Lemma sign_extract_roundtrip_witness :
  let HL := single_certlib in let HP := single_parse in
  ∃ csr leaf cert i', parse_csr "pem" = Some csr ∧ create_certificate leaf = Ok "leaf:prod-a" ∧
    Leaf_Subject leaf = MkName "prod-a" (Name_others (CSR_Subject csr)) ∧
    Leaf_PublicKey leaf = CSR_PublicKey csr ∧ Leaf_ExtKeyUsage leaf = [ExtKeyUsageClientAuth] ∧
    parse_certificate "leaf:prod-a" = Some cert ∧ ExtractFromCert (Some cert) = Ok i' ∧
    TenantID i' = "acme" ∧ ClusterID i' = "prod-a" ∧
    NotAfter i' = whole_second (@clk unix_seconds_clock 1 + 30 * 24 * Hour).
Proof.
  intros HL HP.
  apply (sign_extract_roundtrip (HC := unix_seconds_clock) (HL := HL) (HP := HP) production_signer (Some 7)
    "pem" (MkIdentity "acme" "prod-a" 0 "") 0 0 tt "leaf:prod-a" (2%nat, tt));
    [done|done|vm_compute; reflexivity..].
Defined.

(** Whatever duration is asked for, a minted certificate expires no later
    than the ceiling after the clock reading that dated it, is back-dated by
    one minute only, and carries the key of a request whose self-signature was
    checked. *)
Theorem sign_validity_bounded `{HC : !Clock, HL : !CertLib} {S : Type}
    (sg : Signer) (serial : option Z) (csrPEM : string) (i : Identity) (d : Duration)
    (n : nat) (s : S) (pem : string) (c' : nat * S) :
  0 < MaxLeafDuration sg →
  Sign sg serial csrPEM i d (n, s) = (Ok pem, c') →
  ∃ leaf csr, create_certificate leaf = Ok pem ∧
    parse_csr csrPEM = Some csr ∧ check_csr csrPEM = true ∧ Leaf_PublicKey leaf = CSR_PublicKey csr ∧
    Leaf_CommonName leaf = ClusterID i ∧
    Leaf_NotBefore leaf = clk n - Minute ∧
    clk (Datatypes.S n) < Leaf_NotAfter leaf <= clk (Datatypes.S n) + MaxLeafDuration sg ∧
    (0 < d <= MaxLeafDuration sg → Leaf_NotAfter leaf = clk (Datatypes.S n) + d).
Proof.
  intros Hm H. apply Sign_Ok in H as (csr & sn & Hp & Hs & _ & _ & H).
  eexists _, csr. split; [exact H|]. simpl. unfold clamp_duration.
  destruct (_ || _) eqn:E; [|apply orb_false_iff in E as [E1 E2]; zbool].
  - split_and!; [done..|lia|lia|]. intros Hd. apply orb_true_iff in E as [E|E]; zbool; lia.
  - split_and!; done || lia.
Qed.

Lemma sign_validity_bounded_witness :
  let HL := sample_certlib in
  ∃ leaf csr, create_certificate leaf = Ok "leaf:prod-a" ∧
    parse_csr "pem" = Some csr ∧ check_csr "pem" = true ∧ Leaf_PublicKey leaf = CSR_PublicKey csr ∧
    Leaf_CommonName leaf = "prod-a" ∧
    Leaf_NotBefore leaf = @clk unix_seconds_clock 0 - Minute ∧
    @clk unix_seconds_clock 1 < Leaf_NotAfter leaf <= @clk unix_seconds_clock 1 + 30 * 24 * Hour ∧
    (0 < 10 * 365 * 24 * Hour <= 30 * 24 * Hour → Leaf_NotAfter leaf = @clk unix_seconds_clock 1 + 10 * 365 * 24 * Hour).
Proof.
  intros HL.
  apply (sign_validity_bounded (HC := unix_seconds_clock) (HL := HL) production_signer (Some 7)
    "pem" (MkIdentity "acme" "prod-a" 0 "") (10 * 365 * 24 * Hour) 0 tt "leaf:prod-a" (2%nat, tt));
    reflexivity.
Defined.
