(* ===== verification/Issue.v ===== *)
(** * Certificate issuance

    The bootstrap path ([internal/auth/bootstrap.go], [BootstrapHandler.Issue])
    and the renewal path ([internal/auth/renew.go], [RenewHandler.Issue]). The
    snapshot [tenants] is what [TenantsProvider.Current()] answers during the
    call. *)
From S2P Require Import Prelude GoStrings Sha256 Store Identity Tenants Signer.

Inductive bootstrap_error :=
| ErrBootstrapBadRequest
| ErrBootstrapUnauthorized
| ErrBootstrapForbidden
| ErrBootstrapInternal.

Record BootstrapInput := MkBootstrapInput {
  In_ClusterID : string;
  In_BootstrapToken : string;
  In_CSRPEM : string;
}.

(** [BootstrapResult] and [RenewResult] have the same fields. *)
Record IssueResult := MkIssueResult { CertificatePEM : string; CAPEM : string }.

Definition wantHash (t : Tenant) : string :=
  TrimPrefix (ToLower (BootstrapTokenHash t)) "sha256:".

Definition usedKey (prefix clusterID : string) : string :=
  prefix +:+ "bootstrap:used:" +:+ clusterID.

Section bootstrap.
Context `{!Clock, !CertLib} {S : Type} `{!Store S}.

(** [!exp.IsZero() && h.now().After(exp)]: the clock is read only when an
    expiry is set. *)
Definition past_expiry (exp : Time) : M S bool :=
  if IsZero exp then mret false
  else now ← time_Now; mret (After now exp).

(** How long the used marker lives: 24 hours, or up to the expiry if that is
    later. *)
Definition marker_ttl (exp : Time) : M S Duration :=
  let ttl := 24 * Hour in
  if IsZero exp then mret ttl
  else now ← time_Now;
       let d := Sub exp now in
       mret (if ttl <? d then d else ttl).

Definition Bootstrap_Issue (prefix : string) (sg : Signer) (tenants : option (gmap string Tenant))
    (serial : option Z) (inp : BootstrapInput) : M S (result bootstrap_error IssueResult) :=
  if seqb (In_ClusterID inp) "" || seqb (In_BootstrapToken inp) "" || seqb (In_CSRPEM inp) ""
  then mret (Err ErrBootstrapBadRequest) else
  match tenants with
  | None => mret (Err ErrBootstrapInternal)
  | Some _ =>
    match Lookup tenants (In_ClusterID inp) with
    | None => mret (Err ErrBootstrapUnauthorized)
    | Some tenant =>
      if Revoked tenant then mret (Err ErrBootstrapUnauthorized) else
      late ← past_expiry (BootstrapExpiresAt tenant);
      if (late : bool) then mret (Err ErrBootstrapUnauthorized) else
      let gotHash := sha256_hex (In_BootstrapToken inp) in
      if negb (seqb (wantHash tenant) gotHash) then mret (Err ErrBootstrapUnauthorized) else
      ttl ← marker_ttl (BootstrapExpiresAt tenant);
      let key := usedKey prefix (In_ClusterID inp) in
      r ← store_SetNX key (String (byte_of_Z 1) "") ttl;
      match r with
      | Err _ => mret (Err ErrBootstrapInternal)
      | Ok set =>
        if negb set then mret (Err ErrBootstrapUnauthorized) else
        c ← Sign sg serial (In_CSRPEM inp)
              (MkIdentity (T_TenantID tenant) (T_ClusterID tenant) 0 "") (CertDuration tenant);
        match c with
        | Err _ =>
            (* roll the marker back; the outcome of the deletion is ignored *)
            store_Delete key;;
            mret (Err ErrBootstrapBadRequest)
        | Ok certPEM => mret (Ok (MkIssueResult certPEM ca_pem))
        end
      end
    end
  end.
End bootstrap.

Inductive renew_error := ErrRenewNoIdentity | ErrRenewBadRequest | ErrRenewForbidden.

Section renew.
Context `{!Clock, !CertLib} {S : Type}.

Definition Renew_Issue (sg : Signer) (tenants : option (gmap string Tenant)) (ctx : option Identity)
    (serial : option Z) (csrPEM : string) : M S (result renew_error IssueResult) :=
  match FromContext ctx with
  | None => mret (Err ErrRenewNoIdentity)
  | Some id =>
    match tenants with
    | None => mret (Err ErrRenewForbidden)
    | Some _ =>
      let tenant := Lookup tenants (ClusterID id) in
      if match tenant with Some t => Revoked t | None => false end
      then mret (Err ErrRenewForbidden) else
      if seqb csrPEM "" then mret (Err ErrRenewBadRequest) else
      let duration :=
        match tenant with
        | Some t => if 0 <? CertDuration t then CertDuration t else MaxLeafDuration sg
        | None => MaxLeafDuration sg
        end in
      c ← Sign sg serial csrPEM id duration;
      match c with
      | Err _ => mret (Err ErrRenewBadRequest)
      | Ok certPEM => mret (Ok (MkIssueResult certPEM ca_pem))
      end
    end
  end.
End renew.

(** ** Lemmas *)

Section lemmas.
Context `{HC : !Clock, HL : !CertLib} {S : Type} `{HS : !Store S, HSp : !StoreSpec S}.

Lemma past_expiry_false exp n (s : S) n1 s1 :
  past_expiry exp (n, s) = (false, (n1, s1)) →
  s1 = s ∧ (n ≤ n1)%nat ∧ (exp ≠ 0 → clk n <= exp).
Proof.
  unfold past_expiry. munfold. destruct (IsZero exp) eqn:E; unfold IsZero, After in *; zbool.
  - intros [= <- <-]. split_and!; [done|lia|done].
  - intros [= Ha <- <-]. zbool. split_and!; [done|lia|done].
Qed.

Lemma marker_ttl_spec exp n (s : S) ttl n1 s1 :
  marker_ttl exp (n, s) = (ttl, (n1, s1)) →
  s1 = s ∧ (n ≤ n1)%nat ∧ 24 * Hour <= ttl ∧
  (exp ≠ 0 → exp - clk n < 2 ^ 63 → exp <= clk n + ttl).
Proof.
  unfold marker_ttl. munfold. destruct (IsZero exp) eqn:E; unfold IsZero in E; zbool.
  - intros [= <- <- <-]. split_and!; [done|lia|done|done].
  - mstep. unfold Sub. destruct (24 * Hour <? _) eqn:E2; intros [= <- <- <-]; zbool;
      split_and!; first [done | lia | unfold Hour in *; lia].
Qed.

(** What a successful bootstrap went through. *)
Lemma Bootstrap_Ok prefix sg tenants serial inp n (s : S) r c' :
  Bootstrap_Issue prefix sg tenants serial inp (n, s) = (Ok r, c') →
  ∃ tenant ttl n1 n2 c3,
    Lookup tenants (In_ClusterID inp) = Some tenant ∧ Revoked tenant = false ∧
    (BootstrapExpiresAt tenant ≠ 0 → clk n <= BootstrapExpiresAt tenant) ∧
    wantHash tenant = sha256_hex (In_BootstrapToken inp) ∧
    (n ≤ n1)%nat ∧ marker_ttl (BootstrapExpiresAt tenant) (n1, s) = (ttl, (n2, s)) ∧
    store_SetNX (usedKey prefix (In_ClusterID inp)) (String (byte_of_Z 1) "") ttl (n2, s) = (Ok true, c3) ∧
    Sign sg serial (In_CSRPEM inp) (MkIdentity (T_TenantID tenant) (T_ClusterID tenant) 0 "")
      (CertDuration tenant) c3 = (Ok (CertificatePEM r), c').
Proof.
  unfold Bootstrap_Issue. destruct (_ || _ || _); [done|]. destruct tenants as [ts|]; [|done].
  destruct (Lookup (Some ts) _) as [tenant|] eqn:El; [|done]. destruct (Revoked tenant) eqn:Er; [done|].
  unfold mbind, M_bind. destruct (past_expiry _ (n, s)) as [late [n1 s1]] eqn:Ep.
  destruct late; [done|]. apply past_expiry_false in Ep as (-> & Hn1 & Hexp).
  destruct (seqb (wantHash tenant) _) eqn:Eh; simpl; [|done]. apply seqb_true in Eh.
  destruct (marker_ttl _ (n1, s)) as [ttl [n2 s2]] eqn:Em.
  assert (s2 = s) as -> by (by apply marker_ttl_spec in Em as (-> & _)).
  destruct (store_SetNX _ _ _ _) as [[[]|e] c3] eqn:Es; simpl; [|done|done].
  destruct (Sign _ _ _ _ _ c3) as [[pem|e] c4] eqn:Eg; simpl.
  - intros [= <- <-]. exists tenant, ttl, n1, n2, c3. split_and!; done.
  - by destruct (store_Delete _ _).
Qed.

Lemma past_expiry_state exp n (s : S) b n1 s1 :
  past_expiry exp (n, s) = (b, (n1, s1)) → s1 = s ∧ (n ≤ n1)%nat.
Proof. unfold past_expiry. munfold. destruct (IsZero exp); intros [= <- <- <-]; split; (done || lia). Qed.

(** While the marker is held no attempt removes it: the roll-back deletes
    only a marker that the same attempt has written. *)
Lemma Bootstrap_holds k v e prefix sg tenants serial inp n (s : S) r n' s' :
  Bootstrap_Issue prefix sg tenants serial inp (n, s) = (r, (n', s')) →
  before (clk n') e = true → holds_until k v e (n, s) →
  (n ≤ n')%nat ∧ holds_until k v e (n', s').
Proof.
  unfold Bootstrap_Issue. intros H He Hh. revert H.
  destruct (_ || _ || _); [by intros [= <- <- <-]|]. destruct tenants as [ts|]; [|by intros [= <- <- <-]].
  destruct (Lookup (Some ts) _) as [tenant|]; [|by intros [= <- <- <-]].
  destruct (Revoked tenant); [by intros [= <- <- <-]|].
  unfold mbind, M_bind, mret, M_ret. destruct (past_expiry _ (n, s)) as [late [n1 s1]] eqn:Ep.
  apply past_expiry_state in Ep as [-> Hn1].
  assert (holds_until k v e (n1, s)) as Hh1 by (apply (holds_until_step k v e (n, s)); [by constructor|done]).
  destruct late; [by intros [= <- <- <-]|]. destruct (negb (seqb _ _)); [by intros [= <- <- <-]|].
  destruct (marker_ttl _ (n1, s)) as [ttl [n2 s2]] eqn:Em.
  apply marker_ttl_spec in Em as (-> & Hn2 & _).
  assert (holds_until k v e (n2, s)) as Hh2 by (apply (holds_until_step k v e (n1, s)); [by constructor|done]).
  destruct (store_SetNX _ _ _ _) as [r3 [n3 s3]] eqn:Es.
  pose proof (ev_setnx k _ _ _ _ _ _ Es) as Hev. pose proof (evolves_time _ _ _ Hev) as Hn3. simpl in Hn3.
  apply (holds_until_step k v e) in Hev; [|done].
  destruct r3 as [[]|]; [|intros [= <- <- <-]; split; [lia|done]..]. simpl.
  destruct (Sign _ _ _ _ _ _) as [r4 [n4 s4]] eqn:Eg. apply Sign_state in Eg as [-> Hn4].
  assert (holds_until k v e (n4, s3)) as Hh4 by (apply (holds_until_step k v e (n3, s3)); [by constructor|done]).
  destruct r4; [intros [= <- <- <-]; split; [lia|done]|].
  destruct (store_Delete _ _) as [r5 [n5 s5]] eqn:Ed. intros [= <- <- <-].
  pose proof (Delete_spec _ _ _ _ _ _ Ed) as (Hn5 & _). split; [lia|].
  destruct (decide (usedKey prefix (In_ClusterID inp) = k)) as [<-|Hne].
  - destruct (SetNX_true_late _ _ _ _ _ _ _ _ _ Hh2 Es) as (tc & Htc & Hl).
    pose proof (clk_mono n3 n5 ltac:(lia)).
    rewrite (before_mono tc (clk n5) e) in Hl; [done|lia|done].
  - eapply holds_until_step; [by eapply ev_delete|done].
Qed.

(** What may happen between two attempts: other work on the store, and other
    bootstrap attempts of any cluster. *)
Inductive bootstrap_env (prefix k : string) : nat * S → nat * S → Prop :=
| be_store c c' : evolves k c c' → bootstrap_env prefix k c c'
| be_issue sg tenants serial inp r c c' :
    Bootstrap_Issue prefix sg tenants serial inp c = (r, c') → (c.1 ≤ c'.1)%nat →
    bootstrap_env prefix k c c'.

Lemma bootstrap_env_time prefix k c c' : rtc (bootstrap_env prefix k) c c' → (c.1 ≤ c'.1)%nat.
Proof.
  induction 1 as [|c c1 c' [? ? H%evolves_time|] _ IH]; [done|..]; lia.
Qed.

Lemma bootstrap_env_holds prefix k v e c c' :
  rtc (bootstrap_env prefix k) c c' → before (clk c'.1) e = true →
  holds_until k v e c → holds_until k v e c'.
Proof.
  induction 1 as [|c c1 c' H Hr IH]; [done|]. intros He Hh. apply IH; [done|].
  destruct H as [c c1 H|sg tenants serial inp r [n s] [n1 s1] H _]; [by eapply holds_until_step|].
  apply bootstrap_env_time in Hr. simpl in Hr.
  eapply Bootstrap_holds; [exact H| |exact Hh].
  eapply before_mono; [|exact He]. by apply clk_mono.
Qed.
End lemmas.

(** ** Properties *)

(** C19: a bootstrap that succeeds proves the token: the cluster is in the
    tenants file, not revoked, inside its bootstrap window, the SHA-256 of the
    presented token is the configured hash, and the leaf is minted for the
    configured tenant and cluster, whatever the certificate request says. *)
Theorem bootstrap_authenticates `{HC : !Clock, HL : !CertLib} {S : Type} `{HS : !Store S, HSp : !StoreSpec S}
    (prefix : string) (sg : Signer) (tenants : option (gmap string Tenant)) (serial : option Z)
    (inp : BootstrapInput) (n : nat) (s : S) (r : IssueResult) (c' : nat * S) :
  Bootstrap_Issue prefix sg tenants serial inp (n, s) = (Ok r, c') →
  ∃ tenant leaf,
    Lookup tenants (In_ClusterID inp) = Some tenant ∧ Revoked tenant = false ∧
    (BootstrapExpiresAt tenant ≠ 0 → clk n <= BootstrapExpiresAt tenant) ∧
    wantHash tenant = sha256_hex (In_BootstrapToken inp) ∧
    create_certificate leaf = Ok (CertificatePEM r) ∧
    Leaf_CommonName leaf = T_ClusterID tenant ∧
    Leaf_URIs leaf = identity_uris (MkIdentity (T_TenantID tenant) (T_ClusterID tenant) 0 "").
Proof.
  intros (tenant & ttl & n1 & n2 & c3 & Hl & Hr & He & Hh & _ & _ & _ & Hs)%Bootstrap_Ok.
  destruct c3 as [n3 s3]. apply Sign_Ok in Hs as (csr & sn & _ & _ & _ & _ & Hs).
  eexists tenant, _. split_and!; [done..|exact Hs|done|done].
Qed.

(** A tenant whose token is "t0ken" and its store, for examples. *)
Definition bootstrap_tenant (exp : Time) : Tenant :=
  MkTenant "prod-a" "acme" ("sha256:" +:+ sha256_hex "t0ken") exp false 0 "".

Definition bootstrap_tenants (exp : Time) : option (gmap string Tenant) :=
  Some {[ "prod-a" := bootstrap_tenant exp ]}.

Definition bootstrap_request : BootstrapInput := MkBootstrapInput "prod-a" "t0ken" "csr".

Lemma bootstrap_authenticates_witness :
  let HC := unix_seconds_clock in let HL := sample_certlib in
  ∃ tenant leaf,
    Lookup (bootstrap_tenants 0) "prod-a" = Some tenant ∧ Revoked tenant = false ∧
    (BootstrapExpiresAt tenant ≠ 0 → clk 0 <= BootstrapExpiresAt tenant) ∧
    wantHash tenant = sha256_hex "t0ken" ∧
    create_certificate leaf = Ok "leaf:prod-a" ∧
    Leaf_CommonName leaf = T_ClusterID tenant ∧
    Leaf_URIs leaf = identity_uris (MkIdentity (T_TenantID tenant) (T_ClusterID tenant) 0 "").
Proof.
  intros HC HL.
  eapply (bootstrap_authenticates (HC := HC) (HL := HL) "m:" production_signer (bootstrap_tenants 0)
    (Some 7) bootstrap_request 0 Memory.NewMemory (MkIssueResult "leaf:prod-a" "ca")
    (Bootstrap_Issue "m:" production_signer (bootstrap_tenants 0) (Some 7) bootstrap_request
       (0%nat, Memory.NewMemory)).2).
  vm_compute. reflexivity.
Defined.

(** C14: a bootstrap token is used once: after a success, every further attempt
    for the same cluster is refused, whatever else happens in the store short of
    deleting the marker and whichever other bootstraps succeed, fail or roll back in
    between, if it completes within 24 hours, or a millisecond before the expiry
    the tenants file gave when the token was used. An expiry that is put off later
    does not keep the marker ([bootstrap_reuse_after_extension]). *)
Theorem bootstrap_single_use `{HC : !Clock, HL : !CertLib} {S : Type} `{HS : !Store S, HSp : !StoreSpec S}
    (prefix : string) (sg sg' : Signer) (tenants tenants' : option (gmap string Tenant))
    (serial serial' : option Z) (inp inp' : BootstrapInput) (tenant : Tenant)
    (c c1 c2 c3 : nat * S) (r : IssueResult) (r' : result bootstrap_error IssueResult) :
  Bootstrap_Issue prefix sg tenants serial inp c = (Ok r, c1) →
  Lookup tenants (In_ClusterID inp) = Some tenant →
  rtc (bootstrap_env prefix (usedKey prefix (In_ClusterID inp))) c1 c2 →
  In_ClusterID inp' = In_ClusterID inp →
  Bootstrap_Issue prefix sg' tenants' serial' inp' c2 = (r', c3) →
  clk c3.1 <= clk c.1 + 24 * Hour ∨
    (clk c3.1 + ms <= BootstrapExpiresAt tenant ∧ BootstrapExpiresAt tenant - clk c.1 < 2 ^ 63) →
  is_Ok r' = false.
Proof.
  destruct c as [n s], c1 as [n1 s1], c2 as [n2 s2], c3 as [n3 s3]. cbn [fst snd].
  intros H1 Hl Hev Hid H2 Hclk.
  apply Bootstrap_Ok in H1 as (tenant' & ttl & m1 & m2 & [m3 s3'] & Hl' & _ & _ & _ & Hm1 & Hm & Hs & Hg).
  rewrite Hl in Hl'. injection Hl' as <-. apply Sign_state in Hg as [-> Hm3].
  apply marker_ttl_spec in Hm as (_ & Hm2 & Httl & Hexp).
  apply SetNX_true_holds in Hs as (te & Hte & Hh).
  apply (holds_until_step _ _ _ _ (n1, s3')) in Hh; [|by apply ev_time].
  destruct r' as [r'|]; [exfalso|done].
  apply Bootstrap_Ok in H2 as (tenant' & ttl' & k1 & k2 & [k3 s4] & _ & _ & _ & _ & Hk1 & Hk & Hs' & Hg').
  rewrite Hid in Hs'. apply Sign_state in Hg' as [-> Hk3].
  apply marker_ttl_spec in Hk as (_ & Hk2 & _ & _).
  assert (before (clk n3) (expires te ttl) = true) as Hb.
  { unfold expires. destruct (ttl <=? 0); [done|]. simpl. apply Z.leb_le.
    pose proof (whole_ge (24 * Hour) ttl eq_refl Httl). pose proof (whole_gt ttl). unfold Hour, ms in *.
    pose proof (clk_mono n m1 Hm1). pose proof (clk_mono m1 m2 Hm2). pose proof (clk_gt0 n3). lia. }
  pose proof (SetNX_spec _ _ _ _ _ _ _ _ Hs') as [Hk3' _].
  eapply bootstrap_env_holds in Hh; [|exact Hev|].
  2: { eapply before_mono; [|exact Hb]. apply clk_mono. simpl. lia. }
  apply (holds_until_step _ _ _ _ (k2, s2)) in Hh; [|apply ev_time; lia].
  destruct (SetNX_true_late _ _ _ _ _ _ _ _ _ Hh Hs') as (tc & Htc & Hlate).
  pose proof (clk_mono k3 n3 Hk3).
  rewrite (before_mono tc (clk n3)) in Hlate; [done|lia|done].
Qed.

Lemma bootstrap_single_use_witness :
  let HC := unix_seconds_clock in let HL := sample_certlib in
  let ts := bootstrap_tenants (clk 3000) in
  let c := (0%nat, Memory.NewMemory) in
  let c1 := (Bootstrap_Issue "m:" production_signer ts (Some 7) bootstrap_request c).2 in
  is_Ok (Bootstrap_Issue "m:" production_signer ts (Some 8) bootstrap_request c1).1 = false.
Proof.
  intros HC HL ts c c1.
  eapply (bootstrap_single_use (HC := HC) (HL := HL) "m:" production_signer production_signer ts ts
    (Some 7) (Some 8) bootstrap_request bootstrap_request (bootstrap_tenant (clk 3000))
    c c1 c1 _ (MkIssueResult "leaf:prod-a" "ca")).
  - vm_compute. reflexivity.
  - reflexivity.
  - apply rtc_refl.
  - reflexivity.
  - apply surjective_pairing.
  - left. apply Z.leb_le. vm_compute. reflexivity.
Defined.

(** A clock that is read every 25 hours. *)
Definition slow_clock : Clock.
Proof.
  refine {| clk n := (unixToInternal + 90000 * Z.of_nat n) * Second |}.
  - unfold Second. intros. lia.
  - unfold unixToInternal, Second. lia.
Defined.

(** A tenant without a bootstrap expiry has no single-use token: its
    marker lives 24 hours, and the same token then mints a second leaf. *)
Theorem bootstrap_reuse_without_expiry :
  let HC := slow_clock in let HL := sample_certlib in
  let issue := λ serial, Bootstrap_Issue "m:" production_signer (bootstrap_tenants 0)
                           serial bootstrap_request in
  let c1 := (issue (Some 7) (0%nat, Memory.NewMemory)).2 in
  (issue (Some 7) (0%nat, Memory.NewMemory)).1 = Ok (MkIssueResult "leaf:prod-a" "ca") ∧
  (issue (Some 8) c1).1 = Ok (MkIssueResult "leaf:prod-a" "ca").
Proof. vm_compute. split; reflexivity. Qed.

(** The marker keeps the expiry it was made with: when a reload of the tenants file puts
    the expiry off, the marker lapses first, and the same token mints a second leaf. *)
Theorem bootstrap_reuse_after_extension :
  let HC := slow_clock in let HL := sample_certlib in
  let issue := λ exp serial, Bootstrap_Issue "m:" production_signer (bootstrap_tenants exp)
                               serial bootstrap_request in
  let c1 := (issue (clk 1) (Some 7) (0%nat, Memory.NewMemory)).2 in
  (issue (clk 1) (Some 7) (0%nat, Memory.NewMemory)).1 = Ok (MkIssueResult "leaf:prod-a" "ca") ∧
  (issue (clk 100) (Some 8) c1).1 = Ok (MkIssueResult "leaf:prod-a" "ca").
Proof. vm_compute. split; reflexivity. Qed.

(** Renewal never serves a revoked cluster and always signs for the
    identity of the caller's own certificate: the new leaf carries the
    caller's tenant and cluster and lives no longer than the ceiling. *)
Theorem renew_own_identity `{HC : !Clock, HL : !CertLib} {S : Type}
    (sg : Signer) (tenants : option (gmap string Tenant)) (ctx : option Identity) (serial : option Z)
    (csrPEM : string) (n : nat) (s : S) (r : IssueResult) (c' : nat * S) :
  0 < MaxLeafDuration sg →
  Renew_Issue sg tenants ctx serial csrPEM (n, s) = (Ok r, c') →
  ∃ i leaf, ctx = Some i ∧
    (∀ t, Lookup tenants (ClusterID i) = Some t → Revoked t = false) ∧
    create_certificate leaf = Ok (CertificatePEM r) ∧
    Leaf_CommonName leaf = ClusterID i ∧ Leaf_URIs leaf = identity_uris i ∧
    Leaf_NotAfter leaf <= clk (Datatypes.S n) + MaxLeafDuration sg.
Proof.
  intros Hm. unfold Renew_Issue. destruct ctx as [i|]; [|done]. destruct tenants as [ts|]; [|done].
  unfold FromContext. cbv iota beta zeta.
  destruct (match Lookup (Some ts) (ClusterID i) with Some t => Revoked t | None => false end) eqn:Er; [done|].
  destruct (seqb csrPEM ""); [done|]. unfold mbind, M_bind.
  destruct (Sign _ _ _ _ _ _) as [[pem|] c1] eqn:Es; [|done]. intros [= <- <-].
  apply Sign_Ok in Es as (csr & sn & _ & _ & _ & _ & Es). eexists i, _.
  split_and!; [done| |exact Es|done|done|].
  - intros t Ht. by rewrite Ht in Er.
  - simpl. unfold clamp_duration. destruct (_ || _) eqn:E; [lia|].
    apply orb_false_iff in E as [_ E]; zbool. lia.
Qed.

Lemma renew_own_identity_witness :
  let HC := unix_seconds_clock in let HL := sample_certlib in
  ∃ i leaf, Some (MkIdentity "acme" "prod-a" 0 "1") = Some i ∧
    (∀ t, Lookup (bootstrap_tenants 0) (ClusterID i) = Some t → Revoked t = false) ∧
    create_certificate leaf = Ok "leaf:prod-a" ∧
    Leaf_CommonName leaf = ClusterID i ∧ Leaf_URIs leaf = identity_uris i ∧
    Leaf_NotAfter leaf <= clk 1 + MaxLeafDuration production_signer.
Proof.
  intros HC HL.
  apply (renew_own_identity (HC := HC) (HL := HL) production_signer (bootstrap_tenants 0)
    (Some (MkIdentity "acme" "prod-a" 0 "1")) (Some 7) "csr" 0 tt
    (MkIssueResult "leaf:prod-a" "ca") (2%nat, tt)); vm_compute; reflexivity.
Defined.
