(* ===== verification/Routing.v ===== *)
(** * Routing

    [internal/routing]: rules in the order of the configuration; the first rule
    whose non-empty criteria all equal the alert's fields picks the receivers. *)
From S2P Require Import Prelude Proto.

Record Match := MkMatch {
  Match_Severity : string;
  Match_ClusterID : string;
  Match_AlertName : string;
  Match_Namespace : string;
}.

Record Rule := MkRule { Rule_Name : string; Rule_Match : Match; Receivers : list string }.

Record Router := MkRouter { rules : list Rule }.

Definition routing_New (rs : list Rule) : Router := MkRouter rs.

Definition Matches (r : Rule) (payload : AlertPayload) : bool :=
  let m := Rule_Match r in
  if negb (seqb (Match_Severity m) "") && negb (seqb (Match_Severity m) (Severity payload)) then false else
  if negb (seqb (Match_ClusterID m) "") && negb (seqb (Match_ClusterID m) (ClusterId payload)) then false else
  if negb (seqb (Match_AlertName m) "") && negb (seqb (Match_AlertName m) (AlertName payload)) then false else
  if negb (seqb (Match_Namespace m) "") && negb (seqb (Match_Namespace m) (Namespace payload)) then false else
  true.

(** The loop of [Route] over the remaining rules; [[]] is Go's [nil]. *)
Fixpoint route_rules (rs : list Rule) (payload : AlertPayload) : list string :=
  match rs with
  | [] => []
  | rule :: rs => if Matches rule payload then Receivers rule else route_rules rs payload
  end.

Definition Route (r : Router) (payload : AlertPayload) : list string :=
  route_rules (rules r) payload.

(** What a rule asks for: an empty criterion accepts everything. *)
Definition accepts (criterion field : string) : Prop := criterion = "" ∨ criterion = field.

Definition rule_accepts (m : Match) (p : AlertPayload) : Prop :=
  accepts (Match_Severity m) (Severity p) ∧ accepts (Match_ClusterID m) (ClusterId p) ∧
  accepts (Match_AlertName m) (AlertName p) ∧ accepts (Match_Namespace m) (Namespace p).

Lemma accepts_test c f : negb (seqb c "") && negb (seqb c f) = false ↔ accepts c f.
Proof.
  unfold accepts. rewrite <- !seqb_true. destruct (seqb c ""), (seqb c f); simpl; intuition congruence.
Qed.

Lemma Matches_accepts r p : Matches r p = true ↔ rule_accepts (Rule_Match r) p.
Proof.
  unfold Matches, rule_accepts. rewrite <- !accepts_test.
  repeat (destruct (_ && _); [intuition congruence|]). tauto.
Qed.

(** The router delivers by the first rule, in configuration order, all of
    whose criteria accept the alert, and to nobody when no rule does; a
    catch-all rule therefore shadows everything after it. *)
Theorem route_first_match (rs : list Rule) (p : AlertPayload) :
  (∃ before rule after, rs = (before ++ rule :: after)%list ∧
     Forall (λ r, ¬ rule_accepts (Rule_Match r) p) before ∧
     rule_accepts (Rule_Match rule) p ∧ Route (routing_New rs) p = Receivers rule) ∨
  (Forall (λ r, ¬ rule_accepts (Rule_Match r) p) rs ∧ Route (routing_New rs) p = []).
Proof.
  unfold Route, routing_New; simpl. induction rs as [|r rs IH]; [by right|]. simpl.
  destruct (Matches r p) eqn:E.
  - apply Matches_accepts in E. left. exists [], r, rs. split_and!; [done|constructor|done|done].
  - assert (¬ rule_accepts (Rule_Match r) p) as Hn by (rewrite <- Matches_accepts, E; done).
    destruct IH as [(b & rule & a & -> & Hb & Hr & Hrt)|[Hf Hrt]].
    + left. exists (r :: b), rule, a. split_and!; [done|by constructor|done|done].
    + right. split; [by constructor|done].
Qed.
