(* ===== verification/Limiter.v ===== *)
(** * The LLM cost backstop

    [internal/llmlimit]: a token bucket and a concurrency semaphore per tenant.
    The code is translated over a class of number types, so that the same
    definitions run on [float64] (binary64 of [SpecFloat]) and on exact
    rationals. [Module Interleaving] lets goroutines run the atomic sections of
    [Acquire] and [Release] in any order. *)
From S2P Require Import Prelude GoTime.
From Stdlib Require Import SpecFloat QArith Lqa.

Open Scope Z_scope.

(** ** Numbers *)

Class Num (T : Type) := {
  n_of_Z : Z → T;
  n_add : T → T → T;
  n_sub : T → T → T;
  n_mul : T → T → T;
  n_div : T → T → T;
  n_ltb : T → T → bool;
}.

#[export] Instance f64_num : Num spec_float := {|
  n_of_Z := f64_of_Z; n_add := f64_add; n_sub := f64_sub; n_mul := f64_mul; n_div := f64_div;
  n_ltb := SFltb;
|}.

#[export] Instance Q_num : Num Q := {|
  n_of_Z := inject_Z; n_add := Qplus; n_sub := Qminus; n_mul := Qmult; n_div := Qdiv;
  n_ltb := λ a b, negb (Qle_bool b a);
|}.

(** [Duration.Seconds()]: whole seconds plus the rest divided by 1e9, where the
    quotient truncates toward zero. *)
Definition Seconds {T} `{!Num T} (d : Duration) : T :=
  n_add (n_of_Z (Z.quot d Second)) (n_div (n_of_Z (Z.rem d Second)) (n_of_Z (10 ^ 9))).

(** ** One limiter *)

(** [concurrency] is a buffered channel: [used] of its [cap] slots are taken. *)
Record Limiter (T : Type) := MkLimiter {
  tokens : T;
  maxTokens : T;
  refillPerSec : T;
  last : Time;
  used : nat;
  cap : nat;
}.
Arguments MkLimiter {T}. Arguments tokens {T}. Arguments maxTokens {T}.
Arguments refillPerSec {T}. Arguments last {T}. Arguments used {T}. Arguments cap {T}.

Section limiter.
Context `{!Clock} {T : Type} `{!Num T}.

Definition per_sec (callsPerMinute : Z) : T := n_div (n_of_Z callsPerMinute) (n_of_Z 60).

(** [None] is the nil limiter. *)
Definition Limiter_New {S} (callsPerMinute burst maxConcurrent : Z) : M S (option (Limiter T)) :=
  if (callsPerMinute <=? 0) || (maxConcurrent <=? 0) then mret None else
  let burst := if burst <=? 0 then callsPerMinute else burst in
  now ← time_Now;
  mret (Some (MkLimiter (n_of_Z burst) (n_of_Z burst) (per_sec callsPerMinute) now
                0 (Z.to_nat maxConcurrent))).

Definition set_used (u : nat) (l : Limiter T) : Limiter T :=
  MkLimiter (tokens l) (maxTokens l) (refillPerSec l) (last l) u (cap l).

(** [select { case l.concurrency <- struct{}{}: default: ... }]. *)
Definition take_slot : M (Limiter T) bool :=
  l ← get;
  if (used l <? cap l)%nat then put (set_used (Datatypes.S (used l)) l);; mret true
  else mret false.

(** [select { case <-l.concurrency: default: }]; also [<-l.concurrency] when
    a slot is taken. *)
Definition give_slot : M (Limiter T) unit :=
  l ← get; put (set_used (pred (used l)) l).

(** The section of [Acquire] under the mutex. *)
Definition refill (l : Limiter T) (now : Time) : T :=
  let t := n_add (tokens l) (n_mul (Seconds (Sub now (last l))) (refillPerSec l)) in
  if n_ltb (maxTokens l) t then maxTokens l else t.

Definition take_token : M (Limiter T) bool :=
  now ← time_Now;
  l ← get;
  let t := refill l now in
  if n_ltb t (n_of_Z 1)
  then put (MkLimiter t (maxTokens l) (refillPerSec l) now (used l) (cap l));; mret false
  else put (MkLimiter (n_sub t (n_of_Z 1)) (maxTokens l) (refillPerSec l) now (used l) (cap l));;
       mret true.

(** [Limiter.Acquire] and [Limiter.Release] on a non-nil limiter. *)
Definition limiter_Acquire : M (Limiter T) bool :=
  slot ← take_slot;
  if negb slot then mret false else
  token ← take_token;
  if negb token then give_slot;; mret false else
  mret true.

Definition limiter_Release : M (Limiter T) unit := give_slot.

(** The methods, on a possibly nil receiver. *)
Definition Limiter_Acquire : M (option (Limiter T)) bool := λ '(n, o),
  match o with
  | None => (true, (n, None))
  | Some l => let '(b, (n, l)) := limiter_Acquire (n, l) in (b, (n, Some l))
  end.

Definition Limiter_Release : M (option (Limiter T)) unit := λ '(n, o),
  match o with
  | None => (tt, (n, None))
  | Some l => let '(b, (n, l)) := limiter_Release (n, l) in (b, (n, Some l))
  end.
End limiter.

(** ** The pool: one limiter per cluster *)

Record Pool (T : Type) := MkPool {
  buckets : gmap string (option (Limiter T));
  callsPerMinute : Z;
  burst : Z;
  maxConcurrent : Z;
}.
Arguments MkPool {T}. Arguments buckets {T}. Arguments callsPerMinute {T}.
Arguments burst {T}. Arguments maxConcurrent {T}.

Section pool.
Context `{!Clock} {T : Type} `{!Num T}.

Definition NewPool (callsPerMinute burst maxConcurrent : Z) : option (Pool T) :=
  if (callsPerMinute <=? 0) || (maxConcurrent <=? 0) then None
  else Some (MkPool ∅ callsPerMinute burst maxConcurrent).

Definition set_bucket (id : string) (b : option (Limiter T)) (p : Pool T) : Pool T :=
  MkPool (<[id := b]> (buckets p)) (callsPerMinute p) (burst p) (maxConcurrent p).

(** [Pool.bucket]: find the bucket or create it. *)
Definition bucket (id : string) : M (Pool T) (option (Limiter T)) :=
  p ← get;
  match buckets p !! id with
  | Some b => mret b
  | None =>
      b ← Limiter_New (callsPerMinute p) (burst p) (maxConcurrent p);
      put (set_bucket id b p);;
      mret b
  end.

(** Run a method of the bucket a pointer leads to. *)
Definition on_bucket {A} (id : string) (m : M (option (Limiter T)) A) : M (Pool T) A :=
  b ← bucket id;
  λ '(n, p), let '(a, (n, b)) := m (n, b) in (a, (n, set_bucket id b p)).

Definition Pool_Acquire (id : string) : M (option (Pool T)) bool := λ '(n, o),
  match o with
  | None => (true, (n, None))
  | Some p => let '(r, (n, p)) := on_bucket id Limiter_Acquire (n, p) in (r, (n, Some p))
  end.

Definition Pool_Release (id : string) : M (option (Pool T)) unit := λ '(n, o),
  match o with
  | None => (tt, (n, None))
  | Some p => let '(r, (n, p)) := on_bucket id Limiter_Release (n, p) in (r, (n, Some p))
  end.
End pool.

(** ** Interleaved goroutines

    Every goroutine that asks for a call goes through the atomic sections of
    [Acquire], makes its call, and releases. *)
Module Interleaving.
Inductive phase :=
| Idle          (** before [Acquire], or done *)
| HasSlot       (** took a slot, about to lock the mutex *)
| GivingBack    (** refused by the bucket, the slot not yet returned *)
| Calling.      (** [Acquire] returned true; the LLM call is in flight *)

(** The outcome of a token section, for the count of granted calls. *)
Abbreviation event := (option bool).

Section step.
Context `{!Clock} {T : Type} `{!Num T}.

Abbreviation sys := (nat * Limiter T * list phase)%type.

Inductive step : event → sys → sys → Prop :=
| s_request n l gs : step None (n, l, gs) (n, l, (gs ++ [Idle])%list)
| s_time n n' l gs : (n ≤ n')%nat → step None (n, l, gs) (n', l, gs)
| s_take i n l gs n' l' :
    gs !! i = Some Idle → take_slot (n, l) = (true, (n', l')) →
    step None (n, l, gs) (n', l', <[i := HasSlot]> gs)
| s_busy i n l gs n' l' :
    gs !! i = Some Idle → take_slot (n, l) = (false, (n', l')) →
    step None (n, l, gs) (n', l', gs)
| s_token i (b : bool) n l gs n' l' :
    gs !! i = Some HasSlot → take_token (n, l) = (b, (n', l')) →
    step (Some b) (n, l, gs) (n', l', <[i := if b then Calling else GivingBack]> gs)
| s_giveback i u n l gs n' l' :
    gs !! i = Some GivingBack → give_slot (n, l) = (u, (n', l')) →
    step None (n, l, gs) (n', l', <[i := Idle]> gs)
| s_release i u n l gs n' l' :
    gs !! i = Some Calling → limiter_Release (n, l) = (u, (n', l')) →
    step None (n, l, gs) (n', l', <[i := Idle]> gs).

Inductive steps : list event → sys → sys → Prop :=
| st_nil s : steps [] s s
| st_snoc es e s s' s'' : steps es s s' → step e s' s'' → steps (es ++ [e])%list s s''.
End step.

Definition holds (p : phase) : nat := match p with Idle => 0 | _ => 1 end.
Definition holders (gs : list phase) : nat := sum_list_with holds gs.
Definition calling (gs : list phase) : nat :=
  sum_list_with (λ p, match p with Calling => 1 | _ => 0 end)%nat gs.

(** Token sections run, and those that granted a call. *)
Definition sections (es : list event) : nat := length (omap id es).
Definition granted (es : list event) : nat :=
  sum_list_with (λ e : event, match e with Some true => 1 | _ => 0 end)%nat es.

Lemma sum_list_with_insert {A} (f : A → nat) l i x y :
  l !! i = Some x → (sum_list_with f (<[i := y]> l) + f x = sum_list_with f l + f y)%nat.
Proof.
  revert i. induction l as [|a l IH]; intros [|i]; simpl; [done|done| |].
  - intros [= ->]. lia.
  - intros H. specialize (IH i H). lia.
Qed.

Lemma calling_holders gs : (calling gs ≤ holders gs)%nat.
Proof. unfold calling, holders. induction gs as [|[] gs IH]; simpl; lia. Qed.

Section invariant.
Context `{HC : !Clock} {T : Type} `{HN : !Num T}.

(** The channel holds one element per goroutine between its slot and the
    return of that slot, and never more than its capacity. *)
Definition slots_ok (k : nat) (s : nat * Limiter T * list phase) : Prop :=
  let '(_, l, gs) := s in used l = holders gs ∧ (used l ≤ cap l)%nat ∧ cap l = k.

Lemma step_slots_ok k e s s' : step e s s' → slots_ok k s → slots_ok k s'.
Proof.
  unfold slots_ok, holders.
  destruct 1 as [n l gs|n n' l gs Hn|i n l gs n' l' Hi Hs|i n l gs n' l' Hi Hs
    |i b n l gs n' l' Hi Hs|i u n l gs n' l' Hi Hs|i u n l gs n' l' Hi Hs].
  - rewrite sum_list_with_app. simpl. lia.
  - done.
  - revert Hs. unfold take_slot. munfold. destruct (_ <? _)%nat eqn:E; intros [= <- <-].
    apply Nat.ltb_lt in E. apply (sum_list_with_insert holds _ _ _ HasSlot) in Hi. simpl in *. lia.
  - revert Hs. unfold take_slot. munfold. by destruct (_ <? _)%nat; intros [= <- <-].
  - revert Hs. unfold take_token. munfold. apply (sum_list_with_insert holds _ _ _ (if b then Calling else GivingBack)) in Hi.
    destruct (n_ltb _ _); intros [= <- <- <-]; simpl in *; lia.
  - revert Hs. unfold give_slot. munfold. intros [= <- <- <-].
    apply (sum_list_with_insert holds _ _ _ Idle) in Hi. simpl in *. lia.
  - revert Hs. unfold limiter_Release, give_slot. munfold. intros [= <- <- <-].
    apply (sum_list_with_insert holds _ _ _ Idle) in Hi. simpl in *. lia.
Qed.

Lemma steps_slots_ok k es s s' : steps es s s' → slots_ok k s → slots_ok k s'.
Proof. induction 1; eauto using step_slots_ok. Qed.
End invariant.
End Interleaving.

(** ** Arithmetic up to rounding

    What the code's arithmetic owes to the exact one, as IEEE 754 rounding
    gives it: each refill and each withdrawal is off by at most [eps] while
    the amounts stay below [B]. [toQ] of a value that is no number is
    negative. Exact rationals satisfy it with [eps = 0], and [float64] with the
    bounds of [Float64]. *)
Definition elapsed (d : Duration) : Q := (inject_Z d / inject_Z (10 ^ 9))%Q.

Class NumLaws (T : Type) `{!Num T} (B eps : Q) := {
  toQ : T → Q;
  eps_range : (0 <= eps <= 1)%Q;
  of_Z_exact z : 0 < z <= 2 ^ 53 → (toQ (n_of_Z z) == inject_Z z)%Q;
  rate_nonneg c : 0 < c <= 2 ^ 53 → (0 <= toQ (per_sec c))%Q;
  refill_nonneg a d c : (0 <= toQ a <= B)%Q → 0 <= d < 2 ^ 63 → 0 < c <= 2 ^ 53 →
    (0 <= toQ (n_add a (n_mul (Seconds d) (per_sec c))))%Q;
  refill_err a d c : (0 <= toQ a <= B)%Q → 0 <= d < 2 ^ 63 → 0 < c <= 2 ^ 53 →
    (toQ a + toQ (per_sec c) * elapsed d <= B)%Q →
    (toQ (n_add a (n_mul (Seconds d) (per_sec c))) <= toQ a + toQ (per_sec c) * elapsed d + eps)%Q;
  spend_err a : (0 <= toQ a <= B)%Q → n_ltb a (n_of_Z 1) = false →
    (0 <= toQ (n_sub a (n_of_Z 1)) <= toQ a - 1 + eps)%Q;
  ltb_spec a z : (0 <= toQ a)%Q → 0 < z <= 2 ^ 53 →
    n_ltb (n_of_Z z) a = true ↔ (inject_Z z < toQ a)%Q;
}.
Arguments toQ {T _ B eps _} _.

Lemma elapsed_add a b : (elapsed (a + b) == elapsed a + elapsed b)%Q.
Proof. unfold elapsed. rewrite inject_Z_plus. field. discriminate. Qed.

Lemma elapsed_mono a b : a <= b → (elapsed a <= elapsed b)%Q.
Proof.
  intros H. unfold elapsed, Qdiv. apply Qmult_le_compat_r; [by rewrite <- Zle_Qle|].
  vm_compute. discriminate.
Qed.

Lemma Q_seconds d : (Seconds d == elapsed d)%Q.
Proof.
  unfold Seconds, elapsed. cbn [n_add n_div n_of_Z Q_num].
  assert (inject_Z d == inject_Z (10 ^ 9) * inject_Z (Z.quot d Second) + inject_Z (Z.rem d Second))%Q as E.
  { rewrite <- inject_Z_mult, <- inject_Z_plus. unfold Second.
    by rewrite <- (Z.quot_rem d (10 ^ 9)). }
  rewrite E. field. discriminate.
Qed.

#[export] Instance Q_laws B : NumLaws Q B 0.
Proof.
  assert (∀ c, 0 < c <= 2 ^ 53 → (0 <= @per_sec Q _ c)%Q) as Hr.
  { intros c Hc. unfold per_sec. cbn [n_div n_of_Z Q_num]. unfold Qdiv. apply Qmult_le_0_compat.
    - change 0%Q with (inject_Z 0). rewrite <- Zle_Qle. lia.
    - vm_compute. discriminate. }
  refine {| toQ := λ q : Q, q |}; try done; try lra; cbn [n_add n_sub n_mul n_of_Z n_ltb Q_num].
  - intros a d c Ha Hd Hc. rewrite Q_seconds. specialize (Hr c Hc).
    assert (0 <= elapsed d * per_sec c)%Q; [|lra]. apply Qmult_le_0_compat; [|done].
    apply (Qle_trans _ (elapsed 0)); [by vm_compute|]. apply elapsed_mono. lia.
  - intros a d c Ha Hd Hc Hb. rewrite Q_seconds. lra.
  - intros a Ha H. apply negb_false_iff, Qle_bool_iff in H. change (inject_Z 1) with 1%Q in *. lra.
  - intros a z Ha Hz. rewrite negb_true_iff, <- not_true_iff_false, Qle_bool_iff.
    split; [apply Qnot_le_lt|apply Qlt_not_le].
Defined.

(** ** The rate, under any interleaving *)
Section rate.
Context `{HC : !Clock} {T : Type} `{HN : !Num T} {B eps : Q} `{HL : !NumLaws T B eps}.
Import Interleaving.

(** What is fixed and what is bounded in a limiter built for [c] calls per
    minute with depth [b]. *)
Record sane (b c : Z) (n : nat) (l : Limiter T) : Prop := {
  sane_max : maxTokens l = n_of_Z b;
  sane_rate : refillPerSec l = per_sec c;
  sane_tokens : (0 <= toQ (tokens l) <= B)%Q;
  sane_last : ∃ m, last l = clk m ∧ (m ≤ n)%nat;
}.

Lemma refill_bounds b c n l m :
  sane b c n l → 0 < b <= 2 ^ 53 → (inject_Z b <= B)%Q → 0 < c <= 2 ^ 53 → (n ≤ m)%nat →
  (0 <= toQ (refill l (clk m)) <= B)%Q ∧
  (toQ (refill l (clk m)) <=
     toQ (tokens l) + toQ (per_sec c) * elapsed (clk m - last l) + eps)%Q.
Proof.
  intros [Hm Hr Ht (m0 & Hl & Hm0)] Hb HbB Hc Hn. pose proof eps_range as He.
  pose proof (clk_mono m0 m ltac:(lia)) as Hle. unfold refill. rewrite Hm, Hr.
  set (d := Sub (clk m) (last l)).
  assert (0 <= d < 2 ^ 63 ∧ d <= clk m - last l) as [Hd Hd'].
  { unfold d, Sub. rewrite Hl. lia. }
  pose proof (refill_nonneg (tokens l) d c Ht Hd Hc) as Hnn.
  pose proof (rate_nonneg c Hc) as Hr0. pose proof (elapsed_mono _ _ Hd') as Hel.
  assert (toQ (per_sec c) * elapsed d <= toQ (per_sec c) * elapsed (clk m - last l))%Q as Hmul.
  { rewrite (Qmult_comm _ (elapsed d)), (Qmult_comm _ (elapsed _)). by apply Qmult_le_compat_r. }
  pose proof (of_Z_exact b Hb) as Hex. assert (0 <= inject_Z b)%Q as Hb0.
  { change 0%Q with (inject_Z 0). rewrite <- Zle_Qle. lia. }
  destruct (Qlt_le_dec B (toQ (tokens l) + toQ (per_sec c) * elapsed d)) as [Hbig|Hsmall].
  - destruct (n_ltb _ _) eqn:E; [rewrite Hex; split; [split|]; lra|].
    apply not_true_iff_false in E. rewrite ltb_spec in E by done. split; [split|]; lra.
  - pose proof (refill_err (tokens l) d c Ht Hd Hc Hsmall) as Herr.
    destruct (n_ltb _ _) eqn:E; [apply ltb_spec in E; [|done..]; rewrite Hex; split; [split|]; lra|].
    apply not_true_iff_false in E. rewrite ltb_spec in E by done. split; [split|]; lra.
Qed.

(** One token section spends what it grants. *)
Lemma take_token_spend b c n l (g : bool) n' l' :
  sane b c n l → 0 < b <= 2 ^ 53 → (inject_Z b <= B)%Q → 0 < c <= 2 ^ 53 →
  take_token (n, l) = (g, (n', l')) →
  sane b c n' l' ∧ last l <= last l' ∧
  (inject_Z (if g then 1 else 0) + toQ (tokens l') <=
     toQ (tokens l) + toQ (per_sec c) * elapsed (last l' - last l) + (2 # 1) * eps)%Q.
Proof.
  intros Hs Hb HbB Hc. destruct (refill_bounds b c n l n Hs Hb HbB Hc ltac:(done)) as [Hr1 Hr2].
  pose proof eps_range as He. destruct Hs as [Hm Hr Ht (m0 & Hl & Hm0)].
  pose proof (clk_mono m0 n Hm0) as Hle. unfold take_token. munfold. mstep.
  destruct (n_ltb _ _) eqn:E; intros [= <- <- <-]; cbn [tokens maxTokens refillPerSec last].
  - split_and!; [|lia|change (inject_Z 0) with 0%Q; lra].
    constructor; try done. exists n. split; [done|lia].
  - destruct (spend_err _ Hr1 E) as [Hs1 Hs2]. change (inject_Z 1) with 1%Q.
    split_and!; [|lia|lra]. constructor; try done; [simpl; split; lra|]. exists n. split; [done|lia].
Qed.

Lemma take_slot_same n (l : Limiter T) b n' l' : take_slot (n, l) = (b, (n', l')) → n' = n ∧ ∃ u, l' = set_used u l.
Proof.
  unfold take_slot. munfold. destruct (_ <? _)%nat; intros [= <- <- <-]; split; eauto.
  exists (used l). by destruct l.
Qed.

Lemma give_slot_same n (l : Limiter T) u n' l' : give_slot (n, l) = (u, (n', l')) → n' = n ∧ ∃ u, l' = set_used u l.
Proof. unfold give_slot. munfold. intros [= <- <- <-]. eauto. Qed.

Lemma sane_used b c n l u : sane b c n l → sane b c n (set_used u l).
Proof. by intros []. Qed.

Lemma steps_spend b c es n l gs n' l' gs' :
  steps es (n, l, gs) (n', l', gs') →
  sane b c n l → 0 < b <= 2 ^ 53 → (inject_Z b <= B)%Q → 0 < c <= 2 ^ 53 →
  sane b c n' l' ∧ last l <= last l' ∧
  (inject_Z (Z.of_nat (granted es)) + toQ (tokens l') <=
     toQ (tokens l) + toQ (per_sec c) * elapsed (last l' - last l)
     + inject_Z (Z.of_nat (sections es)) * (2 # 1) * eps)%Q.
Proof.
  intros H Hs Hb HbB Hc. remember (n, l, gs) as s0 eqn:E0. remember (n', l', gs') as s1 eqn:E1.
  revert n' l' gs' E1. induction H as [s|es e s s' s'' H IH Hst]; intros n' l' gs' ->; subst.
  { injection E0 as -> -> ->. split_and!; [done|lia|]. rewrite Z.sub_diag.
    unfold granted, sections. simpl. change (inject_Z (Z.of_nat 0)) with 0%Q.
    assert (elapsed 0 == 0)%Q as -> by (by vm_compute). lra. }
  destruct s' as [[n1 l1] gs1]. destruct (IH eq_refl _ _ _ eq_refl) as (Hs1 & Hl1 & Hb1).
  assert (∀ n2 u, (n1 ≤ n2)%nat → e = None → n' = n2 → l' = set_used u l1 →
    sane b c n' l' ∧ last l <= last l' ∧
    (inject_Z (Z.of_nat (granted (es ++ [e]))) + toQ (tokens l') <=
     toQ (tokens l) + toQ (per_sec c) * elapsed (last l' - last l)
     + inject_Z (Z.of_nat (sections (es ++ [e]))) * (2 # 1) * eps)%Q) as Hquiet.
  { intros n2 u Hn -> -> ->. unfold granted, sections in *. rewrite sum_list_with_app, omap_app, app_nil_r.
    simpl. rewrite Nat.add_0_r. split_and!; [|done|done].
    destruct Hs1 as [? ? ? (m & ? & ?)]. constructor; try done. exists m. split; [done|lia]. }
  inversion Hst; subst.
  - apply (Hquiet n' (used l')); [done..|by destruct l'].
  - apply (Hquiet n' (used l')); [done..|by destruct l'].
  - match goal with Ht : take_slot _ = _ |- _ => apply take_slot_same in Ht as [Hn [u Hu]] end.
    by apply (Hquiet n1 u).
  - match goal with Ht : take_slot _ = _ |- _ => apply take_slot_same in Ht as [Hn [u Hu]] end.
    by apply (Hquiet n1 u).
  - edestruct take_token_spend as (Hs2 & Hl2 & Hb2); [exact Hs1|done..|].
    split_and!; [done|lia|]. unfold granted, sections in *.
    rewrite sum_list_with_app, omap_app, length_app. simpl.
    replace (last l' - last l) with ((last l1 - last l) + (last l' - last l1)) by lia.
    rewrite elapsed_add, !Nat2Z.inj_add, !inject_Z_plus.
    change (inject_Z (Z.of_nat 1)) with 1%Q. change (inject_Z (Z.of_nat 0)) with 0%Q.
    replace (Z.of_nat (if b0 then 1 else 0)%nat) with (if b0 then 1 else 0) by by destruct b0.
    lra.
  - match goal with Ht : give_slot _ = _ |- _ => apply give_slot_same in Ht as [Hn [u' Hu]] end.
    by apply (Hquiet n1 u').
  - match goal with Ht : limiter_Release _ = _ |- _ => apply give_slot_same in Ht as [Hn [u' Hu]] end.
    by apply (Hquiet n1 u').
Qed.
End rate.

Section new.
Context `{HC : !Clock} {T : Type} `{HN : !Num T}.

(** [burst <= 0] falls back to the rate. *)
Definition depth (callsPerMinute burst : Z) : Z := if burst <=? 0 then callsPerMinute else burst.

Lemma Limiter_New_Some {S} c b m n (s : S) l n1 s1 :
  Limiter_New c b m (n, s) = (Some l, (n1, s1)) →
  0 < c ∧ 0 < m ∧ 0 < depth c b ∧ n1 = Datatypes.S n ∧
  l = MkLimiter (n_of_Z (depth c b)) (n_of_Z (depth c b)) (per_sec c) (clk n) 0 (Z.to_nat m).
Proof.
  unfold Limiter_New, depth. munfold. destruct (c <=? 0) eqn:E1; [done|].
  destruct (m <=? 0) eqn:E2; [done|]. simpl. intros [= <- <- <-]. zbool.
  destruct (b <=? 0) eqn:E3; zbool; split_and!; done || lia.
Qed.
End new.

Lemma bucket_local `{HC : !Clock} {T : Type} `{HN : !Num T} (id : string) (p q : Pool T) n b n1 p1 :
  bucket id (n, p) = (b, (n1, p1)) →
  (∀ j, j ≠ id → buckets p1 !! j = buckets p !! j) ∧
  (buckets q !! id = buckets p !! id → callsPerMinute q = callsPerMinute p → burst q = burst p →
   maxConcurrent q = maxConcurrent p → ∃ q1, bucket id (n, q) = (b, (n1, q1))).
Proof.
  unfold bucket, Limiter_New. munfold. destruct (buckets p !! id) as [b0|] eqn:Eb.
  - intros [= <- <- <-]. split; [done|]. intros -> _ _ _. eauto.
  - intros H. split.
    + intros j Hj. destruct (_ || _); injection H as <- <- <-; simpl; by rewrite lookup_insert_ne.
    + intros -> -> -> ->. destruct (_ || _); injection H as <- <- <-; eauto.
Qed.

(** ** Properties *)

(** However the goroutines interleave, at most [maxConcurrent] LLM calls
    are in flight, and every taken slot belongs to a goroutine that will give
    it back: when nobody is inside, the semaphore is empty again. *)
Theorem llm_concurrency_bounded `{HC : !Clock} {T : Type} `{HN : !Num T} {S : Type}
    (c b m : Z) (n n1 n' : nat) (s s1 : S) (l l' : Limiter T)
    (es : list Interleaving.event) (gs : list Interleaving.phase) :
  Limiter_New c b m (n, s) = (Some l, (n1, s1)) →
  Interleaving.steps es (n1, l, []) (n', l', gs) →
  Z.of_nat (Interleaving.calling gs) <= m ∧ used l' = Interleaving.holders gs ∧
  (Forall (λ p, p = Interleaving.Idle) gs → used l' = 0%nat).
Proof.
  intros (Hc & Hm & _ & -> & ->)%Limiter_New_Some Hst.
  apply (Interleaving.steps_slots_ok (Z.to_nat m)) in Hst as (Hu & Hle & Hcap); [|split_and!; [done|apply Nat.le_0_l|done]].
  pose proof (Interleaving.calling_holders gs). split_and!; [lia|done|].
  intros Hf. rewrite Hu. clear -Hf. unfold Interleaving.holders.
  induction Hf as [|p gs -> _ IH]; [done|exact IH].
Qed.

(** A limiter of 60 calls per minute, two at once, for examples. *)
Definition sample_limiter (T : Type) `{!Num T} (HC : Clock) : Limiter T :=
  MkLimiter (n_of_Z 60) (n_of_Z 60) (per_sec 60) (clk 0) 0 2.

Lemma llm_concurrency_bounded_witness :
  let HC := unix_seconds_clock in
  Z.of_nat (Interleaving.calling [Interleaving.Idle]) <= 2 ∧
  used (sample_limiter spec_float HC) = Interleaving.holders [Interleaving.Idle] ∧
  (Forall (λ p, p = Interleaving.Idle) [Interleaving.Idle] → used (sample_limiter spec_float HC) = 0%nat).
Proof.
  intros HC.
  apply (llm_concurrency_bounded (HC := HC) 60 0 2 0 1 1 tt tt (sample_limiter spec_float HC) _ [None] [Interleaving.Idle]).
  - reflexivity.
  - apply (Interleaving.st_snoc [] None _ (1%nat, sample_limiter spec_float HC, [])); constructor.
Defined.

(** From its creation on, a limiter grants at most its burst plus the
    sustained rate times the elapsed time, in any interleaving, up to the
    rounding error of two operations per attempt. *)
Theorem llm_rate_bounded `{HC : !Clock} {T : Type} `{HN : !Num T} {B eps : Q} `{HL : !NumLaws T B eps}
    {S : Type} (c b m : Z) (n n1 n' : nat) (s s1 : S) (l l' : Limiter T)
    (es : list Interleaving.event) (gs : list Interleaving.phase) :
  0 < c <= 2 ^ 53 → depth c b <= 2 ^ 53 → (inject_Z (depth c b) <= B)%Q →
  Limiter_New c b m (n, s) = (Some l, (n1, s1)) →
  Interleaving.steps es (n1, l, []) (n', l', gs) →
  (inject_Z (Z.of_nat (Interleaving.granted es)) <=
     inject_Z (depth c b) + toQ (per_sec c) * elapsed (clk n' - clk n)
     + inject_Z (Z.of_nat (Interleaving.sections es)) * (2 # 1) * eps)%Q.
Proof.
  intros Hc Hd HB (_ & Hm & Hd0 & -> & ->)%Limiter_New_Some Hst.
  pose proof (of_Z_exact (depth c b) (conj Hd0 Hd)) as Hex.
  assert (0 <= inject_Z (depth c b))%Q as H0.
  { change 0%Q with (inject_Z 0). rewrite <- Zle_Qle. lia. }
  apply (steps_spend (depth c b) c) in Hst as ([_ _ [Ht _] (k & Hk & Hkn)] & Hl & Hg); [|constructor|done..].
  - cbn [tokens last] in *. rewrite Hex in Hg. rewrite Hk in *. pose proof (clk_mono k n' Hkn) as Hle.
    pose proof (rate_nonneg c Hc) as Hr.
    assert (toQ (per_sec c) * elapsed (clk k - clk n) <= toQ (per_sec c) * elapsed (clk n' - clk n))%Q as Hmul.
    { rewrite (Qmult_comm _ (elapsed (clk k - _))), (Qmult_comm _ (elapsed _)).
      apply Qmult_le_compat_r; [|done]. apply elapsed_mono. lia. }
    lra.
  - done.
  - done.
  - cbn [tokens]. rewrite Hex. split; lra.
  - exists n. split; [done|lia].
Qed.

Lemma llm_rate_bounded_witness :
  let HC := unix_seconds_clock in
  (inject_Z (Z.of_nat (Interleaving.granted [None])) <=
     inject_Z 60 + per_sec 60 * elapsed (clk 1 - clk 0) + inject_Z 0 * (2 # 1) * 0)%Q.
Proof.
  intros HC.
  apply (llm_rate_bounded (HC := HC) (HL := Q_laws (inject_Z 60)) 60 0 2 0 1 1 tt tt
    (sample_limiter Q HC) (sample_limiter Q HC) [None] [Interleaving.Idle]).
  - lia.
  - vm_compute. discriminate.
  - vm_compute. discriminate.
  - reflexivity.
  - apply (Interleaving.st_snoc [] None _ (1%nat, sample_limiter Q HC, [])); constructor.
Defined.

(** Tenants do not share a budget: acquiring for one cluster leaves every
    other cluster's bucket as it was, and its answer and its own bucket depend
    on nothing but that bucket, the settings and the clock. *)
Theorem pool_isolation `{HC : !Clock} {T : Type} `{HN : !Num T}
    (id : string) (p q p' : Pool T) (n n' : nat) (r : bool) :
  Pool_Acquire id (n, Some p) = (r, (n', Some p')) →
  (∀ j, j ≠ id → buckets p' !! j = buckets p !! j) ∧
  (buckets q !! id = buckets p !! id → callsPerMinute q = callsPerMinute p → burst q = burst p →
   maxConcurrent q = maxConcurrent p →
   ∃ q', Pool_Acquire id (n, Some q) = (r, (n', Some q')) ∧ buckets q' !! id = buckets p' !! id).
Proof.
  unfold Pool_Acquire, on_bucket, mbind, M_bind. intros H.
  destruct (bucket id (n, p)) as [b [n1 p1]] eqn:Eb. destruct (bucket_local _ _ q _ _ _ _ Eb) as [Ho Hq].
  destruct (Limiter_Acquire (n1, b)) as [a [n2 b1]] eqn:Ea. injection H as <- <- <-. split.
  - intros j Hj. simpl. rewrite lookup_insert_ne by done. by apply Ho.
  - intros H1 H2 H3 H4. destruct (Hq H1 H2 H3 H4) as (q1 & ->). rewrite Ea.
    eexists. split; [done|]. simpl. by rewrite !lookup_insert_eq.
Qed.

Lemma pool_isolation_witness :
  let HC := unix_seconds_clock in
  let p := MkPool ∅ 60 0 2 in let q := MkPool {[ "prod-b" := None ]} 60 0 2 in
  let p' := match (Pool_Acquire (T := spec_float) "prod-a" (0%nat, Some p)).2.2 with Some p' => p' | None => p end in
  (∀ j, j ≠ "prod-a" → buckets p' !! j = buckets p !! j) ∧
  (buckets q !! "prod-a" = buckets p !! "prod-a" → callsPerMinute q = callsPerMinute p → burst q = burst p →
   maxConcurrent q = maxConcurrent p →
   ∃ q', Pool_Acquire "prod-a" (0%nat, Some q) = (true, (2%nat, Some q')) ∧
         buckets q' !! "prod-a" = buckets p' !! "prod-a").
Proof. intros HC p q p'. apply (pool_isolation (HC := HC) "prod-a" p q p'). vm_compute. reflexivity. Defined.
