(* ===== verification/Float64.v ===== *)
(** * Rounding

    The arithmetic of [float64] that the limiter uses ([SpecFloat] at 53 bits)
    against exact rationals: every operation is off by at most one unit in the last
    place, comparisons are exact, and so [float64] keeps the laws [NumLaws] that the
    bounds of [Limiter] and [Budget] are proved from ([f64_laws]). Only numbers that are
    not negative are treated: a limiter holds no others. *)
From S2P Require Import Prelude GoTime Limiter.
From Stdlib Require Import SpecFloat QArith Qpower Lqa.

Open Scope Z_scope.

(** ** Powers of two *)

Definition p2 (e : Z) : Q := (2 ^ e)%Q.

Lemma p2_pos e : (0 < p2 e)%Q.
Proof. by apply Qpower_0_lt. Qed.

Lemma p2_add a b : (p2 (a + b) == p2 a * p2 b)%Q.
Proof. by apply Qpower_plus. Qed.

Lemma p2_Z e : 0 <= e → (p2 e == inject_Z (2 ^ e))%Q.
Proof. intros H. unfold p2. by rewrite Zpower_Qpower. Qed.

Lemma p2_mono a b : a <= b → (p2 a <= p2 b)%Q.
Proof. intros H. apply Qpower_le_compat_l; [done|by vm_compute]. Qed.

Lemma p2_lt a b : (p2 a < p2 b)%Q → a < b.
Proof. intros H. destruct (Z.lt_ge_cases a b) as [|Hle]; [done|]. apply p2_mono in Hle. lra. Qed.

(** ** Digits *)

Lemma Pos_size p : 2 ^ (Zpos (digits2_pos p) - 1) <= Zpos p < 2 ^ Zpos (digits2_pos p).
Proof.
  assert (∀ q, 2 ^ (Zpos (Pos.succ q) - 1) = 2 * 2 ^ (Zpos q - 1) ∧ 2 ^ Zpos (Pos.succ q) = 2 * 2 ^ Zpos q) as Hs.
  { intros q. rewrite Pos2Z.inj_succ. split; [|by rewrite Z.pow_succ_r by lia].
    rewrite <- Z.pow_succ_r by lia. f_equal. lia. }
  induction p as [p IH|p IH|]; cbn [digits2_pos]; [..|by vm_compute];
    destruct (Hs (digits2_pos p)) as [-> ->]; lia.
Qed.

Lemma Zdigits_bound m : 0 <= m → m < 2 ^ Zdigits2 m ∧ (0 < m → 2 ^ (Zdigits2 m - 1) <= m).
Proof.
  destruct m as [|p|p]; [by vm_compute|intros _|lia]. pose proof (Pos_size p). cbn [Zdigits2]. split; [lia|]. intros _. lia.
Qed.

Lemma Zdigits_nonneg m : 0 <= Zdigits2 m.
Proof. by destruct m. Qed.

(** The number of digits, from the bounds. *)
Lemma Zdigits_unique m d : 2 ^ (d - 1) <= m < 2 ^ d → Zdigits2 m = d.
Proof.
  intros [H1 H2]. assert (0 <= d) as Hd by (destruct (Z.le_gt_cases 0 d); [done|]; rewrite (Z.pow_neg_r 2 d) in H2 by lia;
    pose proof (Z.pow_nonneg 2 (d - 1)); lia).
  destruct (Z.eq_dec m 0) as [->|Hm].
  { destruct (Z.eq_dec d 0) as [->|]; [done|]. pose proof (Z.pow_pos_nonneg 2 (d - 1)). lia. }
  pose proof (Z.pow_nonneg 2 (d - 1)). destruct (Zdigits_bound m) as [H3 H4]; [lia|]. specialize (H4 ltac:(lia)).
  pose proof (Zdigits_nonneg m).
  assert (Zdigits2 m - 1 < d) by (apply (Z.pow_lt_mono_r_iff 2); lia).
  assert (d - 1 < Zdigits2 m) by (apply (Z.pow_lt_mono_r_iff 2); lia). lia.
Qed.

Lemma Zdigits_le m d : 0 <= d → 0 <= m < 2 ^ d → Zdigits2 m <= d.
Proof.
  intros Hd [H1 H2]. destruct (Z.eq_dec m 0) as [->|Hm]; [done|]. destruct (Zdigits_bound m H1) as [_ H]. specialize (H ltac:(lia)).
  assert (Zdigits2 m - 1 < d); [|lia]. apply (Z.pow_lt_mono_r_iff 2); lia.
Qed.

Lemma Zdigits_shift m k : 0 < m → 0 <= k → Zdigits2 (m * 2 ^ k) = Zdigits2 m + k.
Proof.
  intros Hm Hk. apply Zdigits_unique. destruct (Zdigits_bound m) as [H1 H2]; [lia|]. specialize (H2 Hm).
  assert (0 < Zdigits2 m) by (destruct m; done || lia).
  replace (Zdigits2 m + k - 1) with (Zdigits2 m - 1 + k) by lia. rewrite !Z.pow_add_r by lia.
  pose proof (Z.pow_pos_nonneg 2 k). split; nia.
Qed.

(** ** Shifting *)

Lemma shr_1_div mrs : 0 <= shr_m mrs → shr_m (shr_1 mrs) = shr_m mrs / 2.
Proof.
  destruct mrs as [m r s]. cbn [shr_m]. intros H. rewrite <- Z.div2_div.
  destruct m as [|[p|p|]|]; done.
Qed.

Lemma iter_shr p mrs : 0 <= shr_m mrs → shr_m (SpecFloat.iter_pos shr_1 p mrs) = shr_m mrs / 2 ^ Zpos p.
Proof.
  assert (∀ q x, 0 <= x → 0 <= x / 2 ^ Zpos q) as Hq by (intros; apply Z.div_pos; [done|by apply Z.pow_pos_nonneg]).
  assert (∀ q, 0 < 2 ^ Zpos q) as Hp by (intros; by apply Z.pow_pos_nonneg).
  revert mrs. induction p as [p IH|p IH|]; intros mrs H; cbn [SpecFloat.iter_pos]; [| |by apply shr_1_div].
  - assert (0 <= shr_m mrs / 2) by (by apply Z.div_pos). pose proof (Hp p).
    rewrite !IH, shr_1_div, !Z.div_div by (rewrite ?IH, ?shr_1_div by (rewrite ?shr_1_div by done; done); auto; lia).
    f_equal. rewrite (Pos2Z.inj_xI p), Z.pow_add_r, Z.pow_twice_r by lia. lia.
  - pose proof (Hp p). rewrite !IH, !Z.div_div by (rewrite ?IH by done; auto; lia).
    f_equal. rewrite (Pos2Z.inj_xO p), Z.pow_twice_r by lia. lia.
Qed.

Abbreviation fexp64 := (fexp 53 1024).

Lemma fexp64_eq e : fexp64 e = Z.max (e - 53) (-1074).
Proof. done. Qed.

(** Shifting to the exponent of the format: the mantissa is cut off. *)
Lemma shr_fexp_spec m e l : 0 <= m →
  let n := Z.max 0 (fexp64 (Zdigits2 m + e) - e) in
  (shr_fexp 53 1024 m e l).2 = e + n ∧ shr_m (shr_fexp 53 1024 m e l).1 = m / 2 ^ n ∧
  (n = 0 → (shr_fexp 53 1024 m e l).1 = shr_record_of_loc m l).
Proof.
  intros Hm n. unfold shr_fexp. assert (shr_m (shr_record_of_loc m l) = m) as Hr by (by destruct l as [|[]]).
  subst n. destruct (fexp64 _ - e) as [|p|p] eqn:E; cbn [shr fst snd].
  - rewrite Z.max_id, Z.div_1_r. split_and!; [lia|done|done].
  - rewrite Z.max_r by lia. rewrite iter_shr, Hr by (by rewrite Hr). split_and!; [done|done|lia].
  - rewrite Z.max_l by lia. rewrite Z.div_1_r. split_and!; [lia|done|done].
Qed.

(** ** Values *)

(** The value of a finite number; what is no number counts as negative. *)
Definition val (x : spec_float) : Q :=
  match x with
  | S754_zero _ => 0
  | S754_finite s m e => if s then - (inject_Z (Zpos m) * p2 e) else inject_Z (Zpos m) * p2 e
  | _ => -1
  end.

Abbreviation valid := (valid_binary 53 1024).

(** A mantissa of at most 53 digits at the exponent of the format. *)
Definition fits_format (m e : Z) : Prop := -1074 <= e ∧ 0 <= m <= 2 ^ 53 ∧ (-1074 < e → 2 ^ 52 <= m).

Lemma second_shift m e : fits_format m e → e <= 960 →
  let '(mrs, e') := shr_fexp 53 1024 m e loc_Exact in
  let r := match shr_m mrs with
           | Z0 => S754_zero false
           | Zpos m => if e' <=? 1024 - 53 then S754_finite false m e' else S754_infinity false
           | _ => S754_nan
           end in
  valid r = true ∧ (val r == inject_Z m * p2 e)%Q.
Proof.
  intros (He & [Hm0 Hm] & Hn) He'. destruct (shr_fexp_spec m e loc_Exact Hm0) as (H1 & H2 & _).
  destruct (shr_fexp _ _ _ _ _) as [mrs e']. cbn [fst snd] in *.
  rewrite fexp64_eq in *. destruct (Z.eq_dec m (2 ^ 53)) as [->|Hne].
  - change (Zdigits2 (2 ^ 53)) with 54 in *.
    replace (Z.max 0 (Z.max (54 + e - 53) (-1074) - e)) with 1 in * by lia. rewrite H2, H1.
    change (2 ^ 53 / 2 ^ 1) with (2 ^ 52). cbv zeta. change (2 ^ 52) with (Zpos 4503599627370496).
    destruct (Z.leb_spec (e + 1) (1024 - 53)); [|lia]. split.
    + cbn [valid_binary]. unfold bounded, canonical_mantissa. rewrite fexp64_eq. change (Zpos (digits2_pos _)) with 53.
      apply andb_true_iff. split; [apply Z.eqb_eq|apply Z.leb_le]; lia.
    + cbn [val]. rewrite p2_add. change (p2 1) with 2%Q. change (inject_Z (2 ^ 53)) with (inject_Z (Zpos 4503599627370496 * 2)).
      rewrite inject_Z_mult. ring.
  - assert (Zdigits2 m <= 53) as Hd by (apply Zdigits_le; lia).
    replace (Z.max 0 (Z.max (Zdigits2 m + e - 53) (-1074) - e)) with 0 in * by lia. rewrite H2, H1, Z.div_1_r, Z.add_0_r.
    destruct m as [|m|m]; [|cbv zeta|lia].
    + split; [done|]. cbn. ring.
    + destruct (Z.leb_spec e (1024 - 53)); [|lia]. split; [|done].
      cbn [valid_binary]. unfold bounded, canonical_mantissa. rewrite fexp64_eq. cbn [Zdigits2] in Hd.
      apply andb_true_iff. split; [apply Z.eqb_eq|apply Z.leb_le; lia].
      destruct (Z.eq_dec e (-1074)) as [->|]; [lia|]. specialize (Hn ltac:(lia)).
      pose proof (Pos_size m) as [_ Hs]. assert (52 < Zpos (digits2_pos m)) by (apply (Z.pow_lt_mono_r_iff 2); lia). lia.
Qed.

(** The two shifts of a rounding: the mantissa is cut at the exponent [e1] of the
    format, and the result is that cut or the next one up. *)
Lemma round_cut m e l :
  0 <= m → e <= fexp64 (Zdigits2 m + e) → fexp64 (Zdigits2 m + e) <= 960 →
  let e1 := fexp64 (Zdigits2 m + e) in
  ∃ m2, m / 2 ^ (e1 - e) <= m2 <= m / 2 ^ (e1 - e) + 1 ∧ (e1 = e → l = loc_Exact → m2 = m) ∧
    let r := binary_round_aux 53 1024 false m e l in valid r = true ∧ (val r == inject_Z m2 * p2 e1)%Q.
Proof.
  intros Hm Hc Hb e1. unfold binary_round_aux. destruct (shr_fexp_spec m e l Hm) as (H1 & H2 & H3).
  rewrite Z.max_r in * by lia. fold e1 in H1, H2, H3, Hc, Hb.
  destruct (shr_fexp 53 1024 m e l) as [mrs e']. cbn [fst snd] in *.
  replace (e + (e1 - e)) with e1 in H1 by lia. subst e'.
  set (m2 := round_nearest_even (shr_m mrs) (loc_of_shr_record mrs)). exists m2.
  assert (m / 2 ^ (e1 - e) <= m2 <= m / 2 ^ (e1 - e) + 1) as Hm2.
  { subst m2. rewrite <- H2. destruct (loc_of_shr_record mrs) as [|[]]; cbn; try lia. destruct (Z.even _); lia. }
  split; [done|]. split.
  - intros Heq ->. subst m2. rewrite H3 by lia. done.
  - pose proof (second_shift m2 e1) as H. destruct (shr_fexp 53 1024 m2 e1 loc_Exact) as [mrs2 e2]. apply H; [|done].
    clear H. destruct (Zdigits_bound m Hm) as [Hd1 Hd2]. pose proof (Zdigits_nonneg m).
    pose proof (Z.pow_pos_nonneg 2 (e1 - e)). assert (0 <= m / 2 ^ (e1 - e)) by (apply Z.div_pos; lia).
    unfold fits_format. subst e1. rewrite fexp64_eq in *. set (d := Zdigits2 m) in *. set (n := Z.max (d + e - 53) (-1074) - e) in *.
    assert (m / 2 ^ n < 2 ^ 53) as Hlt.
    { apply Z.div_lt_upper_bound; [lia|]. rewrite <- Z.pow_add_r by lia. eapply Z.lt_le_trans; [exact Hd1|].
      apply Z.pow_le_mono_r; lia. }
    split_and!; [lia|lia|lia|]. intros Hn. assert (n = d - 53) as Hn' by lia.
    assert (0 < m). { destruct (Z.eq_dec m 0) as [Hz|]; [|lia]. assert (d = 0) by (unfold d; by rewrite Hz). lia. }
    assert (2 ^ 52 <= m / 2 ^ n); [|lia]. apply Z.div_le_lower_bound; [lia|]. rewrite <- Z.pow_add_r by lia.
    etransitivity; [|apply Hd2; lia]. apply Z.pow_le_mono_r; lia.
Qed.

(** ** Rounding an exact value *)

(** One unit in the last place, relative to the value, and the smallest number. *)
Definition ulp : Q := p2 (-52).
Definition tiny : Q := p2 (-1074).

(** A finite number that is not negative. *)
Definition fin (r : spec_float) : Prop := valid r = true ∧ (0 <= val r)%Q.

(** [r] is [x], up to one unit in the last place. *)
Definition rounds (x : Q) (r : spec_float) : Prop :=
  fin r ∧ (val r <= x + x * ulp + tiny)%Q ∧ (x <= val r + x * ulp + tiny)%Q.

Lemma ulp_tiny_pos : (0 < ulp)%Q ∧ (0 < tiny)%Q.
Proof. split; apply p2_pos. Qed.

Lemma rounds_self x r : fin r → (val r == x)%Q → rounds x r.
Proof.
  intros Hf Hx. destruct Hf as [Hv H0]. destruct ulp_tiny_pos as [Hu Ht].
  assert (0 <= x * ulp)%Q by (apply Qmult_le_0_compat; lra). split; [by split|]. split; lra.
Qed.

Lemma inject_Z_nonneg z : 0 <= z → (0 <= inject_Z z)%Q.
Proof. intros H. change 0%Q with (inject_Z 0). by rewrite <- Zle_Qle. Qed.

Lemma scale_le a b e : a <= b → (inject_Z a * p2 e <= inject_Z b * p2 e)%Q.
Proof. intros H. pose proof (p2_pos e). apply Qmult_le_compat_r; [by rewrite <- Zle_Qle|lra]. Qed.

Lemma scale_shift m e k : 0 <= k → (inject_Z (m * 2 ^ k) * p2 e == inject_Z m * p2 (e + k))%Q.
Proof. intros H. rewrite inject_Z_mult, p2_add, (p2_Z k) by done. ring. Qed.

(** The leading digit bounds the value from below. *)
Lemma leading m e : 0 < m → (p2 (Zdigits2 m - 1 + e) <= inject_Z m * p2 e)%Q.
Proof.
  intros H. destruct (Zdigits_bound m) as [_ H2]; [lia|]. specialize (H2 H).
  assert (0 < Zdigits2 m) by (destruct m; done || lia).
  rewrite p2_add, p2_Z by lia. by apply scale_le.
Qed.

Lemma round_rounds m e l x :
  0 <= m → e <= fexp64 (Zdigits2 m + e) → (inject_Z m * p2 e <= x <= inject_Z (m + 1) * p2 e)%Q → (x <= p2 1000)%Q →
  (l = loc_Exact → x == inject_Z m * p2 e)%Q →
  let r := binary_round_aux 53 1024 false m e l in
  rounds x r ∧ (l = loc_Exact → fexp64 (Zdigits2 m + e) = e → (val r == x)%Q).
Proof.
  intros Hm Hc [Hlo Hhi] Hx Hex. cbv zeta. set (e1 := fexp64 (Zdigits2 m + e)) in *.
  assert (0 < m → Zdigits2 m - 1 + e <= 1000) as Hd.
  { intros H. destruct (Z.le_gt_cases (Zdigits2 m - 1 + e) 1000); [done|].
    pose proof (leading m e H). assert (p2 1001 <= p2 1000)%Q as Habs; [|by vm_compute in Habs].
    apply (Qle_trans _ (p2 (Zdigits2 m - 1 + e))); [apply p2_mono; lia|lra]. }
  assert (m = 0 → e1 = -1074) as H0.
  { intros ->. subst e1. cbn [Zdigits2] in Hc |- *. rewrite fexp64_eq in *. lia. }
  assert (e1 <= 960) as Hb.
  { destruct (Z.eq_dec m 0) as [Hz|]; [rewrite H0 by done; lia|]. specialize (Hd ltac:(lia)). subst e1. rewrite fexp64_eq. lia. }
  destruct (round_cut m e l Hm Hc Hb) as (m2 & [H1 H2] & H3 & Hv & Hval). fold e1 in H1, H2, H3, Hval.
  set (r := binary_round_aux _ _ _ _ _ _) in *. clearbody r.
  pose proof (Z.pow_pos_nonneg 2 (e1 - e) ltac:(done) ltac:(lia)) as Hp.
  pose proof (Z.div_mod m (2 ^ (e1 - e)) ltac:(lia)) as Hdm. pose proof (Z.mod_pos_bound m (2 ^ (e1 - e)) Hp) as Hmod.
  assert (0 <= m / 2 ^ (e1 - e)) as Hq by (apply Z.div_pos; lia).
  assert (∀ k, inject_Z k * p2 e1 == inject_Z (k * 2 ^ (e1 - e)) * p2 e)%Q as Hs.
  { intros k. rewrite scale_shift by lia. by replace (e + (e1 - e)) with e1 by lia. }
  assert (inject_Z m2 * p2 e1 <= x + p2 e1)%Q as Hup.
  { apply (Qle_trans _ (inject_Z (m / 2 ^ (e1 - e) + 1) * p2 e1)); [by apply scale_le|].
    rewrite inject_Z_plus. change (inject_Z 1) with 1%Q. assert (inject_Z (m / 2 ^ (e1 - e)) * p2 e1 <= inject_Z m * p2 e)%Q; [|lra].
    rewrite Hs. apply scale_le. nia. }
  assert (x <= inject_Z m2 * p2 e1 + p2 e1)%Q as Hdown.
  { apply (Qle_trans _ _ _ Hhi). apply (Qle_trans _ (inject_Z (m / 2 ^ (e1 - e) + 1) * p2 e1)); [rewrite Hs; apply scale_le; nia|].
    rewrite inject_Z_plus. change (inject_Z 1) with 1%Q. pose proof (scale_le _ _ e1 H1). lra. }
  assert (p2 e1 <= x * ulp + tiny)%Q as Hulp.
  { destruct ulp_tiny_pos as [Hu Ht]. assert (0 <= x)%Q as Hx0.
    { refine (Qle_trans _ _ _ _ Hlo). apply Qmult_le_0_compat; [by apply inject_Z_nonneg|]. pose proof (p2_pos e). lra. }
    assert (0 <= x * ulp)%Q by (apply Qmult_le_0_compat; lra).
    destruct (Z.eq_dec e1 (-1074)) as [E|Hne]; [rewrite E; fold tiny; lra|].
    assert (0 < m) as Hm' by lia. assert (e1 = Zdigits2 m - 1 + e + -52) as -> by (subst e1; rewrite fexp64_eq in *; lia).
    rewrite p2_add. fold ulp. assert (p2 (Zdigits2 m - 1 + e) * ulp <= x * ulp)%Q; [|lra].
    apply Qmult_le_compat_r; [|lra]. pose proof (leading m e Hm'). lra. }
  split.
  - split; [split; [done|]|split; lra]. rewrite Hval. apply Qmult_le_0_compat; [apply inject_Z_nonneg; lia|]. pose proof (p2_pos e1). lra.
  - intros -> E. rewrite Hval, (H3 E eq_refl), E. symmetry. by apply Hex.
Qed.

(** [shl_align] moves a mantissa to a smaller exponent. *)
Lemma shl_align_spec m e e' :
  Zpos (shl_align m e e').1 = Zpos m * 2 ^ Z.max 0 (e - e') ∧ (shl_align m e e').2 = Z.min e e'.
Proof.
  assert (∀ d, Zpos (Pos.iter xO m d) = Zpos m * 2 ^ Zpos d) as Hd.
  { intros d. induction d as [|d IH] using Pos.peano_ind; [cbn; lia|].
    rewrite Pos.iter_succ, Pos2Z.inj_succ, Z.pow_succ_r, Pos2Z.inj_xO, IH by lia. lia. }
  unfold shl_align. destruct (e' - e) as [|d|d] eqn:E; cbn [fst snd].
  - rewrite Z.max_l, Z.mul_1_r by lia. split; lia.
  - rewrite Z.max_l, Z.mul_1_r by lia. split; lia.
  - rewrite Hd. replace (Z.max 0 (e - e')) with (Zpos d) by lia. split; [done|lia].
Qed.

Lemma normalize_rounds m e : 0 <= m → (inject_Z m * p2 e <= p2 1000)%Q →
  let r := binary_normalize 53 1024 m e false in
  rounds (inject_Z m * p2 e) r ∧ (fexp64 (Zdigits2 m + e) <= e → (val r == inject_Z m * p2 e)%Q).
Proof.
  intros Hm Hx. cbv zeta. destruct m as [|m|]; [|clear Hm|lia]; cbn [binary_normalize].
  { assert (inject_Z 0 * p2 e == 0)%Q as E by (change (inject_Z 0) with 0%Q; ring).
    split; [apply rounds_self; [done|by rewrite E]|by rewrite E]. }
  unfold binary_round. destruct (shl_align_spec m e (fexp64 (Zpos (digits2_pos m) + e))) as [H1 H2].
  destruct (shl_align m e _) as [mz ez]. cbn [fst snd] in *. change (Zpos (digits2_pos m)) with (Zdigits2 (Zpos m)) in *.
  set (f := fexp64 (Zdigits2 (Zpos m) + e)) in *.
  assert (Zdigits2 (Zpos mz) + ez = Zdigits2 (Zpos m) + e) as Hdg by (rewrite H1, Zdigits_shift by lia; lia).
  assert (inject_Z (Zpos mz) * p2 ez == inject_Z (Zpos m) * p2 e)%Q as Hv.
  { rewrite H1, scale_shift by lia. by replace (ez + Z.max 0 (e - f)) with e by lia. }
  destruct (round_rounds (Zpos mz) ez loc_Exact (inject_Z (Zpos m) * p2 e)) as [Hr He].
  - done.
  - rewrite Hdg. fold f. lia.
  - rewrite <- Hv. split; [lra|]. apply scale_le. lia.
  - done.
  - intros _. by rewrite Hv.
  - split; [exact Hr|]. intros Hf. apply He; [done|]. rewrite Hdg. fold f. lia.
Qed.

(** ** The operations *)

Lemma bounded_spec m e : bounded 53 1024 m e = true → fexp64 (Zdigits2 (Zpos m) + e) = e.
Proof. unfold bounded, canonical_mantissa. by intros [?%Z.eqb_eq _]%andb_true_iff. Qed.

(** What a number that is not negative can be. *)
Lemma fin_cases x : fin x → (∃ s, x = S754_zero s) ∨ ∃ m e, x = S754_finite false m e ∧ fexp64 (Zdigits2 (Zpos m) + e) = e.
Proof.
  intros [Hv H0]. destruct x as [s|s| |[] m e]; [by left; eexists|by vm_compute in H0|by vm_compute in H0| |].
  - cbn [val] in H0. pose proof (scale_le 1 (Zpos m) e ltac:(lia)) as H. pose proof (p2_pos e).
    change (inject_Z 1) with 1%Q in H. lra.
  - right. do 2 eexists. split; [done|]. by apply bounded_spec.
Qed.

Lemma of_Z_val z : 0 <= z <= 2 ^ 53 → fin (f64_of_Z z) ∧ (val (f64_of_Z z) == inject_Z z)%Q.
Proof.
  intros Hz. destruct (Z.eq_dec z (2 ^ 53)) as [->|Hne]; [by vm_compute|].
  assert (inject_Z z * p2 0 == inject_Z z)%Q as E by (change (p2 0) with 1%Q; ring).
  destruct (normalize_rounds z 0) as [[Hf _] Hx]; [lia| |].
  { rewrite E. apply (Qle_trans _ (inject_Z (2 ^ 53))); [rewrite <- Zle_Qle; lia|by vm_compute]. }
  fold (f64_of_Z z) in Hf, Hx. split; [done|]. rewrite Hx; [exact E|].
  assert (Zdigits2 z <= 53) by (apply Zdigits_le; lia). rewrite fexp64_eq. lia.
Qed.

(** Two mantissas at the smaller of their exponents. *)
Lemma aligned m e e' : e' <= e → (inject_Z (Zpos (shl_align m e e').1) * p2 e' == inject_Z (Zpos m) * p2 e)%Q.
Proof.
  intros H. destruct (shl_align_spec m e e') as [-> _]. rewrite Z.max_r, scale_shift by lia.
  by replace (e' + (e - e')) with e by lia.
Qed.

Lemma add_rounds a b : fin a → fin b → (val a + val b <= p2 1000)%Q → rounds (val a + val b) (f64_add a b).
Proof.
  intros Ha Hb Hx. destruct (fin_cases a Ha) as [[sa ->]|(ma & ea & -> & _)], (fin_cases b Hb) as [[sb ->]|(mb & eb & -> & _)].
  - apply rounds_self; by destruct sa, sb.
  - apply rounds_self; [done|]. cbn [f64_add SFadd val]. ring.
  - apply rounds_self; [done|]. cbn [f64_add SFadd val]. ring.
  - cbn [f64_add SFadd cond_Zopp val] in *. set (e := Z.min ea eb).
    assert (inject_Z (Zpos (shl_align ma ea e).1 + Zpos (shl_align mb eb e).1) * p2 e ==
      inject_Z (Zpos ma) * p2 ea + inject_Z (Zpos mb) * p2 eb)%Q as E.
    { rewrite inject_Z_plus, Qmult_plus_distr_l, !aligned by lia. done. }
    destruct (normalize_rounds (Zpos (shl_align ma ea e).1 + Zpos (shl_align mb eb e).1) e) as [[Hf [H1 H2]] _];
      [lia|by rewrite E|]. rewrite E in H1, H2. by split_and!.
Qed.

Lemma sub_rounds a b : fin a → fin b → (val b <= val a <= p2 1000)%Q → rounds (val a - val b) (f64_sub a b).
Proof.
  intros Ha Hb [Hle Hx]. pose proof (proj2 Hb) as H0.
  destruct (fin_cases a Ha) as [[sa ->]|(ma & ea & -> & _)], (fin_cases b Hb) as [[sb ->]|(mb & eb & -> & _)].
  - apply rounds_self; by destruct sa, sb.
  - exfalso. cbn [val] in Hle. pose proof (scale_le 1 (Zpos mb) eb ltac:(lia)) as H. pose proof (p2_pos eb).
    change (inject_Z 1) with 1%Q in H. lra.
  - apply rounds_self; [done|]. cbn [f64_sub SFsub val]. ring.
  - cbn [f64_sub SFsub cond_Zopp val] in *. set (e := Z.min ea eb).
    assert (inject_Z (Zpos (shl_align ma ea e).1 - Zpos (shl_align mb eb e).1) * p2 e ==
      inject_Z (Zpos ma) * p2 ea - inject_Z (Zpos mb) * p2 eb)%Q as E.
    { unfold Z.sub. rewrite inject_Z_plus, inject_Z_opp. pose proof (aligned ma ea e ltac:(lia)). pose proof (aligned mb eb e ltac:(lia)). lra. }
    destruct (normalize_rounds (Zpos (shl_align ma ea e).1 - Zpos (shl_align mb eb e).1) e) as [[Hf [H1 H2]] _].
    + destruct (Z.le_gt_cases 0 (Zpos (shl_align ma ea e).1 - Zpos (shl_align mb eb e).1)) as [|Hn]; [done|exfalso].
      pose proof (scale_le _ (-1) e ltac:(instantiate (1 := Zpos (shl_align ma ea e).1 - Zpos (shl_align mb eb e).1); lia)) as H.
      rewrite E in H. change (inject_Z (-1)) with (-1)%Q in H. pose proof (p2_pos e). lra.
    + rewrite E. pose proof (p2_pos 1000). lra.
    + rewrite E in H1, H2. by split_and!.
Qed.

Lemma mul_rounds a b : fin a → fin b → (val a * val b <= p2 1000)%Q → rounds (val a * val b) (f64_mul a b).
Proof.
  intros Ha Hb Hx. destruct (fin_cases a Ha) as [[sa ->]|(ma & ea & -> & Hca)], (fin_cases b Hb) as [[sb ->]|(mb & eb & -> & Hcb)].
  - apply rounds_self; by destruct sa, sb.
  - apply rounds_self; [by destruct sa|]. cbn [f64_mul SFmul val]. ring.
  - apply rounds_self; [by destruct sb|]. cbn [f64_mul SFmul val]. ring.
  - cbn [f64_mul SFmul xorb val] in *.
    assert (inject_Z (Zpos (ma * mb)) * p2 (ea + eb) == inject_Z (Zpos ma) * p2 ea * (inject_Z (Zpos mb) * p2 eb))%Q as E.
    { rewrite Pos2Z.inj_mul, inject_Z_mult, p2_add. ring. }
    apply (round_rounds (Zpos (ma * mb)) (ea + eb) loc_Exact); [done| | |done|intros _; by rewrite E].
    + rewrite fexp64_eq in *. destruct (Zdigits_bound (Zpos ma)) as [_ Ha2], (Zdigits_bound (Zpos mb)) as [_ Hb2]; [done..|].
      specialize (Ha2 eq_refl). specialize (Hb2 eq_refl).
      assert (Zdigits2 (Zpos ma) <= Zdigits2 (Zpos (ma * mb)) ∧ Zdigits2 (Zpos mb) <= Zdigits2 (Zpos (ma * mb))) as [D1 D2]; [|lia].
      destruct (Zdigits_bound (Zpos (ma * mb))) as [Hp _]; [done|]. pose proof (Zdigits_nonneg (Zpos (ma * mb))).
      set (d := Zdigits2 (Zpos (ma * mb))) in *. rewrite Pos2Z.inj_mul in Hp. assert (Zpos ma <= Zpos ma * Zpos mb ∧ Zpos mb <= Zpos ma * Zpos mb) as [] by nia.
      split; apply Zdigits_le; lia.
    + rewrite <- E. split; [lra|]. apply scale_le. lia.
Qed.

Lemma div_rounds a b : fin a → fin b → (0 < val b)%Q → (val a / val b <= p2 1000)%Q → rounds (val a / val b) (f64_div a b).
Proof.
  intros Ha Hb H0 Hx. destruct (fin_cases b Hb) as [[sb ->]|(mb & eb & -> & Hcb)]; [by vm_compute in H0|].
  destruct (fin_cases a Ha) as [[sa ->]|(ma & ea & -> & Hca)].
  { apply rounds_self; [by destruct sa|]. cbn [f64_div SFdiv val]. unfold Qdiv. ring. }
  cbn [f64_div SFdiv xorb val] in *. unfold SFdiv_core_binary.
  set (da := Zdigits2 (Zpos ma)) in *. set (db := Zdigits2 (Zpos mb)) in *. rewrite fexp64_eq in *.
  set (e := Z.min (Z.max (da + ea - (db + eb) - 53) (-1074)) (ea - eb)).
  replace (match ea - eb - e with Z0 => Zpos ma | Zpos _ => Z.shiftl (Zpos ma) (ea - eb - e) | Zneg _ => 0 end)
    with (Zpos ma * 2 ^ (ea - eb - e)); last first.
  { destruct (ea - eb - e) as [|k|k] eqn:Ek; [lia|by rewrite Z.shiftl_mul_pow2 by lia|lia]. }
  set (s := ea - eb - e). assert (0 <= s) as Hs by lia. pose proof (Z.pow_pos_nonneg 2 s ltac:(done) Hs) as Hps.
  destruct (Z.div_eucl (Zpos ma * 2 ^ s) (Zpos mb)) as [q r] eqn:Eq.
  assert (q = Zpos ma * 2 ^ s / Zpos mb ∧ r = Zpos ma * 2 ^ s mod Zpos mb) as [Hq Hr] by (unfold Z.div, Z.modulo; by rewrite Eq).
  pose proof (Z.div_mod (Zpos ma * 2 ^ s) (Zpos mb) ltac:(lia)) as Hdm.
  pose proof (Z.mod_pos_bound (Zpos ma * 2 ^ s) (Zpos mb) ltac:(lia)) as Hmod. rewrite <- Hq, <- Hr in Hdm. rewrite <- Hr in Hmod.
  assert (0 <= q) as Hq0 by (rewrite Hq; apply Z.div_pos; lia). clear Eq.
  set (x := (inject_Z (Zpos ma) * p2 ea / (inject_Z (Zpos mb) * p2 eb))%Q) in *.
  assert (∀ k, inject_Z k * p2 e * (inject_Z (Zpos mb) * p2 eb) == inject_Z (k * Zpos mb) * p2 (e + eb))%Q as Hk.
  { intros k. rewrite inject_Z_mult, p2_add. ring. }
  assert (inject_Z (Zpos ma * 2 ^ s) * p2 (e + eb) == inject_Z (Zpos ma) * p2 ea)%Q as Hma.
  { rewrite scale_shift by done. by replace (e + eb + s) with ea by lia. }
  assert (∀ k, k * Zpos mb <= Zpos ma * 2 ^ s → (inject_Z k * p2 e <= x)%Q) as Hlow.
  { intros k H. apply Qle_shift_div_l; [done|]. rewrite Hk, <- Hma. by apply scale_le. }
  assert (∀ k, Zpos ma * 2 ^ s <= k * Zpos mb → (x <= inject_Z k * p2 e)%Q) as Hhigh.
  { intros k H. apply Qle_shift_div_r; [done|]. rewrite Hk, <- Hma. by apply scale_le. }
  apply (round_rounds q e (new_location (Zpos mb) r)); [done| |split; [apply Hlow|apply Hhigh]; nia|done|].
  - assert (53 <= Zdigits2 q ∨ e <= -1074) as Hd; [|rewrite fexp64_eq; lia].
    destruct (Z.le_gt_cases e (-1074)) as [|Hne]; [by right|left].
    destruct (Zdigits_bound (Zpos ma)) as [_ Ha2]; [done|]. specialize (Ha2 eq_refl). fold da in Ha2.
    destruct (Zdigits_bound (Zpos mb)) as [Hb1 _]; [done|]. fold db in Hb1. assert (0 < da ∧ 0 < db) as [Hda Hdb] by done.
    assert (2 ^ 52 <= q) as H52.
    { rewrite Hq. apply Z.div_le_lower_bound; [done|]. apply (Z.le_trans _ (2 ^ (da - 1) * 2 ^ s)); [|nia].
      rewrite <- Z.pow_add_r by lia. apply (Z.le_trans _ (2 ^ db * 2 ^ 52)); [nia|]. rewrite <- Z.pow_add_r by lia.
      apply Z.pow_le_mono_r; lia. }
    destruct (Zdigits_bound q Hq0) as [Hq1 _]. pose proof (Zdigits_nonneg q).
    assert (52 < Zdigits2 q); [|lia]. apply (Z.pow_lt_mono_r_iff 2); lia.
  - intros Hl. assert (r = 0) as ->.
    { revert Hl. unfold new_location, new_location_even, new_location_odd. destruct (Z.even (Zpos mb)); cbv beta; by destruct (Z.eqb_spec r 0). }
    apply Qle_antisym; [apply Hhigh|apply Hlow]; lia.
Qed.

(** ** Comparison *)

Lemma val_pos m e : (0 < val (S754_finite false m e))%Q.
Proof. cbn [val]. apply (Qlt_le_trans _ (inject_Z 1 * p2 e)); [change (inject_Z 1) with 1%Q; rewrite Qmult_1_l; apply p2_pos|]. apply scale_le. lia. Qed.

(** A larger exponent is a larger number. *)
Lemma val_exponent ma ea mb eb :
  fexp64 (Zdigits2 (Zpos ma) + ea) = ea → fexp64 (Zdigits2 (Zpos mb) + eb) = eb → ea < eb →
  (val (S754_finite false ma ea) < val (S754_finite false mb eb))%Q.
Proof.
  rewrite !fexp64_eq. intros Ha Hb He. cbn [val].
  destruct (Zdigits_bound (Zpos ma)) as [Ha1 _]; [done|]. destruct (Zdigits_bound (Zpos mb)) as [_ Hb2]; [done|]. specialize (Hb2 eq_refl).
  assert (Zdigits2 (Zpos mb) = 53) as Hd by lia. rewrite Hd in Hb2.
  assert (Zpos ma < 2 ^ 53) as Hlt. { apply (Z.lt_le_trans _ _ _ Ha1). apply Z.pow_le_mono_r; lia. }
  pose proof (p2_pos ea) as Hp.
  apply (Qlt_le_trans _ (inject_Z (2 ^ 53) * p2 ea)); [apply Qmult_lt_compat_r; [done|by rewrite <- Zlt_Qlt]|].
  apply (Qle_trans _ (inject_Z (2 ^ 52) * p2 eb)); [|by apply scale_le].
  replace (2 ^ 53) with (2 ^ 52 * 2 ^ 1) by done. rewrite scale_shift by done. rewrite !(Qmult_comm (inject_Z _)).
  apply Qmult_le_compat_r; [apply p2_mono; lia|by vm_compute].
Qed.

Lemma ltb_val a b : fin a → fin b → SFltb a b = true ↔ (val a < val b)%Q.
Proof.
  intros Ha Hb. destruct (fin_cases a Ha) as [[sa ->]|(ma & ea & -> & Hca)], (fin_cases b Hb) as [[sb ->]|(mb & eb & -> & Hcb)].
  - by split; intros H; [|vm_compute in H].
  - pose proof (val_pos mb eb). by split.
  - pose proof (val_pos ma ea) as H. split; [done|]. intros H2. exfalso. change (val (S754_zero sb)) with 0%Q in H2. lra.
  - unfold SFltb, SFcompare. destruct (Z.compare_spec ea eb) as [<-|He|He].
    + change (Pos.compare_cont Eq ma mb) with (ma ?= mb)%positive. cbn [val]. pose proof (p2_pos ea) as Hp.
      rewrite Qmult_lt_r by done. rewrite <- Zlt_Qlt. destruct (Pos.compare_spec ma mb); split; (done || lia).
    + pose proof (val_exponent _ _ _ _ Hca Hcb He). by split.
    + pose proof (val_exponent _ _ _ _ Hcb Hca He). split; [done|]. intros H2. lra.
Qed.

(** ** The laws *)

(** The value of a number of the format; anything else is negative. *)
Definition toQ64 (x : spec_float) : Q := if valid x then val x else -1.

Lemma toQ64_fin x : fin x → (toQ64 x == val x)%Q.
Proof. intros [Hv _]. unfold toQ64. by rewrite Hv. Qed.

Lemma toQ64_nonneg x : (0 <= toQ64 x)%Q ↔ fin x.
Proof.
  split; [|by intros H; rewrite toQ64_fin by done; apply H]. unfold toQ64. destruct (valid x) eqn:E; [by split|by vm_compute].
Qed.

Lemma toQ64_of_Z z : 0 <= z <= 2 ^ 53 → (toQ64 (f64_of_Z z) == inject_Z z)%Q.
Proof. intros Hz. destruct (of_Z_val z Hz) as [Hf Hv]. by rewrite toQ64_fin. Qed.

Lemma ulp_eq : (ulp == 1 # 4503599627370496)%Q.
Proof. by vm_compute. Qed.

Lemma tiny_small : (tiny <= (1 # 4503599627370496) * (1 # 4503599627370496) * (1 # 4503599627370496) * (1 # 4503599627370496))%Q.
Proof. by vm_compute. Qed.

Lemma large : (inject_Z (2 ^ 100) <= p2 1000)%Q.
Proof. by vm_compute. Qed.

(** The constants as numerals, for [lra]. *)
Ltac rounding :=
  pose proof tiny_small; destruct ulp_tiny_pos;
  repeat match goal with H : rounds _ _ |- _ => destruct H as (_ & ? & ?) end; rewrite ?ulp_eq in *.

Lemma Seconds_val d : 0 <= d < 2 ^ 63 →
  fin (Seconds d) ∧ (val (Seconds d) <= elapsed d * (1 + 3 * ulp) + 3 * tiny)%Q ∧ (elapsed d <= inject_Z (2 ^ 34))%Q.
Proof.
  intros Hd. unfold Seconds. cbn [n_add n_div n_of_Z f64_num].
  assert (0 <= Z.quot d Second < 2 ^ 34) as Hq.
  { unfold Second. rewrite Z.quot_div_nonneg by lia. split; [apply Z.div_pos; lia|]. apply Z.div_lt_upper_bound; lia. }
  assert (0 <= Z.rem d Second < 10 ^ 9) as Hr by (apply Z.rem_bound_pos; unfold Second; lia).
  destruct (of_Z_val (Z.quot d Second)) as [Hfq Hvq]; [lia|]. destruct (of_Z_val (Z.rem d Second)) as [Hfr Hvr]; [lia|].
  destruct (of_Z_val (10 ^ 9)) as [Hfn Hvn]; [lia|].
  assert (elapsed d == val (f64_of_Z (Z.quot d Second)) + val (f64_of_Z (Z.rem d Second)) / val (f64_of_Z (10 ^ 9)))%Q as E.
  { rewrite Hvq, Hvr, Hvn. symmetry. exact (Q_seconds d). }
  assert (elapsed d <= inject_Z (2 ^ 34))%Q as Hmax.
  { apply (Qle_trans _ (elapsed (2 ^ 63))); [apply elapsed_mono; lia|by vm_compute]. }
  set (q := f64_of_Z (Z.quot d Second)) in *. set (r := f64_of_Z (Z.rem d Second)) in *. set (n := f64_of_Z (10 ^ 9)) in *.
  pose proof (proj2 Hfq) as H0. pose proof large.
  assert (rounds (val r / val n) (f64_div r n)) as Hdiv.
  { apply div_rounds; [done|done|by rewrite Hvn|]. change (inject_Z (2 ^ 100)) with (1267650600228229401496703205376)%Q in *.
    change (inject_Z (2 ^ 34)) with 17179869184%Q in *. lra. }
  set (f := (val r / val n)%Q) in *.
  assert (rounds (val q + val (f64_div r n)) (f64_add q (f64_div r n))) as Hadd.
  { apply add_rounds; [done|by apply Hdiv|]. change (inject_Z (2 ^ 100)) with (1267650600228229401496703205376)%Q in *.
    change (inject_Z (2 ^ 34)) with 17179869184%Q in *. rounding. lra. }
  split_and!; [by apply Hadd|rounding; lra|done].
Qed.

(** The rate is the configured one, up to rounding. *)
Lemma rate_val c : 0 < c <= 2 ^ 53 →
  fin (per_sec c) ∧ (val (per_sec c) <= inject_Z c / 60 * (1 + 2 * ulp))%Q ∧ (val (per_sec c) <= inject_Z (2 ^ 53))%Q.
Proof.
  intros Hc. unfold per_sec. cbn [n_div n_of_Z f64_num]. destruct (of_Z_val c) as [Hfc Hvc]; [lia|]. destruct (of_Z_val 60) as [Hfs Hvs]; [lia|].
  set (x := (inject_Z c / 60)%Q).
  assert (val (f64_of_Z c) / val (f64_of_Z 60) == x)%Q as Ex by (rewrite Hvc, Hvs; done).
  assert (x <= 150119987579017)%Q as Hq.
  { apply Qle_shift_div_r; [by vm_compute|]. change 150119987579017%Q with (inject_Z 150119987579017). change 60%Q with (inject_Z 60).
    rewrite <- inject_Z_mult, <- Zle_Qle. lia. }
  assert (1 # 60 <= x)%Q as Hl.
  { apply Qle_shift_div_l; [by vm_compute|]. apply (Qle_trans _ (inject_Z 1)); [by vm_compute|]. rewrite <- Zle_Qle. lia. }
  assert (rounds (val (f64_of_Z c) / val (f64_of_Z 60)) (f64_div (f64_of_Z c) (f64_of_Z 60))) as Hdiv.
  { apply div_rounds; [done|done|by rewrite Hvs|]. rewrite Ex. pose proof large.
    change (inject_Z (2 ^ 100)) with (1267650600228229401496703205376)%Q in *. lra. }
  split; [by apply Hdiv|]. change (inject_Z (2 ^ 53)) with 9007199254740992%Q. rounding. rewrite Ex in *. split; lra.
Qed.

(** The refill of a bucket that holds [a]. *)
Lemma refill_val a d c : fin a → (val a <= inject_Z (2 ^ 30))%Q → 0 <= d < 2 ^ 63 → 0 < c <= 2 ^ 53 →
  let r := f64_add a (f64_mul (Seconds d) (per_sec c)) in
  fin r ∧ (val r <= (val a + (val (per_sec c) * elapsed d)) * (1 + 6 * ulp) + (1 # 1000000000))%Q.
Proof.
  intros Ha Hb Hd Hc. cbv zeta. destruct (Seconds_val d Hd) as (Hfs & Hs & He). destruct (rate_val c Hc) as (Hfr & _ & Hr).
  set (s := Seconds d) in *. set (R := per_sec c) in *. pose proof (proj2 Hfs) as Hs0. pose proof (proj2 Hfr) as Hr0. pose proof large.
  pose proof (proj2 Ha) as Ha0. destruct ulp_tiny_pos as [_ Ht].
  assert (0 <= elapsed d)%Q as He0. { apply (Qle_trans _ (elapsed 0)); [by vm_compute|]. apply elapsed_mono. lia. }
  assert (tiny * val R <= tiny * inject_Z (2 ^ 53))%Q as HtR by (rewrite !(Qmult_comm tiny); apply Qmult_le_compat_r; [done|lra]).
  assert (0 <= tiny * val R)%Q as HtR0 by (apply Qmult_le_0_compat; lra).
  assert (0 <= val R * elapsed d)%Q as HRe0 by (apply Qmult_le_0_compat; lra).
  assert (val R * elapsed d <= inject_Z (2 ^ 53) * inject_Z (2 ^ 34))%Q as HRe.
  { apply (Qle_trans _ (inject_Z (2 ^ 53) * elapsed d)); [by apply Qmult_le_compat_r|].
    rewrite !(Qmult_comm (inject_Z (2 ^ 53))). by apply Qmult_le_compat_r. }
  assert (val s * val R <= (elapsed d * (1 + 3 * ulp) + 3 * tiny) * val R)%Q as HsR by (by apply Qmult_le_compat_r).
  change (inject_Z (2 ^ 100)) with (1267650600228229401496703205376)%Q in *. change (inject_Z (2 ^ 53)) with 9007199254740992%Q in *.
  change (inject_Z (2 ^ 34)) with 17179869184%Q in *. change (inject_Z (2 ^ 30)) with 1073741824%Q in *.
  assert (rounds (val s * val R) (f64_mul s R)) as Hmul by (apply mul_rounds; [done|done|rounding; lra]).
  assert (rounds (val a + val (f64_mul s R)) (f64_add a (f64_mul s R))) as Hadd
    by (apply add_rounds; [done|apply Hmul|rounding; lra]).
  split; [by apply Hadd|]. rounding. lra.
Qed.

(** [float64] keeps the laws while a bucket is at most a billion deep. *)
#[export] Instance f64_laws : NumLaws spec_float (inject_Z (2 ^ 30)) (1 # 32768).
Proof.
  refine {| toQ := toQ64 |}; cbn [n_add n_sub n_mul n_of_Z n_ltb f64_num].
  - by vm_compute.
  - intros z Hz. apply toQ64_of_Z. lia.
  - intros c Hc. apply toQ64_nonneg. by apply rate_val.
  - intros a d c [Ha Hb] Hd Hc. apply toQ64_nonneg in Ha. rewrite toQ64_fin in Hb by done. apply toQ64_nonneg. by apply refill_val.
  - intros a d c [Ha Hb] Hd Hc. apply toQ64_nonneg in Ha. rewrite toQ64_fin in Hb by done.
    destruct (refill_val a d c Ha Hb Hd Hc) as [Hf Hr]. destruct (rate_val c Hc) as [Hfr _].
    rewrite (toQ64_fin a), (toQ64_fin (per_sec c)), (toQ64_fin (f64_add _ _)) by done. intros Hsum.
    change (inject_Z (2 ^ 30)) with 1073741824%Q in *. rewrite ulp_eq in Hr. lra.
  - intros a [Ha Hb] Hlt. apply toQ64_nonneg in Ha. rewrite (toQ64_fin a) in * by done. destruct (of_Z_val 1) as [Hf1 Hv1]; [lia|].
    assert (1 <= val a)%Q as H1.
    { apply Qnot_lt_le. intros H. enough (SFltb a (f64_of_Z 1) = true) by congruence. apply ltb_val; [done|done|by rewrite Hv1]. }
    change (inject_Z 1) with 1%Q in Hv1. change (inject_Z (2 ^ 30)) with 1073741824%Q in *. pose proof large.
    change (inject_Z (2 ^ 100)) with (1267650600228229401496703205376)%Q in *.
    assert (rounds (val a - val (f64_of_Z 1)) (f64_sub a (f64_of_Z 1))) as Hsub by (apply sub_rounds; [done|done|lra]).
    rewrite toQ64_fin by apply Hsub. split; [apply Hsub|]. rounding. lra.
  - intros a z Ha Hz. apply toQ64_nonneg in Ha. destruct (of_Z_val z) as [Hf Hv]; [lia|].
    rewrite ltb_val by done. by rewrite Hv, toQ64_fin.
Defined.
