(* ===== verification/Correlator.v ===== *)
(** * Incident correlation

    [internal/incident/correlator.go]. Alerts that share a group key are
    buffered; the timer started with a bucket flushes it. [Module Schedule]
    lets arrivals, timers, flushes and [Drain] interleave at the boundaries of
    the critical sections. *)
From S2P Require Import Prelude GoStrings Proto.
From Stdlib Require Import Ascii.

Open Scope Z_scope.

(** ** State *)

(** [timer] is the number of the bucket's [time.Timer]. *)
Record bucket := MkBucket { alerts : list (ref AlertPayload); timer : nat }.

(** [timers] are the armed [AfterFunc] timers: their number, the key they will
    flush and when. *)
Record Correlator := MkCorrelator {
  enabled : bool;
  window : Duration;
  maxGroup : Z;
  buckets : gmap string bucket;
  timers : gmap nat (string * Time);
  next_timer : nat;
}.

Definition correlator_New (enabled : bool) (windowSeconds maxGroup : Z) : Correlator :=
  let maxGroup := if maxGroup <=? 0 then 25 else maxGroup in
  MkCorrelator enabled (wrap64 (windowSeconds * Second)) maxGroup ∅ ∅ 0.

Definition set_buckets (b : gmap string bucket) (c : Correlator) : Correlator :=
  MkCorrelator (enabled c) (window c) (maxGroup c) b (timers c) (next_timer c).

Definition set_timers (t : gmap nat (string * Time)) (c : Correlator) : Correlator :=
  MkCorrelator (enabled c) (window c) (maxGroup c) (buckets c) t (next_timer c).

(** ** Operations *)

(** Alerts are passed by pointer. *)
Definition groupKey (p : ref AlertPayload) : string :=
  let p := deref p in
  match Target p with
  | Some t =>
      if negb (seqb (Node t) "") then ClusterId p +:+ "|node|" +:+ Node t
      else ClusterId p +:+ "|ns|" +:+ Namespace p
  | None => ClusterId p +:+ "|ns|" +:+ Namespace p
  end.

Section correlator.
Context `{!Clock}.

(** [time.AfterFunc(c.window, ...)]: the number of the new timer. *)
Definition AfterFunc (key : string) : M Correlator nat :=
  now ← time_Now;
  c ← get;
  let id := next_timer c in
  put (MkCorrelator (enabled c) (window c) (maxGroup c) (buckets c)
         (<[id := (key, now + window c)]> (timers c)) (Datatypes.S id));;
  mret id.

Definition Add (payload : ref AlertPayload) : M Correlator unit :=
  let key := groupKey payload in
  c ← get;
  b ← match buckets c !! key with
      | Some b =>
          if maxGroup c <=? Z.of_nat (length (alerts b))
          then t ← AfterFunc key; mret (MkBucket [] t)
          else mret b
      | None => t ← AfterFunc key; mret (MkBucket [] t)
      end;
  modify (λ c, set_buckets
    (<[key := MkBucket (alerts b ++ [payload])%list (timer b)]> (buckets c)) c).

(** The critical section of [flushKey]: the alerts handed to [flush], if any. *)
Definition take_bucket (key : string) : M Correlator (option (list (ref AlertPayload))) :=
  c ← get;
  put (set_buckets (delete key (buckets c)) c);;
  mret match buckets c !! key with
       | Some b => match alerts b with [] => None | _ => Some (alerts b) end
       | None => None
       end.

(** The critical section of [Drain]: stop every bucket's timer, collect the
    keys. Go's map order is unspecified: [order] rearranges it. *)
Definition drain_keys (order : list string → list string) : M Correlator (list string) :=
  c ← get;
  put (set_timers (map_fold (λ _ b ts, delete (timer b) ts) (timers c) (buckets c)) c);;
  mret (order (map_to_list (buckets c)).*1).

(** [flush] is a callback with its own state [S]. *)
Context {S : Type} (flush : list (ref AlertPayload) → M S unit).

Definition flushKey (key : string) : M (Correlator * S) unit :=
  o ← zoom fst (λ c s, (c, s.2)) (take_bucket key);
  match o with
  | None => mret tt
  | Some l => zoom snd (λ t s, (s.1, t)) (flush l)
  end.

Definition Drain (order : list string → list string) : M (Correlator * S) unit :=
  keys ← zoom fst (λ c s, (c, s.2)) (drain_keys order);
  for_each keys flushKey.
End correlator.

Definition severityRank (s : string) : Z :=
  if seqb s "critical" then 3 else if seqb s "warning" then 2 else if seqb s "info" then 1 else 0.

Definition pick (best a : ref AlertPayload) : ref AlertPayload :=
  if severityRank (Severity (deref best)) <? severityRank (Severity (deref a)) then a else best.

Definition Representative (alerts : list (ref AlertPayload)) : option (ref AlertPayload) :=
  match alerts with
  | [] => None
  | a :: l => Some (foldl pick a l)
  end.

(** ** Interleavings *)
Module Schedule.
(** [started]: calls of [flushKey] that have begun (by a fired timer or by
    [Drain]) and have not yet entered their critical section. *)
Record world := MkWorld { corr : Correlator; started : list string }.

Inductive event :=
| Arrived (p : ref AlertPayload) (dropped : list (ref AlertPayload))
| Flushed (o : option (list (ref AlertPayload)))
| Quiet.

Section step.
Context `{!Clock}.

(** The alerts of a full bucket, which [Add] replaces. *)
Definition overwritten (c : Correlator) (p : ref AlertPayload) : list (ref AlertPayload) :=
  match buckets c !! groupKey p with
  | Some b => if maxGroup c <=? Z.of_nat (length (alerts b)) then alerts b else []
  | None => []
  end.

Inductive step : event → nat * world → nat * world → Prop :=
| s_add p n c n' c' st :
    Add p (n, c) = (tt, (n', c')) →
    step (Arrived p (overwritten c p)) (n, MkWorld c st) (n', MkWorld c' st)
| s_fire id key w n c st :
    timers c !! id = Some (key, w) → w <= clk n →
    step Quiet (n, MkWorld c st)
      (n, MkWorld (set_timers (delete id (timers c)) c) (key :: st))
| s_flush key o n c n' c' st st' :
    st ≡ₚ key :: st' → take_bucket key (n, c) = (o, (n', c')) →
    step (Flushed o) (n, MkWorld c st) (n', MkWorld c' st')
| s_drain order keys n c n' c' st :
    (∀ l, order l ≡ₚ l) → drain_keys order (n, c) = (keys, (n', c')) →
    step Quiet (n, MkWorld c st) (n', MkWorld c' (keys ++ st))
| s_time n n' w : (n ≤ n')%nat → step Quiet (n, w) (n', w).

Inductive steps : list event → nat * world → nat * world → Prop :=
| st_nil s : steps [] s s
| st_snoc es e s s' s'' : steps es s s' → step e s' s'' → steps (es ++ [e])%list s s''.
End step.

(** What the events of a run did with the alerts. *)
Definition arrived (es : list event) : list (ref AlertPayload) :=
  omap (λ e, match e with Arrived p _ => Some p | _ => None end) es.
Definition dropped (es : list event) : list (ref AlertPayload) :=
  es ≫= λ e, match e with Arrived _ d => d | _ => [] end.
Definition groups (es : list event) : list (list (ref AlertPayload)) :=
  omap (λ e, match e with Flushed o => o | _ => None end) es.

Definition buffered (c : Correlator) : list (ref AlertPayload) :=
  (map_to_list (buckets c)).*2 ≫= alerts.
End Schedule.

(** ** Lemmas *)

Definition all_alerts (m : gmap string bucket) : list (ref AlertPayload) := (map_to_list m).*2 ≫= alerts.

Lemma all_alerts_insert m k b :
  m !! k = None → all_alerts (<[k := b]> m) ≡ₚ (alerts b ++ all_alerts m)%list.
Proof. intros H. unfold all_alerts. by rewrite (map_to_list_insert m k b H). Qed.

Lemma all_alerts_lookup m k b :
  m !! k = Some b → all_alerts m ≡ₚ (alerts b ++ all_alerts (delete k m))%list.
Proof.
  intros H. rewrite <- (insert_delete_id m k b H) at 1.
  apply all_alerts_insert, lookup_delete_eq.
Qed.

Lemma all_alerts_replace m k b :
  all_alerts (<[k := b]> m) ≡ₚ (alerts b ++ all_alerts (delete k m))%list.
Proof. rewrite <- insert_delete_eq. apply all_alerts_insert, lookup_delete_eq. Qed.

(** Chaining two accounts of what came in, what went out, what remains and
    what was dropped. *)
Lemma conserve_trans {A} (a1 a2 g1 g2 d1 d2 b0 b1 b2 : list A) :
  (a1 ++ b0 ≡ₚ g1 ++ b1 ++ d1)%list → (a2 ++ b1 ≡ₚ g2 ++ b2 ++ d2)%list →
  ((a1 ++ a2) ++ b0 ≡ₚ (g1 ++ g2) ++ b2 ++ d1 ++ d2)%list.
Proof.
  intros H1 H2. trans (a2 ++ (a1 ++ b0))%list; [solve_Permutation|]. rewrite H1.
  trans ((a2 ++ b1) ++ g1 ++ d1)%list; [solve_Permutation|]. rewrite H2. solve_Permutation.
Qed.

Section lemmas.
Context `{HC : !Clock}.
Import Schedule.

(** [Add] appends to the group's bucket, or opens a new one with a new timer
    when there is none or it is full. *)
Lemma Add_spec p n c n' c' :
  Add p (n, c) = (tt, (n', c')) →
  maxGroup c' = maxGroup c ∧ window c' = window c ∧ (n ≤ n')%nat ∧
  ∃ kept t, buckets c' = <[groupKey p := MkBucket (kept ++ [p])%list t]> (buckets c) ∧
    ((∃ b, buckets c !! groupKey p = Some b ∧ kept = alerts b ∧ t = timer b ∧
        Z.of_nat (length kept) < maxGroup c ∧ overwritten c p = [] ∧
        timers c' = timers c ∧ next_timer c' = next_timer c) ∨
     (kept = [] ∧ t = next_timer c ∧
        overwritten c p = match buckets c !! groupKey p with Some b => alerts b | None => [] end ∧
        timers c' = <[t := (groupKey p, clk n + window c)]> (timers c) ∧
        next_timer c' = Datatypes.S (next_timer c))).
Proof.
  unfold Add, AfterFunc, overwritten. munfold. destruct (buckets c !! groupKey p) as [b|] eqn:Eb.
  - destruct (maxGroup c <=? _) eqn:E; mstep; intros [= <- <-]; simpl; split_and!; try (done || lia).
    + exists [], (next_timer c). split; [done|]. right. done.
    + exists (alerts b), (timer b). split; [done|]. left. exists b. zbool. done.
  - mstep. intros [= <- <-]; simpl; split_and!; try (done || lia).
    exists [], (next_timer c). split; [done|]. by right.
Qed.

Lemma Add_buffered p n c n' c' :
  Add p (n, c) = (tt, (n', c')) →
  (p :: buffered c)%list ≡ₚ (buffered c' ++ overwritten c p)%list.
Proof.
  intros (_ & _ & _ & kept & t & Hb & H)%Add_spec. unfold buffered. fold (all_alerts (buckets c)).
  fold (all_alerts (buckets c')). rewrite Hb, all_alerts_replace. simpl.
  assert (all_alerts (buckets c) ≡ₚ
    (match buckets c !! groupKey p with Some b => alerts b | None => [] end
     ++ all_alerts (delete (groupKey p) (buckets c)))%list) as ->.
  { destruct (buckets c !! groupKey p) as [b|] eqn:E; [by apply all_alerts_lookup|].
    by rewrite delete_id. }
  destruct H as [(b & -> & -> & _ & _ & -> & _)|(-> & _ & -> & _)].
  - solve_Permutation.
  - simpl. solve_Permutation.
Qed.

Lemma take_bucket_spec key n c o n' c' :
  take_bucket key (n, c) = (o, (n', c')) →
  n' = n ∧ c' = set_buckets (delete key (buckets c)) c ∧
  match o with
  | Some l => ∃ b, buckets c !! key = Some b ∧ l = alerts b ∧ l ≠ []
  | None => buckets c !! key = None ∨ ∃ b, buckets c !! key = Some b ∧ alerts b = []
  end.
Proof.
  unfold take_bucket. munfold. intros [= <- <- <-]. split_and!; [done..|].
  destruct (buckets c !! key) as [b|]; [|by left].
  destruct (alerts b) eqn:E; [right; by exists b|]. exists b. by rewrite E.
Qed.

Lemma take_bucket_buffered key n c o n' c' :
  take_bucket key (n, c) = (o, (n', c')) →
  buffered c ≡ₚ (default [] o ++ buffered c')%list.
Proof.
  intros (_ & -> & H)%take_bucket_spec. unfold buffered. fold (all_alerts (buckets c)). simpl.
  fold (all_alerts (delete key (buckets c))).
  destruct o as [l|]; [destruct H as (b & Hb & -> & _); by apply all_alerts_lookup|].
  destruct H as [H|(b & Hb & He)]; [by rewrite delete_id|].
  rewrite (all_alerts_lookup _ _ _ Hb). by rewrite He.
Qed.

Lemma drain_keys_spec order n c keys n' c' :
  drain_keys order (n, c) = (keys, (n', c')) →
  n' = n ∧ keys = order (map_to_list (buckets c)).*1 ∧ ∃ ts, c' = set_timers ts c ∧ ts ⊆ timers c.
Proof.
  unfold drain_keys. munfold. intros [= <- <- <-]. split_and!; [done..|]. eexists. split; [done|].
  apply (map_fold_weak_ind (λ ts _, ts ⊆ timers c)); [done|].
  intros k b m ts _ IH. etrans; [apply delete_subseteq|done].
Qed.

(** *** Conservation *)

Lemma step_conserves e n w n' w' :
  step e (n, w) (n', w') →
  (arrived [e] ++ buffered (corr w))%list ≡ₚ
  (mjoin (groups [e]) ++ buffered (corr w') ++ dropped [e])%list.
Proof.
  inversion 1; subst; unfold arrived, groups, dropped; simpl; rewrite ?app_nil_r.
  - by eapply Add_buffered.
  - done.
  - match goal with Ht : take_bucket _ _ = _ |- _ => rewrite (take_bucket_buffered _ _ _ _ _ _ Ht) end.
    destruct o; simpl; by rewrite ?app_nil_r.
  - match goal with Ht : drain_keys _ _ = _ |- _ => apply drain_keys_spec in Ht as (_ & _ & ts & -> & _) end.
    done.
  - done.
Qed.

Lemma steps_conserve es n w n' w' :
  steps es (n, w) (n', w') →
  (arrived es ++ buffered (corr w))%list ≡ₚ
  (mjoin (groups es) ++ buffered (corr w') ++ dropped es)%list.
Proof.
  intros H. remember (n, w) as s eqn:Es. remember (n', w') as s' eqn:Es'.
  revert n' w' Es'. induction H as [s|es e s s1 s2 H IH Hst]; intros n' w' ->.
  { injection Es as -> ->. unfold arrived, groups, dropped. simpl. by rewrite app_nil_r. }
  destruct s1 as [n1 w1]. specialize (IH Es n1 w1 eq_refl). apply step_conserves in Hst.
  unfold arrived, groups, dropped in *. rewrite !omap_app, bind_app, join_app.
  by eapply conserve_trans.
Qed.

(** *** Well-formedness *)

(** A bucket's timer is armed for the bucket's key and goes off within one
    window, or a flush of the key has already begun. *)
Definition scheduled (n : nat) (w : world) (key : string) (b : bucket) : Prop :=
  key ∈ started w ∨
  ∃ t, timers (corr w) !! timer b = Some (key, t) ∧ t <= clk n + window (corr w).

Record wf (s : nat * world) : Prop := {
  wf_max : 0 < maxGroup (corr s.2);
  wf_group : ∀ k b, buckets (corr s.2) !! k = Some b →
    0 < Z.of_nat (length (alerts b)) <= maxGroup (corr s.2) ∧
    Forall (λ p, groupKey p = k) (alerts b);
  wf_sched : ∀ k b, buckets (corr s.2) !! k = Some b → scheduled s.1 s.2 k b;
  wf_fresh : ∀ id x, timers (corr s.2) !! id = Some x → (id < next_timer (corr s.2))%nat;
}.

Lemma scheduled_later n n' w k b : (n ≤ n')%nat → scheduled n w k b → scheduled n' w k b.
Proof.
  intros Hn [H|(t & Ht & Hle)]; [by left|right]. exists t. split; [done|].
  pose proof (clk_mono n n' Hn). lia.
Qed.

Lemma wf_add p n c n' c' st :
  Add p (n, c) = (tt, (n', c')) → wf (n, MkWorld c st) → wf (n', MkWorld c' st).
Proof.
  intros Ha [Hm Hg Hs Hf]. simpl in *.
  apply Add_spec in Ha as (Em & Ew & Hn & kept & t & Eb & H).
  assert (0 <= Z.of_nat (length kept) < maxGroup c ∧ Forall (λ q, groupKey q = groupKey p) kept) as [Hk1 Hk2].
  { destruct H as [(b & Hb & -> & _ & Hlt & _)|(-> & _)]; [|by simpl; split; [lia|]].
    split; [lia|]. by apply Hg. }
  constructor; simpl; rewrite ?Em; [done| | |].
  - intros k b. rewrite Eb, lookup_insert_Some. intros [[<- <-]|[_ Hb]]; [|by apply Hg].
    simpl. rewrite length_app. simpl. split; [lia|]. apply Forall_app. split; [done|by constructor].
  - intros k b. rewrite Eb, lookup_insert_Some. unfold scheduled; simpl. rewrite Ew.
    intros [[<- <-]|[Hne Hb]]; simpl.
    + destruct H as [(b & Hb & -> & -> & _ & _ & -> & _)|(-> & -> & _ & -> & _)].
      * apply (scheduled_later n n' _ _ _ Hn (Hs _ _ Hb)).
      * right. eexists. rewrite lookup_insert_eq. split; [done|]. pose proof (clk_mono n n' Hn). lia.
    + pose proof (scheduled_later n n' _ _ _ Hn (Hs _ _ Hb)) as Hs'.
      destruct Hs' as [Hl|(u & Hu & Hle)]; [by left|right]. exists u. split; [|done].
      destruct H as [(? & _ & _ & _ & _ & _ & -> & _)|(_ & Et & _ & -> & _)]; [done|].
      subst t. simpl in Hu. rewrite lookup_insert_ne; [done|]. apply Hf in Hu. lia.
  - intros id x. destruct H as [(? & _ & _ & _ & _ & _ & -> & ->)|(_ & -> & _ & -> & ->)]; [apply Hf|].
    rewrite lookup_insert_Some. intros [[<- _]|[_ Hx]]; [lia|]. apply Hf in Hx. lia.
Qed.

Lemma step_wf e s s' : step e s s' → wf s → wf s'.
Proof.
  destruct 1 as [p n c n' c' st H|id key w n c st Hid Hw|key o n c n' c' st st' Hp H
    |order keys n c n' c' st Ho H|n n' w Hn].
  - by eapply wf_add.
  - intros [Hm Hg Hs Hf]. constructor; simpl in *; [done|done| |].
    + intros k b Hb. destruct (Hs k b Hb) as [Hst|(t & Ht & Hle)]; [by left; right|]. simpl in *.
      destruct (decide (id = timer b)) as [->|Hne].
      * left. simpl. rewrite Hid in Ht. injection Ht as -> ->. left.
      * right. exists t. simpl. by rewrite lookup_delete_ne.
    + intros i x [_ Hx]%lookup_delete_Some. by eapply Hf.
  - apply take_bucket_spec in H as (-> & -> & _).
    intros [Hm Hg Hs Hf]. constructor; simpl in *; [done| | |done].
    + intros k b [_ Hb]%lookup_delete_Some. by apply Hg.
    + intros k b [Hne Hb]%lookup_delete_Some. destruct (Hs k b Hb) as [Hst|Ht]; [left|by right].
      simpl in *. rewrite Hp in Hst. apply elem_of_cons in Hst as [->|]; done.
  - apply drain_keys_spec in H as (-> & -> & ts & -> & Hts).
    intros [Hm Hg Hs Hf]. constructor; simpl in *; [done|done| |].
    + intros k b Hb. left. simpl. apply elem_of_app. left. rewrite Ho. apply list_elem_of_fmap.
      exists (k, b). split; [done|]. by apply elem_of_map_to_list.
    + intros i x Hx. eapply Hf, lookup_weaken; eauto.
  - intros [Hm Hg Hs Hf]. constructor; simpl in *; [done|done| |done].
    intros k b Hb. eapply scheduled_later; eauto.
Qed.

Lemma steps_wf es s s' : steps es s s' → wf s → wf s'.
Proof. induction 1; eauto using step_wf. Qed.

Lemma wf_New en ws mg n : wf (n, MkWorld (correlator_New en ws mg) []).
Proof. constructor; simpl; try done. destruct (mg <=? 0) eqn:E; zbool; lia. Qed.

(** A flushed group: its size and its common key. *)
Definition good_group (m : Z) (l : list (ref AlertPayload)) : Prop :=
  0 < Z.of_nat (length l) <= m ∧ ∃ k, Forall (λ p, groupKey p = k) l.

Lemma step_params e s s' : step e s s' → maxGroup (corr s'.2) = maxGroup (corr s.2).
Proof.
  destruct 1 as [p n c n' c' st H| |key o n c n' c' st st' Hp H|order keys n c n' c' st Ho H|]; try done; simpl.
  - by apply Add_spec in H as (-> & _).
  - by apply take_bucket_spec in H as (_ & -> & _).
  - by apply drain_keys_spec in H as (_ & _ & ts & -> & _).
Qed.

Lemma step_groups e s s' m :
  step e s s' → wf s → maxGroup (corr s.2) = m → Forall (good_group m) (groups [e]).
Proof.
  intros H [_ Hg _ _] <-. destruct H as [| |key o n c n' c' st st' Hp H| |]; try constructor.
  apply take_bucket_spec in H as (_ & _ & H). destruct o as [l|]; [|constructor].
  destruct H as (b & Hb & -> & _). apply Forall_singleton. simpl in *. split; [by eapply Hg|].
  exists key. by apply Hg.
Qed.

Lemma steps_groups es s s' m :
  steps es s s' → wf s → maxGroup (corr s.2) = m →
  maxGroup (corr s'.2) = m ∧ Forall (good_group m) (groups es).
Proof.
  induction 1 as [s|es e s s' s'' H IH Hst]; intros Hw Hm; [by split; [|constructor]|].
  destruct (IH Hw Hm) as [Hm' Hg]. split; [by rewrite (step_params _ _ _ Hst)|].
  unfold groups in *. rewrite omap_app. apply Forall_app. split; [done|].
  eapply step_groups; [done| |done]. by eapply steps_wf.
Qed.
End lemmas.

(** ** [Drain] *)
Section drain.
Context `{HC : !Clock} {S : Type} (flush : list (ref AlertPayload) → M S unit).

(** What [flushKey] hands over for a key. *)
Definition pending (m : gmap string bucket) (key : string) : option (list (ref AlertPayload)) :=
  match m !! key with
  | Some b => match alerts b with [] => None | _ => Some (alerts b) end
  | None => None
  end.

Lemma flushKey_run key n (c : Correlator) (s : S) :
  flushKey flush key (n, (c, s)) =
  let c' := set_buckets (delete key (buckets c)) c in
  match pending (buckets c) key with
  | Some l => let '(u, (n', s')) := flush l (n, s) in (u, (n', (c', s')))
  | None => (tt, (n, (c', s)))
  end.
Proof.
  unfold flushKey, zoom, take_bucket, pending. munfold. mstep.
  destruct (buckets c !! key) as [b|]; [|done]. by destruct (alerts b).
Qed.

Lemma omap_pending_delete m k (ks : list string) :
  k ∉ ks → omap (pending (delete k m)) ks = omap (pending m) ks.
Proof.
  intros Hk. apply list_omap_ext, Forall2_same_length_lookup_2; [done|].
  intros i a b Ha Hb. rewrite Ha in Hb. injection Hb as <-. unfold pending.
  rewrite lookup_delete_ne; [done|]. intros ->. by apply Hk, list_elem_of_lookup_2 with i.
Qed.

(** Flushing distinct keys hands their pending groups over in that order. *)
Lemma flush_keys_run (ks : list string) n (c : Correlator) (s : S) :
  NoDup ks →
  (for_each ks (flushKey flush) (n, (c, s))).2 =
  let '(n', s') := (for_each (omap (pending (buckets c)) ks) flush (n, s)).2 in
  (n', (set_buckets (foldl (λ m k, delete k m) (buckets c) ks) c, s')).
Proof.
  revert n c s. induction ks as [|k ks IH]; intros n c s; [by destruct c|].
  intros [Hk Hnd]%NoDup_cons. cbn [for_each omap list_omap foldl]. unfold mbind, M_bind.
  rewrite flushKey_run. cbv zeta. destruct (pending (buckets c) k) as [l|].
  - cbn [for_each]. unfold mbind, M_bind. destruct (flush l (n, s)) as [u [n1 s1]].
    rewrite IH by done. cbn [buckets set_buckets]. by rewrite omap_pending_delete.
  - rewrite IH by done. cbn [buckets set_buckets]. by rewrite omap_pending_delete.
Qed.

Lemma pending_all m (ks : list string) :
  ks ≡ₚ (map_to_list m).*1 → mjoin (omap (pending m) ks) ≡ₚ all_alerts m.
Proof.
  intros ->. unfold all_alerts.
  assert (∀ l, (∀ k b, (k, b) ∈ l → m !! k = Some b) →
    mjoin (omap (pending m) l.*1) = l.*2 ≫= alerts) as ->; [|done|intros k b; apply elem_of_map_to_list].
  induction l as [|[k b] l IH]; intros Hl; [done|]. cbn [fmap list_fmap omap list_omap fst].
  unfold pending at 1. rewrite (Hl k b) by left. rewrite bind_cons. cbn [snd].
  rewrite <- IH by (intros; apply Hl; by right). by destruct (alerts b).
Qed.

Lemma foldl_delete_all (m : gmap string bucket) (ks : list string) :
  (∀ k, is_Some (m !! k) → k ∈ ks) → foldl (λ m k, delete k m) m ks = ∅.
Proof.
  revert m. induction ks as [|k ks IH]; simpl; intros m Hm.
  - apply map_empty. intros k. destruct (m !! k) eqn:E; [|done].
    assert (k ∈ []) by (apply Hm; eauto). set_solver.
  - apply IH. intros j [b [Hne Hb]%lookup_delete_Some].
    assert (j ∈ k :: ks) as [->|]%elem_of_cons by (apply Hm; eauto); done.
Qed.

Lemma Drain_run (order : list string → list string) n (c : Correlator) (s : S) :
  (∀ l, order l ≡ₚ l) →
  let r := (Drain flush order (n, (c, s))).2 in
  buckets r.2.1 = ∅ ∧
  ∃ gs, mjoin gs ≡ₚ Schedule.buffered c ∧ Forall (λ g, g ≠ []) gs ∧
    (r.1, r.2.2) = (for_each gs flush (n, s)).2.
Proof.
  intros Ho r. unfold r, Drain, mbind, M_bind, zoom. cbn [fst snd].
  destruct (drain_keys order (n, c)) as [ks [n1 c1]] eqn:Ed.
  apply drain_keys_spec in Ed as (-> & -> & ts & -> & _). set (ks := order _).
  assert (NoDup ks) as Hnd by (unfold ks; rewrite Ho; apply NoDup_fst_map_to_list).
  rewrite flush_keys_run by done. cbn [buckets set_timers].
  destruct (for_each _ flush (n, s)) as [u [n2 s2]] eqn:Ef. cbn [fst snd buckets set_buckets]. split.
  - apply foldl_delete_all. intros k [b Hb]. unfold ks. rewrite Ho. apply list_elem_of_fmap.
    exists (k, b). split; [done|]. by apply elem_of_map_to_list.
  - exists (omap (pending (buckets c)) ks). split_and!; [apply pending_all; unfold ks; by rewrite Ho| |by rewrite Ef].
    apply Forall_forall. intros g (k & _ & Hk)%list_elem_of_omap ->. unfold pending in Hk.
    destruct (buckets c !! k) as [b|]; [|done]. by destruct (alerts b).
Qed.
End drain.

(** ** Representatives *)

Lemma foldl_pick_elem l x : foldl pick x l ∈ x :: l.
Proof.
  revert x. induction l as [|y l IH]; intros x; cbn; [by left|].
  specialize (IH (pick x y)). apply elem_of_cons in IH as [IH|IH]; [|by do 2 right].
  rewrite IH. unfold pick. destruct (_ <? _); [by right; left|by left].
Qed.

Lemma Representative_elem l rep : Representative l = Some rep → rep ∈ l.
Proof. destruct l as [|x l]; [done|]. intros [= <-]. apply foldl_pick_elem. Qed.

Lemma foldl_pick_rank l x a :
  a ∈ x :: l → severityRank (Severity (deref a)) <= severityRank (Severity (deref (foldl pick x l))).
Proof.
  revert x a. induction l as [|y l IH]; intros x a; cbn; [by intros ->%list_elem_of_singleton|].
  assert (severityRank (Severity (deref x)) <= severityRank (Severity (deref (pick x y))) ∧
          severityRank (Severity (deref y)) <= severityRank (Severity (deref (pick x y)))) as [Hx Hy]
    by (unfold pick; destruct (_ <? _) eqn:E; zbool; lia).
  pose proof (IH (pick x y) (pick x y) ltac:(by left)) as Hp.
  intros [->|[->|Ha]%elem_of_cons]%elem_of_cons; [lia..|]. apply IH. by right.
Qed.

(** A group with a critical alert has a critical representative. *)
Lemma Representative_critical group rep :
  Representative group = Some rep → Exists (λ a, Severity (deref a) = "critical") group →
  Severity (deref rep) = "critical".
Proof.
  destruct group as [|x l]; [done|]. intros [= <-] (a & Ha & Hc)%Exists_exists.
  pose proof (foldl_pick_rank l x a Ha) as Hle. rewrite Hc in Hle. revert Hle. unfold severityRank.
  destruct (seqb (Severity (deref (foldl _ _ _))) "critical") eqn:E; [by sbool|].
  change (seqb "critical" "critical") with true. code_cases; lia.
Qed.

(** ** Properties *)

(** C13: no alert is lost or reported twice: in any interleaving of arrivals,
    timers, flushes and drains, every alert that arrived was either handed to
    the pipeline in exactly one incident, or is still buffered, or sat in a
    full bucket that a later arrival replaced. Every incident holds between 1
    and [maxGroup] alerts with one group key, and every buffered group has a
    timer armed within the window, or a flush under way. *)
Theorem incident_conservation `{HC : !Clock} (en : bool) (ws mg : Z) (n n' : nat)
    (es : list Schedule.event) (w : Schedule.world) :
  Schedule.steps es (n, Schedule.MkWorld (correlator_New en ws mg) []) (n', w) →
  let m := maxGroup (correlator_New en ws mg) in
  (Schedule.arrived es ≡ₚ
     mjoin (Schedule.groups es) ++ Schedule.buffered (Schedule.corr w) ++ Schedule.dropped es)%list ∧
  Forall (good_group m) (Schedule.groups es) ∧
  (∀ k b, buckets (Schedule.corr w) !! k = Some b → scheduled n' w k b).
Proof.
  intros H m. split_and!.
  - apply steps_conserve in H. cbn [Schedule.corr] in H. by rewrite app_nil_r in H.
  - eapply steps_groups; [exact H|apply wf_New|done].
  - eapply steps_wf in H; [|apply wf_New]. apply H.
Qed.

Definition sample_firing (cluster : string) : ref AlertPayload :=
  Ref 1 (mk_alert cluster "PodCrash" "critical" "shop" "web-1" "firing" 1 None).

Lemma incident_conservation_witness :
  let HC := unix_seconds_clock in
  let p := sample_firing "prod-a" in
  let r := Add p (0%nat, correlator_New true 60 25) in
  ([p] ≡ₚ [] ++ Schedule.buffered r.2.2 ++ [])%list ∧
  Forall (good_group 25) [] ∧
  (∀ k b, buckets r.2.2 !! k = Some b → scheduled 1 (Schedule.MkWorld r.2.2 []) k b).
Proof.
  intros HC p r.
  apply (incident_conservation (HC := HC) true 60 25 0 1 [Schedule.Arrived p []] (Schedule.MkWorld r.2.2 [])).
  apply (Schedule.st_snoc [] _ _ (0%nat, Schedule.MkWorld (correlator_New true 60 25) [])).
  - apply Schedule.st_nil.
  - apply (Schedule.s_add p 0 (correlator_New true 60 25)). reflexivity.
Defined.

(** At shutdown [Drain] leaves no bucket behind and hands every buffered
    alert to the pipeline, group by group, whatever order the map iterates in. *)
Theorem drain_delivers_all `{HC : !Clock} {S : Type} (flush : list (ref AlertPayload) → M S unit)
    (order : list string → list string) (n : nat) (c : Correlator) (s : S) :
  (∀ l, order l ≡ₚ l) →
  let r := (Drain flush order (n, (c, s))).2 in
  buckets r.2.1 = ∅ ∧
  ∃ gs, mjoin gs ≡ₚ Schedule.buffered c ∧ (r.1, r.2.2) = (for_each gs flush (n, s)).2.
Proof.
  intros Ho r. destruct (Drain_run flush order n c s Ho) as (Hb & gs & Hgs & _ & Hr).
  split; [exact Hb|]. by exists gs.
Qed.

Lemma drain_delivers_all_witness :
  let HC := unix_seconds_clock in
  let c := (Add (sample_firing "prod-a") (0%nat, correlator_New true 60 25)).2.2 in
  let r := (Drain (λ l, modify (cons l)) (λ l, l) (1%nat, (c, []))).2 in
  buckets r.2.1 = ∅ ∧
  ∃ gs, mjoin gs ≡ₚ Schedule.buffered c ∧ (r.1, r.2.2) = (for_each gs (λ l, modify (cons l)) (1%nat, [])).2.
Proof.
  intros HC c r. apply (drain_delivers_all (HC := HC) (λ l, modify (cons l)) (λ l, l) 1 c []).
  intros l. reflexivity.
Defined.

(** The alert a grouped notification centres on is the first one of the
    highest severity; there is none exactly when the group is empty. *)
Theorem representative_first_highest (l : list (ref AlertPayload)) :
  match Representative l with
  | None => l = []
  | Some best => ∃ before after, l = (before ++ best :: after)%list ∧
      Forall (λ a, severityRank (Severity (deref a)) < severityRank (Severity (deref best))) before ∧
      Forall (λ a, severityRank (Severity (deref a)) <= severityRank (Severity (deref best))) after
  end.
Proof.
  destruct l as [|a l]; [done|]. unfold Representative.
  induction l as [|x l (before & after & E & Hb & Ha)] using rev_ind; [by exists [], []|].
  rewrite foldl_app. cbn [foldl]. set (best := foldl pick a l) in *. unfold pick.
  destruct (severityRank (Severity (deref best)) <? severityRank (Severity (deref x))) eqn:El; zbool.
  - exists (a :: l), []. split_and!; [done| |done]. rewrite E. apply Forall_app. split.
    + eapply Forall_impl; [exact Hb|]. simpl. lia.
    + constructor; [done|]. eapply Forall_impl; [exact Ha|]. simpl. lia.
  - exists before, (after ++ [x])%list. split_and!; [|done|].
    + change (a :: l ++ [x])%list with ((a :: l) ++ [x])%list. by rewrite E, <- app_assoc.
    + apply Forall_app. split; [done|]. by constructor.
Qed.

(** Correlation never mixes clusters: alerts with the same group key come
    from the same cluster (ids have no "|") and name the same node, or the
    same namespace when neither names a node. *)
Theorem group_key_one_cluster (p q : ref AlertPayload) :
  lacks "|"%char (ClusterId (deref p)) = true → lacks "|"%char (ClusterId (deref q)) = true →
  groupKey p = groupKey q →
  ClusterId (deref p) = ClusterId (deref q) ∧
  ((∃ t u, Target (deref p) = Some t ∧ Target (deref q) = Some u ∧ Node t ≠ "" ∧ Node t = Node u) ∨
   Namespace (deref p) = Namespace (deref q)).
Proof.
  intros Hp Hq.
  assert (∀ p, (∃ t, Target (deref p) = Some t ∧ Node t ≠ "" ∧
        groupKey p = ClusterId (deref p) +:+ String "|"%char ("node|" +:+ Node t)) ∨
      groupKey p = ClusterId (deref p) +:+ String "|"%char ("ns|" +:+ Namespace (deref p))) as Hk.
  { intros r. unfold groupKey. destruct (Target (deref r)) as [t|]; [|by right].
    destruct (seqb (Node t) "") eqn:E; sbool; [by right|]. left. by exists t. }
  destruct (Hk p) as [(t & Et & Hn & ->)| ->], (Hk q) as [(u & Eu & Hu & ->)| ->]; intros H;
    apply sep_inj in H as [Hc H]; try done; simpl in H; injection H as H; split; try done.
  - left. by exists t, u.
  - by right.
Qed.

Lemma group_key_one_cluster_witness :
  let p := sample_firing "prod-a" in
  ClusterId (deref p) = ClusterId (deref p) ∧
  ((∃ t u, Target (deref p) = Some t ∧ Target (deref p) = Some u ∧ Node t ≠ "" ∧ Node t = Node u) ∨
   Namespace (deref p) = Namespace (deref p)).
Proof. intros p. apply (group_key_one_cluster p p); reflexivity. Defined.

(** Alerts of one key fill its bucket in order of arrival. *)
Lemma fill_bucket `{HC : !Clock} key (l : list (ref AlertPayload)) n c :
  Forall (λ p, groupKey p = key) l → Z.of_nat (length l) <= maxGroup c → buckets c !! key = None →
  ∃ n' c', for_each l Add (n, c) = (tt, (n', c')) ∧ maxGroup c' = maxGroup c ∧
    alerts <$> buckets c' !! key = match l with [] => None | _ => Some l end.
Proof.
  induction l as [|p l IH] using rev_ind; intros Hk Hl Hn.
  { exists n, c. by rewrite Hn. }
  apply Forall_app in Hk as [Hk [Hp _]%Forall_cons]. rewrite length_app in Hl. simpl in Hl, Hp.
  destruct (IH Hk ltac:(lia) Hn) as (n1 & c1 & E1 & Em & Eb).
  rewrite for_each_app, E1. cbn [snd for_each]. unfold mbind, M_bind, mret, M_ret.
  destruct (Add p (n1, c1)) as [[] [n2 c2]] eqn:E2.
  exists n2, c2. split; [done|]. apply Add_spec in E2 as (Em2 & _ & _ & kept & t & Eb2 & H).
  split; [congruence|]. rewrite Eb2. rewrite Hp. rewrite lookup_insert_eq. simpl.
  destruct H as [(b & Hb & -> & _)|(-> & _ & Ho & _)].
  - rewrite Hp in Hb. rewrite Hb in Eb. simpl in Eb. destruct l; [done|]. injection Eb as ->. done.
  - destruct l as [|a l]; [done|]. exfalso. unfold Schedule.overwritten in Ho. rewrite Hp in Ho.
    destruct (buckets c1 !! key) as [b|]; [|done]. simpl in Eb. injection Eb as Eb.
    rewrite Eb, Em in Ho. destruct (maxGroup c <=? _) eqn:E in Ho; zbool; [lia|done].
Qed.

(** A burst larger than [maxGroup] loses alerts: the arrival that finds its
    group's bucket full replaces the bucket, and the flush of the group then
    reports that one alert only; the [maxGroup] alerts before it are gone. *)
Theorem full_bucket_is_lost `{HC : !Clock} (en : bool) (ws mg : Z) (l : list (ref AlertPayload))
    (a : ref AlertPayload) (n : nat) :
  Forall (λ p, groupKey p = groupKey a) l →
  Z.of_nat (length l) = maxGroup (correlator_New en ws mg) →
  ((for_each (l ++ [a])%list Add;; take_bucket (groupKey a)) (n, correlator_New en ws mg)).1 = Some [a].
Proof.
  intros Hk Hl.
  destruct (fill_bucket (groupKey a) l n (correlator_New en ws mg)) as (n1 & c1 & E1 & Em & Eb);
    [done|lia|done|].
  unfold mbind, M_bind. destruct (for_each (l ++ [a]) Add _) as [u c] eqn:E.
  rewrite for_each_app, E1 in E. cbn [snd for_each] in E. unfold mbind, M_bind, mret, M_ret in E.
  destruct (Add a (n1, c1)) as [[] [n2 c2]] eqn:E2. injection E as <- <-.
  apply Add_spec in E2 as (_ & _ & _ & kept & t & Eb2 & H).
  unfold take_bucket. munfold. rewrite Eb2, lookup_insert_eq. simpl.
  destruct H as [(b & Hb & -> & _ & Hlt & _)|(-> & _)]; [exfalso|done].
  rewrite Hb in Eb. simpl in Eb. destruct l as [|x l]; [done|]. injection Eb as Eb. rewrite Em, Eb in Hlt. lia.
Qed.

Lemma full_bucket_is_lost_witness :
  let HC := unix_seconds_clock in
  let p := sample_firing "prod-a" in
  ((for_each ([p] ++ [p])%list Add;; take_bucket (groupKey p)) (0%nat, correlator_New true 60 1)).1 = Some [p].
Proof. intros HC p. apply (full_bucket_is_lost (HC := HC) true 60 1 [p] p 0); [by constructor|done]. Defined.
