(* ===== verification/Json.v ===== *)
(** * JSON

    What the code uses of [encoding/json]: the scanner and the decoder into Go
    values, [json.Marshal] of strings, booleans, integers, slices and structs.
    Numbers are kept as their text. *)
From S2P Require Import Prelude GoStrings.
From Stdlib Require Import Ascii DecimalString DecimalPos DecimalFacts.

Open Scope Z_scope.

#[warnings="-register-all"]
Inductive json :=
| JNull
| JBool (b : bool)
| JNum (literal : string)
| JStr (s : string)
| JArr (l : list json)
| JObj (l : list (string * json)).

(** ** UTF-8 *)

Definition in_range (lo hi : Z) (a : ascii) : bool := (lo <=? Z_of_byte a) && (Z_of_byte a <=? hi).

(** The length of the encoded rune [s] starts with; [None] for a byte that
    starts none. *)
Definition rune_len (s : string) : option nat :=
  match s with
  | String a r =>
      if in_range 0 127 a then Some 1%nat
      else if in_range 194 223 a then
        match r with String b _ => if in_range 128 191 b then Some 2%nat else None | _ => None end
      else if in_range 224 239 a then
        match r with
        | String b (String c _) =>
            let lo := if Z_of_byte a =? 224 then 160 else 128 in
            let hi := if Z_of_byte a =? 237 then 159 else 191 in
            if in_range lo hi b && in_range 128 191 c then Some 3%nat else None
        | _ => None
        end
      else if in_range 240 244 a then
        match r with
        | String b (String c (String d _)) =>
            let lo := if Z_of_byte a =? 240 then 144 else 128 in
            let hi := if Z_of_byte a =? 244 then 143 else 191 in
            if in_range lo hi b && in_range 128 191 c && in_range 128 191 d then Some 4%nat else None
        | _ => None
        end
      else None
  | EmptyString => None
  end.

Fixpoint bytes_of (l : list Z) : string :=
  match l with [] => EmptyString | z :: l => String (byte_of_Z z) (bytes_of l) end.

(** [utf8.AppendRune]. *)
Definition encode_rune (r : Z) : string :=
  if r <? 128 then bytes_of [r]
  else if r <? 2048 then bytes_of [192 + r / 64; 128 + r mod 64]
  else if r <? 65536 then bytes_of [224 + r / 4096; 128 + r / 64 mod 64; 128 + r mod 64]
  else bytes_of [240 + r / 262144; 128 + r / 4096 mod 64; 128 + r / 64 mod 64; 128 + r mod 64].

Definition RuneError : Z := 65533.

(** [utf8.ValidString]; [skip] bytes of the current rune remain. *)
Fixpoint valid_from (skip : nat) (s : string) : bool :=
  match s with
  | EmptyString => match skip with O => true | S _ => false end
  | String a r =>
      match skip with
      | S k => valid_from k r
      | O => match rune_len s with Some n => valid_from (pred n) r | None => false end
      end
  end.

Definition ValidString (s : string) : bool := valid_from 0 s.

(** ** Strings *)

Definition quote_byte (a : ascii) : string :=
  let z := Z_of_byte a in
  if (z =? 34) || (z =? 92) then String "\" (String a "")
  else if z =? 8 then "\b" else if z =? 12 then "\f" else if z =? 10 then "\n"
  else if z =? 13 then "\r" else if z =? 9 then "\t"
  else if (z <? 32) || (z =? 60) || (z =? 62) || (z =? 38)
  then "\u00" +:+ String (hex_digit (z / 16)) (String (hex_digit (z mod 16)) "")
  else String a "".

(** The body of a string literal as [json.Marshal] writes it. [copy] bytes of
    the current rune are still to be copied, [drop] of them skipped. *)
Fixpoint quote_from (copy drop : nat) (s : string) : string :=
  match s with
  | EmptyString => EmptyString
  | String a r =>
      match drop, copy with
      | S d, _ => quote_from copy d r
      | O, S c => String a (quote_from c 0 r)
      | O, O =>
          if in_range 0 127 a then quote_byte a +:+ quote_from 0 0 r
          else match rune_len s with
               | None => "\ufffd" +:+ quote_from 0 0 r
               | Some n =>
                   match CutPrefix s (bytes_of [226; 128; 168]), CutPrefix s (bytes_of [226; 128; 169]) with
                   | Some _, _ => "\u2028" +:+ quote_from 0 2 r
                   | _, Some _ => "\u2029" +:+ quote_from 0 2 r
                   | None, None => String a (quote_from (pred n) 0 r)
                   end
               end
      end
  end.

Definition dquote : ascii := "034"%char.

Definition quote (s : string) : string := String dquote (quote_from 0 0 s +:+ String dquote "").

(** Four hexadecimal digits. *)
Definition getu4 (s : string) : option Z :=
  match s with
  | String a (String b (String c (String d _))) =>
      a ← hex_value a; b ← hex_value b; c ← hex_value c; d ← hex_value d;
      Some (4096 * a + 256 * b + 16 * c + d)
  | _ => None
  end.

Definition unescape_byte (e : ascii) : option ascii :=
  match e with
  | "034"%char => Some e | "\"%char => Some e | "/"%char => Some e
  | "b"%char => Some (byte_of_Z 8) | "f"%char => Some (byte_of_Z 12) | "n"%char => Some (byte_of_Z 10)
  | "r"%char => Some (byte_of_Z 13) | "t"%char => Some (byte_of_Z 9)
  | _ => None
  end.

(** The rune of a [\u] escape whose digits start [s], and how many bytes of
    [s] it takes: a surrogate pair takes two escapes, a lone surrogate is
    replaced. *)
Definition escaped_rune (s : string) : option (Z * nat) :=
  r ← getu4 s;
  if (55296 <=? r) && (r <? 57344) then
    let second :=
      match CutPrefix (drop_bytes 4 s) "\u" with
      | Some t => getu4 t
      | None => None
      end in
    match second with
    | Some r2 =>
        if (r <? 56320) && (56320 <=? r2) && (r2 <? 57344)
        then Some ((r - 55296) * 1024 + (r2 - 56320) + 65536, 10%nat)
        else Some (RuneError, 4%nat)
    | None => Some (RuneError, 4%nat)
    end
  else Some (r, 4%nat).

(** The rest of a string literal after its opening quote: the Go string and
    what follows the closing quote. *)
Fixpoint unquote_from (copy drop : nat) (s : string) : option (string * string) :=
  match s with
  | EmptyString => None
  | String a r =>
      match drop, copy with
      | S d, _ => unquote_from copy d r
      | O, S c => '(t, rest) ← unquote_from c 0 r; Some (String a t, rest)
      | O, O =>
          let z := Z_of_byte a in
          if z =? 34 then Some (EmptyString, r)
          else if z =? 92 then
            match r with
            | EmptyString => None
            | String e r' =>
                match unescape_byte e with
                | Some b => '(t, rest) ← unquote_from 0 1 r; Some (String b t, rest)
                | None =>
                    if Ascii.eqb e "u" then
                      '(u, k) ← escaped_rune r';
                      '(t, rest) ← unquote_from 0 (S k) r;
                      Some (encode_rune u +:+ t, rest)
                    else None
                end
            end
          else if z <? 32 then None
          else match rune_len s with
               | Some n => '(t, rest) ← unquote_from (pred n) 0 r; Some (String a t, rest)
               | None => '(t, rest) ← unquote_from 0 0 r; Some (encode_rune RuneError +:+ t, rest)
               end
      end
  end.

(** ** Numbers *)

Fixpoint digits (s : string) : string * string :=
  match s with
  | String a r => if in_range 48 57 a then let '(d, t) := digits r in (String a d, t) else (EmptyString, s)
  | EmptyString => (EmptyString, EmptyString)
  end.

Definition exponent (s : string) : option (string * string) :=
  match s with
  | String e r =>
      if Ascii.eqb e "e" || Ascii.eqb e "E" then
        let '(sign, r) :=
          match r with
          | String "+" t => ("+", t) | String "-" t => ("-", t) | _ => ("", r)
          end in
        let '(d, t) := digits r in
        if seqb d "" then None else Some (String e (sign +:+ d), t)
      else Some ("", s)
  | EmptyString => Some ("", s)
  end.

Definition fraction (s : string) : option (string * string) :=
  match s with
  | String "." r =>
      let '(d, t) := digits r in
      if seqb d "" then None else
      '(x, t) ← exponent t; Some (String "." (d +:+ x), t)
  | _ => exponent s
  end.

(** A number literal: no leading zeros. *)
Definition scan_number (s : string) : option (string * string) :=
  let '(sign, s) := match s with String "-" r => ("-", r) | _ => ("", s) end in
  '(i, r) ← match s with
            | String "0" r => Some ("0", r)
            | _ => let '(d, r) := digits s in if seqb d "" then None else Some (d, r)
            end;
  '(f, r) ← fraction r;
  Some (sign +:+ i +:+ f, r).

(** ** Values *)

Fixpoint skip_ws (s : string) : string :=
  match s with
  | String a r =>
      if in_range 32 32 a || in_range 9 10 a || in_range 13 13 a then skip_ws r else s
  | EmptyString => EmptyString
  end.

Definition maxNestingDepth : nat := Z.to_nat 10000.

(** One value, the elements of an array up to the closing bracket, the members
    of an object up to the closing brace. [depth] more levels may be opened. *)
Fixpoint parse_value (fuel depth : nat) (s : string) : option (json * string) :=
  match fuel with
  | O => None
  | S fuel =>
      match skip_ws s with
      | EmptyString => None
      | String c r =>
          if Ascii.eqb c "{" then
            match depth with
            | O => None
            | S depth =>
                match CutPrefix (skip_ws r) "}" with
                | Some r' => Some (JObj [], r')
                | None => '(l, t) ← parse_members fuel depth r; Some (JObj l, t)
                end
            end
          else if Ascii.eqb c "[" then
            match depth with
            | O => None
            | S depth =>
                match CutPrefix (skip_ws r) "]" with
                | Some r' => Some (JArr [], r')
                | None => '(l, t) ← parse_elements fuel depth r; Some (JArr l, t)
                end
            end
          else if Ascii.eqb c dquote then '(t, r') ← unquote_from 0 0 r; Some (JStr t, r')
          else
            match CutPrefix (String c r) "true", CutPrefix (String c r) "false",
                  CutPrefix (String c r) "null" with
            | Some r', _, _ => Some (JBool true, r')
            | _, Some r', _ => Some (JBool false, r')
            | _, _, Some r' => Some (JNull, r')
            | None, None, None => '(n, r') ← scan_number (String c r); Some (JNum n, r')
            end
      end
  end
with parse_elements (fuel depth : nat) (s : string) : option (list json * string) :=
  match fuel with
  | O => None
  | S fuel =>
      '(v, r) ← parse_value fuel depth s;
      match skip_ws r with
      | String "," r' => '(l, t) ← parse_elements fuel depth r'; Some (v :: l, t)
      | String "]" r' => Some ([v], r')
      | _ => None
      end
  end
with parse_members (fuel depth : nat) (s : string) : option (list (string * json) * string) :=
  match fuel with
  | O => None
  | S fuel =>
      match skip_ws s with
      | String "034"%char r =>
          '(k, r) ← unquote_from 0 0 r;
          match skip_ws r with
          | String ":" r =>
              '(v, r) ← parse_value fuel depth r;
              match skip_ws r with
              | String "," r' => '(l, t) ← parse_members fuel depth r'; Some ((k, v) :: l, t)
              | String "}" r' => Some ([(k, v)], r')
              | _ => None
              end
          | _ => None
          end
      | _ => None
      end
  end.

(** A whole document. *)
Definition json_parse (s : string) : option json :=
  '(v, r) ← parse_value (2 + 2 * String.length s) maxNestingDepth s;
  if seqb (skip_ws r) "" then Some v else None.

(** [json.Marshal] of a value. *)
Fixpoint json_print (v : json) : string :=
  match v with
  | JNull => "null"
  | JBool b => if b then "true" else "false"
  | JNum n => n
  | JStr s => quote s
  | JArr l => "[" +:+ Join (map json_print l) "," +:+ "]"
  | JObj l => "{" +:+ Join (map (λ '(k, v), quote k +:+ ":" +:+ json_print v) l) "," +:+ "}"
  end.

(** ** The printed text parses back *)

Section json_induction.
Context (P : json → Prop).
Context (Hnull : P JNull) (Hbool : ∀ b, P (JBool b)) (Hnum : ∀ n, P (JNum n)) (Hstr : ∀ s, P (JStr s)).
Context (Harr : ∀ l, Forall P l → P (JArr l)) (Hobj : ∀ l, Forall (λ kv, P kv.2) l → P (JObj l)).

Fixpoint json_nested_ind (v : json) : P v :=
  match v with
  | JNull => Hnull | JBool b => Hbool b | JNum n => Hnum n | JStr s => Hstr s
  | JArr l => Harr l ((fix go l := match l return Forall P l with
                       | [] => List.Forall_nil _
                       | v :: l => List.Forall_cons _ v l (json_nested_ind v) (go l)
                       end) l)
  | JObj l => Hobj l ((fix go l := match l return Forall (λ kv, P kv.2) l with
                       | [] => List.Forall_nil _
                       | kv :: l => List.Forall_cons _ kv l (json_nested_ind kv.2) (go l)
                       end) l)
  end.
End json_induction.

Lemma unquote_quote_byte a t : in_range 0 127 a = true →
  unquote_from 0 0 (quote_byte a +:+ t) = '(u, r) ← unquote_from 0 0 t; Some (String a u, r).
Proof.
  destruct a as [[] [] [] [] [] [] [] []]; intros H; try (vm_compute in H; discriminate H); reflexivity.
Qed.

Lemma rune_len_copy a r n t :
  in_range 0 127 a = false → rune_len (String a r) = Some n →
  rune_len (String a (quote_from (pred n) 0 r +:+ t)) = Some n.
Proof.
  intros Ha. unfold rune_len. rewrite Ha. destruct (in_range 194 223 a).
  { destruct r as [|b r]; [done|]. destruct (in_range 128 191 b) eqn:Eb; [|done]. intros [= <-]. simpl. by rewrite Eb. }
  destruct (in_range 224 239 a).
  { destruct r as [|b [|c r]]; [done..|]. destruct (_ && _) eqn:Eb; [|done]. intros [= <-]. simpl. by rewrite Eb. }
  destruct (in_range 240 244 a); [|done]. destruct r as [|b [|c [|d r]]]; [done..|].
  destruct (_ && _) eqn:Eb; [|done]. intros [= <-]. simpl. by rewrite Eb.
Qed.

Lemma quote_drop s t k : quote_from 0 (String.length t + k) (t +:+ s) = quote_from 0 k s.
Proof. induction t as [|a t IH]; [done|]. simpl. exact IH. Qed.

Lemma high_byte a : in_range 0 127 a = false →
  (Z_of_byte a =? 34) = false ∧ (Z_of_byte a =? 92) = false ∧ (Z_of_byte a <? 32) = false.
Proof. unfold in_range. pose proof (Z_of_byte_range a). lia. Qed.

Lemma rune_len_separator c t : c = 168 ∨ c = 169 → rune_len (bytes_of [226; 128; c] +:+ t) = Some 3%nat.
Proof. intros [-> | ->]; reflexivity. Qed.

Lemma unquote_quote_from m s k rest :
  (String.length s ≤ m)%nat → valid_from k s = true →
  unquote_from k 0 (quote_from k 0 s +:+ String dquote rest) = Some (s, rest).
Proof.
  revert s k. induction m as [|m IH]; intros s k Hm Hv;
    (destruct s as [|a r]; [by destruct k|]); simpl in Hm; [lia|].
  destruct k as [|k].
  2: { simpl in *. by rewrite IH by (done || lia). }
  cbn [quote_from valid_from] in *. destruct (in_range 0 127 a) eqn:Ea.
  { rewrite append_assoc, unquote_quote_byte by done. rewrite IH; [done|lia|].
    unfold rune_len in Hv. by rewrite Ea in Hv. }
  destruct (rune_len (String a r)) as [n|] eqn:En; [|done].
  assert (∀ t1 c, CutPrefix (String a r) (bytes_of [226; 128; c]) = Some t1 → c = 168 ∨ c = 169 →
    String a r = bytes_of [226; 128; c] +:+ t1 ∧ r = bytes_of [128; c] +:+ t1 ∧ valid_from 0 t1 = true) as Hsep.
  { intros t1 c Hc%CutPrefix_Some Hr. rewrite Hc, rune_len_separator in En by done. injection En as <-.
    split_and!; [done|by injection Hc|]. injection Hc as -> ->. exact Hv. }
  destruct (CutPrefix _ (bytes_of [226; 128; 168])) as [t1|] eqn:E8.
  { destruct (Hsep _ _ E8 ltac:(by left)) as (-> & -> & Ht). change (quote_from 0 2 (bytes_of [128; 168] +:+ t1))
      with (quote_from 0 0 t1). rewrite append_assoc.
    transitivity ('(u, q) ← unquote_from 0 0 (quote_from 0 0 t1 +:+ String dquote rest);
                  Some (bytes_of [226; 128; 168] +:+ u, q)); [reflexivity|].
    rewrite IH; [done|simpl in *; lia|done]. }
  destruct (CutPrefix _ (bytes_of [226; 128; 169])) as [t1|] eqn:E9.
  { destruct (Hsep _ _ E9 ltac:(by right)) as (-> & -> & Ht). change (quote_from 0 2 (bytes_of [128; 169] +:+ t1))
      with (quote_from 0 0 t1). rewrite append_assoc.
    transitivity ('(u, q) ← unquote_from 0 0 (quote_from 0 0 t1 +:+ String dquote rest);
                  Some (bytes_of [226; 128; 169] +:+ u, q)); [reflexivity|].
    rewrite IH; [done|simpl in *; lia|done]. }
  destruct (high_byte a Ea) as (E1 & E2 & E3). cbn [String.append unquote_from]. rewrite E1, E2, E3.
  rewrite rune_len_copy by done. by rewrite IH by (done || lia).
Qed.

Lemma unquote_quote s rest : ValidString s = true →
  ∃ r, quote s +:+ rest = String dquote r ∧ unquote_from 0 0 r = Some (s, rest).
Proof.
  intros Hv. eexists. split; [reflexivity|]. rewrite append_assoc. cbn [String.append].
  by apply (unquote_quote_from (String.length s)).
Qed.

(** What may follow a value inside a printed document. *)
Definition stops (s : string) : Prop :=
  s = "" ∨ ∃ a r, s = String a r ∧ (a = ","%char ∨ a = "]"%char ∨ a = "}"%char).

Definition number_ok (n : string) : Prop :=
  (∃ a r, n = String a r ∧ (in_range 48 57 a = true ∨ a = "-"%char)) ∧
  ∀ rest, stops rest → scan_number (n +:+ rest) = Some (n, rest).

Lemma digits_stop s : stops s → digits s = ("", s).
Proof. intros [->|(a & r & -> & [-> | [-> | ->]])]; reflexivity. Qed.

Lemma fraction_stop s : stops s → fraction s = Some ("", s).
Proof. intros [->|(a & r & -> & [-> | [-> | ->]])]; reflexivity. Qed.

Lemma digits_uint d rest : stops rest →
  digits (NilEmpty.string_of_uint d +:+ rest) = (NilEmpty.string_of_uint d, rest).
Proof.
  intros Hr. induction d; [by apply digits_stop|..]; cbn [NilEmpty.string_of_uint String.append digits];
    rewrite IHd; reflexivity.
Qed.

Lemma pos_uint_head p d : Pos.to_uint p ≠ Decimal.D0 d.
Proof.
  intros H. pose proof (Unsigned.to_uint_nonzero p) as Hz.
  pose proof (Unsigned.to_of (Pos.to_uint p)) as E. rewrite Unsigned.of_to in E. simpl N.to_uint in E.
  rewrite H in E. change (Decimal.unorm (Decimal.D0 d)) with (Decimal.unorm d) in E.
  unfold Decimal.unorm in E. destruct (Decimal.nzhead d) eqn:En; try done.
  - rewrite E in H. by rewrite H in Hz.
  - by apply nzhead_nonzero in En.
Qed.

(** Digits without a leading zero are a number. *)
Lemma number_digits d rest :
  d ≠ Decimal.Nil → (∀ d', d ≠ Decimal.D0 d') → stops rest →
  scan_number (NilEmpty.string_of_uint d +:+ rest) = Some (NilEmpty.string_of_uint d, rest) ∧
  scan_number (String "-" (NilEmpty.string_of_uint d +:+ rest)) = Some (String "-" (NilEmpty.string_of_uint d), rest).
Proof.
  intros Hn Hz Hs. pose proof (digits_uint d rest Hs) as Hd. pose proof (fraction_stop rest Hs) as Hf.
  assert (∀ a s, seqb (String a s) "" = false) as Hq by (intros; by apply seqb_false).
  destruct d; try done; try (by destruct (Hz d)); clear Hz Hn; unfold scan_number;
    cbn [NilEmpty.string_of_uint String.append] in *; rewrite Hd; cbv beta iota zeta; rewrite Hq;
    cbn [mbind option_bind]; rewrite Hf; cbn [mbind option_bind]; by rewrite append_nil_r.
Qed.

Lemma number_FormatInt z : number_ok (FormatInt z).
Proof.
  assert (∀ p, ∃ d, Pos.to_uint p = d ∧ d ≠ Decimal.Nil ∧ (∀ d', d ≠ Decimal.D0 d') ∧
    NilZero.string_of_uint d = NilEmpty.string_of_uint d) as Hp.
  { intros p. exists (Pos.to_uint p). split_and!; [done|apply Unsigned.to_uint_nonnil|intros; apply pos_uint_head|].
    pose proof (Unsigned.to_uint_nonnil p). by destruct (Pos.to_uint p). }
  unfold FormatInt. destruct z as [|p|p]; simpl; unfold NilZero.string_of_int; simpl.
  - split; [exists "0"%char, ""; split; [done|by left]|]. intros rest [->|(a & r & -> & [-> | [-> | ->]])]; reflexivity.
  - destruct (Hp p) as (d & -> & Hn & Hz & ->). split.
    + destruct d; try done; cbn; eexists _, _; split; try reflexivity; by left.
    + intros rest Hr. by apply number_digits.
  - destruct (Hp p) as (d & -> & Hn & Hz & ->). split; [eexists _, _; split; [reflexivity|by right]|].
    intros rest Hr. by apply number_digits.
Qed.

(** ** Documents *)

(** Values whose strings are valid UTF-8, whose numbers are numbers, and whose
    nesting is at most [depth]. *)
Fixpoint wf_json (depth : nat) (v : json) {struct v} : Prop :=
  match v with
  | JNull | JBool _ => True
  | JNum n => number_ok n
  | JStr s => ValidString s = true
  | JArr l =>
      match depth with
      | O => False
      | S d => foldr (λ v P, wf_json d v ∧ P) True l
      end
  | JObj l =>
      match depth with
      | O => False
      | S d => foldr (λ kv P, (ValidString kv.1 = true ∧ wf_json d kv.2) ∧ P) True l
      end
  end.

Lemma skip_ws_stop a r : in_range 32 32 a || in_range 9 10 a || in_range 13 13 a = false →
  skip_ws (String a r) = String a r.
Proof. intros H. cbn [skip_ws]. by rewrite H. Qed.

(** A printed value starts with a byte that is no white space and closes
    nothing. *)
Lemma print_head d v : wf_json d v → ∃ a r, json_print v = String a r ∧
  in_range 32 32 a || in_range 9 10 a || in_range 13 13 a = false ∧
  Ascii.eqb "]" a = false ∧ Ascii.eqb "}" a = false.
Proof.
  destruct v as [|b|n|s|l|l]; simpl; intros H; try (by eexists _, _; split_and!; reflexivity).
  - destruct b; by eexists _, _; split_and!; reflexivity.
  - destruct H as [(a & r & -> & H) _]. exists a, r. split; [done|].
    destruct H as [H| ->]; [|done]. revert H. destruct a as [[] [] [] [] [] [] [] []]; by vm_compute.
Qed.

Lemma number_head n : number_ok n → ∃ a r, n = String a r ∧
  Ascii.eqb a "{" = false ∧ Ascii.eqb a "[" = false ∧ Ascii.eqb a dquote = false ∧
  Ascii.eqb "t" a = false ∧ Ascii.eqb "f" a = false ∧ Ascii.eqb "n" a = false.
Proof.
  intros [(a & r & -> & H) _]. exists a, r. split; [done|].
  destruct H as [H| ->]; [|done]. revert H. destruct a as [[] [] [] [] [] [] [] []]; by vm_compute.
Qed.

Lemma Join_cons x y l sep : Join (x :: y :: l) sep = x +:+ sep +:+ Join (y :: l) sep.
Proof. reflexivity. Qed.

Lemma stops_comma s : stops (String "," s).
Proof. right. eexists _, _. split; [done|by left]. Qed.

Lemma stops_bracket s : stops (String "]" s).
Proof. right. eexists _, _. split; [done|by right; left]. Qed.

Lemma stops_brace s : stops (String "}" s).
Proof. right. eexists _, _. split; [done|by right; right]. Qed.

Lemma skip_ws_stops s : stops s → skip_ws s = s.
Proof. intros [->|(a & r & -> & [-> | [-> | ->]])]; reflexivity. Qed.

Definition parses_back (v : json) : Prop := ∀ fuel depth rest,
  wf_json depth v → (2 * String.length (json_print v) ≤ fuel)%nat → stops rest →
  parse_value fuel depth (json_print v +:+ rest) = Some (v, rest).

Definition member (kv : string * json) : string := quote kv.1 +:+ ":" +:+ json_print kv.2.

(** One element and one member, as the loops read them. *)
Lemma parse_elements_print l : Forall parses_back l → l ≠ [] → ∀ fuel depth rest,
  foldr (λ v P, wf_json depth v ∧ P) True l →
  (2 * String.length (Join (map json_print l) ",") < fuel)%nat →
  parse_elements fuel depth (Join (map json_print l) "," +:+ String "]" rest) = Some (l, rest).
Proof.
  induction 1 as [|v l Hv Hl IH]; [done|]. intros _ fuel depth rest [Hw Hws] Hf.
  destruct fuel as [|fuel]; [lia|]. cbn [parse_elements].
  destruct l as [|v' l].
  - cbn [map Join] in *. rewrite Hv by (done || lia || apply stops_bracket). reflexivity.
  - cbn [map] in *. rewrite Join_cons in *. rewrite !length_append in Hf. change (String.length ",") with 1%nat in Hf.
    rewrite !append_assoc. rewrite Hv by (done || lia || apply stops_comma).
    cbn [String.append mbind option_bind]. rewrite skip_ws_stops by apply stops_comma.
    rewrite IH by (done || lia). reflexivity.
Qed.

Lemma parse_member fuel depth kv rest (k : list (string * json) → list (string * json)) :
  parses_back kv.2 → ValidString kv.1 = true → wf_json depth kv.2 →
  (2 * String.length (member kv) ≤ fuel)%nat → stops rest →
  parse_members (S fuel) depth (member kv +:+ rest) =
  match rest with
  | String "," r' => '(l, t) ← parse_members fuel depth r'; Some (kv :: l, t)
  | String "}" r' => Some ([kv], r')
  | _ => None
  end.
Proof.
  intros Hv Hk Hw Hf Hr. unfold member in *. rewrite !length_append in Hf.
  destruct (unquote_quote kv.1 ((":" +:+ json_print kv.2) +:+ rest) Hk) as (r & Eq & Eu).
  rewrite append_assoc, Eq. cbn [parse_members]. 
  change (skip_ws (String dquote r)) with (String dquote r). unfold dquote. cbv beta iota. rewrite Eu.
  cbn [mbind option_bind]. rewrite append_assoc. cbn [String.append].
  change (skip_ws (String ":" ?x)) with (String ":" x). cbv beta iota.
  rewrite Hv by (done || lia). cbn [mbind option_bind]. rewrite skip_ws_stops by done.
  by destruct kv.
Qed.

Lemma parse_members_print l : Forall (λ kv, parses_back kv.2) l → l ≠ [] → ∀ fuel depth rest,
  foldr (λ kv P, (ValidString kv.1 = true ∧ wf_json depth kv.2) ∧ P) True l →
  (2 * String.length (Join (map member l) ",") < fuel)%nat →
  parse_members fuel depth (Join (map member l) "," +:+ String "}" rest) = Some (l, rest).
Proof.
  induction 1 as [|kv l Hv Hl IH]; [done|]. intros _ fuel depth rest [[Hk Hw] Hws] Hf.
  destruct fuel as [|fuel]; [lia|].
  destruct l as [|kv' l].
  - cbn [map Join] in *. rewrite parse_member by (done || lia || apply stops_brace). reflexivity.
  - cbn [map] in *. rewrite Join_cons in *. rewrite !length_append in Hf.
    change (String.length ",") with 1%nat in Hf.
    rewrite !append_assoc. cbn [String.append].
    rewrite parse_member by (done || lia || apply stops_comma). cbv beta iota.
    rewrite IH by (done || lia). reflexivity.
Qed.

Lemma parse_print v : parses_back v.
Proof.
  induction v as [|b|n|s|l IH|l IH] using json_nested_ind; intros fuel depth rest Hw Hf Hr;
    (destruct fuel as [|fuel]; [exfalso; destruct (print_head _ _ Hw) as (a & q & E & _);
       rewrite E in Hf; simpl in Hf; lia|]).
  - reflexivity.
  - by destruct b.
  - destruct (number_head n Hw) as (a & q & E & E1 & E2 & E3 & E4 & E5 & E6).
    destruct (print_head depth (JNum n) Hw) as (a' & q' & E' & Hws & _). simpl in E'.
    rewrite E in E'. injection E' as <- <-. destruct Hw as [_ Hscan]. specialize (Hscan rest Hr).
    cbn [json_print parse_value]. rewrite E in *. cbn [String.append] in *.
    rewrite skip_ws_stop, E1, E2, E3 by done. cbn [CutPrefix]. rewrite E4, E5, E6.
    by rewrite Hscan.
  - destruct (unquote_quote s rest Hw) as (r & Eq & Eu). cbn [json_print parse_value]. rewrite Eq.
    change (skip_ws (String dquote r)) with (String dquote r). cbv beta iota.
    change (Ascii.eqb dquote "{") with false. change (Ascii.eqb dquote "[") with false.
    change (Ascii.eqb dquote dquote) with true. cbv iota. by rewrite Eu.
  - destruct depth as [|depth]; [done|]. cbn [json_print parse_value] in *.
    rewrite !length_append in Hf. rewrite !append_assoc. cbn [String.append].
    change (skip_ws (String "[" ?x)) with (String "[" x). cbv beta iota.
    change (Ascii.eqb "[" "{") with false. change (Ascii.eqb "[" "[") with true. cbv iota.
    destruct l as [|v l]; [reflexivity|].
    assert (CutPrefix (skip_ws (Join (map json_print (v :: l)) "," +:+ String "]" rest)) "]" = None) as ->.
    { pose proof Hw as [Hv _]. destruct (print_head depth v Hv) as (a & q & E & Hws & Hb & _).
      destruct l; cbn [map Join]; rewrite E; cbn [String.append]; rewrite skip_ws_stop by done;
        cbn [CutPrefix]; by rewrite Hb. }
    rewrite parse_elements_print; [reflexivity|done|done|exact Hw|]. simpl in Hf |- *. lia.
  - destruct depth as [|depth]; [done|]. cbn [json_print parse_value] in *.
    assert (map (λ '(k, v), quote k +:+ ":" +:+ json_print v) l = map member l) as E.
    { apply map_ext. by intros []. }
    rewrite E in *. rewrite !length_append in Hf. rewrite !append_assoc. cbn [String.append].
    change (skip_ws (String "{" ?x)) with (String "{" x). cbv beta iota.
    change (Ascii.eqb "{" "{") with true. cbv iota.
    destruct l as [|kv l]; [reflexivity|].
    assert (CutPrefix (skip_ws (Join (map member (kv :: l)) "," +:+ String "}" rest)) "}" = None) as ->.
    { destruct l; reflexivity. }
    rewrite parse_members_print; [reflexivity|done|done|exact Hw|]. simpl in Hf |- *. lia.
Qed.

(** A document printed by [json.Marshal] is read back as the value it was
    printed from. *)
Lemma json_parse_print v : wf_json maxNestingDepth v → json_parse (json_print v) = Some v.
Proof.
  intros Hw. unfold json_parse. pose proof (parse_print v (2 + 2 * String.length (json_print v))%nat _ "" Hw
    ltac:(lia) ltac:(by left)) as H. rewrite append_nil_r in H. by rewrite H.
Qed.

(** ** Go values

    [json.Unmarshal] into a struct: the members in order, each matched by name,
    exactly or up to case; [null] leaves a string, a boolean or a number as it
    is and clears a pointer or a slice; a value of the wrong type is an error,
    reported at the end. *)

(** [foldName]: upper case; the two letters outside ASCII that fold to it. *)
Fixpoint fold_name (s : string) : string :=
  match s with
  | EmptyString => EmptyString
  | String a r =>
      match s with
      | String "197"%char (String "191"%char r2) => String "S" (fold_name r2)
      | String "226"%char (String "132"%char (String "170"%char r2)) => String "K" (fold_name r2)
      | _ => String (if in_range 97 122 a then byte_of_Z (Z_of_byte a - 32) else a) (fold_name r)
      end
  end.

(** A field: its name and how a value is stored into it. *)
Abbreviation field A := (string * (json → A → option A))%type (only parsing).

Definition str_field {A} (set : string → A → A) : json → A → option A := λ v a,
  match v with JStr s => Some (set s a) | JNull => Some a | _ => None end.
Definition bool_field {A} (set : bool → A → A) : json → A → option A := λ v a,
  match v with JBool b => Some (set b a) | JNull => Some a | _ => None end.
(** An [int] or [int64] field. *)
Definition int_field {A} (set : Z → A → A) : json → A → option A := λ v a,
  match v with JNum n => z ← ParseInt n; Some (set z a) | JNull => Some a | _ => None end.

Definition find_field {A} (fields : list (field A)) (k : string) : option (json → A → option A) :=
  match list_find (λ f, f.1 = k) fields with
  | Some (_, f) => Some f.2
  | None =>
      match list_find (λ f, fold_name f.1 = fold_name k) fields with
      | Some (_, f) => Some f.2
      | None => None
      end
  end.

(** The value reached so far and whether no member had the wrong type. *)
Fixpoint decode_members {A} (fields : list (field A)) (l : list (string * json)) (a : A) (ok : bool)
    : A * bool :=
  match l with
  | [] => (a, ok)
  | (k, v) :: l =>
      match find_field fields k with
      | None => decode_members fields l a ok
      | Some set =>
          match set v a with
          | Some a => decode_members fields l a ok
          | None => decode_members fields l a false
          end
      end
  end.

Definition decode_struct {A} (fields : list (field A)) (zero : A) (v : json) : option A :=
  match v with
  | JNull => Some zero
  | JObj l => let '(a, ok) := decode_members fields l zero true in if ok then Some a else None
  | _ => None
  end.

(** A pointer to a struct: a value is stored into the struct already pointed
    to, or into a new one. *)
Definition ptr_field {A B} (fields : list (field B)) (zero : B) (get : A → option B)
    (set : option B → A → A) : json → A → option A := λ v a,
  match v with
  | JNull => Some (set None a)
  | _ => b ← decode_struct fields (default zero (get a)) v; Some (set (Some b) a)
  end.

Definition slice_field {A B} (elem : json → option B) (set : list B → A → A) : json → A → option A := λ v a,
  match v with
  | JArr l => l ← mapM elem l; Some (set l a)
  | JNull => Some (set [] a)
  | _ => None
  end.
