(* ===== verification/Fmt.v ===== *)
(** * Formatting verbs

    [%q], [%.4f] and [%-25s] of [fmt], as the prompt builder uses them. Which
    runes outside ASCII are printable is a table of the Unicode standard:
    [IsPrint] is a parameter. *)
From S2P Require Import Prelude GoStrings GoTime Json.
From Stdlib Require Import Ascii SpecFloat.

Open Scope Z_scope.

Definition dqs : string := String dquote "".
Definition nl : string := String "010"%char "".

(** The rune encoded by the first [n] bytes of [s]. *)
Definition rune_value (n : nat) (s : string) : Z :=
  match n, s with
  | 2%nat, String a (String b _) => (Z_of_byte a - 192) * 64 + (Z_of_byte b - 128)
  | 3%nat, String a (String b (String c _)) =>
      (Z_of_byte a - 224) * 4096 + (Z_of_byte b - 128) * 64 + (Z_of_byte c - 128)
  | 4%nat, String a (String b (String c (String d _))) =>
      (Z_of_byte a - 240) * 262144 + (Z_of_byte b - 128) * 4096 + (Z_of_byte c - 128) * 64
        + (Z_of_byte d - 128)
  | _, String a _ => Z_of_byte a
  | _, EmptyString => RuneError
  end.

(** The [w] low hexadecimal digits of [z]. *)
Fixpoint hex_digits (w : nat) (z : Z) : string :=
  match w with
  | O => EmptyString
  | S w => hex_digits w (z / 16) +:+ String (hex_digit (z mod 16)) ""
  end.

Definition escape_ascii (a : ascii) : string :=
  let z := Z_of_byte a in
  if (z =? 34) || (z =? 92) then String "\" (String a "")
  else if (32 <=? z) && (z <? 127) then String a ""
  else if z =? 7 then "\a" else if z =? 8 then "\b" else if z =? 12 then "\f"
  else if z =? 10 then "\n" else if z =? 13 then "\r" else if z =? 9 then "\t"
  else if z =? 11 then "\v"
  else "\x" +:+ hex_digits 2 z.

Section quoting.
Context (IsPrint : Z → bool).

(** [strconv.Quote] after the opening quote; [copy] bytes of a printable rune
    are to be copied, [drop] bytes of an escaped one skipped. *)
Fixpoint quote_go_from (copy drop : nat) (s : string) : string :=
  match s with
  | EmptyString => dqs
  | String a r =>
      match drop, copy with
      | S d, _ => quote_go_from copy d r
      | O, S c => String a (quote_go_from c 0 r)
      | O, O =>
          if in_range 0 127 a then escape_ascii a +:+ quote_go_from 0 0 r
          else match rune_len s with
               | None => "\x" +:+ hex_digits 2 (Z_of_byte a) +:+ quote_go_from 0 0 r
               | Some n =>
                   let v := rune_value n s in
                   if IsPrint v then String a (quote_go_from (pred n) 0 r)
                   else if v <? 65536 then "\u" +:+ hex_digits 4 v +:+ quote_go_from 0 (pred n) r
                   else "\U" +:+ hex_digits 8 v +:+ quote_go_from 0 (pred n) r
               end
      end
  end.

(** [%q]. *)
Definition Quote (s : string) : string := dqs +:+ quote_go_from 0 0 s.
End quoting.

Definition pad_right (w : nat) (s : string) : string :=
  s +:+ String.string_of_list_ascii (replicate (w - String.length s) " "%char).

(** [n / 2^k] rounded to the nearest integer, ties to even. *)
Definition round_shift (n k : Z) : Z :=
  let q := Z.shiftr n k in
  let r := n - Z.shiftl q k in
  let half := Z.shiftl 1 (k - 1) in
  if (half <? r) || ((r =? half) && Z.odd q) then q + 1 else q.

(** [strconv.FormatFloat(f, 'f', prec, 64)], and [%.4f]: the exact binary value,
    correctly rounded to [prec] decimals. *)
Definition format_fixed (prec : nat) (f : spec_float) : string :=
  match f with
  | S754_zero s => (if s then "-" else "") +:+ "0" +:+
      (if (prec =? 0)%nat then "" else "." +:+ pad_int prec 0)
  | S754_infinity s => if s then "-Inf" else "+Inf"
  | S754_nan => "NaN"
  | S754_finite s m e =>
      let ten := 10 ^ Z.of_nat prec in
      let n := Zpos m * ten in
      let v := if 0 <=? e then Z.shiftl n e else round_shift n (- e) in
      (if s then "-" else "") +:+ FormatInt (v / ten) +:+
      (if (prec =? 0)%nat then "" else "." +:+ pad_int prec (v mod ten))
  end.

Definition format_f4 (f : spec_float) : string := format_fixed 4 f.

Example format_third : format_f4 (f64_div (f64_of_Z 2) (f64_of_Z 3)) = "0.6667".
Proof. vm_compute. reflexivity. Qed.
Example format_exact : format_f4 (f64_of_Z (-12)) = "-12.0000".
Proof. vm_compute. reflexivity. Qed.
Example quote_escapes : Quote (λ _, true) (String dquote ("a\" +:+ nl)) =
  dqs +:+ "\" +:+ dqs +:+ "a\\\n" +:+ dqs.
Proof. vm_compute. reflexivity. Qed.
