(* ===== verification/GoEncoding.v ===== *)
(** * Encodings of the signed transport

    What the signed transport uses of [encoding/base64], [strconv], [math/big]
    and [net/http]: base64, [strconv.Unquote], fixed-width integers and the
    canonical keys of an [http.Header]. *)
From S2P Require Import Prelude GoStrings Sha256 Json Fmt.
From Stdlib Require Import Ascii.

(** ** Base64 *)

(** The standard alphabet. *)
Definition base64_char (z : Z) : ascii :=
  if z <? 26 then byte_of_Z (65 + z)
  else if z <? 52 then byte_of_Z (71 + z)
  else if z <? 62 then byte_of_Z (z - 4)
  else if z =? 62 then "+"%char else "/"%char.

Definition base64_value (a : ascii) : option Z :=
  let z := Z_of_byte a in
  if (65 <=? z) && (z <=? 90) then Some (z - 65)
  else if (97 <=? z) && (z <=? 122) then Some (z - 71)
  else if (48 <=? z) && (z <=? 57) then Some (z + 4)
  else if z =? 43 then Some 62
  else if z =? 47 then Some 63
  else None.

(** [base64.StdEncoding.EncodeToString]. *)
Fixpoint base64_Encode (s : string) : string :=
  match s with
  | String a (String b (String c r)) =>
      let v := Z_of_byte a * 65536 + Z_of_byte b * 256 + Z_of_byte c in
      String (base64_char (v / 262144)) (String (base64_char (v / 4096 mod 64))
        (String (base64_char (v / 64 mod 64)) (String (base64_char (v mod 64)) (base64_Encode r))))
  | String a (String b EmptyString) =>
      let v := Z_of_byte a * 65536 + Z_of_byte b * 256 in
      String (base64_char (v / 262144)) (String (base64_char (v / 4096 mod 64))
        (String (base64_char (v / 64 mod 64)) "="))
  | String a EmptyString =>
      let v := Z_of_byte a * 65536 in
      String (base64_char (v / 262144)) (String (base64_char (v / 4096 mod 64)) "==")
  | EmptyString => EmptyString
  end.

(** The quanta of four characters; padding ends the input, and the bits it
    leaves unused are not looked at. *)
Fixpoint base64_quanta (s : string) : option string :=
  match s with
  | EmptyString => Some EmptyString
  | String a (String b (String c (String d r))) =>
      va ← base64_value a; vb ← base64_value b;
      if Ascii.eqb c "=" then
        if Ascii.eqb d "=" && seqb r "" then Some (String (byte_of_Z (va * 4 + vb / 16)) "") else None
      else
        vc ← base64_value c;
        let b1 := byte_of_Z (va * 4 + vb / 16) in
        let b2 := byte_of_Z (vb mod 16 * 16 + vc / 4) in
        if Ascii.eqb d "=" then
          if seqb r "" then Some (String b1 (String b2 "")) else None
        else
          vd ← base64_value d;
          rest ← base64_quanta r;
          Some (String b1 (String b2 (String (byte_of_Z (vc mod 4 * 64 + vd)) rest)))
  | _ => None
  end.

Definition is_newline (a : ascii) : bool := Ascii.eqb a "010" || Ascii.eqb a "013".

Fixpoint strip_newlines (s : string) : string :=
  match s with
  | EmptyString => EmptyString
  | String a s => if is_newline a then strip_newlines s else String a (strip_newlines s)
  end.

(** [base64.StdEncoding.DecodeString]: line breaks are skipped anywhere. *)
Definition base64_Decode (s : string) : option string := base64_quanta (strip_newlines s).

(** ** [strconv.Unquote] *)

Definition ValidRune (r : Z) : bool :=
  ((0 <=? r) && (r <? 55296)) || ((57343 <? r) && (r <=? 1114111)).

(** The value of the first [n] hexadecimal digits, and the rest. *)
Fixpoint take_hex (n : nat) (v : Z) (s : string) : option (Z * string) :=
  match n, s with
  | O, _ => Some (v, s)
  | S n, String a s => x ← hex_value a; take_hex n (16 * v + x) s
  | S _, EmptyString => None
  end.

Definition octal_value (a : ascii) : option Z :=
  let z := Z_of_byte a - 48 in if (0 <=? z) && (z <=? 7) then Some z else None.

(** [strconv.UnquoteChar]: the bytes the character stands for, and the rest. A
    byte that starts no rune decodes to [RuneError]. *)
Definition UnquoteChar (s : string) (quote : ascii) : option (string * string) :=
  match s with
  | EmptyString => None
  | String c r =>
      if Ascii.eqb c quote then None
      else if 128 <=? Z_of_byte c then
        match rune_len s with
        | Some n => Some (take_bytes n s, drop_bytes n s)
        | None => Some (encode_rune RuneError, r)
        end
      else if negb (Ascii.eqb c "\") then Some (String c "", r)
      else
        match r with
        | EmptyString => None
        | String e r =>
            if Ascii.eqb e "a" then Some (bytes_of [7], r)
            else if Ascii.eqb e "b" then Some (bytes_of [8], r)
            else if Ascii.eqb e "f" then Some (bytes_of [12], r)
            else if Ascii.eqb e "n" then Some (bytes_of [10], r)
            else if Ascii.eqb e "r" then Some (bytes_of [13], r)
            else if Ascii.eqb e "t" then Some (bytes_of [9], r)
            else if Ascii.eqb e "v" then Some (bytes_of [11], r)
            else if Ascii.eqb e "x" then
              '(v, r) ← take_hex 2 0 r; Some (bytes_of [v], r)
            else if Ascii.eqb e "u" then
              '(v, r) ← take_hex 4 0 r; if ValidRune v then Some (encode_rune v, r) else None
            else if Ascii.eqb e "U" then
              '(v, r) ← take_hex 8 0 r; if ValidRune v then Some (encode_rune v, r) else None
            else if Ascii.eqb e "\" then Some ("\", r)
            else if Ascii.eqb e "'" || Ascii.eqb e dquote then
              if Ascii.eqb e quote then Some (String e "", r) else None
            else
              x ← octal_value e;
              match r with
              | String f (String g r) =>
                  y ← octal_value f; z ← octal_value g;
                  let v := 64 * x + 8 * y + z in
                  if 255 <? v then None else Some (bytes_of [v], r)
              | _ => None
              end
        end
  end.

(** The characters up to the closing quote; each takes at least one byte, so
    the length of the text is fuel enough. *)
Fixpoint unquote_chars (fuel : nat) (quote : ascii) (s : string) : option (string * string) :=
  match fuel, s with
  | S fuel, String c r =>
      if Ascii.eqb c quote then Some ("", r)
      else if Ascii.eqb c "010" then None
      else
        '(b, r) ← UnquoteChar s quote;
        '(out, r) ← unquote_chars fuel quote r;
        Some (b +:+ out, r)
  | _, _ => None
  end.

Fixpoint strip_byte (a : ascii) (s : string) : string :=
  match s with
  | EmptyString => EmptyString
  | String b s => if Ascii.eqb b a then strip_byte a s else String b (strip_byte a s)
  end.

Definition Unquote (s : string) : option string :=
  match s with
  | String q r =>
      if Ascii.eqb q "`" then
        match Cut r "`" with
        | Some (out, EmptyString) => Some (strip_byte "013" out)
        | _ => None
        end
      else if Ascii.eqb q dquote then
        match unquote_chars (String.length r) dquote r with
        | Some (out, EmptyString) => Some out
        | _ => None
        end
      else if Ascii.eqb q "'" then
        if seqb r "'" then Some ""
        else if HasPrefix r (String "010" "") then None
        else
          match UnquoteChar r "'" with
          | Some (out, rest) => if seqb rest "'" then Some out else None
          | None => None
          end
      else None
  | EmptyString => None
  end.

(** ** Integers of fixed width *)

(** [z.FillBytes(buf)] on a buffer of [n] bytes; it panics when [z] does not fit. *)
Definition FillBytes (n : nat) (z : Z) : option string :=
  if (0 <=? z) && (z <? 256 ^ Z.of_nat n)
  then Some (unchars (map byte_of_Z (be_bytes n z))) else None.

(** [new(big.Int).SetBytes(s)]. *)
Fixpoint SetBytes_from (acc : Z) (s : string) : Z :=
  match s with
  | EmptyString => acc
  | String a s => SetBytes_from (256 * acc + Z_of_byte a) s
  end.

Definition SetBytes (s : string) : Z := SetBytes_from 0 s.

(** ** [http.Header] *)

Abbreviation Header := (gmap string (list string)) (only parsing).

(** The bytes of an HTTP token. *)
Definition token_byte (a : ascii) : bool :=
  let z := Z_of_byte a in
  ((48 <=? z) && (z <=? 57)) || ((65 <=? z) && (z <=? 90)) || ((97 <=? z) && (z <=? 122)) ||
  in_cutset "!#$%&'*+-.^_`|~" a.

Definition upper_ascii (a : ascii) : ascii :=
  let n := N_of_ascii a in
  if ((97 <=? n) && (n <=? 122))%N then ascii_of_N (n - 32) else a.

(** [strings.ToUpper] on the letters of ASCII: the server refuses a method that
    is not a token. *)
Definition ToUpper (s : string) : string := map_string upper_ascii s.

Fixpoint canonical_from (up : bool) (s : string) : string :=
  match s with
  | EmptyString => EmptyString
  | String a s =>
      String (if up then upper_ascii a else lower_ascii a) (canonical_from (Ascii.eqb a "-") s)
  end.

(** [textproto.CanonicalMIMEHeaderKey]. *)
Definition CanonicalHeaderKey (k : string) : string :=
  if forallb token_byte (chars k) then canonical_from true k else k.

Definition Header_Get (h : Header) (k : string) : string :=
  match h !! CanonicalHeaderKey k with Some (v :: _) => v | _ => "" end.

Definition Header_Set (k v : string) (h : Header) : Header := <[CanonicalHeaderKey k := [v]]> h.

(** ** PEM

    [encoding/pem] is a parameter. *)
Record Block := MkBlock { Block_Type : string; Block_Bytes : string }.

Class Pem := {
  pem_Decode : string → option (Block * string);
  pem_EncodeToMemory : Block → string;
}.

(** Decoding consumes input; an encoded block is decoded first, and what follows
    it is the rest. *)
Class PemSpec (P : Pem) := {
  pem_decode_shorter s b rest : pem_Decode s = Some (b, rest) → (String.length rest < String.length s)%nat;
  pem_decode_encode der rest :
    pem_Decode (pem_EncodeToMemory (MkBlock "PRIVATE KEY" der) +:+ rest) = Some (MkBlock "PRIVATE KEY" der, rest);
}.

(** ** Lemmas *)

Lemma forall_below (P : Z → bool) n :
  forallb P (seqZ 0 n) = true → ∀ z, 0 <= z < n → P z = true.
Proof. intros H z Hz. rewrite forallb_forall in H. apply H, list_elem_of_In, elem_of_seqZ. lia. Qed.

Lemma base64_char_ok z : 0 <= z < 64 →
  base64_value (base64_char z) = Some z ∧ Ascii.eqb (base64_char z) "=" = false ∧
  is_newline (base64_char z) = false.
Proof.
  intros Hz.
  pose proof (forall_below (λ z, bool_decide (base64_value (base64_char z) = Some z) &&
    (negb (Ascii.eqb (base64_char z) "=") && negb (is_newline (base64_char z)))) 64
    ltac:(by vm_compute) z Hz) as H.
  cbv beta in H. sbool. match goal with H : bool_decide _ = true |- _ => apply bool_decide_eq_true in H end. by split_and!.
Qed.

(** Induction on a string by groups of three bytes. *)
Lemma string_ind3 (P : string → Prop) :
  P "" → (∀ a, P (String a "")) → (∀ a b, P (String a (String b ""))) →
  (∀ a b c r, P r → P (String a (String b (String c r)))) → ∀ s, P s.
Proof.
  intros H0 H1 H2 H3. fix IH 1. intros [|a [|b [|c r]]]; [done|apply H1|apply H2|apply H3, IH].
Qed.

Lemma base64_quanta_encode s : base64_quanta (base64_Encode s) = Some s.
Proof.
  induction s as [|a|a b|a b c r IH] using string_ind3; [done|..];
    pose proof (Z_of_byte_range a) as Ha; try pose proof (Z_of_byte_range b) as Hb;
    try pose proof (Z_of_byte_range c) as Hc; cbn [base64_Encode base64_quanta].
  - destruct (base64_char_ok (Z_of_byte a * 65536 / 262144)) as [-> _]; [Z.div_mod_to_equations; lia|].
    destruct (base64_char_ok (Z_of_byte a * 65536 / 4096 mod 64)) as [-> _]; [Z.div_mod_to_equations; lia|].
    cbn. do 2 f_equal. rewrite <- (byte_of_Z_of_byte a) at 3. f_equal. Z.div_mod_to_equations. lia.
  - set (v := Z_of_byte a * 65536 + Z_of_byte b * 256).
    destruct (base64_char_ok (v / 262144)) as [-> _]; [subst v; Z.div_mod_to_equations; lia|].
    destruct (base64_char_ok (v / 4096 mod 64)) as [-> _]; [Z.div_mod_to_equations; lia|].
    destruct (base64_char_ok (v / 64 mod 64)) as (-> & -> & _); [Z.div_mod_to_equations; lia|].
    cbn. repeat f_equal; [rewrite <- (byte_of_Z_of_byte a)|rewrite <- (byte_of_Z_of_byte b)]; f_equal;
      subst v; Z.div_mod_to_equations; lia.
  - set (v := Z_of_byte a * 65536 + Z_of_byte b * 256 + Z_of_byte c).
    destruct (base64_char_ok (v / 262144)) as [-> _]; [subst v; Z.div_mod_to_equations; lia|].
    destruct (base64_char_ok (v / 4096 mod 64)) as [-> _]; [Z.div_mod_to_equations; lia|].
    destruct (base64_char_ok (v / 64 mod 64)) as (-> & -> & _); [Z.div_mod_to_equations; lia|].
    destruct (base64_char_ok (v mod 64)) as (-> & -> & _); [Z.div_mod_to_equations; lia|].
    cbn. rewrite IH. cbn. repeat f_equal;
      [rewrite <- (byte_of_Z_of_byte a)|rewrite <- (byte_of_Z_of_byte b)|rewrite <- (byte_of_Z_of_byte c)];
      f_equal; subst v; Z.div_mod_to_equations; lia.
Qed.

Lemma strip_newlines_encode s : strip_newlines (base64_Encode s) = base64_Encode s.
Proof.
  induction s as [|a|a b|a b c r IH] using string_ind3; [done|..];
    pose proof (Z_of_byte_range a) as Ha; try pose proof (Z_of_byte_range b) as Hb;
    try pose proof (Z_of_byte_range c) as Hc; cbn [base64_Encode strip_newlines];
    repeat match goal with |- context [is_newline (base64_char ?z)] =>
      destruct (base64_char_ok z) as (_ & _ & ->); [Z.div_mod_to_equations; lia|]; cbn [strip_newlines]
    end; [done..|by rewrite IH].
Qed.

(** Decoding an encoded string gives it back. *)
Lemma base64_Decode_Encode s : base64_Decode (base64_Encode s) = Some s.
Proof. unfold base64_Decode. by rewrite strip_newlines_encode, base64_quanta_encode. Qed.

Lemma base64_Encode_inj s t : base64_Encode s = base64_Encode t → s = t.
Proof. intros H%(f_equal base64_Decode). rewrite !base64_Decode_Encode in H. congruence. Qed.

(** *** Integers *)

Lemma SetBytes_from_app acc s t : SetBytes_from acc (s +:+ t) = SetBytes_from (SetBytes_from acc s) t.
Proof. revert acc. induction s as [|a s IH]; intros acc; [done|]. apply IH. Qed.

Lemma Z_of_byte_of_Z z : Z_of_byte (byte_of_Z z) = z mod 256.
Proof.
  unfold Z_of_byte, byte_of_Z. pose proof (Z.mod_pos_bound z 256 ltac:(lia)).
  rewrite N_ascii_embedding; lia.
Qed.

Lemma unchars_app l k : unchars (l ++ k)%list = unchars l +:+ unchars k.
Proof. induction l; simpl; congruence. Qed.

Lemma be_bytes_S n z : be_bytes (S n) z = (be_bytes n (z / 256) ++ [z mod 256])%list.
Proof.
  unfold be_bytes. cbn [seq map rev]. f_equal.
  - f_equal. rewrite <- seq_shift, map_map. apply map_ext. intros i.
    change (z / 256) with (z / 2 ^ 8). rewrite <- (Z.shiftr_div_pow2 z 8) by lia.
    rewrite Z.shiftr_shiftr by lia. do 2 f_equal. lia.
  - rewrite Z.shiftr_0_r. change 255 with (Z.ones 8). by rewrite Z.land_ones by lia.
Qed.

Lemma length_be_bytes n z : length (be_bytes n z) = n.
Proof. unfold be_bytes. by rewrite length_rev, length_map, length_seq. Qed.

Lemma SetBytes_be_bytes n z acc : 0 <= z < 256 ^ Z.of_nat n →
  SetBytes_from acc (unchars (map byte_of_Z (be_bytes n z))) = acc * 256 ^ Z.of_nat n + z.
Proof.
  revert z. induction n as [|n IH]; intros z Hz; [cbn in *; lia|].
  rewrite Nat2Z.inj_succ, Z.pow_succ_r in * by lia.
  rewrite be_bytes_S, map_app, unchars_app, SetBytes_from_app, IH by (split; [|apply Z.div_lt_upper_bound]; Z.div_mod_to_equations; lia).
  cbn. rewrite Z_of_byte_of_Z, Z.mod_mod by lia. Z.div_mod_to_equations. nia.
Qed.

Lemma FillBytes_Some n z s : FillBytes n z = Some s → String.length s = n ∧ SetBytes s = z.
Proof.
  unfold FillBytes. destruct (_ && _) eqn:E; [|done]. intros [= <-].
  apply andb_true_iff in E as [? ?]. zbool. split.
  - by rewrite length_unchars, length_map, length_be_bytes.
  - unfold SetBytes. rewrite SetBytes_be_bytes by lia. lia.
Qed.

Lemma FillBytes_fits n z : 0 <= z < 256 ^ Z.of_nat n → is_Some (FillBytes n z).
Proof.
  intros Hz. unfold FillBytes. destruct (_ && _) eqn:E; [done|].
  apply andb_false_iff in E as [?|?]; zbool; lia.
Qed.

(** *** Quoting *)

(** Printable ASCII but the double quote and the backslash: what [%q] copies. *)
Definition verbatim_byte (a : ascii) : bool :=
  in_range 32 126 a && negb (Ascii.eqb a dquote) && negb (Ascii.eqb a "\").

Definition verbatim (s : string) : bool := forallb verbatim_byte (chars s).

Lemma verbatim_cons a s : verbatim (String a s) = true ↔ verbatim_byte a = true ∧ verbatim s = true.
Proof. apply andb_true_iff. Qed.

Lemma verbatim_app s t : verbatim (s +:+ t) = verbatim s && verbatim t.
Proof. unfold verbatim. induction s as [|a s IH]; [done|]. simpl. rewrite <- andb_assoc. by f_equal. Qed.

Lemma Quote_verbatim i s : verbatim s = true → Quote i s = dqs +:+ s +:+ dqs.
Proof.
  intros Hs. unfold Quote. f_equal. induction s as [|a s IH]; [done|].
  apply verbatim_cons in Hs as [Ha Hs]. cbn [quote_go_from].
  assert (in_range 0 127 a = true ∧ escape_ascii a = String a "") as [-> ->].
  { clear -Ha. destruct a as [[] [] [] [] [] [] [] []]; vm_compute in Ha; by vm_compute. }
  rewrite IH by done. done.
Qed.

Lemma unquote_chars_verbatim s rest fuel : verbatim s = true → (String.length s < fuel)%nat →
  unquote_chars fuel dquote (s +:+ String dquote rest) = Some (s, rest).
Proof.
  revert fuel. induction s as [|a s IH]; intros [|fuel] Hs Hf; cbn [String.length] in Hf; try lia; [done|].
  apply verbatim_cons in Hs as [Ha Hs].
  change (String a s +:+ String dquote rest) with (String a (s +:+ String dquote rest)). cbn [unquote_chars].
  assert (Ascii.eqb a dquote = false ∧ Ascii.eqb a "010" = false ∧ (128 <=? Z_of_byte a) = false ∧
    Ascii.eqb a "\" = false) as (E1 & E2 & E3 & E4).
  { clear -Ha. destruct a as [[] [] [] [] [] [] [] []]; vm_compute in Ha; by vm_compute. }
  unfold UnquoteChar. rewrite E1, E2, E3, E4. cbn [negb mbind option_bind].
  rewrite IH by (done || lia). done.
Qed.

Lemma Unquote_verbatim s : verbatim s = true → Unquote (dqs +:+ s +:+ dqs) = Some s.
Proof.
  intros Hs. unfold Unquote, dqs. cbn [String.append].
  assert (Ascii.eqb dquote "`" = false) as -> by done. rewrite Ascii.eqb_refl.
  rewrite unquote_chars_verbatim; [done..|]. rewrite length_append. cbn. lia.
Qed.

(** *** Trimming *)

(** Graphic ASCII starts and ends no space. *)
Definition graphic (a : ascii) : bool := in_range 33 126 a.

Definition head_is (f : ascii → bool) (s : string) : bool :=
  match s with String a _ => f a | EmptyString => false end.

Lemma cut_one_None encs a s :
  forallb (head_is (λ c, negb (Ascii.eqb c a))) encs = true → cut_one encs (String a s) = None.
Proof.
  induction encs as [|e encs IH]; [done|]. cbn [forallb]. intros [He Hs]%andb_true_iff.
  destruct e as [|c e]; [done|]. cbn in He. apply negb_true_iff in He. cbn [cut_one CutPrefix].
  rewrite He. by apply IH.
Qed.

Lemma cut_all_None fuel encs s : cut_one encs s = None → cut_all fuel encs s = s.
Proof. intros H. destruct fuel; [done|]. cbn. by rewrite H. Qed.

Lemma graphic_no_space a : graphic a = true →
  forallb (head_is (λ c, negb (Ascii.eqb c a))) space_encodings = true ∧
  forallb (head_is (λ c, negb (Ascii.eqb c a))) (map rev_string space_encodings) = true.
Proof. destruct a as [[] [] [] [] [] [] [] []]; vm_compute; auto. Qed.

Lemma TrimSpace_graphic s :
  head_is graphic s = true → head_is graphic (rev_string s) = true → TrimSpace s = s.
Proof.
  intros H1 H2. unfold TrimSpace.
  destruct s as [|a s]; [done|]. cbn in H1. destruct (graphic_no_space a H1) as [Ha _].
  cbv zeta. rewrite (cut_all_None _ space_encodings) by (by apply cut_one_None).
  destruct (rev_string (String a s)) as [|b t] eqn:E; [done|]. cbn in H2.
  destruct (graphic_no_space b H2) as [_ Hb]. rewrite cut_all_None by (by apply cut_one_None).
  by rewrite <- E, rev_string_involutive.
Qed.

(** *** Slices *)

Lemma take_bytes_app n s t : String.length s = n → take_bytes n (s +:+ t) = s.
Proof.
  intros <-. unfold take_bytes. induction s as [|a s IH]; [by destruct t|]. cbn. by rewrite IH.
Qed.

Lemma substring_all s : String.substring 0 (String.length s) s = s.
Proof. induction s as [|a s IH]; [done|]. cbn. by rewrite IH. Qed.

Lemma drop_bytes_app n s t : String.length s = n → drop_bytes n (s +:+ t) = t.
Proof.
  intros <-. unfold drop_bytes. rewrite length_append.
  replace (String.length s + String.length t - String.length s)%nat with (String.length t) by lia.
  induction s as [|a s IH]; [apply substring_all|]. cbn. apply IH.
Qed.

Lemma Cut_sep s a t : lacks a s = true → Cut (s +:+ String a t) a = Some (s, t).
Proof.
  induction s as [|b s IH]; cbn; [by rewrite Ascii.eqb_refl|].
  intros [Hb Hs]%andb_true_iff. apply negb_true_iff in Hb as ->. by rewrite IH.
Qed.

(** *** Headers *)

Lemma Header_Get_Set k v h : Header_Get (Header_Set k v h) k = v.
Proof. unfold Header_Get, Header_Set. by rewrite lookup_insert_eq. Qed.

Lemma Header_Get_Set_ne k k' v h :
  CanonicalHeaderKey k ≠ CanonicalHeaderKey k' → Header_Get (Header_Set k v h) k' = Header_Get h k'.
Proof. intros H. unfold Header_Get, Header_Set. by rewrite lookup_insert_ne. Qed.

Lemma Cut_shorter s a b r : Cut s a = Some (b, r) → (String.length r < String.length s)%nat.
Proof.
  revert b. induction s as [|c s IH]; cbn; [done|]. intros b. destruct (Ascii.eqb c a); [intros [= _ <-]; lia|].
  destruct (Cut s a) as [[b' r']|]; [|done]. cbn. intros [= _ <-]. specialize (IH b' eq_refl). lia.
Qed.

(** PEM for examples: a block is the letter [K] and hexadecimal digits on a line. *)
Fixpoint sample_pem_Decode (s : string) : option (Block * string) :=
  match s with
  | String "K" r =>
      '(t, rest) ← Cut r "010"; b ← hex_DecodeString t; Some (MkBlock "PRIVATE KEY" b, rest)
  | String _ r => sample_pem_Decode r
  | EmptyString => None
  end.

Definition sample_pem : Pem := {|
  pem_Decode := sample_pem_Decode;
  pem_EncodeToMemory := λ b, String "K" (hex_EncodeToString (Block_Bytes b) +:+ String "010" "");
|}.

#[export] Instance sample_pem_spec : PemSpec sample_pem.
Proof.
  split; cbn.
  - intros s. induction s as [|a s IH]; [done|]. intros b rest Hs.
    destruct (decide (a = "K"%char)) as [->|Hne].
    + cbn in Hs. destruct (Cut s "010") as [[t r]|] eqn:Ec; [|done]. cbn in Hs.
      destruct (hex_DecodeString t); [|done]. injection Hs as _ <-. apply Cut_shorter in Ec. cbn. lia.
    + assert (sample_pem_Decode s = Some (b, rest)) as Hs'.
      { rewrite <- Hs. clear -Hne. destruct a as [[] [] [] [] [] [] [] []]; done. }
      apply IH in Hs'. cbn. lia.
  - intros der rest. rewrite append_assoc. cbn [String.append].
    rewrite Cut_sep; [cbn; by rewrite hex_decode_encode|].
    eapply hex_decode_lacks; [done|apply hex_decode_encode].
Qed.

(** ** Examples *)

Example base64_text : base64_Encode "muthur" = "bXV0aHVy".
Proof. vm_compute. reflexivity. Qed.
Example base64_padded : base64_Encode "brain" = "YnJhaW4=".
Proof. vm_compute. reflexivity. Qed.
Example base64_wrapped : base64_Decode ("YnJh" +:+ nl +:+ "aW4=") = Some "brain".
Proof. vm_compute. reflexivity. Qed.
Example base64_trailing : base64_Decode "YnJhaW4=YQ==" = None.
Proof. vm_compute. reflexivity. Qed.
Example unquote_escapes : Unquote (dqs +:+ "a\x41\u00e9\101" +:+ dqs) = Some "aAéA".
Proof. vm_compute. reflexivity. Qed.
Example unquote_raw : Unquote "`a\x41`" = Some "a\x41".
Proof. vm_compute. reflexivity. Qed.
Example canonical_key : CanonicalHeaderKey "x-muthur-hpke-kid" = "X-Muthur-Hpke-Kid".
Proof. vm_compute. reflexivity. Qed.
