(* ===== verification/HttpSig.v ===== *)
(** * Signed HTTP requests

    [internal/auth/httpsig.go]: the content digest, the signature base over a
    fixed list of components, and the signing and verification of a request.
    ECDSA over P-256 is a parameter, with its contract. *)
From S2P Require Import Prelude GoStrings Sha256 Json Fmt GoEncoding.
From Stdlib Require Import Ascii.

Definition HeaderTimestamp : string := "X-Muthur-Timestamp".
Definition HeaderNonce : string := "X-Muthur-Nonce".
Definition HeaderCert : string := "X-Muthur-Cert".
Definition HeaderHPKEKid : string := "X-Muthur-Hpke-Kid".
Definition HeaderContentDigest : string := "Content-Digest".
Definition HeaderSignatureInput : string := "Signature-Input".
Definition HeaderSignature : string := "Signature".
Definition SignatureLabel : string := "sig1".
Definition SignatureAlg : string := "ecdsa-p256-sha256".
Definition SealedContentType : string := "application/vnd.muthur.sealed".

Definition signedComponents : list string :=
  ["@method"; "@path"; "content-digest"; "x-muthur-timestamp"; "x-muthur-nonce"; "x-muthur-cert";
   "x-muthur-hpke-kid"].

(** The sentinel errors; [ErrSign] is a failure of the signing primitive. *)
Inductive sig_error :=
| ErrSignatureMissing
| ErrSignatureMalformed
| ErrSignatureInvalid
| ErrSignatureKeyType
| ErrDigestMismatch
| ErrSign.

(** ** Digests *)

Definition ContentDigest (body : string) : string := "sha-256=:" +:+ base64_Encode (Sum256 body) +:+ ":".

(** [None] is a nil error. *)
Definition VerifyContentDigest (h : Header) (body : string) : option sig_error :=
  let want := ContentDigest body in
  let got := TrimSpace (Header_Get h HeaderContentDigest) in
  if seqb got "" || negb (seqb got want) then Some ErrDigestMismatch else None.

Definition CertKeyID (leafDER : string) : string := hex_EncodeToString (Sum256 leafDER).

(** ** ECDSA

    [crypto/ecdsa]: keys know their curve; signing draws from a source of
    randomness, [rnd], and can fail. *)
Class Ecdsa (PK SK : Type) := {
  public_of : SK → PK;
  is_P256 : PK → bool;
  ecdsa_Sign : string → SK → string → option (Z * Z);
  ecdsa_Verify : PK → string → Z → Z → bool;
}.

(** What the documentation of the package promises of P-256 keys: the two
    numbers are below the 256-bit order, and a signature verifies. *)
Class EcdsaSpec {PK SK} (E : Ecdsa PK SK) := {
  sign_range rnd k d r s : is_P256 (public_of k) = true → ecdsa_Sign rnd k d = Some (r, s) →
    0 <= r < 256 ^ 32 ∧ 0 <= s < 256 ^ 32;
  sign_verifies rnd k d r s : is_P256 (public_of k) = true → ecdsa_Sign rnd k d = Some (r, s) →
    ecdsa_Verify (public_of k) d r s = true;
}.

Record SignatureInfo := MkSignatureInfo { Created : Z; KeyID : string }.

Section signature.
Context (IsPrint : Z → bool) {PK SK : Type} `{E : !Ecdsa PK SK}.

Definition signatureParams (created : Z) (keyID : string) : string :=
  "(" +:+ Join (map (Quote IsPrint) signedComponents) " " +:+
  ");created=" +:+ FormatInt created +:+ ";alg=" +:+ Quote IsPrint SignatureAlg +:+
  ";keyid=" +:+ Quote IsPrint keyID.

Definition component_value (method path : string) (h : Header) (c : string) : string :=
  if seqb c "@method" then ToUpper method
  else if seqb c "@path" then path
  else TrimSpace (Header_Get h c).

Fixpoint base_lines (cs : list string) (method path : string) (h : Header) : string :=
  match cs with
  | [] => ""
  | c :: cs => Quote IsPrint c +:+ ": " +:+ component_value method path h c +:+ nl +:+ base_lines cs method path h
  end.

Definition SignatureBase (method path : string) (h : Header) (params : string) : string :=
  base_lines signedComponents method path h +:+ Quote IsPrint "@signature-params" +:+ ": " +:+ params.

(** [None] is the panic of [FillBytes] on a number that does not fit. *)
Definition SignRequest (h : Header) (method path : string) (key : option SK) (leafDER : string) (created : Z)
    (rnd : string) : option (result sig_error Header) :=
  match key with
  | None => Some (Err ErrSignatureKeyType)
  | Some key =>
      if negb (is_P256 (public_of key)) then Some (Err ErrSignatureKeyType) else
      let params := signatureParams created (CertKeyID leafDER) in
      let digest := Sum256 (SignatureBase method path h params) in
      match ecdsa_Sign rnd key digest with
      | None => Some (Err ErrSign)
      | Some (r, s) =>
          rb ← FillBytes 32 r;
          sb ← FillBytes 32 s;
          let h := Header_Set HeaderSignatureInput (SignatureLabel +:+ "=" +:+ params) h in
          let h := Header_Set HeaderSignature (SignatureLabel +:+ "=:" +:+ base64_Encode (rb +:+ sb) +:+ ":") h in
          Some (Ok h)
      end
  end.

(** The loop over the parameters after the component list. *)
Fixpoint parse_params (kvs : list string) (info : SignatureInfo) (seen : gset string) :
    result sig_error (SignatureInfo * gset string) :=
  match kvs with
  | [] => Ok (info, seen)
  | kv :: kvs =>
      if seqb kv "" then parse_params kvs info seen else
      match Cut kv "=" with
      | None => Err ErrSignatureMalformed
      | Some (k, v) =>
          if bool_decide (k ∈ seen) then Err ErrSignatureMalformed else
          let seen := {[ k ]} ∪ seen in
          if seqb k "created" then
            match ParseInt v with
            | None => Err ErrSignatureMalformed
            | Some n => parse_params kvs (MkSignatureInfo n (KeyID info)) seen
            end
          else if seqb k "alg" then
            if negb (seqb v (Quote IsPrint SignatureAlg)) then Err ErrSignatureMalformed
            else parse_params kvs info seen
          else if seqb k "keyid" then
            match Unquote v with
            | None => Err ErrSignatureMalformed
            | Some id => parse_params kvs (MkSignatureInfo (Created info) id) seen
            end
          else Err ErrSignatureMalformed
      end
  end.

(** Text up to and with the first closing parenthesis. *)
Definition component_list (params : string) : string :=
  match Cut params ")" with Some (l, _) => l +:+ ")" | None => "" end.

Definition parseSignatureParams (params : string) : result sig_error SignatureInfo :=
  match Cut params ")" with
  | None => Err ErrSignatureMalformed
  | Some (l, rest) =>
      if negb (HasPrefix params "(") then Err ErrSignatureMalformed
      else if negb (seqb (l +:+ ")") (component_list (signatureParams 0 ""))) then Err ErrSignatureMalformed
      else
        '(info, seen) ← parse_params (Split rest ";") (MkSignatureInfo 0 "") ∅;
        if bool_decide ("created" ∈ seen) && bool_decide ("alg" ∈ seen) && bool_decide ("keyid" ∈ seen)
        then Ok info else Err ErrSignatureMalformed
  end.

Definition VerifyRequest (method path : string) (h : Header) (pub : option PK) : result sig_error SignatureInfo :=
  match pub with
  | None => Err ErrSignatureKeyType
  | Some pub =>
      if negb (is_P256 pub) then Err ErrSignatureKeyType else
      let inputRaw := TrimSpace (Header_Get h HeaderSignatureInput) in
      let sigRaw := TrimSpace (Header_Get h HeaderSignature) in
      if seqb inputRaw "" || seqb sigRaw "" then Err ErrSignatureMissing else
      match CutPrefix inputRaw (SignatureLabel +:+ "=") with
      | None => Err ErrSignatureMalformed
      | Some params =>
          info ← parseSignatureParams params;
          match CutPrefix sigRaw (SignatureLabel +:+ "=:") with
          | None => Err ErrSignatureMalformed
          | Some sigB64 =>
              if negb (HasSuffix sigB64 ":") then Err ErrSignatureMalformed else
              match base64_Decode (TrimSuffix sigB64 ":") with
              | None => Err ErrSignatureMalformed
              | Some sig =>
                  if negb (String.length sig =? 64)%nat then Err ErrSignatureMalformed else
                  let digest := Sum256 (SignatureBase method path h params) in
                  let r := SetBytes (take_bytes 32 sig) in
                  let s := SetBytes (drop_bytes 32 sig) in
                  if negb (ecdsa_Verify pub digest r s) then Err ErrSignatureInvalid else Ok info
              end
          end
      end
  end.
End signature.

(** ** Lemmas *)

Lemma lacks_uint a d : in_range 48 57 a = false → lacks a (DecimalString.NilZero.string_of_uint d) = true.
Proof.
  assert (∀ d, in_range 48 57 a = false → lacks a (DecimalString.NilEmpty.string_of_uint d) = true) as Hn.
  { clear d. intros d Ha. induction d; cbn -[Ascii.eqb]; rewrite ?IHd; rewrite ?andb_true_r; try done;
      match goal with |- negb (Ascii.eqb ?x a) = true => destruct (Ascii.eqb_spec x a) as [<-|] end; done. }
  intros Ha. destruct d; [|by apply (Hn _ Ha)..]. cbn -[Ascii.eqb].
  destruct (Ascii.eqb_spec "0" a) as [<-|]; done.
Qed.

(** A number has no separator in it. *)
Lemma lacks_FormatInt a z : in_range 48 57 a = false → Ascii.eqb "-" a = false → lacks a (FormatInt z) = true.
Proof.
  intros Ha Hm. unfold FormatInt. destruct z as [|p|p]; cbn [Z.to_int DecimalString.NilZero.string_of_int].
  - by apply lacks_uint.
  - by apply lacks_uint.
  - cbn [lacks]. rewrite Hm. by apply lacks_uint.
Qed.

Lemma verbatim_hex s : verbatim (hex_EncodeToString s) = true ∧ lacks ";" (hex_EncodeToString s) = true.
Proof.
  assert (∀ z, 0 <= z < 16 → verbatim_byte (hex_digit z) = true ∧ Ascii.eqb (hex_digit z) ";" = false) as Hd.
  { intros z Hz. pose proof (forall_below (λ z, verbatim_byte (hex_digit z) && negb (Ascii.eqb (hex_digit z) ";")) 16
      ltac:(by vm_compute) z Hz) as H. cbv beta in H. by sbool. }
  induction s as [|a s [IH1 IH2]]; [done|]. cbn [hex_EncodeToString lacks]. rewrite !verbatim_cons.
  pose proof (Z_of_byte_range a). 
  destruct (Hd (Z_of_byte a / 16)) as [-> ->]; [Z.div_mod_to_equations; lia|].
  destruct (Hd (Z_of_byte a mod 16)) as [-> ->]; [Z.div_mod_to_equations; lia|]. done.
Qed.

Section signature_lemmas.
Context (IsPrint : Z → bool) {PK SK : Type} `{HE : !Ecdsa PK SK}.

(** The list of components as [signatureParams] prints it, without its
    parentheses. *)
Definition quoted_components : string := Join (map (Quote IsPrint) signedComponents) " ".

Lemma quoted_components_lacks : lacks ")" ("(" +:+ quoted_components) = true.
Proof. reflexivity. Qed.

Lemma signatureParams_eq created k : verbatim k = true →
  signatureParams IsPrint created k =
    ("(" +:+ quoted_components) +:+ String ")" (String ";" (("created=" +:+ FormatInt created) +:+
      String ";" (("alg=" +:+ dqs +:+ SignatureAlg +:+ dqs) +:+ String ";" ("keyid=" +:+ dqs +:+ k +:+ dqs)))).
Proof.
  intros Hk. unfold signatureParams. rewrite (Quote_verbatim _ k) by done.
  rewrite (Quote_verbatim _ SignatureAlg) by done. unfold quoted_components. by rewrite !append_assoc.
Qed.

Lemma component_list_params created k : verbatim k = true →
  Cut (signatureParams IsPrint created k) ")" = Some ("(" +:+ quoted_components,
    String ";" (("created=" +:+ FormatInt created) +:+
      String ";" (("alg=" +:+ dqs +:+ SignatureAlg +:+ dqs) +:+ String ";" ("keyid=" +:+ dqs +:+ k +:+ dqs)))).
Proof. intros Hk. rewrite signatureParams_eq by done. by rewrite Cut_sep by apply quoted_components_lacks. Qed.

(** One round of the loop over the parameters, for each of the three. *)
Lemma parse_params_created n kvs info seen :
  in_int64 n → "created" ∉ seen →
  parse_params IsPrint (("created=" +:+ FormatInt n) :: kvs) info seen =
    parse_params IsPrint kvs (MkSignatureInfo n (KeyID info)) ({[ "created" ]} ∪ seen).
Proof.
  intros Hn Hs. cbn [parse_params]. rewrite (proj2 (seqb_false _ _)) by done.
  change ("created=" +:+ FormatInt n) with ("created" +:+ String "=" (FormatInt n)).
  rewrite Cut_sep by done. rewrite bool_decide_eq_false_2 by done. by rewrite seqb_refl, ParseInt_FormatInt.
Qed.

Lemma parse_params_alg kvs info seen :
  "alg" ∉ seen →
  parse_params IsPrint (("alg=" +:+ dqs +:+ SignatureAlg +:+ dqs) :: kvs) info seen =
    parse_params IsPrint kvs info ({[ "alg" ]} ∪ seen).
Proof.
  intros Hs. cbn [parse_params]. rewrite (proj2 (seqb_false _ _)) by done.
  change ("alg=" +:+ dqs +:+ SignatureAlg +:+ dqs) with ("alg" +:+ String "=" (dqs +:+ SignatureAlg +:+ dqs)).
  rewrite Cut_sep by done. rewrite bool_decide_eq_false_2 by done.
  rewrite (proj2 (seqb_false "alg" "created")) by done. rewrite seqb_refl.
  assert (Quote IsPrint SignatureAlg = dqs +:+ SignatureAlg +:+ dqs) as -> by (by apply Quote_verbatim).
  by rewrite seqb_refl.
Qed.

Lemma parse_params_keyid k kvs info seen :
  verbatim k = true → "keyid" ∉ seen →
  parse_params IsPrint (("keyid=" +:+ dqs +:+ k +:+ dqs) :: kvs) info seen =
    parse_params IsPrint kvs (MkSignatureInfo (Created info) k) ({[ "keyid" ]} ∪ seen).
Proof.
  intros Hk Hs. cbn [parse_params]. rewrite (proj2 (seqb_false _ _)) by done.
  change ("keyid=" +:+ dqs +:+ k +:+ dqs) with ("keyid" +:+ String "=" (dqs +:+ k +:+ dqs)).
  rewrite Cut_sep by done. rewrite bool_decide_eq_false_2 by done.
  rewrite (proj2 (seqb_false "keyid" "created")), (proj2 (seqb_false "keyid" "alg")) by done.
  by rewrite seqb_refl, Unquote_verbatim.
Qed.

(** Parameters parse back to what they were printed from. *)
Lemma parse_signatureParams created k :
  in_int64 created → verbatim k = true → lacks ";" k = true →
  parseSignatureParams IsPrint (signatureParams IsPrint created k) = Ok (MkSignatureInfo created k).
Proof.
  intros Hc Hk Hs. unfold parseSignatureParams. rewrite component_list_params by done.
  assert (HasPrefix (signatureParams IsPrint created k) "(" = true) as -> by apply HasPrefix_append.
  unfold component_list. rewrite component_list_params by done. rewrite seqb_refl. cbn [negb].
  match goal with |- context [Split (String ";" ?r) ";"] =>
    change (Split (String ";" r) ";") with (Split ("" +:+ String ";" r) ";") end.
  rewrite Split_sep by done.
  rewrite Split_sep by (rewrite lacks_append, lacks_FormatInt; done).
  rewrite Split_sep by done. rewrite Split_lacks by (rewrite !lacks_append, Hs; done).
  change (parse_params IsPrint ("" :: ?l) ?i ?s) with (parse_params IsPrint l i s).
  rewrite parse_params_created, parse_params_alg, parse_params_keyid by (done || set_solver).
  cbn [parse_params mbind result_bind Created]. by rewrite !bool_decide_eq_true_2 by set_solver.
Qed.

Lemma component_header m1 p1 h1 m2 p2 h2 c :
  c ≠ "@method" → c ≠ "@path" → Header_Get h1 c = Header_Get h2 c →
  component_value m1 p1 h1 c = component_value m2 p2 h2 c.
Proof.
  intros Hm Hp H. unfold component_value.
  by rewrite (proj2 (seqb_false _ _) Hm), (proj2 (seqb_false _ _) Hp), H.
Qed.

(** The component values hold no line break: the server refuses header values
    and request lines with one. *)
Definition one_line (method path : string) (h : Header) : bool :=
  forallb (λ c, lacks "010" (component_value method path h c)) signedComponents.

Lemma base_lines_inj cs m1 p1 h1 t1 m2 p2 h2 t2 :
  forallb (λ c, lacks "010" (component_value m1 p1 h1 c)) cs = true →
  forallb (λ c, lacks "010" (component_value m2 p2 h2 c)) cs = true →
  base_lines IsPrint cs m1 p1 h1 +:+ t1 = base_lines IsPrint cs m2 p2 h2 +:+ t2 →
  Forall (λ c, component_value m1 p1 h1 c = component_value m2 p2 h2 c) cs ∧ t1 = t2.
Proof.
  induction cs as [|c cs IH]; cbn [base_lines forallb]; [done|].
  intros [H1 H1']%andb_true_iff [H2 H2']%andb_true_iff. rewrite !append_assoc.
  intros H%append_inv_l%append_inv_l. apply sep_inj in H as [Hc H]; [|done|done].
  destruct (IH H1' H2' H) as [Hf ->]. split; [by constructor|done].
Qed.

(** Two requests with the same signature base agree on every component. *)
Lemma SignatureBase_inj m1 p1 h1 q1 m2 p2 h2 q2 :
  one_line m1 p1 h1 = true → one_line m2 p2 h2 = true →
  SignatureBase IsPrint m1 p1 h1 q1 = SignatureBase IsPrint m2 p2 h2 q2 →
  Forall (λ c, component_value m1 p1 h1 c = component_value m2 p2 h2 c) signedComponents ∧ q1 = q2.
Proof.
  unfold SignatureBase. intros H1 H2 H. apply base_lines_inj in H as [Hf H]; [|done..].
  split; [done|]. by apply append_inv_l, append_inv_l in H.
Qed.

(** The base depends on the headers through the components only. *)
Lemma SignatureBase_ext m1 p1 h1 m2 p2 h2 q :
  Forall (λ c, component_value m1 p1 h1 c = component_value m2 p2 h2 c) signedComponents →
  SignatureBase IsPrint m1 p1 h1 q = SignatureBase IsPrint m2 p2 h2 q.
Proof.
  unfold SignatureBase. intros H. f_equal. induction H as [|c cs Hc _ IH]; [done|].
  cbn [base_lines]. by rewrite Hc, IH.
Qed.

(** What [VerifyRequest] accepts: parameters it can parse, and 64 bytes the
    primitive verifies over the base. *)
Lemma VerifyRequest_Ok method path h pub info :
  VerifyRequest IsPrint method path h pub = Ok info →
  ∃ pk params r s, pub = Some pk ∧ is_P256 pk = true ∧
    TrimSpace (Header_Get h HeaderSignatureInput) = SignatureLabel +:+ "=" +:+ params ∧
    parseSignatureParams IsPrint params = Ok info ∧
    ecdsa_Verify pk (Sum256 (SignatureBase IsPrint method path h params)) r s = true.
Proof.
  unfold VerifyRequest. destruct pub as [pk|]; [|done]. destruct (is_P256 pk) eqn:Ep; [|done]. cbn [negb].
  destruct (seqb _ _ || _); [done|]. destruct (CutPrefix _ (SignatureLabel +:+ "=")) as [params|] eqn:Ec; [|done].
  apply CutPrefix_Some in Ec. destruct (parseSignatureParams IsPrint params) as [i|] eqn:Ei; [|done].
  cbn [mbind result_bind]. destruct (CutPrefix _ _) as [sg|]; [|done]. destruct (negb _); [done|].
  destruct (base64_Decode _) as [sig|]; [|done]. destruct (negb _); [done|].
  destruct (ecdsa_Verify _ _ _ _) eqn:Ev; [|done]. intros [= <-].
  eexists pk, params, _, _. split_and!; [done|done|exact Ec|exact Ei|exact Ev].
Qed.
End signature_lemmas.

(** ** Properties *)

(** The requests an honest holder of a key signed: what [SignRequest] was
    called on, and the body the digest header was computed from. *)
Record SignedRequest := MkSignedRequest {
  sr_method : string;
  sr_path : string;
  sr_header : Header;
  sr_body : string;
  sr_leafDER : string;
  sr_created : Z;
}.

Definition sr_params (i : Z → bool) (q : SignedRequest) : string :=
  signatureParams i (sr_created q) (CertKeyID (sr_leafDER q)).

Definition sr_base (i : Z → bool) (q : SignedRequest) : string :=
  SignatureBase i (sr_method q) (sr_path q) (sr_header q) (sr_params i q).

(** What such a caller ensures: the digest header matches the body, no value
    has a line break, and the time is an int64. *)
Definition sr_honest (q : SignedRequest) : Prop :=
  VerifyContentDigest (sr_header q) (sr_body q) = None ∧
  one_line (sr_method q) (sr_path q) (sr_header q) = true ∧ in_int64 (sr_created q).

(** Two different texts with the same SHA-256. *)
Definition collide (a b : string) : Prop := a ≠ b ∧ Sum256 a = Sum256 b.

Lemma same_or_collide a b : Sum256 a = Sum256 b → a = b ∨ collide a b.
Proof. intros H. destruct (decide (a = b)); [by left|right; by split]. Qed.

Lemma VerifyContentDigest_None h body : VerifyContentDigest h body = None ↔
  TrimSpace (Header_Get h HeaderContentDigest) = ContentDigest body.
Proof.
  unfold VerifyContentDigest. split.
  - destruct (seqb _ ""); [done|]. destruct (seqb _ (ContentDigest body)) eqn:E; [|done]. by sbool.
  - intros ->. rewrite seqb_refl, orb_false_r. destruct (seqb (ContentDigest body) "") eqn:E; [|done]. by sbool.
Qed.

Lemma ContentDigest_inj a b : ContentDigest a = ContentDigest b → Sum256 a = Sum256 b.
Proof.
  unfold ContentDigest. intros H%append_inv_l. apply base64_Encode_inj.
  apply (f_equal (λ s, TrimSuffix s ":")) in H. by rewrite !TrimSuffix_append in H.
Qed.

(** The request a valid signature was made for, up to a collision of SHA-256. *)
Lemma signed_request_or_collision `{HE : !Ecdsa PK SK} (i : Z → bool) (pub : PK) (issued : list SignedRequest)
    (method path : string) (h : Header) (body : string) (info : SignatureInfo) :
  (∀ d r s, ecdsa_Verify pub d r s = true → ∃ q, q ∈ issued ∧ d = Sum256 (sr_base i q)) →
  Forall sr_honest issued →
  one_line method path h = true →
  VerifyRequest i method path h (Some pub) = Ok info →
  VerifyContentDigest h body = None →
  ∃ q params, q ∈ issued ∧
    TrimSpace (Header_Get h HeaderSignatureInput) = SignatureLabel +:+ "=" +:+ params ∧
    (collide (SignatureBase i method path h params) (sr_base i q) ∨ collide body (sr_body q) ∨
     (body = sr_body q ∧ info = MkSignatureInfo (sr_created q) (CertKeyID (sr_leafDER q)) ∧
      ToUpper method = ToUpper (sr_method q) ∧ path = sr_path q ∧
      Forall (λ k, TrimSpace (Header_Get h k) = TrimSpace (Header_Get (sr_header q) k))
        [HeaderTimestamp; HeaderNonce; HeaderCert; HeaderHPKEKid])).
Proof.
  intros Hunf Hhon Hl Hv Hd. apply VerifyRequest_Ok in Hv as (pk & params & r & s & [= <-] & _ & Hin & Hp & Hv).
  destruct (Hunf _ _ _ Hv) as (q & Hq & Hs). exists q, params. split; [done|]. split; [done|].
  rewrite Forall_forall in Hhon. destruct (Hhon q Hq) as (Hqd & Hql & Hqc).
  destruct (same_or_collide _ _ Hs) as [Hb|?]; [|by left]. right.
  unfold sr_base in Hb. apply SignatureBase_inj in Hb as [Hc ->]; [|exact Hl|exact Hql].
  rewrite VerifyContentDigest_None in Hd, Hqd.
  unfold signedComponents in Hc. rewrite !Forall_cons in Hc.
  destruct Hc as (Hm & Hpath & Hdig & Ht & Hn & Hcert & Hkid & _).
  assert (Sum256 body = Sum256 (sr_body q)) as Hbody.
  { apply ContentDigest_inj. rewrite <- Hd, <- Hqd. exact Hdig. }
  destruct (same_or_collide _ _ Hbody) as [->|?]; [|by left]. right.
  unfold sr_params in Hp. rewrite parse_signatureParams in Hp by (exact Hqc || apply verbatim_hex).
  injection Hp as <-. split_and!; [done|done|exact Hm|exact Hpath|]. by repeat constructor.
Qed.

(** What a valid signature vouches for. If only the digests its holder
    signed verify under a key, then a request whose signature and content digest
    are accepted is one the holder signed, with the same method up to case, path,
    freshness headers, certificate, HPKE key and body, and the time and key
    identifier it was signed with, unless SHA-256 collides on the very texts
    compared. *)
Theorem accepted_request_was_signed `{HE : !Ecdsa PK SK} (i : Z → bool) (pub : PK) (issued : list SignedRequest)
    (method path : string) (h : Header) (body : string) (info : SignatureInfo) :
  (∀ d r s, ecdsa_Verify pub d r s = true → ∃ q, q ∈ issued ∧ d = Sum256 (sr_base i q)) →
  Forall sr_honest issued →
  one_line method path h = true →
  VerifyRequest i method path h (Some pub) = Ok info →
  VerifyContentDigest h body = None →
  ∃ q params, q ∈ issued ∧
    TrimSpace (Header_Get h HeaderSignatureInput) = SignatureLabel +:+ "=" +:+ params ∧
    (collide (SignatureBase i method path h params) (sr_base i q) ∨ collide body (sr_body q) ∨
     (body = sr_body q ∧ info = MkSignatureInfo (sr_created q) (CertKeyID (sr_leafDER q)) ∧
      ToUpper method = ToUpper (sr_method q) ∧ path = sr_path q ∧
      Forall (λ k, TrimSpace (Header_Get h k) = TrimSpace (Header_Get (sr_header q) k))
        [HeaderTimestamp; HeaderNonce; HeaderCert; HeaderHPKEKid])).
Proof. apply signed_request_or_collision. Qed.

(** ECDSA for examples: one key, which signed one digest; every signature is the
    pair (1, 1). *)
Definition sample_ecdsa (good : string) : Ecdsa unit unit := {|
  public_of := λ k, k;
  is_P256 := λ _, true;
  ecdsa_Sign := λ _ k d, if seqb d good then Some (1, 1) else None;
  ecdsa_Verify := λ k d r s, seqb d good && (r =? 1) && (s =? 1);
|}.

#[export] Instance sample_ecdsa_spec good : EcdsaSpec (sample_ecdsa good).
Proof.
  split; cbn; intros rnd k d r s _; destruct (seqb _ _); try done; intros [= <- <-]; [split; lia|done].
Qed.

Definition sample_signed : SignedRequest :=
  let h := Header_Set HeaderContentDigest (ContentDigest "sealed")
    (Header_Set HeaderTimestamp "0" (Header_Set HeaderNonce "00112233445566778899aabbccddeeff"
      (Header_Set HeaderCert "bGVhZg==" (Header_Set HeaderHPKEKid "0011223344556677" ∅)))) in
  MkSignedRequest "POST" "/muthur/v1/ingest" h "sealed" "leaf" 0.

Definition sample_digest : string := Sum256 (sr_base (λ _, true) sample_signed).

(** The request as it arrives, with its two signature headers. *)
Definition signed_header (r : option (result sig_error Header)) : Header :=
  match r with Some (Ok h) => h | _ => ∅ end.

Definition sample_arrived : Header :=
  signed_header (SignRequest (E := sample_ecdsa sample_digest) (λ _, true) (sr_header sample_signed) "POST" "/muthur/v1/ingest"
    (Some tt) "leaf" 0 "").

Lemma accepted_request_was_signed_witness :
  ∃ q params, q ∈ [sample_signed] ∧
    TrimSpace (Header_Get sample_arrived HeaderSignatureInput) = SignatureLabel +:+ "=" +:+ params ∧
    (collide (SignatureBase (λ _, true) "post" "/muthur/v1/ingest" sample_arrived params) (sr_base (λ _, true) q) ∨
     collide "sealed" (sr_body q) ∨
     ("sealed" = sr_body q ∧ MkSignatureInfo 0 (CertKeyID "leaf") =
        MkSignatureInfo (sr_created q) (CertKeyID (sr_leafDER q)) ∧
      ToUpper "post" = ToUpper (sr_method q) ∧ "/muthur/v1/ingest" = sr_path q ∧
      Forall (λ k, TrimSpace (Header_Get sample_arrived k) = TrimSpace (Header_Get (sr_header q) k))
        [HeaderTimestamp; HeaderNonce; HeaderCert; HeaderHPKEKid])).
Proof.
  apply (accepted_request_was_signed (HE := sample_ecdsa sample_digest) (λ _, true) tt [sample_signed]
    "post" "/muthur/v1/ingest" sample_arrived "sealed" (MkSignatureInfo 0 (CertKeyID "leaf"))).
  - intros d r s H. exists sample_signed. split; [by constructor|].
    apply andb_true_iff in H as [H _]. apply andb_true_iff in H as [H _]. by apply seqb_true in H.
  - constructor; [|constructor]. split_and!; [vm_compute; reflexivity|vm_compute; reflexivity|vm_compute; done].
  - vm_compute. reflexivity.
  - vm_compute. reflexivity.
  - vm_compute. reflexivity.
Defined.

(** The headers a signature is computed from and carried in. *)
Definition covered_headers : list string :=
  HeaderSignatureInput :: HeaderSignature :: drop 2 signedComponents.

Lemma rev_string_snoc s a : rev_string (s +:+ String a "") = String a (rev_string s).
Proof. by rewrite rev_string_append. Qed.

Lemma CutPrefix_append p s : CutPrefix (p +:+ s) p = Some s.
Proof. by apply CutPrefix_Some. Qed.

(** The last byte of a text is that of its tail. *)
Lemma head_rev_append f s t : head_is f (rev_string t) = true → head_is f (rev_string (s +:+ t)) = true.
Proof. rewrite rev_string_append. by destruct (rev_string t). Qed.

(** Signing: no panic, and the two headers it adds. *)
Lemma SignRequest_spec `{HE : !Ecdsa PK SK, HEs : !EcdsaSpec HE} i h method path key der created rnd :
  ∃ res, SignRequest i h method path (Some key) der created rnd = Some res ∧
  ∀ h', res = Ok h' → ∃ r s rb sb,
    is_P256 (public_of key) = true ∧ FillBytes 32 r = Some rb ∧ FillBytes 32 s = Some sb ∧
    ecdsa_Verify (public_of key)
      (Sum256 (SignatureBase i method path h (signatureParams i created (CertKeyID der)))) r s = true ∧
    h' = Header_Set HeaderSignature (SignatureLabel +:+ "=:" +:+ base64_Encode (rb +:+ sb) +:+ ":")
      (Header_Set HeaderSignatureInput (SignatureLabel +:+ "=" +:+ signatureParams i created (CertKeyID der)) h).
Proof.
  unfold SignRequest. destruct (is_P256 (public_of key)) eqn:Ep; cbn [negb]; [|by eexists].
  destruct (ecdsa_Sign _ _ _) as [[r s]|] eqn:Es; [|by eexists].
  destruct (sign_range _ _ _ _ _ Ep Es) as [Hr Hs].
  destruct (FillBytes_fits 32 r Hr) as [rb Hrb]. destruct (FillBytes_fits 32 s Hs) as [sb Hsb].
  rewrite Hrb, Hsb. cbn [mbind option_bind]. eexists. split; [done|]. intros h' [= <-].
  exists r, s, rb, sb. split_and!; [done..| |done]. by eapply sign_verifies.
Qed.

(** C23: a signed request verifies: signing never panics, and what it signed is
    accepted under the public key, with the time and the key identifier it was
    signed with, whatever happens on the way to the case of the method and to the
    headers the signature does not cover. *)
Theorem http_signature_roundtrip `{HE : !Ecdsa PK SK, HEs : !EcdsaSpec HE} (i : Z → bool)
    (h : Header) (method path : string) (key : SK) (leafDER : string) (created : Z) (rnd : string)
    (method' : string) (h'' : Header) :
  in_int64 created →
  ∃ res, SignRequest i h method path (Some key) leafDER created rnd = Some res ∧
    ∀ h', res = Ok h' → ToUpper method' = ToUpper method →
      Forall (λ k, Header_Get h'' k = Header_Get h' k) covered_headers →
      VerifyRequest i method' path h'' (Some (public_of key)) = Ok (MkSignatureInfo created (CertKeyID leafDER)).
Proof.
  intros Hc. destruct (SignRequest_spec i h method path key leafDER created rnd) as (res & Hres & Hok).
  exists res. split; [done|]. intros h' Hh' Hm Hcov.
  destruct (Hok h' Hh') as (r & s & rb & sb & Hp & Hrb & Hsb & Hv & ->). clear Hok Hh' Hres res.
  set (params := signatureParams i created (CertKeyID leafDER)) in *.
  unfold covered_headers, signedComponents in Hcov. cbn [drop] in Hcov. rewrite !Forall_cons in Hcov.
  destruct Hcov as (Hin & Hsig & H1 & H2 & H3 & H4 & H5 & _).
  rewrite Header_Get_Set in Hsig. rewrite Header_Get_Set_ne, Header_Get_Set in Hin by done.
  rewrite !Header_Get_Set_ne in H1, H2, H3, H4, H5 by done.
  assert (TrimSpace (Header_Get h'' HeaderSignatureInput) = (SignatureLabel +:+ "=") +:+ params) as Hti.
  { rewrite Hin, append_assoc. apply TrimSpace_graphic; [reflexivity|]. subst params. unfold signatureParams.
    rewrite (Quote_verbatim _ (CertKeyID leafDER)) by apply verbatim_hex. do 10 apply head_rev_append. reflexivity. }
  assert (TrimSpace (Header_Get h'' HeaderSignature) = (SignatureLabel +:+ "=:") +:+ base64_Encode (rb +:+ sb) +:+ ":") as Hts.
  { rewrite Hsig, append_assoc. apply TrimSpace_graphic; [reflexivity|]. do 3 apply head_rev_append. reflexivity. }
  unfold VerifyRequest. rewrite Hp, Hti, Hts. cbn [negb].
  rewrite (proj2 (seqb_false _ _)) by discriminate. rewrite (proj2 (seqb_false _ _)) by discriminate. cbn [orb].
  rewrite (CutPrefix_append (SignatureLabel +:+ "=") params).
  subst params. rewrite parse_signatureParams by (exact Hc || apply verbatim_hex). cbn [mbind result_bind].
  rewrite (CutPrefix_append (SignatureLabel +:+ "=:") (base64_Encode (rb +:+ sb) +:+ ":")).
  assert (HasSuffix (base64_Encode (rb +:+ sb) +:+ ":") ":" = true) as ->.
  { unfold HasSuffix, CutSuffix. by rewrite rev_string_snoc. }
  rewrite TrimSuffix_append, base64_Decode_Encode. cbn [negb].
  apply FillBytes_Some in Hrb as [Hlr <-], Hsb as [Hls <-].
  rewrite length_append, Hlr, Hls. cbn [Nat.eqb negb Nat.add].
  rewrite take_bytes_app, drop_bytes_app by done.
  rewrite (SignatureBase_ext i method' path h'' method path h).
  - by rewrite Hv.
  - unfold signedComponents. rewrite !Forall_cons, Forall_nil.
    split_and!; [exact Hm|done|..]; [..|done]; by apply component_header.
Qed.

Lemma http_signature_roundtrip_witness :
  ∃ res, SignRequest (E := sample_ecdsa sample_digest) (λ _, true) (sr_header sample_signed) "POST" "/muthur/v1/ingest"
      (Some tt) "leaf" 0 "" = Some res ∧
    ∀ h', res = Ok h' → ToUpper "post" = ToUpper "POST" →
      Forall (λ k, Header_Get sample_arrived k = Header_Get h' k) covered_headers →
      VerifyRequest (E := sample_ecdsa sample_digest) (λ _, true) "post" "/muthur/v1/ingest" sample_arrived (Some tt) =
        Ok (MkSignatureInfo 0 (CertKeyID "leaf")).
Proof.
  apply (http_signature_roundtrip (HE := sample_ecdsa sample_digest) (λ _, true) (sr_header sample_signed) "POST"
    "/muthur/v1/ingest" tt "leaf" 0 "" "post" sample_arrived).
  vm_compute. done.
Defined.
