(* ===== verification/Sealed.v ===== *)
(** * Sealed bodies

    [internal/auth/sealed.go]: the envelope of sealed requests and responses, the
    set of decapsulation keys, and the signature of a payload by the CA. HPKE,
    AES-GCM, PEM and PKCS#8 are parameters, with their contracts. *)
From S2P Require Import Prelude GoStrings Sha256 GoEncoding.
From Stdlib Require Import Ascii.

Definition SealedVersion : ascii := byte_of_Z 1.
Definition hpkeEncSize : nat := 32.
Definition responseKeyLen : nat := 32.
Definition gcmNonceLen : nat := 12.
Definition hpkeInfoPrefix : string := "muthur/v1 ".
Definition responseExportContext : string := "muthur/v1 response".
Definition HPKEKEMName : string := "dhkem-x25519-hkdf-sha256".
Definition HPKEKDFName : string := "hkdf-sha256".
Definition HPKEAEADName : string := "aes-256-gcm".

Inductive sealed_error :=
| ErrSealedMalformed
| ErrUnknownHPKEKey
| ErrHPKE
| ErrResponseCipher
| ErrResponseNonce.

(** ** Cryptography

    [crypto/hpke] with the suite of the code: private keys, public keys, and the
    context of one exchange. A context is used here for one message and one
    export, so its sequence number is not modelled. *)
Class Hpke (SK PK K : Type) := {
  hpke_PublicKey : SK → PK;
  pk_Bytes : PK → string;
  hpke_NewPublicKey : string → option PK;
  hpke_NewSender : string → PK → string → option (string * K);
  hpke_NewRecipient : string → SK → string → option K;
  hpke_Seal : K → string → string → option string;
  hpke_Open : K → string → string → option string;
  hpke_Export : K → string → nat → option string;
}.

(** RFC 9180: an X25519 encapsulation is 32 bytes; the recipient derives the
    context of the sender, which opens what it sealed and exports the same
    secrets, of the length asked for. *)
Class HpkeSpec {SK PK K} (H : Hpke SK PK K) := {
  hpke_agree rnd sk info enc ks :
    hpke_NewSender rnd (hpke_PublicKey sk) info = Some (enc, ks) →
    String.length enc = hpkeEncSize ∧
    ∃ kr, hpke_NewRecipient enc sk info = Some kr ∧
      (∀ aad pt ct, hpke_Seal ks aad pt = Some ct → hpke_Open kr aad ct = Some pt) ∧
      (∀ ctx n, hpke_Export kr ctx n = hpke_Export ks ctx n);
  hpke_export_length k ctx n s : hpke_Export k ctx n = Some s → String.length s = n;
}.

(** [crypto/cipher]: AES-GCM under a key and a nonce, without additional data. *)
Class Gcm := {
  gcm_Seal : string → string → string → string;
  gcm_Open : string → string → string → option string;
}.

Class GcmSpec (G : Gcm) := {
  gcm_open_seal k n pt : String.length n = gcmNonceLen → gcm_Open k n (gcm_Seal k n pt) = Some pt;
}.

(** [newGCM]: whether the key is of a length AES has. *)
Definition newGCM (key : string) : bool :=
  let n := String.length key in ((n =? 16) || (n =? 24) || (n =? 32))%nat.

Definition hpkeInfo (path : string) : string := hpkeInfoPrefix +:+ path.

Definition sealAAD (timestamp nonce : string) : string := timestamp +:+ String "010" nonce.

(** ** Responses *)

Record ResponseOpener := MkOpener { ro_key : string }.
Record ResponseSealer := MkSealer { rs_key : string }.

Section response.
Context `{G : !Gcm}.

Definition ResponseOpener_Open (o : ResponseOpener) (body : string) : result sealed_error string :=
  match body with
  | String v rest =>
      if (String.length body <? 1 + gcmNonceLen)%nat || negb (Ascii.eqb v SealedVersion) then Err ErrSealedMalformed else
      if negb (newGCM (ro_key o)) then Err ErrResponseCipher else
      match gcm_Open (ro_key o) (take_bytes gcmNonceLen rest) (drop_bytes gcmNonceLen rest) with
      | None => Err ErrSealedMalformed
      | Some pt => Ok pt
      end
  | EmptyString => Err ErrSealedMalformed
  end.

(** [nonce] is what the source of randomness answers, 12 bytes. *)
Definition ResponseSealer_Seal (s : ResponseSealer) (nonce : option string) (plaintext : string) :
    result sealed_error string :=
  if negb (newGCM (rs_key s)) then Err ErrResponseCipher else
  match nonce with
  | None => Err ErrResponseNonce
  | Some nonce => Ok (String SealedVersion (nonce +:+ gcm_Seal (rs_key s) nonce plaintext))
  end.
End response.

(** ** Requests *)

Record HPKEKeySet (SK : Type) := MkKeySet { order : list string; keys : gmap string SK }.
Arguments MkKeySet {SK}. Arguments order {SK}. Arguments keys {SK}.

Section sealed.
Context {SK PK K : Type} `{H : !Hpke SK PK K}.

Definition HPKEKeyID (pub : PK) : string := hex_EncodeToString (take_bytes 8 (Sum256 (pk_Bytes pub))).

Definition ParseHPKEPublicKey (raw : string) : option PK := hpke_NewPublicKey raw.

(** [rnd] is the randomness of the encapsulation. *)
Definition SealRequest (rnd : string) (pub : PK) (path timestamp nonce plaintext : string) :
    result sealed_error (string * ResponseOpener) :=
  match hpke_NewSender rnd pub (hpkeInfo path) with
  | None => Err ErrHPKE
  | Some (enc, sender) =>
      match hpke_Seal sender (sealAAD timestamp nonce) plaintext with
      | None => Err ErrHPKE
      | Some ct =>
          match hpke_Export sender responseExportContext responseKeyLen with
          | None => Err ErrHPKE
          | Some rk => Ok (String SealedVersion (enc +:+ ct), MkOpener rk)
          end
      end
  end.

Definition OpenRequest (ks : HPKEKeySet SK) (kid path timestamp nonce body : string) :
    result sealed_error (string * ResponseSealer) :=
  match keys ks !! kid with
  | None => Err ErrUnknownHPKEKey
  | Some key =>
      match body with
      | String v rest =>
          if (String.length body <? 1 + hpkeEncSize)%nat || negb (Ascii.eqb v SealedVersion)
          then Err ErrSealedMalformed else
          let enc := take_bytes hpkeEncSize rest in
          let ct := drop_bytes hpkeEncSize rest in
          match hpke_NewRecipient enc key (hpkeInfo path) with
          | None => Err ErrSealedMalformed
          | Some recipient =>
              match hpke_Open recipient (sealAAD timestamp nonce) ct with
              | None => Err ErrSealedMalformed
              | Some pt =>
                  match hpke_Export recipient responseExportContext responseKeyLen with
                  | None => Err ErrHPKE
                  | Some rk => Ok (pt, MkSealer rk)
                  end
              end
          end
      | EmptyString => Err ErrSealedMalformed
      end
  end.

End sealed.

(** ** Key files *)

(** What [x509.ParsePKCS8PrivateKey] yields: an [ecdh.PrivateKey] on X25519 or on
    another curve, or a key of another kind. *)
Inductive AnyKey (X : Type) :=
| EcdhX25519 (priv : X)
| EcdhOther
| OtherKey.
Arguments EcdhX25519 {X} priv. Arguments EcdhOther {X}. Arguments OtherKey {X}.

Inductive key_error := ErrParseKey | ErrNotX25519 | ErrWrapKey | ErrNoKey | ErrReadKey.
(** [crypto/x509] and [hpke.NewDHKEMPrivateKey], on raw X25519 keys of type [X]. *)
Class KeyLib (X SK : Type) := {
  ParsePKCS8PrivateKey : string → option (AnyKey X);
  MarshalPKCS8PrivateKey : X → option string;
  NewDHKEMPrivateKey : X → option SK;
}.

(** A key that was marshalled parses back. *)
Class KeyLibSpec {X SK} (L : KeyLib X SK) := {
  pkcs8_parse_marshal priv der :
    MarshalPKCS8PrivateKey priv = Some der → ParsePKCS8PrivateKey der = Some (EcdhX25519 priv);
}.

Section keys.
Context {X SK PK K : Type} `{H : !Hpke SK PK K, L : !KeyLib X SK, P : !Pem}.

(** [priv] is the key the source of randomness yields. *)
Definition GenerateHPKEKeyPEM (priv : option X) : option string :=
  priv ← priv;
  der ← MarshalPKCS8PrivateKey priv;
  Some (pem_EncodeToMemory (MkBlock "PRIVATE KEY" der)).

(** The loop over the blocks; [None] when the fuel runs out. *)
Fixpoint parse_blocks (fuel : nat) (pemData : string) (ks : HPKEKeySet SK) : option (result key_error (HPKEKeySet SK)) :=
  match fuel with
  | O => None
  | S fuel =>
      match pem_Decode pemData with
      | None => Some (if (length (order ks) =? 0)%nat then Err ErrNoKey else Ok ks)
      | Some (block, pemData) =>
          if negb (seqb (Block_Type block) "PRIVATE KEY") then parse_blocks fuel pemData ks else
          match ParsePKCS8PrivateKey (Block_Bytes block) with
          | None => Some (Err ErrParseKey)
          | Some (EcdhX25519 priv) =>
              match NewDHKEMPrivateKey priv with
              | None => Some (Err ErrWrapKey)
              | Some key =>
                  let kid := HPKEKeyID (hpke_PublicKey key) in
                  if bool_decide (is_Some (keys ks !! kid)) then parse_blocks fuel pemData ks
                  else parse_blocks fuel pemData (MkKeySet (order ks ++ [kid])%list (<[kid := key]> (keys ks)))
              end
          | Some _ => Some (Err ErrNotX25519)
          end
      end
  end.

(** Every block takes at least one byte. *)
Definition ParseHPKEKeys (pemData : string) : option (result key_error (HPKEKeySet SK)) :=
  parse_blocks (S (String.length pemData)) pemData (MkKeySet [] ∅).

(** [file] is the contents of the key file, [None] when it cannot be read. *)
Definition LoadHPKEKeys (file : option string) : option (result key_error (HPKEKeySet SK)) :=
  match file with None => Some (Err ErrReadKey) | Some data => ParseHPKEKeys data end.

Record HPKEPublicKey := MkHPKEPublicKey { KID : string; Key : PK }.

(** [None] is the panic of a key that is listed but missing. *)
Definition Public (ks : HPKEKeySet SK) : option (list HPKEPublicKey) :=
  mapM (λ kid, key ← keys ks !! kid; Some (MkHPKEPublicKey kid (hpke_PublicKey key))) (order ks).
End keys.

(** ** Payload signatures

    [crypto.Signer] and [x509.Certificate.CheckSignature]: the kind of a key
    decides the algorithm and whether a digest or the payload is signed. *)
Inductive KeyKind := ECDSAKey | RSAKey | Ed25519Key | UnknownKey.
Inductive CryptoHash := HashSHA256 | HashNone.
Inductive SignatureAlgorithm := ECDSAWithSHA256 | SHA256WithRSA | PureEd25519.

Class PayloadLib (CK CA : Type) := {
  signer_kind : CK → KeyKind;
  signer_Sign : string → CK → string → CryptoHash → option string;
  ca_kind : CA → KeyKind;
  CheckSignature : CA → SignatureAlgorithm → string → string → bool;
}.

(** The certificate [ca] carries the public key of [k]: the kinds agree, and the
    signatures of [k] check, over the digest for the first two algorithms. *)
Class SignsFor {CK CA} (P : PayloadLib CK CA) (k : CK) (ca : CA) := {
  same_kind : ca_kind ca = signer_kind k;
  check_ecdsa rnd p sg : signer_kind k = ECDSAKey → signer_Sign rnd k (Sum256 p) HashSHA256 = Some sg →
    CheckSignature ca ECDSAWithSHA256 p sg = true;
  check_rsa rnd p sg : signer_kind k = RSAKey → signer_Sign rnd k (Sum256 p) HashSHA256 = Some sg →
    CheckSignature ca SHA256WithRSA p sg = true;
  check_ed25519 rnd p sg : signer_kind k = Ed25519Key → signer_Sign rnd k p HashNone = Some sg →
    CheckSignature ca PureEd25519 p sg = true;
}.

Section payload.
Context {CK CA : Type} `{P : !PayloadLib CK CA}.

(** [None] is an error: of the signer, or an unsupported kind. *)
Definition SignPayload (rnd : string) (signer : CK) (payload : string) : option string :=
  match signer_kind signer with
  | ECDSAKey | RSAKey => signer_Sign rnd signer (Sum256 payload) HashSHA256
  | Ed25519Key => signer_Sign rnd signer payload HashNone
  | UnknownKey => None
  end.

(** Whether the error is nil. *)
Definition VerifyPayload (cert : CA) (payload sig : string) : bool :=
  match ca_kind cert with
  | ECDSAKey => CheckSignature cert ECDSAWithSHA256 payload sig
  | RSAKey => CheckSignature cert SHA256WithRSA payload sig
  | Ed25519Key => CheckSignature cert PureEd25519 payload sig
  | UnknownKey => false
  end.

(** Each is the inverse of the other. *)
Lemma VerifyPayload_SignPayload rnd k ca `{!SignsFor P k ca} payload sig :
  SignPayload rnd k payload = Some sig → VerifyPayload ca payload sig = true.
Proof.
  unfold SignPayload, VerifyPayload. rewrite same_kind. intros Hs.
  destruct (signer_kind k) eqn:E; [by eapply check_ecdsa|by eapply check_rsa|by eapply check_ed25519|done].
Qed.
End payload.

(** ** Lemmas *)

Section lemmas.
Context {X SK PK K : Type} `{H : !Hpke SK PK K, L : !KeyLib X SK, P : !Pem}.

(** The invariant of a key set: the listed identifiers are distinct, are those of
    the map, and each is the identifier of its key. *)
Record keyset_ok (ks : HPKEKeySet SK) : Prop := {
  ko_nodup : NoDup (order ks);
  ko_listed kid : kid ∈ order ks ↔ is_Some (keys ks !! kid);
  ko_named kid k : keys ks !! kid = Some k → kid = HPKEKeyID (hpke_PublicKey k);
}.

Lemma keyset_ok_empty : keyset_ok (MkKeySet [] ∅).
Proof.
  split; cbn; [constructor| |].
  - intros kid. rewrite lookup_empty. split; [intros []%not_elem_of_nil|intros []%is_Some_None].
  - intros kid k. by rewrite lookup_empty.
Qed.

Lemma keyset_ok_add ks k :
  keyset_ok ks → ¬ is_Some (keys ks !! HPKEKeyID (hpke_PublicKey k)) →
  keyset_ok (MkKeySet (order ks ++ [HPKEKeyID (hpke_PublicKey k)])%list
    (<[HPKEKeyID (hpke_PublicKey k) := k]> (keys ks))).
Proof.
  set (kid := HPKEKeyID _). intros [Hn Hl Hk] Hno. split; cbn.
  - apply NoDup_app. split_and!; [done| |apply NoDup_singleton].
    intros x Hx ->%list_elem_of_singleton. by apply Hno, Hl.
  - intros x. rewrite elem_of_app, list_elem_of_singleton, lookup_insert_is_Some', Hl. naive_solver.
  - intros x k' [[<- <-]|[_ Hx]]%lookup_insert_Some; [done|]. by apply Hk.
Qed.

Context `{PS : !PemSpec P}.

(** With more fuel than bytes the loop ends, and builds a well-formed set that
    extends the one it started from. *)
Lemma parse_blocks_total fuel data ks :
  (String.length data < fuel)%nat → keyset_ok ks →
  ∃ r, (∀ fuel', (String.length data < fuel')%nat → parse_blocks fuel' data ks = Some r) ∧
    ∀ ks', r = Ok ks' → keyset_ok ks' ∧ order ks' ≠ [] ∧ order ks `prefix_of` order ks'.
Proof.
  revert data ks. induction fuel as [|fuel IH]; intros data ks Hf Hks; [lia|].
  assert (∀ r, (∀ f, parse_blocks (S f) data ks = Some r) →
    ∀ fuel', (String.length data < fuel')%nat → parse_blocks fuel' data ks = Some r) as Hany.
  { intros r Hr [|f] ?; [lia|apply Hr]. }
  cbn [parse_blocks] in Hany.
  destruct (pem_Decode data) as [[b rest]|] eqn:Ed.
  2: { eexists. split; [by apply Hany|]. intros ks' Hr. destruct (order ks) eqn:Eo; cbn in Hr; [done|].
       injection Hr as <-. rewrite Eo. by split_and!. }
  apply pem_decode_shorter in Ed as Hlt.
  assert (∀ ks1, keyset_ok ks1 → order ks `prefix_of` order ks1 →
    (∀ f, parse_blocks (S f) data ks = parse_blocks f rest ks1) →
    ∃ r, (∀ fuel', (String.length data < fuel')%nat → parse_blocks fuel' data ks = Some r) ∧
    ∀ ks', r = Ok ks' → keyset_ok ks' ∧ order ks' ≠ [] ∧ order ks `prefix_of` order ks') as Hnext.
  { intros ks1 Hok Hpre Heq. destruct (IH rest ks1 ltac:(lia) Hok) as (r & Hr & Hres). exists r. split.
    - intros [|f] ?; [lia|]. rewrite Heq. apply Hr. lia.
    - intros ks' E. destruct (Hres ks' E) as (? & ? & ?). split_and!; [done..|by etrans]. }
  cbn [parse_blocks] in Hnext. rewrite Ed in Hnext.
  destruct (negb _); [by apply (Hnext ks)|].
  destruct (ParsePKCS8PrivateKey _) as [[priv| |]|]; try (eexists; split; [by apply Hany|done]).
  destruct (NewDHKEMPrivateKey priv) as [key|]; [|eexists; split; [by apply Hany|done]].
  destruct (decide (is_Some (keys ks !! HPKEKeyID (hpke_PublicKey key)))) as [Hin|Hin].
  - apply (Hnext ks); [done..|]. intros f. by rewrite bool_decide_eq_true_2.
  - eapply (Hnext (MkKeySet _ _)); [by apply keyset_ok_add|by apply prefix_app_r|].
    intros f. by rewrite bool_decide_eq_false_2.
Qed.

Lemma ParseHPKEKeys_total data :
  ∃ r, (∀ fuel, (String.length data < fuel)%nat → parse_blocks fuel data (MkKeySet [] ∅) = Some r) ∧
    ParseHPKEKeys data = Some r ∧ ∀ ks, r = Ok ks → keyset_ok ks ∧ order ks ≠ [].
Proof.
  destruct (parse_blocks_total (S (String.length data)) data (MkKeySet [] ∅) ltac:(lia) keyset_ok_empty)
    as (r & Hr & Hok).
  exists r. split; [done|]. split; [apply Hr; lia|]. intros ks E. by destruct (Hok ks E) as (? & ? & _).
Qed.

Lemma Public_ok ks : keyset_ok ks → ∃ pubs, Public ks = Some pubs ∧ map KID pubs = order ks ∧
  Forall (λ e, KID e = HPKEKeyID (Key e) ∧ ∃ k, keys ks !! KID e = Some k ∧ Key e = hpke_PublicKey k) pubs.
Proof.
  intros [_ Hl Hk]. unfold Public.
  assert (Forall (λ kid, is_Some (keys ks !! kid)) (order ks)) as Hs.
  { apply Forall_forall. intros x. apply Hl. }
  clear Hl. induction Hs as [|kid l [k Hkid] _ (pubs & Hp & Hm & Hf)]; [by exists []|].
  cbn. rewrite Hkid. cbn. rewrite Hp. cbn. eexists. split; [done|]. cbn. rewrite Hm. split; [done|].
  constructor; [|done]. cbn. split; [by apply Hk|eauto].
Qed.
End lemmas.

(** ** Properties *)

(** C31: loading the decapsulation keys always ends: whatever the key file holds,
    the loop over its PEM blocks reaches the end of the data or an error within as
    many rounds as the data has bytes, and more rounds change nothing. *)
Theorem hpke_key_loading_terminates `{HP : !Hpke SK PK K, HL : !KeyLib X SK, HM : !Pem, HMs : !PemSpec HM}
    (data : string) (fuel : nat) :
  (String.length data < fuel)%nat →
  ∃ r, ParseHPKEKeys data = Some r ∧ parse_blocks fuel data (MkKeySet [] ∅) = Some r.
Proof. intros Hf. destruct (ParseHPKEKeys_total data) as (r & Hr & Hp & _). exists r. split; [done|by apply Hr]. Qed.

(** C30: a loaded key set is well formed: it lists at least one key, its
    identifiers are distinct and are those the public keys hash to, every key it
    advertises is one it can open requests with, and advertising them never
    panics. *)
Theorem hpke_keyset_well_formed `{HP : !Hpke SK PK K, HL : !KeyLib X SK, HM : !Pem, HMs : !PemSpec HM}
    (data : string) (ks : HPKEKeySet SK) :
  ParseHPKEKeys data = Some (Ok ks) →
  order ks ≠ [] ∧ NoDup (order ks) ∧ (∀ kid, kid ∈ order ks ↔ is_Some (keys ks !! kid)) ∧
  ∃ pubs, Public ks = Some pubs ∧ map KID pubs = order ks ∧
    Forall (λ e, KID e = HPKEKeyID (Key e) ∧
      ∃ k, keys ks !! KID e = Some k ∧ Key e = hpke_PublicKey k) pubs.
Proof.
  intros E. destruct (ParseHPKEKeys_total data) as (r & _ & Hp & Hok). rewrite E in Hp. injection Hp as <-.
  destruct (Hok ks eq_refl) as [Hks Hne]. split; [done|]. split; [apply Hks|]. split; [apply Hks|].
  by apply Public_ok.
Qed.

(** Cryptography for examples: public and private keys are the same, a
    ciphertext is a digest of key and additional data before the plaintext. *)
Definition sample_hpke : Hpke string string string := {|
  hpke_PublicKey := λ k, k;
  pk_Bytes := λ k, k;
  hpke_NewPublicKey := Some;
  hpke_NewSender := λ rnd pk info, Some (Sum256 rnd, pk +:+ info);
  hpke_NewRecipient := λ enc sk info, Some (sk +:+ info);
  hpke_Seal := λ k aad pt, Some (Sum256 (k +:+ aad) +:+ pt);
  hpke_Open := λ k aad ct, CutPrefix ct (Sum256 (k +:+ aad));
  hpke_Export := λ k ctx n, if (n =? 32)%nat then Some (Sum256 (k +:+ ctx)) else None;
|}.

#[export] Instance sample_hpke_spec : HpkeSpec sample_hpke.
Proof.
  split; cbn.
  - intros rnd sk info enc ks [= <- <-]. split; [apply Sum256_length|]. exists (sk +:+ info).
    split_and!; [done| |done]. intros aad pt ct [= <-]. by apply CutPrefix_Some.
  - intros k ctx n s. destruct (Nat.eqb_spec n 32) as [->|]; [|done]. intros [= <-]. apply Sum256_length.
Qed.

Definition sample_gcm : Gcm := {|
  gcm_Seal := λ k n pt, Sum256 (k +:+ n) +:+ pt;
  gcm_Open := λ k n ct, CutPrefix ct (Sum256 (k +:+ n));
|}.

#[export] Instance sample_gcm_spec : GcmSpec sample_gcm.
Proof. split; cbn. intros k n pt _. by apply CutPrefix_Some. Qed.

Definition sample_keylib : KeyLib string string := {|
  ParsePKCS8PrivateKey := λ der, Some (EcdhX25519 der);
  MarshalPKCS8PrivateKey := Some;
  NewDHKEMPrivateKey := Some;
|}.

#[export] Instance sample_keylib_spec : KeyLibSpec sample_keylib.
Proof. split; cbn. intros priv der [= ->]. done. Qed.

Definition sample_key_file : string := "K6b31" +:+ String "010" ("K6b32" +:+ String "010" ("K6b31" +:+ String "010" "")).

Lemma hpke_key_loading_terminates_witness :
  ∃ r, ParseHPKEKeys (H := sample_hpke) (L := sample_keylib) (P := sample_pem) sample_key_file = Some r ∧
    parse_blocks (H := sample_hpke) (L := sample_keylib) (P := sample_pem) 100 sample_key_file (MkKeySet [] ∅) = Some r.
Proof.
  apply (hpke_key_loading_terminates (HP := sample_hpke) (HL := sample_keylib) (HM := sample_pem) sample_key_file 100).
  vm_compute. lia.
Defined.

Definition sample_keyset : HPKEKeySet string :=
  let kid k := HPKEKeyID (H := sample_hpke) k in
  MkKeySet [kid "k1"; kid "k2"] {[ kid "k1" := "k1"; kid "k2" := "k2" ]}.

Lemma hpke_keyset_well_formed_witness :
  order sample_keyset ≠ [] ∧ NoDup (order sample_keyset) ∧
  (∀ kid, kid ∈ order sample_keyset ↔ is_Some (keys sample_keyset !! kid)) ∧
  ∃ pubs, Public (H := sample_hpke) sample_keyset = Some pubs ∧ map KID pubs = order sample_keyset ∧
    Forall (λ e, KID e = HPKEKeyID (H := sample_hpke) (Key e) ∧
      ∃ k, keys sample_keyset !! KID e = Some k ∧ Key e = @hpke_PublicKey _ _ _ sample_hpke k) pubs.
Proof.
  apply (hpke_keyset_well_formed (HP := sample_hpke) (HL := sample_keylib) (HM := sample_pem) sample_key_file sample_keyset).
  vm_compute. reflexivity.
Defined.

(** C22: what is sealed is opened by its addressee, both ways: the request sealed
    to a key of the set opens under its path and freshness headers, and the
    response sealed by whoever opened it opens for whoever sealed the request. *)
Theorem sealed_roundtrip `{HP : !Hpke SK PK K, HPs : !HpkeSpec HP, HG : !Gcm, HGs : !GcmSpec HG}
    (ks : HPKEKeySet SK) (kid : string) (sk : SK) (rnd path timestamp nonce plaintext body : string)
    (opener : ResponseOpener) (response respNonce : string) :
  keys ks !! kid = Some sk →
  SealRequest rnd (hpke_PublicKey sk) path timestamp nonce plaintext = Ok (body, opener) →
  String.length respNonce = gcmNonceLen →
  ∃ sealer sealed, OpenRequest ks kid path timestamp nonce body = Ok (plaintext, sealer) ∧
    ResponseSealer_Seal sealer (Some respNonce) response = Ok sealed ∧
    ResponseOpener_Open opener sealed = Ok response.
Proof.
  unfold SealRequest. intros Hk Hs Hn.
  destruct (hpke_NewSender _ _ _) as [[enc sender]|] eqn:Es; [|done].
  destruct (hpke_Seal _ _ _) as [ct|] eqn:Ect; [|done].
  destruct (hpke_Export _ _ _) as [rk|] eqn:Ex; [|done]. injection Hs as <- <-.
  apply hpke_agree in Es as (Hlen & kr & Hr & Hopen & Hexp).
  assert (newGCM rk = true) as Hg by (unfold newGCM; by rewrite (hpke_export_length _ _ _ _ Ex)).
  exists (MkSealer rk). eexists. split_and!.
  - unfold OpenRequest. rewrite Hk. cbn [String.length]. rewrite length_append, Hlen.
    rewrite (proj2 (Nat.ltb_ge _ _)) by lia. rewrite Ascii.eqb_refl. cbn [negb orb].
    rewrite take_bytes_app, drop_bytes_app by done. by rewrite Hr, (Hopen _ _ _ Ect), Hexp, Ex.
  - unfold ResponseSealer_Seal. cbn [rs_key]. rewrite Hg. done.
  - unfold ResponseOpener_Open. cbn [String.length ro_key]. rewrite length_append, Hn.
    rewrite (proj2 (Nat.ltb_ge _ _)) by lia. rewrite Ascii.eqb_refl, Hg. cbn [negb orb].
    rewrite take_bytes_app, drop_bytes_app by done. by rewrite gcm_open_seal.
Qed.

Lemma sealed_roundtrip_witness :
  let kid := HPKEKeyID (H := sample_hpke) "k2" in
  let body := String SealedVersion (Sum256 "rnd" +:+ (Sum256 ("k2" +:+ hpkeInfo "/p" +:+ sealAAD "1" "n") +:+ "alert")) in
  let opener := MkOpener (Sum256 ("k2" +:+ hpkeInfo "/p" +:+ responseExportContext)) in
  ∃ sealer sealed, OpenRequest (H := sample_hpke) sample_keyset kid "/p" "1" "n" body = Ok ("alert", sealer) ∧
    ResponseSealer_Seal (G := sample_gcm) sealer (Some "twelve bytes") "ok" = Ok sealed ∧
    ResponseOpener_Open (G := sample_gcm) opener sealed = Ok "ok".
Proof.
  intros kid body opener.
  apply (sealed_roundtrip (HP := sample_hpke) (HG := sample_gcm) sample_keyset kid "k2" "rnd" "/p" "1" "n" "alert"
    body opener "ok" "twelve bytes"); vm_compute; reflexivity.
Defined.
