(* ===== verification/Trust.v ===== *)
(** * Trust anchors and key files

    [internal/auth/tls.go] and [internal/auth/trust.go]: the certificate pools of
    both transports and the hot reload of the server certificate; and the part of
    [internal/auth/sign.go] that loads the CA's key pair. *)
From S2P Require Import Prelude GoStrings GoEncoding Identity Sealed.
From Stdlib Require Import Ascii.

(** The files at startup: contents, or [None] when a file cannot be read; and what
    [x509] makes of them. The certificates of a PEM file are named by their DER
    encoding. *)
Class TrustFiles := {
  ReadFile : string → option string;
  pem_certs : string → list string;
}.

Inductive tls_error :=
| MissingPath
| FileUnreadable (path : string)
| NoCertificates (path : string)
| StatFailed
| KeyPairFailed.

(** ** Certificate pools *)

Abbreviation CertPool := (gset string) (only parsing).

(** [pool.AppendCertsFromPEM]: the pool, and whether a certificate was found. *)
Definition AppendCertsFromPEM `{!TrustFiles} (pool : CertPool) (pem : string) : CertPool * bool :=
  (pool ∪ list_to_set (pem_certs pem), negb (length (pem_certs pem) =? 0)%nat).

Definition appendCertsFromFile `{!TrustFiles} (pool : CertPool) (path : string) : result tls_error CertPool :=
  match ReadFile path with
  | None => Err (FileUnreadable path)
  | Some pem =>
      let '(pool, ok) := AppendCertsFromPEM pool pem in
      if ok then Ok pool else Err (NoCertificates path)
  end.

Definition loadCertPool `{!TrustFiles} (path : string) : result tls_error CertPool :=
  appendCertsFromFile ∅ path.

(** The trust of the signed transport. *)
Record TrustPools := MkTrustPools { Roots : CertPool; Intermediates : CertPool }.

Definition LoadTrustPools `{!TrustFiles} (trustRootFile intermediateCAFile : string) : result tls_error TrustPools :=
  roots ← loadCertPool trustRootFile;
  inter ← (if negb (seqb intermediateCAFile "") then appendCertsFromFile ∅ intermediateCAFile else Ok ∅);
  Ok (MkTrustPools roots inter).

(** What the code reads of an [x509.Certificate]: its DER encoding, its key when
    that is an [ecdsa.PublicKey], and the fields of its identity. Parsing and
    [Certificate.Verify] are parameters. *)
Record X509Cert (PK : Type) := MkX509Cert {
  Raw : string;
  PublicKey : option PK;
  cert_info : Certificate;
}.
Arguments MkX509Cert {PK}. Arguments Raw {PK}. Arguments PublicKey {PK}. Arguments cert_info {PK}.

Inductive ExtKeyUsage := ExtKeyUsageServerAuth | ExtKeyUsageClientAuth.

Record VerifyOptions := MkVerifyOptions {
  vo_Roots : CertPool;
  vo_Intermediates : CertPool;
  CurrentTime : Time;
  KeyUsages : list ExtKeyUsage;
}.

(** [x509_Verify]: whether [Verify] finds a chain. *)
Class X509 (PK : Type) := {
  ParseCertificate : string → option (X509Cert PK);
  x509_Verify : X509Cert PK → VerifyOptions → bool;
}.

(** Whether the error is nil. *)
Definition VerifyClientLeaf {PK} `{!X509 PK} (t : TrustPools) (leaf : X509Cert PK) (now : Time) : bool :=
  x509_Verify leaf (MkVerifyOptions (Roots t) (Intermediates t) now [ExtKeyUsageClientAuth]).

(** ** The reloading server certificate

    What the file system answers during one handshake: the two calls of [os.Stat]
    on the certificate file, and the key pair read from both files. *)
Record Observed (C : Type) := MkObserved {
  ob_stat : option Time;
  ob_stat_load : option Time;
  ob_pair : option C;
}.
Arguments MkObserved {C}. Arguments ob_stat {C}. Arguments ob_stat_load {C}. Arguments ob_pair {C}.

Record reloaderState (C : Type) := MkReloaderState { rs_cert : C; rs_mtime : Time }.
Arguments MkReloaderState {C}. Arguments rs_cert {C}. Arguments rs_mtime {C}.

(** The atomic pointer; nil before the first load. *)
Record certReloader (C : Type) := MkCertReloader { cr_cached : option (reloaderState C) }.
Arguments MkCertReloader {C}. Arguments cr_cached {C}.

Section reloader.
Context {C : Type}.

Definition cr_load (r : certReloader C) (stat : option Time) (pair : option C) : result tls_error C * certReloader C :=
  match stat with
  | None => (Err StatFailed, r)
  | Some mtime =>
      match pair with
      | None => match cr_cached r with Some c => (Ok (rs_cert c), r) | None => (Err KeyPairFailed, r) end
      | Some cert => (Ok cert, MkCertReloader (Some (MkReloaderState cert mtime)))
      end
  end.

Definition newCertReloader (stat : option Time) (pair : option C) : result tls_error (certReloader C) :=
  match cr_load (MkCertReloader None) stat pair with
  | (Err e, _) => Err e
  | (Ok _, r) => Ok r
  end.

Definition getCertificate (r : certReloader C) (o : Observed C) : result tls_error C * certReloader C :=
  match ob_stat o with
  | None => match cr_cached r with Some c => (Ok (rs_cert c), r) | None => (Err StatFailed, r) end
  | Some mtime =>
      match cr_cached r with
      | Some c => if negb (After mtime (rs_mtime c)) then (Ok (rs_cert c), r) else cr_load r (ob_stat_load o) (ob_pair o)
      | None => cr_load r (ob_stat_load o) (ob_pair o)
      end
  end.

(** Successive handshakes: what each was served. *)
Fixpoint handshakes (r : certReloader C) (os : list (Observed C)) : list (result tls_error C) * certReloader C :=
  match os with
  | [] => ([], r)
  | o :: os =>
      let '(res, r) := getCertificate r o in
      let '(rest, r) := handshakes r os in
      (res :: rest, r)
  end.
End reloader.

Record ServerTLSConfig := MkServerTLSConfig {
  CertFile : string;
  KeyFile : string;
  TrustRootFile : string;
  IntermediateCAFile : string;
}.

(** The fields of [tls.Config] the code sets: TLS 1.2, and client certificates
    verified when given. *)
Record TLSConfig (C : Type) := MkTLSConfig {
  MinVersion : Z;
  VerifyClientCertIfGiven : bool;
  ClientCAs : CertPool;
  GetCertificate : certReloader C;
}.
Arguments MkTLSConfig {C}. Arguments MinVersion {C}. Arguments VerifyClientCertIfGiven {C}.
Arguments ClientCAs {C}. Arguments GetCertificate {C}.

Definition LoadServerTLS `{!TrustFiles} {C} (cfg : ServerTLSConfig) (stat : option Time) (pair : option C) :
    result tls_error (TLSConfig C) :=
  if seqb (CertFile cfg) "" || seqb (KeyFile cfg) "" || seqb (TrustRootFile cfg) "" then Err MissingPath else
  reloader ← newCertReloader stat pair;
  pool ← loadCertPool (TrustRootFile cfg);
  pool ← (if negb (seqb (IntermediateCAFile cfg) "") then appendCertsFromFile pool (IntermediateCAFile cfg) else Ok pool);
  Ok (MkTLSConfig 771 true pool reloader).

(** ** The CA's key pair *)

(** What [x509.ParsePKCS8PrivateKey] can yield here: a key of one of the three
    kinds a [crypto.Signer] is made of, or another. *)
Inductive PrivateKey (X : Type) :=
| EcdsaPrivate (k : X)
| RsaPrivate (k : X)
| Ed25519Private (k : X)
| OtherPrivate.
Arguments EcdsaPrivate {X}. Arguments RsaPrivate {X}. Arguments Ed25519Private {X}. Arguments OtherPrivate {X}.

Class CaLib (X : Type) := {
  ca_ParseCertificate : string → option bool;
  ca_ParsePKCS8 : string → option (PrivateKey X);
  ca_ParseEC : string → option X;
  ca_ParsePKCS1 : string → option X;
}.

Inductive ca_error :=
| CaFileUnreadable (path : string)
| NoPEMBlock
| BadCertificate
| BadKey
| UnsupportedKeyType
| NotASigner
| NotACA.

(** A key a [Signer] can hold, with the kind [SignPayload] tells it by. *)
Record CaKey (X : Type) := MkCaKey { ck_kind : KeyKind; ck_key : X }.
Arguments MkCaKey {X}. Arguments ck_kind {X}. Arguments ck_key {X}.

Record CaSigner (X : Type) := MkCaSigner { caCert : string; caKey : CaKey X; ca_MaxLeafDuration : Duration }.
Arguments MkCaSigner {X}. Arguments caCert {X}. Arguments caKey {X}. Arguments ca_MaxLeafDuration {X}.

Section ca.
Context {X : Type} `{!Pem, !CaLib X, !TrustFiles}.

(** The DER bytes of the certificate and its [IsCA] flag. *)
Definition parseCertPEM (data : string) : result ca_error (string * bool) :=
  match pem_Decode data with
  | None => Err NoPEMBlock
  | Some (block, _) =>
      match ca_ParseCertificate (Block_Bytes block) with
      | None => Err BadCertificate
      | Some isCA => Ok (Block_Bytes block, isCA)
      end
  end.

Definition asSigner (key : PrivateKey X) : result ca_error (CaKey X) :=
  match key with
  | EcdsaPrivate k => Ok (MkCaKey ECDSAKey k)
  | RsaPrivate k => Ok (MkCaKey RSAKey k)
  | Ed25519Private k => Ok (MkCaKey Ed25519Key k)
  | OtherPrivate => Err NotASigner
  end.

Definition parseKeyPEM (data : string) : result ca_error (CaKey X) :=
  match pem_Decode data with
  | None => Err NoPEMBlock
  | Some (block, _) =>
      if seqb (Block_Type block) "PRIVATE KEY" then
        match ca_ParsePKCS8 (Block_Bytes block) with
        | None => Err BadKey
        | Some key => asSigner key
        end
      else if seqb (Block_Type block) "EC PRIVATE KEY" then
        match ca_ParseEC (Block_Bytes block) with None => Err BadKey | Some k => Ok (MkCaKey ECDSAKey k) end
      else if seqb (Block_Type block) "RSA PRIVATE KEY" then
        match ca_ParsePKCS1 (Block_Bytes block) with None => Err BadKey | Some k => Ok (MkCaKey RSAKey k) end
      else Err UnsupportedKeyType
  end.

Definition NewSignerFromFiles (certFile keyFile : string) : result ca_error (CaSigner X) :=
  match ReadFile certFile with
  | None => Err (CaFileUnreadable certFile)
  | Some certPEM =>
      match ReadFile keyFile with
      | None => Err (CaFileUnreadable keyFile)
      | Some keyPEM =>
          '(cert, isCA) ← parseCertPEM certPEM;
          key ← parseKeyPEM keyPEM;
          if negb isCA then Err NotACA else Ok (MkCaSigner cert key (30 * 24 * Hour))
      end
  end.

Definition CACertPEM (s : CaSigner X) : string := pem_EncodeToMemory (MkBlock "CERTIFICATE" (caCert s)).
End ca.

(** [rand.Int] below 2^159; [draw] is the number it yields. *)
Definition serial_limit : Z := Z.shiftl 1 159.
Definition randomSerial (draw : option Z) : option Z := z ← draw; Some (z mod serial_limit).

(** ** Lemmas *)

(** A loaded signer is of a kind [SignPayload] supports, and caps leaves at 30 days. *)
Lemma NewSignerFromFiles_Ok {X} `{!Pem, !CaLib X, !TrustFiles} certFile keyFile (s : CaSigner X) :
  NewSignerFromFiles certFile keyFile = Ok s →
  ck_kind (caKey s) ≠ UnknownKey ∧ ca_MaxLeafDuration s = 30 * 24 * Hour ∧
  ca_ParseCertificate (caCert s) = Some true.
Proof.
  unfold NewSignerFromFiles. destruct (ReadFile certFile) as [cp|]; [|done].
  destruct (ReadFile keyFile) as [kp|]; [|done].
  intros ([cert isCA] & Hc & Hs)%result_bind_Ok. apply result_bind_Ok in Hs as (key & Hk & Hs).
  destruct isCA; [|done]. injection Hs as <-. cbn. split_and!; [|done|].
  - unfold parseKeyPEM in Hk. destruct (pem_Decode kp) as [[b r]|]; [|done].
    destruct (seqb _ _).
    { destruct (ca_ParsePKCS8 _) as [[]|]; [..|done]; cbn in Hk; by simplify_eq. }
    destruct (seqb _ _); [destruct (ca_ParseEC _); by simplify_eq|].
    destruct (seqb _ _); [destruct (ca_ParsePKCS1 _); by simplify_eq|done].
  - unfold parseCertPEM in Hc. destruct (pem_Decode cp) as [[b r]|]; [|done].
    destruct (ca_ParseCertificate _) as [c|] eqn:E; [|done]. by simplify_eq.
Qed.

Lemma appendCertsFromFile_Ok `{!TrustFiles} pool path pool' :
  appendCertsFromFile pool path = Ok pool' ↔
  ∃ pem, ReadFile path = Some pem ∧ pem_certs pem ≠ [] ∧ pool' = pool ∪ list_to_set (pem_certs pem).
Proof.
  unfold appendCertsFromFile, AppendCertsFromPEM. destruct (ReadFile path) as [pem|].
  - destruct (pem_certs pem) as [|c l] eqn:E; cbn [length Nat.eqb negb].
    + split; [done|]. intros (? & [= <-] & ? & _). done.
    + split; [intros [= <-]; exists pem; by rewrite E|]. intros (? & [= <-] & _ & ->). by rewrite E.
  - split; [done|]. by intros (? & ? & _).
Qed.

(** ** Properties *)

(** C32: a new handshake is served unless the certificate file vanishes during it:
    once a key pair was loaded, [getCertificate] fails only when the file looks
    newer at the first look and cannot be looked at by the second. In every case a
    pair stays loaded; a served certificate is the loaded one; it is the fresh pair
    when the files are newer and readable, and the previous one otherwise. *)
Theorem handshake_served {C} (r : certReloader C) (c : reloaderState C) (o : Observed C) :
  cr_cached r = Some c →
  let '(res, r') := getCertificate r o in
  let newer := ∃ m, ob_stat o = Some m ∧ rs_mtime c < m in
  (res = Err StatFailed ↔ newer ∧ ob_stat_load o = None) ∧
  (∀ e, res = Err e → e = StatFailed ∧ r' = r) ∧
  (∀ cert, res = Ok cert → ∃ c', cr_cached r' = Some c' ∧ rs_cert c' = cert) ∧
  (∀ m cert, newer → ob_stat_load o = Some m → ob_pair o = Some cert →
     res = Ok cert ∧ cr_cached r' = Some (MkReloaderState cert m)) ∧
  (¬ newer ∨ (ob_stat_load o ≠ None ∧ ob_pair o = None) → res = Ok (rs_cert c) ∧ r' = r).
Proof.
  intros Hc. unfold getCertificate, cr_load, After. rewrite Hc.
  destruct o as [[m1|] s2 pair]; cbn [ob_stat ob_stat_load ob_pair].
  2: { split_and!; [split; [done|by intros ((m & ? & _) & _)]|done|intros cert [= <-]; eauto|by intros ? ? (m & ? & _)|done]. }
  destruct (rs_mtime c <? m1) eqn:E; zbool; cbn [negb].
  - destruct s2 as [m2|]; [destruct pair as [cert|]|].
    + split_and!; [split; [done|by intros (_ & ?)]|done|intros ? [= <-]; eexists; by split|by intros ? ? _ [= <-] [= <-]|].
      intros [Hn|[_ ?]]; [|done]. destruct Hn. eauto.
    + split_and!; [split; [done|by intros (_ & ?)]|done|intros ? [= <-]; eauto|done|done].
    + split_and!; [split; [eauto|done]|by intros e [= <-]|done|done|].
      intros [Hn|[? _]]; [|done]. destruct Hn. eauto.
  - split_and!; [split; [done|]|done|intros ? [= <-]; eauto| |done].
    + intros ((m & [= <-] & ?) & _). lia.
    + intros ? ? (m & [= <-] & ?). lia.
Qed.

Lemma handshake_served_witness :
  let c := MkReloaderState "old" 10 in
  let '(res, r') := getCertificate (MkCertReloader (Some c)) (MkObserved (Some 20) None (Some "new")) in
  let newer := ∃ m, Some 20 = Some m ∧ rs_mtime c < m in
  (res = Err StatFailed ↔ newer ∧ @None Time = None) ∧
  (∀ e, res = Err e → e = StatFailed ∧ r' = MkCertReloader (Some c)) ∧
  (∀ cert, res = Ok cert → ∃ c', cr_cached r' = Some c' ∧ rs_cert c' = cert) ∧
  (∀ m cert, newer → None = Some m → Some "new" = Some cert →
     res = Ok cert ∧ cr_cached r' = Some (MkReloaderState cert m)) ∧
  (¬ newer ∨ (@None Time ≠ None ∧ Some "new" = None) → res = Ok (rs_cert c) ∧ r' = MkCertReloader (Some c)).
Proof.
  apply (handshake_served (MkCertReloader (Some (MkReloaderState "old" 10))) (MkReloaderState "old" 10)
    (MkObserved (Some 20) None (Some "new"))). reflexivity.
Defined.

(** Over any number of handshakes, whatever the file system answers, a loaded pair
    is never lost. *)
Lemma handshakes_keep_a_pair {C} (r : certReloader C) os :
  is_Some (cr_cached r) → is_Some (cr_cached (handshakes r os).2).
Proof.
  revert r. induction os as [|o os IH]; intros r Hr; [done|]. cbn.
  assert (is_Some (cr_cached (getCertificate r o).2)) as H.
  { destruct Hr as [c Hc]. unfold getCertificate, cr_load. rewrite Hc.
    destruct (ob_stat o); [|by exists c]. destruct (negb _); [by exists c|].
    destruct (ob_stat_load o); [|by exists c]. destruct (ob_pair o); [done|by exists c]. }
  destruct (getCertificate r o) as [res r1]. specialize (IH r1 H). by destruct (handshakes r1 os).
Qed.

(** Both transports trust the same certificates: with the same files, the pool
    of the mTLS listener is the union of the roots and the intermediates of the
    signed transport, and one loads exactly when the other does, the server's own
    certificate aside. *)
Lemma pools_alike `{HT : !TrustFiles} {C} (cfg : ServerTLSConfig) (stat : option Time) (pair : option C) :
  CertFile cfg ≠ "" → KeyFile cfg ≠ "" → TrustRootFile cfg ≠ "" → stat ≠ None → pair ≠ None →
  match LoadServerTLS cfg stat pair, LoadTrustPools (TrustRootFile cfg) (IntermediateCAFile cfg) with
  | Ok tls, Ok pools => ClientCAs tls = Roots pools ∪ Intermediates pools ∧ VerifyClientCertIfGiven tls = true
  | Err _, Err _ => True
  | _, _ => False
  end.
Proof.
  intros H1 H2 H3 Hs Hp. unfold LoadServerTLS, LoadTrustPools.
  rewrite !(proj2 (seqb_false _ _)) by done. cbn [orb].
  destruct stat as [m|]; [|done]. destruct pair as [cert|]; [|done]. cbn [newCertReloader cr_load mbind result_bind].
  unfold loadCertPool. destruct (appendCertsFromFile ∅ (TrustRootFile cfg)) as [roots|]; [|done].
  cbn [mbind result_bind]. destruct (negb _); [|split; [set_solver|done]].
  unfold appendCertsFromFile, AppendCertsFromPEM. destruct (ReadFile _) as [pem|]; [|done].
  destruct (negb _); [|done]. cbn. split; [set_solver|done].
Qed.

(** The certificates of an example file are separated by commas. *)
Definition sample_files : TrustFiles := {|
  ReadFile := λ p, if seqb p "root" then Some "R" else if seqb p "inter" then Some "I" else None;
  pem_certs := λ s, Split s ",";
|}.
