(* ===== verification/Analysis.v ===== *)
(** * The analysis contract

    [internal/evaluator/types.go] and [schema.go]: the typed verdict, its
    schema and validation, and its JSON form. *)
From S2P Require Import Prelude GoStrings Json.

Record Analysis := MkAnalysis {
  A_Severity : string;
  RootCause : string;
  Evidence : string;
  Action : string;
  Confidence : string;
  Grounding : string;
  Silence : bool;
  SilenceReason : string;
}.

(** [Analysis] may be nil. *)
Record Example_ := MkExample {
  Ex_AlertName : string;
  Verdict : string;
  Ex_Analysis : option Analysis;
}.

Definition severityEnum : list string := ["critical"; "warning"; "info"].
Definition confidenceEnum : list string := ["high"; "medium"; "low"].
Definition groundingEnum : list string := ["stated"; "inferred"].

Definition analysisRequired : list string :=
  ["severity"; "root_cause"; "evidence"; "action"; "confidence"; "grounding"; "silence"].

Definition strings_json (l : list string) : json := JArr (map JStr l).

(** A Go map; [json.Marshal] writes its keys in sorted order, which is the
    order used here. *)
Definition enum_property (enum : list string) (description : string) : json :=
  JObj [("description", JStr description); ("enum", strings_json enum); ("type", JStr "string")].

Definition property (type description : string) : json :=
  JObj [("description", JStr description); ("type", JStr type)].

Definition analysisProperties : list (string * json) := [
  ("action", property "string" "Recommended immediate action.");
  ("confidence", enum_property confidenceEnum
     "Your certainty in the root cause. 'high' only when the logs/metrics state it directly; 'low' when you are guessing from sparse data.");
  ("evidence", property "string" "Specific log lines or metric trends supporting the root cause.");
  ("grounding", enum_property groundingEnum
     "'stated' if the root cause is read directly from the provided data; 'inferred' if you are reasoning beyond what the data literally says.");
  ("root_cause", property "string" "One sentence root cause grounded in the provided logs and metrics.");
  ("severity", enum_property severityEnum "Overall severity of the situation based on the evidence.");
  ("silence", property "boolean" "True only if this alert is noise that should be silenced.");
  ("silence_reason", property "string" "Why the alert should be silenced. Only set when silence is true.")
].

Definition analysisJSONSchema : json :=
  let props := map (λ '(k, v),
    if seqb k "silence_reason"
    then (k, JObj [("description", JStr "Why the alert should be silenced. Only set when silence is true; null otherwise.");
                   ("type", strings_json ["string"; "null"])])
    else (k, v)) analysisProperties in
  JObj [("additionalProperties", JBool false);
        ("properties", JObj props);
        ("required", strings_json ["severity"; "root_cause"; "evidence"; "action"; "confidence";
                                   "grounding"; "silence"; "silence_reason"]);
        ("type", JStr "object")].

(** ** Validation *)

Inductive validation_error :=
| DecodeFailed                                  (** [json.Unmarshal] failed *)
| NotOneOf (field value : string) (enum : list string)
| IsRequired (field : string).

Definition inEnum (allowed : list string) (v : string) : bool := existsb (λ a, seqb a v) allowed.

(** [None] is a nil error. *)
Definition validateAnalysis (a : Analysis) : option validation_error :=
  if negb (inEnum severityEnum (A_Severity a)) then Some (NotOneOf "severity" (A_Severity a) severityEnum)
  else if seqb (TrimSpace (RootCause a)) "" then Some (IsRequired "root_cause")
  else if seqb (TrimSpace (Evidence a)) "" then Some (IsRequired "evidence")
  else if seqb (TrimSpace (Action a)) "" then Some (IsRequired "action")
  else if negb (inEnum confidenceEnum (Confidence a)) then Some (NotOneOf "confidence" (Confidence a) confidenceEnum)
  else if negb (inEnum groundingEnum (Grounding a)) then Some (NotOneOf "grounding" (Grounding a) groundingEnum)
  else None.

(** ** JSON *)

Definition zero_analysis : Analysis := MkAnalysis "" "" "" "" "" "" false "".

Definition set_A_Severity v a := MkAnalysis v (RootCause a) (Evidence a) (Action a) (Confidence a) (Grounding a) (Silence a) (SilenceReason a).
Definition set_RootCause v a := MkAnalysis (A_Severity a) v (Evidence a) (Action a) (Confidence a) (Grounding a) (Silence a) (SilenceReason a).
Definition set_Evidence v a := MkAnalysis (A_Severity a) (RootCause a) v (Action a) (Confidence a) (Grounding a) (Silence a) (SilenceReason a).
Definition set_Action v a := MkAnalysis (A_Severity a) (RootCause a) (Evidence a) v (Confidence a) (Grounding a) (Silence a) (SilenceReason a).
Definition set_Confidence v a := MkAnalysis (A_Severity a) (RootCause a) (Evidence a) (Action a) v (Grounding a) (Silence a) (SilenceReason a).
Definition set_Grounding v a := MkAnalysis (A_Severity a) (RootCause a) (Evidence a) (Action a) (Confidence a) v (Silence a) (SilenceReason a).
Definition set_Silence v a := MkAnalysis (A_Severity a) (RootCause a) (Evidence a) (Action a) (Confidence a) (Grounding a) v (SilenceReason a).
Definition set_SilenceReason v a := MkAnalysis (A_Severity a) (RootCause a) (Evidence a) (Action a) (Confidence a) (Grounding a) (Silence a) v.

Definition analysis_fields : list (string * (json → Analysis → option Analysis)) := [
  ("severity", str_field set_A_Severity);
  ("root_cause", str_field set_RootCause);
  ("evidence", str_field set_Evidence);
  ("action", str_field set_Action);
  ("confidence", str_field set_Confidence);
  ("grounding", str_field set_Grounding);
  ("silence", bool_field set_Silence);
  ("silence_reason", str_field set_SilenceReason)
].

(** [json.Marshal(a)]; an empty silence reason is omitted. *)
Definition analysis_json (a : Analysis) : json :=
  JObj ([("severity", JStr (A_Severity a)); ("root_cause", JStr (RootCause a));
         ("evidence", JStr (Evidence a)); ("action", JStr (Action a));
         ("confidence", JStr (Confidence a)); ("grounding", JStr (Grounding a));
         ("silence", JBool (Silence a))] ++
        (if seqb (SilenceReason a) "" then [] else [("silence_reason", JStr (SilenceReason a))]))%list.

Definition marshal_analysis (a : Analysis) : string := json_print (analysis_json a).

(** [json.Unmarshal(raw, &a)]. *)
Definition unmarshal_analysis (raw : string) : option Analysis :=
  v ← json_parse raw; decode_struct analysis_fields zero_analysis v.

Definition decodeAndValidate (raw : string) : result validation_error Analysis :=
  match unmarshal_analysis raw with
  | None => Err DecodeFailed
  | Some a => match validateAnalysis a with Some e => Err e | None => Ok a end
  end.

(** ** The contract, stated *)

Definition nonblank (s : string) : Prop := TrimSpace s ≠ "".

Definition schema_valid (a : Analysis) : Prop :=
  A_Severity a ∈ severityEnum ∧ Confidence a ∈ confidenceEnum ∧ Grounding a ∈ groundingEnum ∧
  nonblank (RootCause a) ∧ nonblank (Evidence a) ∧ nonblank (Action a).

Lemma inEnum_spec l v : inEnum l v = true ↔ v ∈ l.
Proof.
  unfold inEnum. rewrite existsb_exists. split.
  - intros (x & Hx & ->%seqb_true). by apply list_elem_of_In.
  - intros Hv. exists v. split; [by apply list_elem_of_In|apply seqb_refl].
Qed.

Lemma validateAnalysis_None a : validateAnalysis a = None ↔ schema_valid a.
Proof.
  unfold validateAnalysis, schema_valid, nonblank.
  rewrite <- !inEnum_spec, <- !seqb_false.
  destruct (inEnum severityEnum _), (seqb (TrimSpace (RootCause a)) ""),
    (seqb (TrimSpace (Evidence a)) ""), (seqb (TrimSpace (Action a)) ""),
    (inEnum confidenceEnum _), (inEnum groundingEnum _); simpl; intuition congruence.
Qed.

Lemma decodeAndValidate_Ok raw a :
  decodeAndValidate raw = Ok a ↔ unmarshal_analysis raw = Some a ∧ schema_valid a.
Proof.
  unfold decodeAndValidate. rewrite <- validateAnalysis_None.
  destruct (unmarshal_analysis raw) as [b|]; [|intuition congruence].
  destruct (validateAnalysis b) eqn:E; split; intros; simplify_eq; intuition congruence.
Qed.

Definition analysis_utf8 (a : Analysis) : bool :=
  forallb ValidString [A_Severity a; RootCause a; Evidence a; Action a; Confidence a; Grounding a; SilenceReason a].

Lemma unmarshal_marshal a : analysis_utf8 a = true → unmarshal_analysis (marshal_analysis a) = Some a.
Proof.
  intros H. unfold unmarshal_analysis, marshal_analysis. rewrite json_parse_print.
  - destruct a. unfold analysis_json. simpl. destruct (seqb _ "") eqn:E; sbool; subst; reflexivity.
  - unfold analysis_utf8 in H. simpl in H. repeat apply andb_true_iff in H as [? H].
    unfold analysis_json. change maxNestingDepth with (S (pred maxNestingDepth)). simpl.
    destruct (seqb _ ""); simpl; split_and!; done.
Qed.

(** ** The published schema, read

    What a JSON Schema with [type], [enum], [properties] and [required] says of a
    document. *)
Fixpoint member (k : string) (l : list (string * json)) : option json :=
  match l with
  | [] => None
  | (k', x) :: l => if seqb k' k then Some x else member k l
  end.

Definition json_member (k : string) (v : json) : option json :=
  match v with JObj l => member k l | _ => None end.




Definition property_schema (k : string) : option json :=
  json_member "properties" analysisJSONSchema ≫= json_member k.











Lemma member_elem k kvs : is_Some (member k kvs) → k ∈ kvs.*1.
Proof.
  induction kvs as [|[k' x] kvs IH]; cbn; [by intros []|].
  destruct (seqb k' k) eqn:E; sbool; [intros _; subst; by left|]. intros H. right. by apply IH.
Qed.

Lemma property_names k : is_Some (property_schema k) → k ∈ analysisProperties.*1.
Proof.
  let l := eval vm_compute in (match json_member "properties" analysisJSONSchema with Some (JObj l) => l | _ => [] end) in
  change (property_schema k) with (member k l).
  intros H%member_elem. exact H.
Qed.









Section members.
Context (kvs : list (string * json)).
Context (Hn : NoDup kvs.*1) (Hin : ∀ k, k ∈ kvs.*1 → k ∈ analysisProperties.*1).




End members.

(** ** Properties *)


(** An answer without [silence]. *)
Definition silent_members : list (string * json) :=
  [("severity", JStr "warning"); ("root_cause", JStr "OOM"); ("evidence", JStr "line 3"); ("action", JStr "raise it");
   ("confidence", JStr "high"); ("grounding", JStr "stated"); ("silence_reason", JNull)].


(** It is accepted, although [silence] is required. *)
Example silent_accepted :
  decodeAndValidate (json_print (JObj silent_members)) = Ok (MkAnalysis "warning" "OOM" "line 3" "raise it" "high" "stated" false "").
Proof. vm_compute. reflexivity. Qed.

(** An analysis that is stored as JSON and read back is the same analysis,
    and still meets the contract. *)
Theorem analysis_json_roundtrip (a : Analysis) :
  schema_valid a → analysis_utf8 a = true → decodeAndValidate (marshal_analysis a) = Ok a.
Proof. intros Hv Hu. apply decodeAndValidate_Ok. split; [by apply unmarshal_marshal|done]. Qed.

Definition sample_analysis : Analysis :=
  MkAnalysis "warning" "OOM <killed>" "line 3" "raise the limit" "high" "stated" true "noise".

Lemma analysis_json_roundtrip_witness :
  decodeAndValidate (marshal_analysis sample_analysis) = Ok sample_analysis.
Proof.
  apply analysis_json_roundtrip; [|vm_compute; reflexivity].
  apply validateAnalysis_None. vm_compute. reflexivity.
Defined.

(** The verdict on silencing may be missing altogether: the decoder then reads
    [false], although the schema lists the field as required. *)
Lemma silence_may_be_missing :
  "silence" ∈ analysisRequired ∧
  is_Ok (decodeAndValidate (json_print (JObj (filter (λ kv, kv.1 ≠ "silence")
    match analysis_json sample_analysis with JObj l => l | _ => [] end)))) = true.
Proof. split; [by repeat constructor|vm_compute; reflexivity]. Qed.
