(* ===== verification/Providers.v ===== *)
(** * LLM backends

    [internal/evaluator/anthropic.go] and [openai.go]: the two providers behind
    the evaluator. The HTTP client and the Anthropic SDK are interfaces over a
    world [W]; error texts of other packages come with their results. *)
From S2P Require Import Prelude GoStrings Json Fmt Analysis Prompt.
From Stdlib Require Import Ascii SpecFloat.

Open Scope Z_scope.

Record usage := MkUsage { input : Z; output : Z }.

(** The [provider] interface. *)
Record provider (S : Type) := MkProvider {
  name : string;
  model : string;
  structured : M S bool;
  complete : Prompt → M S (result string (string * usage));
}.
Arguments MkProvider {S}. Arguments name {S}. Arguments model {S}.
Arguments structured {S}. Arguments complete {S}.

(** ** The network *)

Record http_request := MkRequest {
  Method : string;
  RequestURL : string;
  Headers : list (string * string);
  RequestBody : string;
}.

Record http_response := MkResponse { StatusCode : Z; ResponseBody : string }.

(** [wait d] is the select between the context and [time.After(d)]: the
    context's error when it ends first. [request_error] is what
    [http.NewRequest] says of a URL. *)
Class Net (W : Type) := {
  http_do : http_request → M W (result string http_response);
  wait : Duration → M W (option string);
  request_error : string → option string;
}.

(** [time.Duration(1<<uint(attempt)) * time.Second]. *)
Definition backoff (attempt : Z) : Duration := wrap64 (2 ^ attempt * Second).

(** ** Anthropic *)

Inductive content_block := ToolUseBlock (tool_name tool_input : string) | OtherBlock.

Record anthropic_message := MkMessage { Content : list content_block; InputTokens : Z; OutputTokens : Z }.

Record message_params := MkParams {
  P_Model : string;
  MaxTokens : Z;
  P_System : list string;
  P_Tool : string * string * json * list string;   (** name, description, properties, required *)
  P_User : string;
}.

Class AnthropicSDK (W : Type) := {
  messages_new : message_params → M W (result string anthropic_message);
}.

Record anthropicProvider := MkAnthropic { an_mdl : string; an_timeout : Duration }.

Definition newAnthropicProvider (apiKey model : string) (perCallTimeout : Duration) : anthropicProvider :=
  MkAnthropic model perCallTimeout.

Definition tool_name : string := "report_analysis".

Definition analysisTool : string * string * json * list string :=
  (tool_name,
   "Report the structured analysis of the Kubernetes alert or incident. Always call this exactly once.",
   JObj analysisProperties, analysisRequired).

Section anthropic.
Context {W : Type} `{!Net W, !AnthropicSDK W}.

Definition anthropic_params (p : anthropicProvider) (prompt : Prompt) : message_params :=
  MkParams (an_mdl p) 1024 (if seqb (System prompt) "" then [] else [System prompt]) analysisTool
    (User prompt).

(** The first tool call of the forced tool. *)
Fixpoint find_tool_use (l : list content_block) : option string :=
  match l with
  | [] => None
  | ToolUseBlock n i :: l => if seqb n tool_name then Some i else find_tool_use l
  | OtherBlock :: l => find_tool_use l
  end.

(** The loop of [complete]: [fuel] attempts remain. *)
Fixpoint anthropic_attempts (fuel : nat) (attempt : Z) (p : anthropicProvider) (prompt : Prompt)
    (lastErr : string) : M W (result string (string * usage)) :=
  match fuel with
  | O => mret (Err ("Anthropic API failed after 3 attempts: " +:+ lastErr))
  | S fuel =>
      done ← (if 0 <? attempt then wait (backoff attempt) else mret None);
      match done with
      | Some e => mret (Err e)
      | None =>
          r ← messages_new (anthropic_params p prompt);
          match r with
          | Err e => anthropic_attempts fuel (attempt + 1) p prompt ("messages.new: " +:+ e)
          | Ok m =>
              match find_tool_use (Content m) with
              | Some i => mret (Ok (i, MkUsage (InputTokens m) (OutputTokens m)))
              | None => mret (Err ("Anthropic returned no " +:+ tool_name +:+ " tool call"))
              end
          end
      end
  end.

Definition anthropic_complete (p : anthropicProvider) (prompt : Prompt) :
    M W (result string (string * usage)) :=
  anthropic_attempts 3 0 p prompt "".

Definition anthropic_provider (p : anthropicProvider) : provider W :=
  MkProvider "anthropic" (an_mdl p) (mret true) (anthropic_complete p).
End anthropic.

(** ** OpenAI-compatible endpoints *)

Inductive schemaMode := modeSchema | modeJSONObject | modeAuto.

#[export] Instance schemaMode_dec : EqDecision schemaMode.
Proof. solve_decision. Defined.

Definition parseSchemaMode (s : string) : result string schemaMode :=
  let m := ToLower (TrimSpace s) in
  if seqb m "" || seqb m "auto" then Ok modeAuto
  else if seqb m "schema" then Ok modeSchema
  else if seqb m "json-object" || seqb m "json_object" || seqb m "json" then Ok modeJSONObject
  else Err s.

(** [mode] and [downgraded] are the mutable part, guarded by the mutex. *)
Record openAIProvider := MkOpenAI {
  baseURL : string;
  apiKey : string;
  mdl : string;
  temperature : spec_float;
}.

Record openai_state := MkOpenAIState { mode : schemaMode; downgraded : bool }.

Definition newOpenAIProvider (baseURL apiKey model : string) (m : schemaMode) (temperature : spec_float) :
    openAIProvider * openai_state :=
  (MkOpenAI (TrimRight baseURL "/") apiKey model temperature, MkOpenAIState m false).

Definition openai_structured (s : openai_state) : bool :=
  (bool_decide (mode s = modeSchema) || bool_decide (mode s = modeAuto)) && negb (downgraded s).

Definition downgrade (s : openai_state) : openai_state :=
  if bool_decide (mode s = modeAuto) && negb (downgraded s) then MkOpenAIState (mode s) true else s.

Definition effectiveMode (s : openai_state) : schemaMode :=
  match mode s with
  | modeJSONObject => modeJSONObject
  | modeSchema => modeSchema
  | modeAuto => if downgraded s then modeJSONObject else modeSchema
  end.

Definition jsonObjectInstruction : string :=
  nl +:+ nl +:+
  "Respond with a single JSON object and nothing else (no markdown, no prose) with exactly these keys: " +:+
  "severity (one of critical, warning, info), root_cause (string), evidence (string), action (string), " +:+
  "confidence (one of high, medium, low), grounding (one of stated, inferred), silence (boolean), " +:+
  "silence_reason (string, only when silence is true).".

(** Map keys in the sorted order [json.Marshal] writes them. *)
Definition responseFormat (m : schemaMode) : json :=
  match m with
  | modeJSONObject => JObj [("type", JStr "json_object")]
  | _ => JObj [("json_schema", JObj [("name", JStr "analysis"); ("schema", analysisJSONSchema);
                                     ("strict", JBool true)]);
               ("type", JStr "json_schema")]
  end.

Definition status_markers : list string :=
  ["response_format"; "json_schema"; "json schema"; "schema"; "not supported"; "unsupported"; "unrecognized"].

Definition schemaRejected (status : Z) (body : string) : bool :=
  if negb (status =? 400) && negb (status =? 404) && negb (status =? 422) && negb (status =? 501)
  then false
  else existsb (Contains (ToLower body)) status_markers.

(** *** Wire types *)

Definition chat_message (role content : string) : json :=
  JObj [("role", JStr role); ("content", JStr content)].

Record chatResponse := MkChatResponse {
  Choices : list string;                 (** the contents of the messages *)
  PromptTokens : Z;
  CompletionTokens : Z;
  Error_ : option string;                (** the message of a non-nil error *)
}.

Definition struct_field {A B} (fields : list (string * (json → B → option B))) (get : A → B)
    (set : B → A → A) : json → A → option A := λ v a,
  b ← decode_struct fields (get a) v; Some (set b a).

Definition set_Choices v r := MkChatResponse v (PromptTokens r) (CompletionTokens r) (Error_ r).
Definition set_PromptTokens v r := MkChatResponse (Choices r) v (CompletionTokens r) (Error_ r).
Definition set_CompletionTokens v r := MkChatResponse (Choices r) (PromptTokens r) v (Error_ r).
Definition set_Error v r := MkChatResponse (Choices r) (PromptTokens r) (CompletionTokens r) v.

Definition chat_response_fields : list (string * (json → chatResponse → option chatResponse)) := [
  ("choices", slice_field (decode_struct
     [("message", struct_field [("content", str_field (λ c (_ : string), c))] (λ c, c) (λ c _, c))] "")
     set_Choices);
  ("usage", struct_field
     [("prompt_tokens", int_field set_PromptTokens); ("completion_tokens", int_field set_CompletionTokens)]
     (λ r, r) (λ r _, r));
  ("error", ptr_field
     [("message", str_field (λ m (e : string * string), (m, e.2)));
      ("type", str_field (λ t (e : string * string), (e.1, t)))]
     ("", "") (λ r, m ← Error_ r; Some (m, "")) (λ e, set_Error (fst <$> e)))
].

Definition decode_chat_response (body : string) : option chatResponse :=
  v ← json_parse body; decode_struct chat_response_fields (MkChatResponse [] 0 0 None) v.

Section openai.
Context {W : Type} `{!Net W}.
(** The text of a finite [float64] and of a decoding error, as
    [encoding/json] writes them. *)
Context (FormatFloat : spec_float → string) (json_error : string → string).

Definition marshal_float (f : spec_float) : option string :=
  match f with S754_nan | S754_infinity _ => None | _ => Some (FormatFloat f) end.

Definition chat_request (p : openAIProvider) (temp : string) (prompt : Prompt) (m : schemaMode) : json :=
  let userContent :=
    if bool_decide (m = modeJSONObject) then User prompt +:+ jsonObjectInstruction else User prompt in
  JObj [("model", JStr (mdl p));
        ("messages", JArr ((if seqb (System prompt) "" then [] else [chat_message "system" (System prompt)])
                           ++ [chat_message "user" userContent])%list);
        ("max_tokens", JNum "1024");
        ("temperature", JNum temp);
        ("response_format", responseFormat m)].

Definition chat_http_request (p : openAIProvider) (body : string) : http_request :=
  MkRequest "POST" (baseURL p +:+ "/chat/completions")
    (("Content-Type", "application/json") ::
     (if negb (seqb (apiKey p) "") then [("Authorization", "Bearer " +:+ apiKey p)] else []))
    body.

(** What [do] makes of a response: the content and the usage, or whether the
    schema was rejected and the error. *)
Definition read_response (resp : http_response) : result (bool * string) (string * usage) :=
  let body := ResponseBody resp in
  if (StatusCode resp <? 200) || (300 <=? StatusCode resp) then
    Err (schemaRejected (StatusCode resp) body,
         "status " +:+ FormatInt (StatusCode resp) +:+ ": " +:+ TrimSpace body)
  else
    match decode_chat_response body with
    | None => Err (false, "decode response: " +:+ json_error body)
    | Some cr =>
        match Error_ cr with
        | Some msg => Err (false, "api error: " +:+ msg)
        | None =>
            match Choices cr with
            | [] => Err (false, "response has no choices")
            | c :: _ =>
                let content := TrimSpace c in
                if seqb content "" then Err (false, "response content empty")
                else Ok (content, MkUsage (PromptTokens cr) (CompletionTokens cr))
            end
        end
    end.

Definition do_chat (p : openAIProvider) (prompt : Prompt) (m : schemaMode) :
    M W (result (bool * string) (string * usage)) :=
  match marshal_float (temperature p) with
  | None => mret (Err (false, "marshal request: json: unsupported value"))
  | Some temp =>
      let req := chat_http_request p (json_print (chat_request p temp prompt m)) in
      match request_error (RequestURL req) with
      | Some e => mret (Err (false, "new request: " +:+ e))
      | None =>
          r ← http_do req;
          match r with
          | Err e => mret (Err (false, "http do: " +:+ e))
          | Ok resp => mret (read_response resp)
          end
      end
  end.

(** The state of a provider in use: its mutable fields and the world. *)
Definition st_world {A} (m : M W A) : M (openai_state * W) A := zoom snd (λ w s, (s.1, w)) m.
Definition st_modify (f : openai_state → openai_state) : M (openai_state * W) unit :=
  modify (λ s, (f s.1, s.2)).

Fixpoint openai_attempts (fuel : nat) (attempt : Z) (p : openAIProvider) (prompt : Prompt)
    (lastErr : string) : M (openai_state * W) (result string (string * usage)) :=
  match fuel with
  | O => mret (Err ("openai-compatible chat failed after 3 attempts: " +:+ lastErr))
  | S fuel =>
      done ← st_world (if 0 <? attempt then wait (backoff attempt) else mret None);
      match done with
      | Some e => mret (Err e)
      | None =>
          s ← get;
          r ← st_world (do_chat p prompt (effectiveMode s.1));
          match r with
          | Ok x => mret (Ok x)
          | Err (schemaUnsupported, e) =>
              s ← get;
              (if schemaUnsupported && bool_decide (mode s.1 = modeAuto)
               then st_modify downgrade else mret tt);;
              openai_attempts fuel (attempt + 1) p prompt e
          end
      end
  end.

Definition openai_complete (p : openAIProvider) (prompt : Prompt) :
    M (openai_state * W) (result string (string * usage)) :=
  openai_attempts 3 0 p prompt "".

Definition openai_provider (p : openAIProvider) : provider (openai_state * W) :=
  MkProvider "openai-compatible" (mdl p) (s ← get; mret (openai_structured s.1)) (openai_complete p).

Definition preflight_prompt : Prompt :=
  MkPrompt "" "preflight: respond with a minimal valid analysis object.".

(** Whether the preflight succeeded; a failure is only logged. *)
Definition preflight (p : openAIProvider) : M (openai_state * W) bool :=
  s ← get;
  r ← st_world (do_chat p preflight_prompt (effectiveMode s.1));
  match r with
  | Ok _ => mret true
  | Err (unsupported, _) =>
      s ← get;
      if unsupported && bool_decide (mode s.1 = modeAuto) then
        st_modify downgrade;;
        r ← st_world (do_chat p preflight_prompt modeJSONObject);
        mret (is_Ok r)
      else mret false
  end.
End openai.

(** ** A network that is watched

    Any function of the requests sent so far answers the next one and says
    whether the context has ended. *)
Definition watched_net (answer : list http_request → result string http_response)
    (ended : list http_request → option string) : Net (list http_request) := {|
  http_do := λ r, l ← get; put (l ++ [r])%list;; mret (answer (l ++ [r])%list);
  wait := λ _, l ← get; mret (ended l);
  request_error := λ _, None;
|}.

(** Some URLs make no request. *)
Definition refusing_net (refuses : string → option string) (answer : list http_request → result string http_response)
    (ended : list http_request → option string) : Net (list http_request) := {|
  http_do := λ r, l ← get; put (l ++ [r])%list;; mret (answer (l ++ [r])%list);
  wait := λ _, l ← get; mret (ended l);
  request_error := refuses;
|}.

(** What a provider may ask of the network. *)
Definition chat_request_of (p : openAIProvider) (r : http_request) : Prop :=
  Method r = "POST" ∧ RequestURL r = baseURL p +:+ "/chat/completions" ∧
  (("Authorization", "Bearer " +:+ apiKey p) ∈ Headers r ↔ apiKey p ≠ "").

(** How the mutable state of a provider may change. *)
Definition mode_step (s s' : openai_state) : Prop :=
  mode s' = mode s ∧ (downgraded s = true → downgraded s' = true) ∧
  (downgraded s' = true → downgraded s = true ∨ mode s = modeAuto).

Lemma mode_step_refl s : mode_step s s.
Proof. unfold mode_step. auto. Qed.

Lemma mode_step_trans s1 s2 s3 : mode_step s1 s2 → mode_step s2 s3 → mode_step s1 s3.
Proof. unfold mode_step. intros (E1 & H1 & G1) (E2 & H2 & G2). rewrite E1 in *. intuition congruence. Qed.

Lemma downgrade_step s : mode_step s (downgrade s).
Proof.
  unfold downgrade. destruct (_ && _) eqn:E; [|apply mode_step_refl].
  apply andb_true_iff in E as [E _]. apply bool_decide_eq_true in E.
  unfold mode_step. simpl. auto.
Qed.

Lemma chat_http_request_of p body : chat_request_of p (chat_http_request p body).
Proof.
  unfold chat_request_of, chat_http_request. simpl. split_and!; [done|done|].
  destruct (seqb (apiKey p) "") eqn:E; sbool; simpl; rewrite ?elem_of_cons, ?elem_of_nil.
  - split; [|done]. intros [H|[]]. done.
  - split; [done|]. intros _. auto.
Qed.

Section openai_lemmas.
Context (refuses : string → option string) (answer : list http_request → result string http_response).
Context (ended : list http_request → option string).
Context (FormatFloat : spec_float → string) (json_error : string → string).
Local Instance the_net : Net (list http_request) := refusing_net refuses answer ended.

(** A completion that succeeds read it from the last response. *)
Definition answered (l : list http_request) (raw : string) (u : usage) : Prop :=
  ∃ resp, answer l = Ok resp ∧ read_response json_error resp = Ok (raw, u).

(** The last request failed, or nothing could be read from its response. *)
Definition unread (l : list http_request) : Prop := ∀ raw u, ¬ answered l raw u.

(** Every request but the one that brought the result was in vain. *)
Definition in_vain (l rs : list http_request) (success : bool) : Prop :=
  ∀ k, (k < length rs)%nat → unread (l ++ take (S k) rs)%list ∨ (S k = length rs ∧ success = true).

(** A request can be made of the configuration. *)
Definition can_send (p : openAIProvider) : bool :=
  match marshal_float FormatFloat (temperature p), refuses (baseURL p +:+ "/chat/completions") with
  | Some _, None => true
  | _, _ => false
  end.

Lemma do_chat_spec p prompt m n l r n' l' :
  do_chat FormatFloat json_error p prompt m (n, l) = (r, (n', l')) →
  ∃ rs, l' = (l ++ rs)%list ∧ length rs = (if can_send p then 1 else 0)%nat ∧ Forall (chat_request_of p) rs ∧
    match r with
    | Ok (raw, u) => answered l' raw u ∧ can_send p = true
    | Err _ => can_send p = true → unread l'
    end.
Proof.
  unfold do_chat, can_send. destruct (marshal_float _) as [temp|].
  2: { munfold. intros [= <- _ <-]. exists []. rewrite app_nil_r. split_and!; [done|simpl; lia|constructor|done]. }
  cbn [request_error the_net refusing_net http_do]. munfold. mstep. cbn [chat_http_request RequestURL].
  destruct (refuses _).
  { intros [= <- _ <-]. exists []. rewrite app_nil_r. by split_and!. }
  munfold. mstep. set (req := chat_http_request _ _). intros H.
  assert (l' = (l ++ [req])%list ∧ match r with Ok (raw, u) => answered l' raw u ∧ true = true | Err _ => true = true → unread l' end) as [-> Hr].
  { unfold unread, answered.
    destruct (answer (l ++ [req])%list) as [resp|err] eqn:Ea; [|injection H as <- _ <-; split; [done|]; intros _ ?? (? & ? & _); congruence].
    injection H as <- _ <-. split; [done|]. destruct (read_response json_error resp) as [[raw u]|[? ?]] eqn:Er.
    - split; [|done]. by exists resp.
    - intros _ ?? (? & ? & ?). congruence. }
  exists [req]. split_and!; [done|done| |done]. apply Forall_singleton, chat_http_request_of.
Qed.

Lemma openai_attempts_spec fuel attempt p prompt lastErr n s l r n' s' l' :
  openai_attempts FormatFloat json_error fuel attempt p prompt lastErr (n, (s, l)) = (r, (n', (s', l'))) →
  ∃ rs, l' = (l ++ rs)%list ∧ (length rs ≤ fuel)%nat ∧ Forall (chat_request_of p) rs ∧ mode_step s s' ∧
    (can_send p = false → rs = []) ∧ in_vain l rs (is_Ok r) ∧
    match r with
    | Ok (raw, u) => answered l' raw u
    | Err _ => length rs = fuel ∨ can_send p = false ∨ is_Some (ended l')
    end.
Proof.
  revert attempt lastErr n s l. induction fuel as [|fuel IH]; intros attempt lastErr n s l.
  { cbn [openai_attempts]. munfold. intros [= <- _ <- <-]. exists []. rewrite app_nil_r.
    split_and!; [done|done|constructor|apply mode_step_refl|done|by intros k ?%Nat.nlt_0_r|by left]. }
  cbn [openai_attempts]. unfold mbind, M_bind, st_world, zoom. cbn [fst snd].
  set (w := if 0 <? attempt then wait (backoff attempt) else mret None).
  assert (∃ o, w (n, l) = (o, (n, l)) ∧ (is_Some o → is_Some (ended l))) as (o & -> & Ho).
  { unfold w. destruct (0 <? attempt); eexists; split; [done..|by intros []]. }
  destruct o as [e|].
  { unfold mret, M_ret. intros [= <- _ <- <-]. exists []. rewrite app_nil_r.
    split_and!; [done|simpl; lia|constructor|apply mode_step_refl|done|by intros k ?%Nat.nlt_0_r|eauto]. }
  unfold get. cbn [fst snd]. destruct (do_chat _ _ _ _ _ _) as [r1 [n1 l1]] eqn:Ed.
  apply do_chat_spec in Ed as (rs1 & -> & Hl1 & Hf1 & Hr1). destruct r1 as [[raw u]|[un e]].
  { unfold mret, M_ret. intros [= <- _ <- <-]. destruct Hr1 as [Hr1 Hc]. rewrite Hc in Hl1. exists rs1.
    split_and!; [done|lia|done|apply mode_step_refl|by rewrite Hc| |done]. intros k Hk. right. split; [lia|done]. }
  intros H.
  assert (∃ s1, mode_step s s1 ∧ openai_attempts FormatFloat json_error fuel (attempt + 1) p prompt e
    (n1, (s1, (l ++ rs1)%list)) = (r, (n', (s', l')))) as (s1 & Hs1 & H1).
  { destruct (un && _); unfold st_modify in H; munfold.
    - exists (downgrade s). split; [apply downgrade_step|exact H].
    - exists s. split; [apply mode_step_refl|exact H]. }
  apply IH in H1 as (rs2 & -> & Hl2 & Hf2 & Hs2 & Hc2 & Hv2 & Hr2). exists (rs1 ++ rs2)%list.
  rewrite app_assoc, length_app. destruct (can_send p) eqn:Hc.
  - destruct rs1 as [|q [|? ?]]; try done.
    split_and!; [done|lia|by apply Forall_app|by eapply mode_step_trans|done| |].
    + intros [|k] Hk; [left; by apply Hr1|]. cbn [length app Nat.add] in Hk |- *.
      destruct (Hv2 k ltac:(lia)) as [Hu|[Hu Hok]]; [left|right; split; [lia|done]].
      replace (l ++ take (S (S k)) (q :: rs2))%list with ((l ++ [q]) ++ take (S k) rs2)%list; [done|].
      rewrite <- app_assoc. done.
    + destruct r as [[raw u]|]; [done|]. destruct Hr2 as [->|[?|?]]; auto.
  - destruct rs1; [|done]. rewrite Hc2 in * by done. rewrite app_nil_r in *. cbn [app length].
    split_and!; [by rewrite app_nil_r|lia|constructor|by eapply mode_step_trans|done|done|].
    destruct r as [[raw u]|]; [done|auto].
Qed.
End openai_lemmas.

(** C36: a completion of an OpenAI-compatible provider sends at most three
    requests, each to the configured endpoint and with the key exactly when
    there is one; it never leaves a configured mode, and switches to plain JSON
    objects only in automatic mode and for good; what it returns is the
    non-blank content of the last response, which had a success status. It gives up
    only after three requests, unless the context ends while it waits or no request
    can be made at all (a temperature that is no number, a URL that does not
    parse), and then sends none. It never asks again once a response could be read,
    and never gives up when one was. *)
Theorem openai_complete_correct (refuses : string → option string) (answer : list http_request → result string http_response)
    (ended : list http_request → option string) (FormatFloat : spec_float → string)
    (json_error : string → string) (p : openAIProvider) (prompt : Prompt)
    (n n' : nat) (s s' : openai_state) (l l' : list http_request) (r : result string (string * usage)) :
  openai_complete (Net0 := refusing_net refuses answer ended) FormatFloat json_error p prompt (n, (s, l)) = (r, (n', (s', l'))) →
  ∃ rs, l' = (l ++ rs)%list ∧ (length rs ≤ 3)%nat ∧ Forall (chat_request_of p) rs ∧ mode_step s s' ∧
    (can_send refuses FormatFloat p = false → rs = []) ∧ in_vain answer json_error l rs (is_Ok r) ∧
    match r with
    | Ok (raw, u) => raw ≠ "" ∧ ∃ resp, answer l' = Ok resp ∧ 200 <= StatusCode resp < 300 ∧
        read_response json_error resp = Ok (raw, u)
    | Err _ => length rs = 3%nat ∨ can_send refuses FormatFloat p = false ∨ is_Some (ended l')
    end.
Proof.
  intros (rs & -> & Hl & Hf & Hs & Hc & Hv & Hr)%openai_attempts_spec. exists rs. split_and!; [done..|].
  destruct r as [[raw u]|]; [|done]. destruct Hr as (resp & Ha & Hr). pose proof Hr as Hr'.
  unfold read_response in Hr. destruct (_ || _) eqn:Es; [done|]. apply orb_false_iff in Es as [E1 E2]. zbool.
  destruct (decode_chat_response _) as [cr|]; [|done]. destruct (Error_ cr); [done|].
  destruct (Choices cr) as [|c cs]; [done|]. destruct (seqb (TrimSpace c) "") eqn:Ec; [done|].
  injection Hr as <- _. sbool. split; [done|]. exists resp. split_and!; done || lia.
Qed.

(** The connection fails, the schema is refused, and the plain mode gets an answer. *)
Definition third_time_lucky (l : list http_request) : result string http_response :=
  match length l with
  | 1%nat => Err "connection refused"
  | 2%nat => Ok (MkResponse 400 "response_format is not supported")
  | _ => Ok (MkResponse 200 (json_print (JObj [("choices", JArr [JObj [("message", JObj [("content", JStr " fine ")])]])])))
  end.

Lemma openai_complete_correct_witness :
  let p := MkOpenAI "http://ollama/v1" "" "m" (S754_zero false) in
  let r := openai_complete (Net0 := refusing_net (λ _, None) third_time_lucky (λ _, None)) (λ _, "0") (λ _, "") p
             (MkPrompt "rules" "data") (0%nat, (MkOpenAIState modeAuto false, [])) in
  r.1 = Ok ("fine", MkUsage 0 0) ∧ downgraded r.2.2.1 = true ∧
  ∃ rs, r.2.2.2 = ([] ++ rs)%list ∧ (length rs ≤ 3)%nat ∧ Forall (chat_request_of p) rs ∧
    mode_step (MkOpenAIState modeAuto false) r.2.2.1 ∧
    (can_send (λ _, None) (λ _, "0") p = false → rs = []) ∧ in_vain third_time_lucky (λ _, "") [] rs (is_Ok r.1) ∧
    match r.1 with
    | Ok (raw, u) => raw ≠ "" ∧ ∃ resp, third_time_lucky r.2.2.2 = Ok resp ∧ 200 <= StatusCode resp < 300 ∧
        read_response (λ _, "") resp = Ok (raw, u)
    | Err _ => length rs = 3%nat ∨ can_send (λ _, None) (λ _, "0") p = false ∨ is_Some (@None string)
    end.
Proof.
  intros p r. split; [vm_compute; reflexivity|]. split; [vm_compute; reflexivity|].
  apply (openai_complete_correct (λ _, None) third_time_lucky (λ _, None) (λ _, "0") (λ _, "") p (MkPrompt "rules" "data")
    0 r.2.1 (MkOpenAIState modeAuto false) r.2.2.1 [] r.2.2.2 r.1).
  subst r. by rewrite <- !surjective_pairing.
Defined.
