(* ===== verification/Evaluator.v ===== *)
(** * The evaluator

    [internal/evaluator/analyzer.go]: provider selection, the
    validate-retry-degrade loop and the audit records. *)
From S2P Require Import Prelude GoStrings Json Fmt Sha256 Proto Identity Analysis Prompt Providers.
From Stdlib Require Import Ascii SpecFloat.

Open Scope Z_scope.

Definition defaultAnthropicModel : string := "claude-opus-4-5".

Inductive AuditMode := AuditOff | AuditHash | AuditFull.

#[export] Instance AuditMode_dec : EqDecision AuditMode.
Proof. solve_decision. Defined.

Definition parseAuditMode (s : string) : AuditMode :=
  let m := ToLower (TrimSpace s) in
  if seqb m "hash" then AuditHash else if seqb m "full" then AuditFull else AuditOff.

Record Config := MkConfig {
  Provider : string;
  Model : string;
  BaseURL : string;
  APIKey : string;
  SchemaMode : string;
  Temperature : spec_float;
  MaxRetries : Z;
  Timeout : Duration;
  AuditMode_ : string;
  AirGapped : bool;
}.

(** The provider [New] selects. *)
Inductive backend :=
| Anthropic (p : anthropicProvider)
| OpenAI (p : openAIProvider) (s : openai_state).

Inductive config_error :=
| AirGappedAnthropic | NoAPIKey | NoBaseURL | NoModel | BadSchemaMode (s : string)
| UnknownProvider (s : string).

(** [New] up to the preflight probe, which cannot fail: the provider, the
    retries and the audit mode. *)
Definition evaluator_New (cfg : Config) : result config_error (backend * Z * AuditMode) :=
  let maxRetries := if MaxRetries cfg <? 0 then 0 else MaxRetries cfg in
  let audit := parseAuditMode (AuditMode_ cfg) in
  if seqb (Provider cfg) "" || seqb (Provider cfg) "anthropic" then
    if AirGapped cfg then Err AirGappedAnthropic else
    let model := if seqb (Model cfg) "" then defaultAnthropicModel else Model cfg in
    if seqb (APIKey cfg) "" then Err NoAPIKey else
    Ok (Anthropic (newAnthropicProvider (APIKey cfg) model (Timeout cfg)), maxRetries, audit)
  else if seqb (Provider cfg) "openai-compatible" then
    if seqb (BaseURL cfg) "" then Err NoBaseURL else
    if seqb (Model cfg) "" then Err NoModel else
    match parseSchemaMode (SchemaMode cfg) with
    | Err e => Err (BadSchemaMode e)
    | Ok m =>
        let '(p, s) := newOpenAIProvider (BaseURL cfg) (APIKey cfg) (Model cfg) m (Temperature cfg) in
        Ok (OpenAI p s, maxRetries, audit)
    end
  else Err (UnknownProvider (Provider cfg)).

Record Evaluator (S : Type) := MkEvaluator {
  provider : Providers.provider S;
  maxRetries : Z;
  auditMode : AuditMode;
}.
Arguments MkEvaluator {S}. Arguments provider {S}. Arguments maxRetries {S}. Arguments auditMode {S}.

(** ** Audit records *)

Inductive audit_record :=
| LLMInput (audit_id provider model system_sha256 user_sha256 : string) (system_bytes user_bytes : Z)
    (bodies : option (string * string)) (ident : option (string * string * string))
| LLMOutput (audit_id provider model output_sha256 : string) (output_bytes input_tokens output_tokens : Z)
    (body : option string).

(** [auditInput]: the audit id and the record logged, if any. *)
Definition auditInput (m : AuditMode) (ctx : option Identity) (prompt : Prompt) (prov model : string)
    : string * option audit_record :=
  if bool_decide (m = AuditOff) then ("", None) else
  let sysSum := Sum256 (System prompt) in
  let usrSum := Sum256 (User prompt) in
  let combined := Sum256 (sysSum +:+ usrSum) in
  let id := hex_EncodeToString (take_bytes 8 combined) in
  (id, Some (LLMInput id prov model (hex_EncodeToString sysSum) (hex_EncodeToString usrSum)
               (len (System prompt)) (len (User prompt))
               (if bool_decide (m = AuditFull) then Some (System prompt, User prompt) else None)
               (i ← FromContext ctx; Some (TenantID i, ClusterID i, SerialNumber i)))).

Definition auditOutput (m : AuditMode) (auditID raw : string) (u : usage) (prov model : string)
    : option audit_record :=
  if bool_decide (m = AuditOff) || seqb auditID "" then None else
  Some (LLMOutput auditID prov model (hex_EncodeToString (Sum256 raw)) (len raw) (input u) (output u)
          (if bool_decide (m = AuditFull) then Some raw else None)).

(** ** The loop *)

Inductive run_error :=
| CallFailed (provider err : string)
| ErrDegraded (last : option validation_error).

Definition format_enum (l : list string) : string := "[" +:+ Join l " " +:+ "]".

Section evaluator.
Context (IsPrint : Z → bool) (json_error : string → string).

(** [err.Error()] of a validation error of the output [raw]. *)
Definition error_message (raw : string) (e : validation_error) : string :=
  match e with
  | DecodeFailed => "decode analysis: " +:+ json_error raw
  | NotOneOf field v enum => field +:+ " " +:+ Quote IsPrint v +:+ " not one of " +:+ format_enum enum
  | IsRequired field => field +:+ " is required"
  end.

Definition correctiveSuffix (err : string) : string :=
  nl +:+ nl +:+ "=== Correction required ===" +:+ nl +:+
  "Your previous response was invalid: " +:+ err +:+ "." +:+ nl +:+
  "Respond again with a complete, schema-valid analysis. Include every required field " +:+
  "(severity, root_cause, evidence, action, confidence, grounding, silence) and use only the allowed " +:+
  "enum values: severity one of " +:+ format_enum severityEnum +:+ ", confidence one of " +:+
  format_enum confidenceEnum +:+ ", grounding one of " +:+ format_enum groundingEnum +:+ ".".

Context {S : Type} (emit : audit_record → M S unit).

Definition emit_opt (r : option audit_record) : M S unit :=
  match r with Some r => emit r | None => mret tt end.

(** The loop of [run] from [attempt] on; [fuel] attempts remain. *)
Fixpoint attempts (fuel : nat) (attempt : Z) (e : Evaluator S) (auditID : string)
    (prompt instruction : Prompt) (lastErr : option validation_error) : M S (result run_error Analysis) :=
  match fuel with
  | O => mret (Err (ErrDegraded lastErr))
  | Datatypes.S fuel =>
      let prov := name (provider e) in
      let mdl := model (provider e) in
      r ← complete (provider e) instruction;
      match r with
      | Err err => mret (Err (CallFailed prov err))
      | Ok (raw, u) =>
          match decodeAndValidate raw with
          | Ok analysis =>
              emit_opt (auditOutput (auditMode e) auditID raw u prov mdl);;
              mret (Ok analysis)
          | Err verr =>
              let instruction :=
                if attempt <? maxRetries e
                then MkPrompt (System prompt) (User prompt +:+ correctiveSuffix (error_message raw verr))
                else instruction in
              attempts fuel (attempt + 1) e auditID prompt instruction (Some verr)
          end
      end
  end.

Definition run_prompt (e : Evaluator S) (ctx : option Identity) (prompt : Prompt) :
    M S (result run_error Analysis) :=
  let '(auditID, r) := auditInput (auditMode e) ctx prompt (name (provider e)) (model (provider e)) in
  emit_opt r;;
  attempts (Z.to_nat (maxRetries e + 1)) 0 e auditID prompt prompt None.

Definition Evaluate (e : Evaluator S) (ctx : option Identity) (payload : AlertPayload)
    (examples : list Example_) : M S (result run_error Analysis) :=
  run_prompt e ctx (buildPrompt IsPrint payload examples).

Definition EvaluateIncident (e : Evaluator S) (ctx : option Identity) (payloads : list AlertPayload)
    (examples : list Example_) : M S (result run_error Analysis) :=
  run_prompt e ctx (buildIncidentPrompt IsPrint payloads examples).
End evaluator.

(** ** A provider that is watched

    A provider whose answers are any function of the prompts it has been sent,
    which it records; the audit records are collected too. *)
Record watch := MkWatch { sent : list Prompt; audited : list audit_record }.

Definition watched (answer : list Prompt → result string (string * usage)) : Providers.provider watch :=
  MkProvider "watched" "m" (mret true)
    (λ p, w ← get; put (MkWatch (sent w ++ [p]) (audited w));; mret (answer (sent w ++ [p])%list)).

Definition collect (r : audit_record) : M watch unit :=
  modify (λ w, MkWatch (sent w) (audited w ++ [r])).

(** What the provider is entitled to see: the prompt, or the prompt with a
    correction appended to its user part. *)
Definition allowed (prompt p : Prompt) : Prop :=
  System p = System prompt ∧ ∃ suffix, User p = User prompt +:+ suffix.

(** An answer that arrived but is no valid analysis. *)
Definition invalid (a : result string (string * usage)) : Prop :=
  ∃ raw u v, a = Ok (raw, u) ∧ decodeAndValidate raw = Err v.

(** The answer to the [i]-th of the prompts [ps], sent after [before]. *)
Definition nth_answer (answer : list Prompt → result string (string * usage)) (before ps : list Prompt)
    (i : nat) : result string (string * usage) := answer (before ++ take (S i) ps)%list.

(** How a loop that may send [fuel] prompts ends, having sent [ps]. *)
Definition ends (answer : list Prompt → result string (string * usage)) (fuel : nat)
    (before ps : list Prompt) (r : result run_error Analysis) : Prop :=
  (∀ i, (S i < length ps)%nat → invalid (nth_answer answer before ps i)) ∧
  match r with
  | Ok a => ∃ k raw u, length ps = S k ∧ (k < fuel)%nat ∧
      nth_answer answer before ps k = Ok (raw, u) ∧ decodeAndValidate raw = Ok a
  | Err (CallFailed _ err) => ∃ k, length ps = S k ∧ (k < fuel)%nat ∧ nth_answer answer before ps k = Err err
  | Err (ErrDegraded _) => length ps = fuel ∧ ∀ i, (i < fuel)%nat → invalid (nth_answer answer before ps i)
  end.

Section lemmas.
Context (IsPrint : Z → bool) (json_error : string → string).

Lemma allowed_refl p : allowed p p.
Proof. split; [done|]. exists "". by rewrite append_nil_r. Qed.

Lemma nth_answer_cons answer before p ps i :
  nth_answer answer before (p :: ps) (S i) = nth_answer answer (before ++ [p])%list ps i.
Proof. unfold nth_answer. by rewrite <- app_assoc. Qed.

Lemma ends_cons answer fuel before p ps r :
  invalid (nth_answer answer before (p :: ps) 0) → ends answer fuel (before ++ [p])%list ps r →
  ends answer (S fuel) before (p :: ps) r.
Proof.
  intros H0 [Hi Hr]. split.
  - intros [|i] Hl; [done|]. rewrite nth_answer_cons. apply Hi. simpl in Hl. lia.
  - destruct r as [a|[prov err|last]].
    + destruct Hr as (k & raw & u & Hk & Hf & Ha & Hd). exists (S k), raw, u.
      rewrite nth_answer_cons. simpl. split_and!; [lia|lia|done|done].
    + destruct Hr as (k & Hk & Hf & Ha). exists (S k). rewrite nth_answer_cons. simpl. split_and!; [lia|lia|done].
    + destruct Hr as [Hk Ha]. simpl. split; [lia|]. intros [|i] Hl; [done|]. rewrite nth_answer_cons.
      apply Ha. lia.
Qed.

(** From any point of the loop: the prompts sent are allowed, and the loop
    ends as the answers dictate. *)
Lemma attempts_run answer fuel attempt e id prompt instr last n w r n' w' :
  provider e = watched answer → allowed prompt instr →
  attempts IsPrint json_error collect fuel attempt e id prompt instr last (n, w) = (r, (n', w')) →
  ∃ ps, sent w' = (sent w ++ ps)%list ∧ Forall (allowed prompt) ps ∧
    (fuel ≠ 0%nat → head ps = Some instr) ∧ ends answer fuel (sent w) ps r.
Proof.
  intros He. revert attempt instr last n w. induction fuel as [|fuel IH]; intros attempt instr last n w Hi.
  { cbn [attempts]. munfold. intros [= <- _ <-]. exists []. rewrite app_nil_r. unfold ends. simpl.
    split_and!; [done|constructor|done|lia|done|lia]. }
  cbn [attempts]. rewrite He. cbn [watched complete name model]. munfold. mstep.
  set (before := sent w). destruct (answer (before ++ [instr])%list) as [[raw u]|err] eqn:Ea.
  2: { intros [= <- _ <-]. exists [instr]. split_and!; [done|by constructor|done|]. split; [simpl; lia|].
       exists 0%nat. split_and!; [done|lia|exact Ea]. }
  destruct (decodeAndValidate raw) as [a|v] eqn:Ed.
  - intros H. assert (sent w' = (before ++ [instr])%list ∧ r = Ok a) as [-> ->].
    { revert H. destruct (auditOutput _ _ _ _ _ _); unfold emit_opt, collect; munfold; intros [= <- _ <-]; done. }
    exists [instr]. split_and!; [done|by constructor|done|]. split; [simpl; lia|].
    exists 0%nat, raw, u. split_and!; [done|lia|exact Ea|done].
  - intros H. apply IH in H as (ps & Hs & Hf & _ & Hend).
    2: { destruct (attempt <? maxRetries e); [|done]. split; [done|]. by eexists. }
    cbn [sent] in Hs. exists (instr :: ps). split_and!; [by rewrite Hs, <- app_assoc|by constructor|done|].
    apply ends_cons; [|exact Hend]. exists raw, u, v. by split.
Qed.
End lemmas.

(** ** Properties *)

(** C24: the structured-output guarantee, for a provider that answers anything
    at all: a run sends between 1 and [maxRetries + 1] prompts, the first the
    alert's own, each later one the same system text with a correction appended
    to the user text. It returns an analysis only if the last answer decoded
    into a schema-valid one; it degrades only after all [maxRetries + 1]
    answers were invalid; a failed call ends it at once. *)
Theorem run_structured_output (IsPrint : Z → bool) (json_error : string → string)
    (answer : list Prompt → result string (string * usage)) (mr : Z) (am : AuditMode)
    (ctx : option Identity) (prompt : Prompt) (n n' : nat) (w w' : watch) (r : result run_error Analysis) :
  0 <= mr →
  run_prompt IsPrint json_error collect (MkEvaluator (watched answer) mr am) ctx prompt (n, w) = (r, (n', w')) →
  ∃ ps, sent w' = (sent w ++ ps)%list ∧
    1 <= Z.of_nat (length ps) <= mr + 1 ∧ head ps = Some prompt ∧ Forall (allowed prompt) ps ∧
    ends answer (Z.to_nat (mr + 1)) (sent w) ps r ∧
    (∀ a, r = Ok a → schema_valid a).
Proof.
  intros Hmr. unfold run_prompt. destruct (auditInput _ _ _ _ _) as [id rec]. unfold mbind, M_bind.
  destruct (emit_opt collect rec (n, w)) as [u [n1 w1]] eqn:Ee. cbn [provider auditMode maxRetries].
  assert (sent w1 = sent w) as Hs.
  { destruct rec; unfold emit_opt, collect in Ee; munfold; by injection Ee as _ _ <-. }
  intros H. apply (attempts_run _ _ answer) in H as (ps & Hps & Hall & Hhd & Hend); [|done|apply allowed_refl].
  rewrite Hs in *.
  exists ps. split_and!; [done| | |apply Hhd; lia|done|done|].
  - destruct ps; [|simpl; lia]. discriminate Hhd. lia.
  - destruct Hend as [_ Hr]. destruct r as [a|[prov err|v]];
      [destruct Hr as (k & raw & u0 & E1 & E2 & E3)|destruct Hr as (k & E1 & E2 & E3)|destruct Hr as [E1 E2]]; lia.
  - intros a ->. destruct Hend as [_ (k & raw & v & _ & _ & _ & Hd)]. by apply decodeAndValidate_Ok in Hd as [_ Hd].
Qed.

Definition sample_answer (l : list Prompt) : result string (string * usage) :=
  if (length l <? 2)%nat then Ok ("{}", MkUsage 1 1)
  else Ok (marshal_analysis sample_analysis, MkUsage 1 1).

Lemma run_structured_output_witness :
  let e := MkEvaluator (watched sample_answer) 1 AuditOff in
  let r := run_prompt (λ _, true) (λ _, "") collect e None (MkPrompt "rules" "data") (0%nat, MkWatch [] []) in
  ∃ ps, sent r.2.2 = ([] ++ ps)%list ∧
    1 <= Z.of_nat (length ps) <= 1 + 1 ∧ head ps = Some (MkPrompt "rules" "data") ∧
    Forall (allowed (MkPrompt "rules" "data")) ps ∧
    ends sample_answer (Z.to_nat (1 + 1)) [] ps r.1 ∧ (∀ a, r.1 = Ok a → schema_valid a).
Proof.
  intros e r.
  apply (run_structured_output (λ _, true) (λ _, "") sample_answer 1 AuditOff None (MkPrompt "rules" "data")
    0 r.2.1 (MkWatch [] []) r.2.2 r.1).
  - discriminate.
  - subst r. by rewrite <- !surjective_pairing.
Defined.

(** An air-gapped configuration never yields the cloud provider; every
    accepted configuration has what its provider needs, never a negative number
    of retries, and an OpenAI-compatible base URL without trailing slashes. *)
Theorem new_provider_selection (cfg : Config) (b : backend) (mr : Z) (am : AuditMode) :
  evaluator_New cfg = Ok (b, mr, am) →
  mr = Z.max 0 (MaxRetries cfg) ∧ am = parseAuditMode (AuditMode_ cfg) ∧
  match b with
  | Anthropic p => AirGapped cfg = false ∧ APIKey cfg ≠ "" ∧
      (Provider cfg = "" ∨ Provider cfg = "anthropic") ∧
      an_mdl p = (if seqb (Model cfg) "" then defaultAnthropicModel else Model cfg)
  | OpenAI p s => Provider cfg = "openai-compatible" ∧ BaseURL cfg ≠ "" ∧ mdl p = Model cfg ∧ mdl p ≠ "" ∧
      baseURL p = TrimRight (BaseURL cfg) "/" ∧ downgraded s = false ∧
      parseSchemaMode (SchemaMode cfg) = Ok (mode s)
  end.
Proof.
  unfold evaluator_New. intros H.
  assert ((if MaxRetries cfg <? 0 then 0 else MaxRetries cfg) = Z.max 0 (MaxRetries cfg)) as Emr.
  { destruct (_ <? _) eqn:E; zbool; lia. }
  rewrite Emr in H. destruct (seqb (Provider cfg) "" || seqb (Provider cfg) "anthropic") eqn:Ep.
  - destruct (AirGapped cfg); [done|]. destruct (seqb (APIKey cfg) "") eqn:Ek; [done|].
    injection H as <- <- <-. sbool. apply orb_true_iff in Ep. rewrite !seqb_true in Ep. done.
  - destruct (seqb (Provider cfg) "openai-compatible") eqn:Eo; [|done].
    destruct (seqb (BaseURL cfg) "") eqn:Eb; [done|]. destruct (seqb (Model cfg) "") eqn:Em; [done|].
    destruct (parseSchemaMode (SchemaMode cfg)) as [m|] eqn:Es; [|done].
    injection H as <- <- <-. sbool. done.
Qed.

Definition sample_config : Config :=
  MkConfig "openai-compatible" "qwen" "http://ollama:11434/v1/" "" "auto" (S754_zero false) (-1) Minute "hash" true.

Lemma new_provider_selection_witness :
  0 = Z.max 0 (MaxRetries sample_config) ∧ AuditHash = parseAuditMode (AuditMode_ sample_config) ∧
  let p := MkOpenAI "http://ollama:11434/v1" "" "qwen" (S754_zero false) in
  Provider sample_config = "openai-compatible" ∧ BaseURL sample_config ≠ "" ∧ mdl p = Model sample_config ∧
  mdl p ≠ "" ∧ baseURL p = TrimRight (BaseURL sample_config) "/" ∧
  downgraded (MkOpenAIState modeAuto false) = false ∧
  parseSchemaMode (SchemaMode sample_config) = Ok (mode (MkOpenAIState modeAuto false)).
Proof.
  apply (new_provider_selection sample_config
    (OpenAI (MkOpenAI "http://ollama:11434/v1" "" "qwen" (S754_zero false)) (MkOpenAIState modeAuto false)) 0 AuditHash).
  vm_compute. reflexivity.
Defined.

(** *** Audit *)

Definition has_body (r : audit_record) : bool :=
  match r with
  | LLMInput _ _ _ _ _ _ _ b _ => match b with Some _ => true | None => false end
  | LLMOutput _ _ _ _ _ _ _ b => match b with Some _ => true | None => false end
  end.

Definition record_id (r : audit_record) : string :=
  match r with LLMInput i _ _ _ _ _ _ _ _ => i | LLMOutput i _ _ _ _ _ _ _ => i end.

(** The loop adds the output record of an accepted answer and nothing else. *)
Lemma attempts_audit IsPrint json_error answer fuel attempt e id prompt instr last n w r n' w' :
  provider e = watched answer →
  attempts IsPrint json_error collect fuel attempt e id prompt instr last (n, w) = (r, (n', w')) →
  ∃ rs, audited w' = (audited w ++ rs)%list ∧
    match r with
    | Ok _ => ∃ raw u, rs = option_list (auditOutput (auditMode e) id raw u "watched" "m")
    | Err _ => rs = []
    end.
Proof.
  intros He. revert attempt instr last n w. induction fuel as [|fuel IH]; intros attempt instr last n w.
  { cbn [attempts]. munfold. intros [= <- _ <-]. exists []. by rewrite app_nil_r. }
  cbn [attempts]. rewrite He. cbn [watched complete name model]. munfold. mstep.
  destruct (answer _) as [[raw u]|err].
  2: { intros [= <- _ <-]. exists []. by rewrite app_nil_r. }
  destruct (decodeAndValidate raw) as [a|v]; [|intros H; apply IH in H; exact H].
  destruct (auditOutput _ _ _ _ _ _) as [o|] eqn:Eo; unfold emit_opt, collect; munfold; intros [= <- _ <-].
  - exists [o]. split; [done|]. exists raw, u. by rewrite Eo.
  - exists []. rewrite app_nil_r. split; [done|]. exists raw, u. by rewrite Eo.
Qed.

Lemma audit_id_nonempty s : hex_EncodeToString (take_bytes 8 (Sum256 s)) ≠ "".
Proof.
  pose proof (Sum256_length s) as H. destruct (Sum256 s) as [|a t]; [done|].
  unfold take_bytes. simpl. by destruct t.
Qed.

(** The audit trail of a run: nothing in mode "off"; otherwise one input
    record with the hashes of exactly the prompt of the alert and the caller's
    identity, and, when an analysis is returned, one output record under the
    same id; no record carries a prompt or an answer unless the mode is
    "full". *)
Theorem audit_trail (IsPrint : Z → bool) (json_error : string → string)
    (answer : list Prompt → result string (string * usage)) (mr : Z) (am : AuditMode)
    (ctx : option Identity) (prompt : Prompt) (n n' : nat) (w w' : watch) (r : result run_error Analysis) :
  run_prompt IsPrint json_error collect (MkEvaluator (watched answer) mr am) ctx prompt (n, w) = (r, (n', w')) →
  ∃ rs, audited w' = (audited w ++ rs)%list ∧
    (am = AuditOff → rs = []) ∧
    (am ≠ AuditFull → Forall (λ x, has_body x = false) rs) ∧
    (am ≠ AuditOff → ∃ id b out,
       rs = LLMInput id "watched" "m" (sha256_hex (System prompt)) (sha256_hex (User prompt))
              (len (System prompt)) (len (User prompt)) b
              (i ← ctx; Some (TenantID i, ClusterID i, SerialNumber i)) :: out ∧
       Forall (λ x, record_id x = id) out ∧ length out = if is_Ok r then 1%nat else 0%nat).
Proof.
  unfold run_prompt. cbn [provider auditMode watched name model].
  destruct (auditInput am ctx prompt "watched" "m") as [id rec] eqn:Ei. unfold mbind, M_bind.
  destruct (emit_opt collect rec (n, w)) as [u [n1 w1]] eqn:Ee. cbn [provider auditMode maxRetries].
  assert (audited w1 = (audited w ++ option_list rec)%list) as Ha.
  { destruct rec; unfold emit_opt, collect in Ee; munfold; injection Ee as _ _ <-; simpl; by rewrite ?app_nil_r. }
  intros H. apply (attempts_audit _ _ answer) in H as (rs & Hrs & Hr); [|done]. rewrite Ha, <- app_assoc in Hrs.
  exists (option_list rec ++ rs)%list. cbn [auditMode] in Hr. unfold auditInput in Ei. split; [done|].
  destruct (bool_decide (am = AuditOff)) eqn:Eam.
  { apply bool_decide_eq_true in Eam as ->. injection Ei as <- <-.
    assert (rs = []) as -> by (destruct r; [by destruct Hr as (raw & u' & ->)|done]).
    split_and!; [done|constructor|done]. }
  apply bool_decide_eq_false in Eam. injection Ei as Eid <-. cbn [option_list].
  assert (id ≠ "") as Hid by (rewrite <- Eid; apply audit_id_nonempty).
  assert (∃ b, rs = b ∧ (am ≠ AuditFull → Forall (λ x, has_body x = false) b) ∧
    Forall (λ x, record_id x = id) b ∧ length b = if is_Ok r then 1%nat else 0%nat) as (b & -> & Hb1 & Hb2 & Hb3).
  { exists rs. split; [done|]. destruct r as [a|]; [|subst rs; split_and!; [constructor|constructor|done]].
    destruct Hr as (raw & u' & ->). unfold auditOutput. rewrite bool_decide_eq_false_2 by done.
    apply seqb_false in Hid as ->. cbn [orb option_list]. split_and!; [|by constructor|done].
    intros Hf. constructor; [|done]. by rewrite bool_decide_eq_false_2. }
  split_and!; [done| |].
  - intros Hf. constructor; [|by apply Hb1]. by rewrite bool_decide_eq_false_2.
  - intros _. rewrite Eid. eexists id, _, b. split_and!; [|done|done]. reflexivity.
Qed.

Lemma audit_trail_witness :
  let e := MkEvaluator (watched sample_answer) 1 AuditOff in
  let r := run_prompt (λ _, true) (λ _, "") collect e None (MkPrompt "rules" "data") (0%nat, MkWatch [] []) in
  ∃ rs, audited r.2.2 = ([] ++ rs)%list ∧ (AuditOff = AuditOff → rs = []) ∧
    (AuditOff ≠ AuditFull → Forall (λ x, has_body x = false) rs) ∧
    (AuditOff ≠ AuditOff → ∃ id b out,
       rs = LLMInput id "watched" "m" (sha256_hex "rules") (sha256_hex "data") (len "rules") (len "data") b
              None :: out ∧
       Forall (λ x, record_id x = id) out ∧ length out = if is_Ok r.1 then 1%nat else 0%nat).
Proof.
  intros e r.
  apply (audit_trail (λ _, true) (λ _, "") sample_answer 1 AuditOff None (MkPrompt "rules" "data")
    0 r.2.1 (MkWatch [] []) r.2.2 r.1).
  subst r. by rewrite <- !surjective_pairing.
Defined.
