(* ===== verification/Embed.v ===== *)
(** * Embeddings

    [internal/embed/embed.go]: the feature-hashing vectorizer on binary32 and
    the cosine similarity on binary64. Which runes outside ASCII are letters or
    numbers, and their lower case, come from the Unicode tables: parameters. *)
From S2P Require Import Prelude GoStrings GoTime Json Fmt.
From Stdlib Require Import Ascii SpecFloat.

Open Scope Z_scope.

Definition f64_sqrt := SFsqrt 53 1024.
Definition f32_add := SFadd 24 128.
Definition f32_mul := SFmul 24 128.
Definition f32_one : spec_float := binary_normalize 24 128 1 0 false.

(** [float32(x)] for a [float64]; the conversion the other way is exact. *)
Definition f32_of_f64 (f : spec_float) : spec_float :=
  match f with
  | S754_finite s m e => binary_normalize 24 128 (if s then Zneg m else Zpos m) e s
  | _ => f
  end.

(** The [Embedder] interface. *)
Record Embedder := MkEmbedder { Embed : string → list spec_float; Dim : Z }.

Record HashEmbedder := MkHashEmbedder { dim : Z }.

Definition NewHashEmbedder (dim : Z) : HashEmbedder :=
  MkHashEmbedder (if dim <=? 0 then 256 else dim).

(** ** FNV-1 and FNV-1a, 32 bits *)

Definition fnv_offset32 : Z := 2166136261.
Definition fnv_prime32 : Z := 16777619.

Fixpoint fnv32a (s : string) (h : Z) : Z :=
  match s with
  | EmptyString => h
  | String a s => fnv32a s (Z.lxor h (Z_of_byte a) * fnv_prime32 mod 2 ^ 32)
  end.

Fixpoint fnv32 (s : string) (h : Z) : Z :=
  match s with
  | EmptyString => h
  | String a s => fnv32 s (Z.lxor (h * fnv_prime32 mod 2 ^ 32) (Z_of_byte a))
  end.

Definition bucket (tok : string) (dim : Z) : Z := fnv32a tok fnv_offset32 mod (dim mod 2 ^ 32).

Definition signBit (tok : string) : bool := Z.land (fnv32 tok fnv_offset32) 1 =? 0.

(** ** Tokens *)

Section tokens.
(** For a rune [r] outside ASCII: whether [unicode.ToLower(r)] is a letter or
    a number, and its UTF-8 encoding. *)
Context (is_word : Z → bool) (lower_rune : Z → string).

(** The runes of a text, lower-cased, each with whether it belongs to a
    word; an invalid byte is U+FFFD, which does not. *)
Fixpoint lower_runes (drop : nat) (s : string) : list (bool * string) :=
  match s with
  | EmptyString => []
  | String a r =>
      match drop with
      | S d => lower_runes d r
      | O =>
          match rune_len s with
          | None => (false, encode_rune RuneError) :: lower_runes 0 r
          | Some n =>
              let v := rune_value n s in
              (if in_range 0 127 a
               then (in_range 48 57 a || in_range 65 90 a || in_range 97 122 a, String (lower_ascii a) "")
               else (is_word v, lower_rune v)) :: lower_runes (pred n) r
          end
      end
  end.

(** [strings.FieldsFunc]: the maximal runs of word runes. *)
Fixpoint fields (l : list (bool * string)) (current : string) : list string :=
  match l with
  | [] => if seqb current "" then [] else [current]
  | (true, r) :: l => fields l (current +:+ r)
  | (false, _) :: l => if seqb current "" then fields l "" else current :: fields l ""
  end.

Definition tokenize (text : string) : list string := fields (lower_runes 0 text) "".

(** ** Vectors *)

Definition squared_norm (v : list spec_float) : spec_float :=
  foldl (λ n x, f64_add n (f64_mul x x)) (f64_of_Z 0) v.

Definition normalize (v : list spec_float) : list spec_float :=
  let norm := squared_norm v in
  if SFeqb norm (f64_of_Z 0) then v else
  let inv := f32_of_f64 (f64_div (f64_of_Z 1) (f64_sqrt norm)) in
  map (λ x, f32_mul x inv) v.

Definition add_token (dim : Z) (v : list spec_float) (tok : string) : list spec_float :=
  let idx := Z.to_nat (bucket tok dim) in
  let one := if signBit tok then f32_one else SFopp f32_one in
  alter (λ x, f32_add x one) idx v.

Definition HashEmbedder_Embed (h : HashEmbedder) (text : string) : list spec_float :=
  normalize (foldl (add_token (dim h)) (replicate (Z.to_nat (dim h)) (S754_zero false)) (tokenize text)).

Definition hash_embedder (h : HashEmbedder) : Embedder := MkEmbedder (HashEmbedder_Embed h) (dim h).
End tokens.

Definition cosine_step (acc : spec_float * spec_float * spec_float) (ab : spec_float * spec_float) :
    spec_float * spec_float * spec_float :=
  let '(dot, na, nb) := acc in
  let '(a, b) := ab in
  (f64_add dot (f64_mul a b), f64_add na (f64_mul a a), f64_add nb (f64_mul b b)).

Definition Cosine (a b : list spec_float) : spec_float :=
  if negb (length a =? length b)%nat || (length a =? 0)%nat then f64_of_Z 0 else
  let zero := f64_of_Z 0 in
  let '(dot, na, nb) := foldl cosine_step (zero, zero, zero) (zip a b) in
  if SFeqb na zero || SFeqb nb zero then zero
  else f64_div dot (f64_mul (f64_sqrt na) (f64_sqrt nb)).

(** ** Lemmas *)

Lemma bucket_range tok d : 0 < d < 2 ^ 32 → 0 <= bucket tok d < d.
Proof. intros Hd. unfold bucket. rewrite (Z.mod_small d) by lia. apply Z.mod_pos_bound. lia. Qed.

(** An embedding has the advertised dimension. *)
Lemma Embed_length is_word lower_rune h text :
  length (HashEmbedder_Embed is_word lower_rune h text) = Z.to_nat (dim h).
Proof.
  assert (∀ v, length (normalize v) = length v) as Hn.
  { intros v. unfold normalize. destruct (SFeqb _ _); [done|]. apply length_map. }
  unfold HashEmbedder_Embed. rewrite Hn.
  assert (∀ l v, length (foldl (add_token (dim h)) v l) = length v) as ->; [|apply length_replicate].
  induction l as [|t l IH]; intros v; simpl; [done|]. rewrite IH. apply length_alter.
Qed.

Example same_text_similar :
  let e := HashEmbedder_Embed (λ _, false) (λ _, "") (NewHashEmbedder 16) in
  SFltb (f64_div (f64_of_Z 99) (f64_of_Z 100)) (Cosine (e "PodCrashLoop default") (e "podcrashloop, DEFAULT")) = true.
Proof. vm_compute. reflexivity. Qed.
