(* ===== verification/Cache.v ===== *)
(** * The analysis cache

    [internal/llmcache/llmcache.go]: the exact layer, keyed like deduplication,
    and the semantic layer over an [Embedder]. The text of a [float32] and its
    reading come with [encoding/json]: parameters. *)
From S2P Require Import Prelude GoStrings GoTime Json Sha256 Proto Store Dedup Analysis Prompt Embed.
From Stdlib Require Import Ascii SpecFloat.

Open Scope Z_scope.

Record Cache := MkCache {
  enabled : bool;
  ttl : Duration;
  embedder : option Embedder;
  semantic : bool;
  threshold : spec_float;
}.

Definition cache_New (enabled : bool) (ttlMinutes : Z) (emb : option Embedder) (semantic : bool)
    (threshold : spec_float) : Cache :=
  MkCache enabled (wrap64 (ttlMinutes * Minute)) emb
    (semantic && match emb with Some _ => true | None => false end) threshold.

(** The same text as the deduplication key. *)
Definition cache_key (p : AlertPayload) : string := sha256_hex (raw4 p).

Record vecEntry := MkVecEntry { Vec : list spec_float; Entry_Analysis : option Analysis }.

Section cache.
Context (FormatFloat32 : spec_float → string) (ParseFloat32 : string → option spec_float).

Definition vec_json (e : vecEntry) : json :=
  JObj [("vec", JArr (map (λ x, JNum (FormatFloat32 x)) (Vec e)));
        ("analysis", match Entry_Analysis e with Some a => analysis_json a | None => JNull end)].

Definition finite (f : spec_float) : bool :=
  match f with S754_nan | S754_infinity _ => false | _ => true end.

(** [json.Marshal(entry)]: infinities and NaN are errors. *)
Definition marshal_vec (e : vecEntry) : option string :=
  if forallb finite (Vec e) then Some (json_print (vec_json e)) else None.

Definition float32_elem (v : json) : option spec_float :=
  match v with JNum n => ParseFloat32 n | JNull => Some (S754_zero false) | _ => None end.

Definition vec_fields : list (string * (json → vecEntry → option vecEntry)) := [
  ("vec", slice_field float32_elem (λ l e, MkVecEntry l (Entry_Analysis e)));
  ("analysis", ptr_field analysis_fields zero_analysis Entry_Analysis (λ a e, MkVecEntry (Vec e) a))
].

Definition unmarshal_vec (raw : string) : option vecEntry :=
  v ← json_parse raw; decode_struct vec_fields (MkVecEntry [] None) v.

Context {S : Type} `{!Store S}.

(** The loop of [semanticLookup] over the listed values. *)
Fixpoint best_match (query : list spec_float) (vals : list string)
    (best : option Analysis) (bestSim : spec_float) : option Analysis * spec_float :=
  match vals with
  | [] => (best, bestSim)
  | raw :: vals =>
      match unmarshal_vec raw with
      | Some (MkVecEntry v (Some a)) =>
          let sim := Cosine query v in
          if SFltb bestSim sim then best_match query vals (Some a) sim
          else best_match query vals best bestSim
      | _ => best_match query vals best bestSim
      end
  end.

Definition semanticLookup (c : Cache) (emb : Embedder) (payload : AlertPayload) : M S (option (Analysis * spec_float)) :=
  r ← store_ListByPrefix "vec:";
  match r with
  | Err _ => mret None
  | Ok vals =>
      let query := Embed emb (Signature payload) in
      match best_match query vals None (f64_of_Z 0) with
      | (Some best, bestSim) =>
          if SFleb (threshold c) bestSim then mret (Some (best, bestSim)) else mret None
      | (None, _) => mret None
      end
  end.

(** [semantic] is only set together with an embedder. *)
Definition cache_Get (c : Cache) (payload : AlertPayload) : M S (option Analysis) :=
  if negb (enabled c) then mret None else
  r ← store_Get ("cache:" +:+ cache_key payload);
  match match r with Ok (Some data) => unmarshal_analysis data | _ => None end with
  | Some a => mret (Some a)
  | None =>
      match semantic c, embedder c with
      | true, Some emb =>
          o ← semanticLookup c emb payload;
          match o with Some (a, _) => mret (Some a) | None => mret None end
      | _, _ => mret None
      end
  end.

Definition cache_Set (c : Cache) (payload : AlertPayload) (analysis : option Analysis) : M S unit :=
  match enabled c, analysis with
  | true, Some a =>
      _ ← store_Set ("cache:" +:+ cache_key payload) (marshal_analysis a) (ttl c);
      match semantic c, embedder c with
      | true, Some emb =>
          match marshal_vec (MkVecEntry (Embed emb (Signature payload)) (Some a)) with
          | Some b => _ ← store_Set ("vec:" +:+ cache_key payload) b (ttl c); mret tt
          | None => mret tt
          end
      | _, _ => mret tt
      end
  | _, _ => mret tt
  end.
End cache.

(** ** Lemmas *)

Lemma cache_key_same p q : same_alert p q → cache_key p = cache_key q.
Proof. intros (E1 & E2 & E3 & E4). unfold cache_key, raw4. by rewrite E1, E2, E3, E4. Qed.

Lemma vec_key_ne k p : "vec:" +:+ k ≠ "cache:" +:+ cache_key p.
Proof. discriminate. Qed.

Section lemmas.
Context (FormatFloat32 : spec_float → string) (ParseFloat32 : string → option spec_float).
Context `{HC : !Clock} {S : Type} `{HS : !Store S, HSp : !StoreSpec S}.

(** The best match is an entry of the list, or what it started from. *)
Lemma best_match_spec query vals best sim best' sim' :
  best_match ParseFloat32 query vals best sim = (best', sim') →
  (best' = best ∧ sim' = sim) ∨
  ∃ raw v a, raw ∈ vals ∧ unmarshal_vec ParseFloat32 raw = Some (MkVecEntry v (Some a)) ∧
    best' = Some a ∧ sim' = Cosine query v.
Proof.
  revert best sim. induction vals as [|raw vals IH]; intros best sim; simpl; [intros [= <- <-]; by left|].
  assert (∀ b s, best_match ParseFloat32 query vals b s = (best', sim') →
    (best' = b ∧ sim' = s) ∨ ∃ raw' v a, raw' ∈ raw :: vals ∧
      unmarshal_vec ParseFloat32 raw' = Some (MkVecEntry v (Some a)) ∧ best' = Some a ∧ sim' = Cosine query v) as IH'.
  { intros b s [?|(raw' & v & a & Hin & H)]%IH; [by left|right]. exists raw', v, a. split; [by right|done]. }
  destruct (unmarshal_vec ParseFloat32 raw) as [[v [a|]]|] eqn:Eu; [|apply IH'..].
  destruct (SFltb sim (Cosine query v)); [|apply IH'].
  intros [[-> ->]|H]%IH'; [|by right]. right. exists raw, v, a. split; [by left|done].
Qed.

(** After [cache_Set] on a backend that is up, readers see the analysis. *)
Lemma cache_Set_holds `{HU : !StoreUp S} c p a n s c1 :
  enabled c = true → ttl c ≠ KeepTTL → cache_Set FormatFloat32 c p (Some a) (n, s) = (tt, c1) →
  ∃ te, clk n <= te ∧
    holds_until ("cache:" +:+ cache_key p) (marshal_analysis a) (expires te (ttl c)) c1.
Proof.
  intros He Hk. unfold cache_Set. rewrite He. unfold mbind, M_bind.
  destruct (store_Set _ _ _ _) as [r [n1 s1]] eqn:Es.
  pose proof (Set_up ("cache:" +:+ cache_key p) (marshal_analysis a) (ttl c) (n, s)) as Hup.
  rewrite Es in Hup. destruct r as [[]|]; [|done].
  apply Set_holds in Es as (te & Hte & Hh); [|done]. intros H. exists te. split; [lia|]. revert H.
  destruct (semantic c), (embedder c) as [emb|]; try (intros [= <-]; done).
  destruct (marshal_vec _ _) as [b|]; [|intros [= <-]; done].
  destruct (store_Set ("vec:" +:+ cache_key p) b (ttl c) (n1, s1)) as [r2 c2] eqn:Es2.
  unfold mret, M_ret. intros [= <-]. eapply holds_until_step; [|exact Hh].
  eapply ev_set; [|exact Es2]. apply vec_key_ne.
Qed.
End lemmas.

(** ** Properties *)

(** While its time-to-live lasts, a cached analysis is returned for every
    alert of the same identity, unchanged, whatever else happens in the store,
    so a repeated alert costs no second call. *)
Theorem cache_returns_stored (FormatFloat32 : spec_float → string)
    (ParseFloat32 : string → option spec_float)
    `{HC : !Clock} {S : Type} `{HS : !Store S, HSp : !StoreSpec S, HU : !StoreUp S}
    (c : Cache) (p q : AlertPayload) (a : Analysis) (o : option Analysis) (c0 c1 c2 c3 : nat * S) :
  enabled c = true → ttl c ≠ KeepTTL → analysis_utf8 a = true → same_alert p q →
  cache_Set FormatFloat32 c p (Some a) c0 = (tt, c1) →
  rtc (evolves ("cache:" +:+ cache_key p)) c1 c2 →
  cache_Get ParseFloat32 c q c2 = (o, c3) →
  ttl c <= 0 ∨ clk c3.1 <= clk c0.1 + whole (ttl c) →
  o = Some a.
Proof.
  destruct c0 as [n s]. intros He Hk Hu Hpq Hset Hev Hg Hclk.
  apply (cache_Set_holds FormatFloat32 c p a) in Hset as (te & Hte & Hh); [|done..].
  apply (holds_until_star _ _ _ _ _ Hev) in Hh. revert Hg. unfold cache_Get. rewrite He. cbn [negb].
  rewrite <- (cache_key_same p q Hpq). destruct c2 as [n2 s2]. unfold mbind, M_bind.
  destruct (store_Get _ _) as [r [n3 s3]] eqn:Eg.
  pose proof (Get_up ("cache:" +:+ cache_key p) (n2, s2)) as Hup. rewrite Eg in Hup.
  destruct r as [d|]; [|done]. intros Hg.
  assert (n3 ≤ c3.1 ∧ (d = Some (marshal_analysis a) → o = Some a ∧ c3 = (n3, s3)))%nat as [Hn Hd].
  { split; [|intros ->; rewrite unmarshal_marshal in Hg by done; by injection Hg as <- <-].
    revert Hg. destruct (match d with Some data => _ | None => None end); [intros [= _ <-]; done|].
    destruct (semantic c), (embedder c) as [emb|]; try (intros [= _ <-]; done).
    unfold semanticLookup, mbind, M_bind. destruct (store_ListByPrefix _ _) as [rl [n4 s4]] eqn:El.
    apply ListByPrefix_spec in El as [Hn _]. destruct rl as [vals|]; [|intros [= _ <-]; done].
    destruct (best_match _ _ _ _ _) as [[b|] sim]; [|intros [= _ <-]; done].
    destruct (SFleb _ _); intros [= _ <-]; done. }
  apply Hd. eapply Get_held; [exact Hh| |exact Eg]. unfold expires. destruct (ttl c <=? 0) eqn:E; [done|].
  simpl in *. zbool. apply Z.leb_le. pose proof (clk_mono n3 c3.1 Hn). lia.
Qed.

Lemma cache_returns_stored_witness :
  let HC := unix_seconds_clock in
  let c := cache_New true 30 None false (f64_of_Z 1) in
  let p := mk_alert "prod-a" "PodCrash" "warning" "shop" "web-1" "firing" 1 None in
  let q := mk_alert "prod-a" "PodCrash" "critical" "shop" "web-1" "firing" 99 None in
  let c1 := (cache_Set (λ _, "1") c p (Some sample_analysis) (0%nat, Memory.NewMemory)).2 in
  (cache_Get (λ _, None) c q c1).1 = Some sample_analysis.
Proof.
  intros HC c p q c1.
  eapply (cache_returns_stored (λ _, "1") (λ _, None) (HC := HC) c p q sample_analysis _
    (0%nat, Memory.NewMemory) c1 c1 (cache_Get (λ _, None) c q c1).2).
  - reflexivity.
  - vm_compute. discriminate.
  - vm_compute. reflexivity.
  - split_and!; reflexivity.
  - unfold c1. by destruct (cache_Set _ _ _ _ _) as [[] ?].
  - apply rtc_refl.
  - apply surjective_pairing.
  - right. apply Z.leb_le. vm_compute. reflexivity.
Defined.

(** C37: a cache hit is genuine: the analysis was decoded from the entry stored
    under the alert's own key, or from a stored vector whose cosine similarity
    with the alert's signature reaches the configured threshold. The entry was there
    before the call; so was the vector, unless another replica wrote it while the call
    listed the vectors. *)
Theorem cache_hit_genuine (ParseFloat32 : string → option spec_float)
    `{HC : !Clock} {S : Type} `{HS : !Store S, HSp : !StoreSpec S}
    (c : Cache) (p : AlertPayload) (a : Analysis) (n n' : nat) (s s' : S) :
  cache_Get ParseFloat32 c p (n, s) = (Some a, (n', s')) →
  enabled c = true ∧ ∃ t, clk n <= t <= clk n' ∧
    ((∃ data, sview s t ("cache:" +:+ cache_key p) = Some data ∧ unmarshal_analysis data = Some a) ∨
     (semantic c = true ∧ ∃ emb k raw v s1, embedder c = Some emb ∧ HasPrefix k "vec:" = true ∧
        sview s' t k = Some raw ∧
        (∀ k', same_at sview k' s s1) ∧ (¬ meddled s1 s' k → sview s t k = Some raw) ∧
        unmarshal_vec ParseFloat32 raw = Some (MkVecEntry v (Some a)) ∧
        SFleb (threshold c) (Cosine (Embed emb (Signature p)) v) = true)).
Proof.
  unfold cache_Get. destruct (enabled c); [|done]. cbn [negb]. unfold mbind, M_bind.
  destruct (store_Get _ _) as [r [n1 s1]] eqn:Eg. apply Get_spec in Eg as (Hn1 & Hs1 & Hr).
  destruct (match r with Ok (Some data) => _ | _ => None end) as [b|] eqn:Ed.
  { intros [= <- <- <-]. split; [done|]. destruct r as [[data|]|]; try done.
    destruct (Hr _ eq_refl) as (t & Ht & Hv). exists t. split; [done|]. left. by exists data. }
  destruct (semantic c); [|done]. destruct (embedder c) as [emb|]; [|done].
  unfold semanticLookup, mbind, M_bind. destruct (store_ListByPrefix _ _) as [rl [n2 s2]] eqn:El.
  apply ListByPrefix_spec in El as (Hn2 & Hs2 & Hl). destruct rl as [vals|]; [|done].
  destruct (best_match _ _ _ _ _) as [[b|] sim] eqn:Eb; [|done].
  destruct (SFleb _ _) eqn:Et; [|done]. intros [= -> <- <-]. split; [done|].
  apply best_match_spec in Eb as [[? _]|(raw & v & a' & Hin & Hu & [= <-] & ->)]; [done|].
  destruct (Hl eq_refl) as (_ & Hlist). apply (Hlist vals eq_refl) in Hin as (k & t & Hk & Ht & Hv).
  exists t. pose proof (clk_mono n n1 Hn1). split; [lia|]. right. split; [done|].
  exists emb, k, raw, v, s1. split_and!; try done. intros Hm. by rewrite <- Hs1, <- Hs2.
Qed.

(** An embedder that sees only signatures, for examples. *)
Definition unit_embedder : Embedder := MkEmbedder (λ _, [f32_one]) 1.

Definition semantic_cache : Cache := cache_New true 30 (Some unit_embedder) true (f64_of_Z 1).

Lemma cache_hit_genuine_witness :
  let HC := unix_seconds_clock in
  let p := mk_alert "prod-a" "PodCrash" "warning" "shop" "web-1" "firing" 1 None in
  let c1 := (cache_Set (λ _, "1") semantic_cache p (Some sample_analysis) (0%nat, Memory.NewMemory)).2 in
  enabled semantic_cache = true ∧ ∃ t, clk c1.1 <= t <= clk (cache_Get (λ _, None) semantic_cache p c1).2.1 ∧
    ((∃ data, sview c1.2 t ("cache:" +:+ cache_key p) = Some data ∧ unmarshal_analysis data = Some sample_analysis) ∨
     (semantic semantic_cache = true ∧ ∃ emb k raw v s1, embedder semantic_cache = Some emb ∧
        HasPrefix k "vec:" = true ∧
        sview (cache_Get (λ _, None) semantic_cache p c1).2.2 t k = Some raw ∧
        (∀ k', same_at sview k' c1.2 s1) ∧
        (¬ meddled s1 (cache_Get (λ _, None) semantic_cache p c1).2.2 k → sview c1.2 t k = Some raw) ∧
        unmarshal_vec (λ _, None) raw = Some (MkVecEntry v (Some sample_analysis)) ∧
        SFleb (threshold semantic_cache) (Cosine (Embed emb (Signature p)) v) = true)).
Proof.
  intros HC p c1.
  apply (cache_hit_genuine (λ _, None) (HC := HC) semantic_cache p sample_analysis c1.1
    (cache_Get (λ _, None) semantic_cache p c1).2.1 c1.2 (cache_Get (λ _, None) semantic_cache p c1).2.2).
  vm_compute. reflexivity.
Defined.

(** The signature names no cluster: an alert of another cluster gets the
    analysis made for this one. *)
Lemma semantic_hit_crosses_clusters :
  let HC := unix_seconds_clock in
  let p := mk_alert "prod-a" "PodCrash" "warning" "shop" "web-1" "firing" 1 None in
  let q := mk_alert "prod-b" "PodCrash" "warning" "shop" "web-1" "firing" 1 None in
  let c1 := (cache_Set (λ _, "1") semantic_cache p (Some sample_analysis) (0%nat, Memory.NewMemory)).2 in
  ClusterId p ≠ ClusterId q ∧
  (cache_Get (λ _, Some f32_one) semantic_cache q c1).1 = Some sample_analysis.
Proof. split; [discriminate|vm_compute; reflexivity]. Qed.
