(* ===== verification/Feedback.v ===== *)
(** * Operator feedback

    [internal/feedback/feedback.go]: the links of a notification, the verdicts
    recorded by [ServeHTTP], and their replay as examples. [sort.Slice] leaves
    the order of equal elements open: the sort is a parameter with the laws
    [SortNewest]. *)
From S2P Require Import Prelude GoStrings Json Sha256 Proto Store Dedup Analysis.
From stdpp Require Import sorting.
From Stdlib Require Import Ascii.

Open Scope Z_scope.

Record Manager := MkManager {
  publicURL : string;
  pendingTTL : Duration;
  verdictTTL : Duration;
  fewShot : Z;
}.

Record pendingEntry := MkPending {
  Pending_ClusterID : string;
  Pending_AlertName : string;
  Pending_Namespace : string;
  Pending_Analysis : option Analysis;
}.

Record verdictEntry := MkVerdict {
  Verdict_AlertName : string;
  Verdict_Verdict : string;
  Verdict_Analysis : option Analysis;
  TS : Z;
}.

(** ** JSON *)

Definition opt_analysis_json (a : option Analysis) : json :=
  match a with Some a => analysis_json a | None => JNull end.

Definition pending_json (e : pendingEntry) : json :=
  JObj [("cluster_id", JStr (Pending_ClusterID e)); ("alert_name", JStr (Pending_AlertName e));
        ("namespace", JStr (Pending_Namespace e)); ("analysis", opt_analysis_json (Pending_Analysis e))].

Definition verdict_json (e : verdictEntry) : json :=
  JObj [("alert_name", JStr (Verdict_AlertName e)); ("verdict", JStr (Verdict_Verdict e));
        ("analysis", opt_analysis_json (Verdict_Analysis e)); ("ts", JNum (FormatInt (TS e)))].

Definition pending_fields : list (string * (json → pendingEntry → option pendingEntry)) := [
  ("cluster_id", str_field (λ v e, MkPending v (Pending_AlertName e) (Pending_Namespace e) (Pending_Analysis e)));
  ("alert_name", str_field (λ v e, MkPending (Pending_ClusterID e) v (Pending_Namespace e) (Pending_Analysis e)));
  ("namespace", str_field (λ v e, MkPending (Pending_ClusterID e) (Pending_AlertName e) v (Pending_Analysis e)));
  ("analysis", ptr_field analysis_fields zero_analysis Pending_Analysis
     (λ v e, MkPending (Pending_ClusterID e) (Pending_AlertName e) (Pending_Namespace e) v))
].

Definition verdict_fields : list (string * (json → verdictEntry → option verdictEntry)) := [
  ("alert_name", str_field (λ v e, MkVerdict v (Verdict_Verdict e) (Verdict_Analysis e) (TS e)));
  ("verdict", str_field (λ v e, MkVerdict (Verdict_AlertName e) v (Verdict_Analysis e) (TS e)));
  ("analysis", ptr_field analysis_fields zero_analysis Verdict_Analysis
     (λ v e, MkVerdict (Verdict_AlertName e) (Verdict_Verdict e) v (TS e)));
  ("ts", int_field (λ v e, MkVerdict (Verdict_AlertName e) (Verdict_Verdict e) (Verdict_Analysis e) v))
].

Definition marshal_pending (e : pendingEntry) : string := json_print (pending_json e).
Definition marshal_verdict (e : verdictEntry) : string := json_print (verdict_json e).

Definition unmarshal_pending (raw : string) : option pendingEntry :=
  v ← json_parse raw; decode_struct pending_fields (MkPending "" "" "" None) v.

Definition unmarshal_verdict (raw : string) : option verdictEntry :=
  v ← json_parse raw; decode_struct verdict_fields (MkVerdict "" "" None 0) v.

(** ** The manager *)

(** [trimSlash]. *)
Definition trimSlash (s : string) : string := TrimRightFunc (Ascii.eqb "/") s.

Definition feedback_New (publicURL : string) (fewShot : Z) : Manager :=
  MkManager (trimSlash publicURL) (7 * 24 * Hour) (30 * 24 * Hour) (if fewShot <=? 0 then 3 else fewShot).

Definition LinksEnabled (m : Manager) : bool := negb (seqb (publicURL m) "").

Definition alertHash (name : string) : string := take_bytes 12 (sha256_hex name).

Definition pending_key (id : string) : string := "fb:pending:" +:+ id.
Definition verdict_prefix (name : string) : string := "fb:verdict:" +:+ alertHash name +:+ ":".

Section feedback.
Context `{!Clock} {S : Type} `{!Store S}.

Definition feedback_Record (m : Manager) (payload : AlertPayload) (analysis : option Analysis) :
    M S (string * string) :=
  match LinksEnabled m, analysis with
  | true, Some a =>
      let id := alertkey.ID payload in
      let entry := MkPending (ClusterId payload) (AlertName payload) (Namespace payload) (Some a) in
      r ← store_Set (pending_key id) (marshal_pending entry) (pendingTTL m);
      match r with
      | Err _ => mret ("", "")
      | Ok _ =>
          let base := publicURL m +:+ "/feedback?id=" +:+ id +:+ "&verdict=" in
          mret (base +:+ "useful", base +:+ "wrong")
      end
  | _, _ => mret ("", "")
  end.

(** [sort.Slice] by descending time stamp. *)
Context (sort : list verdictEntry → list verdictEntry).

Definition few_shot (m : Manager) (entries : list verdictEntry) : list verdictEntry :=
  if fewShot m <? Z.of_nat (length entries) then take (Z.to_nat (fewShot m)) entries else entries.

Definition Examples (m : Manager) (payload : AlertPayload) : M S (list Example_) :=
  r ← store_ListByPrefix (verdict_prefix (AlertName payload));
  match r with
  | Err _ | Ok [] => mret []
  | Ok vals =>
      let entries := few_shot m (sort (omap unmarshal_verdict vals)) in
      mret (map (λ e, MkExample (Verdict_AlertName e) (Verdict_Verdict e) (Verdict_Analysis e)) entries)
  end.

(** The status code and the page of [ServeHTTP] for the two query
    parameters. The page quotes nothing it prints. *)
Definition feedback_page (verdict alert : string) : string :=
  "<html><body style=" +:+ String dquote ("font-family:sans-serif" +:+ String dquote
  ("><h2>Thanks</h2><p>Recorded feedback <b>" +:+ verdict +:+ "</b> for alert <b>" +:+ alert +:+
   "</b>. muthur will use this to improve future analyses.</p></body></html>")).

Definition feedback_ServeHTTP (m : Manager) (id verdict : string) : M S (Z * string) :=
  if seqb id "" || (negb (seqb verdict "useful") && negb (seqb verdict "wrong"))
  then mret (400, "bad request") else
  r ← store_Get (pending_key id);
  match r with
  | Err _ => mret (500, "internal error")
  | Ok None => mret (404, "feedback link expired or unknown")
  | Ok (Some data) =>
      match unmarshal_pending data with
      | None => mret (500, "internal error")
      | Some pending =>
          now ← time_Now;
          let entry := MkVerdict (Pending_AlertName pending) verdict (Pending_Analysis pending) (Unix now) in
          _ ← store_Set (verdict_prefix (Pending_AlertName pending) +:+ id) (marshal_verdict entry) (verdictTTL m);
          mret (200, feedback_page verdict (Pending_AlertName pending))
      end
  end.
End feedback.

Definition newer (x y : verdictEntry) : Prop := TS y <= TS x.

#[export] Instance newer_dec : RelDecision newer.
Proof. intros x y. unfold newer. apply _. Defined.

(** What [sort.Slice] promises. *)
Class SortNewest (sort : list verdictEntry → list verdictEntry) := {
  sort_perm l : sort l ≡ₚ l;
  sort_newest l : Sorted newer (sort l);
}.

Definition merge_newest : list verdictEntry → list verdictEntry := merge_sort newer.

#[export] Instance merge_newest_sorts : SortNewest merge_newest.
Proof.
  split; intros l; unfold merge_newest; [apply merge_sort_Permutation|apply Sorted_merge_sort].
  intros x y. unfold newer. lia.
Qed.

(** ** Lemmas *)

Lemma opt_analysis_wf d a :
  match a with Some a => analysis_utf8 a = true | None => True end → wf_json (S d) (opt_analysis_json a).
Proof.
  destruct a as [a|]; [|done]. intros H. unfold analysis_utf8 in H. simpl in H.
  repeat apply andb_true_iff in H as [? H]. unfold opt_analysis_json, analysis_json. simpl.
  destruct (seqb _ ""); simpl; split_and!; done.
Qed.

Lemma unmarshal_marshal_pending c n ns a :
  analysis_utf8 a = true → ValidString c = true → ValidString n = true → ValidString ns = true →
  unmarshal_pending (marshal_pending (MkPending c n ns (Some a))) = Some (MkPending c n ns (Some a)).
Proof.
  intros Hu H1 H2 H3. unfold unmarshal_pending, marshal_pending. rewrite json_parse_print.
  - destruct a. unfold pending_json, opt_analysis_json, analysis_json. simpl.
    destruct (seqb _ "") eqn:E; sbool; subst; reflexivity.
  - change maxNestingDepth with (S (S (pred (pred maxNestingDepth)))). unfold pending_json.
    cbn [wf_json fold_right fst snd Pending_ClusterID Pending_AlertName Pending_Namespace Pending_Analysis].
    split_and!; try done. by apply (opt_analysis_wf _ (Some a)).
Qed.

Lemma unmarshal_marshal_verdict n v a t :
  match a with Some a => analysis_utf8 a = true | None => True end →
  ValidString n = true → ValidString v = true → in_int64 t →
  unmarshal_verdict (marshal_verdict (MkVerdict n v a t)) = Some (MkVerdict n v a t).
Proof.
  intros Hu H1 H2 Ht. unfold unmarshal_verdict, marshal_verdict. rewrite json_parse_print.
  - transitivity (let '(e, ok) := match t' ← ParseInt (FormatInt t); Some (MkVerdict n v a t') with
                    | Some e => (e, true) | None => (MkVerdict n v a 0, false) end in
                  if ok : bool then Some e else None).
    + destruct a as [a|]; [|reflexivity]. destruct a as [a1 a2 a3 a4 a5 a6 a7 a8].
      unfold verdict_json, opt_analysis_json, analysis_json.
      cbn [Verdict_Analysis A_Severity RootCause Evidence Action Confidence Grounding Silence SilenceReason].
      destruct (seqb _ "") eqn:E; sbool; subst; reflexivity.
    + by rewrite ParseInt_FormatInt.
  - change maxNestingDepth with (S (S (pred (pred maxNestingDepth)))). unfold verdict_json.
    cbn [wf_json fold_right fst snd Verdict_AlertName Verdict_Verdict Verdict_Analysis TS].
    split_and!; try done; [by apply (opt_analysis_wf _ a)|apply number_FormatInt].
Qed.

Lemma sort_omap_elem sort `{HSn : !SortNewest sort} raw e vals :
  raw ∈ vals → unmarshal_verdict raw = Some e → e ∈ sort (omap unmarshal_verdict vals).
Proof. intros Hr He. rewrite sort_perm. apply list_elem_of_omap. by exists raw. Qed.

Lemma Unix_int64 t : 0 < t → t < 2 ^ 63 * Second → in_int64 (Unix t).
Proof.
  intros H0 H1. unfold in_int64, Unix, unixToInternal.
  assert (0 <= t / Second < 2 ^ 63); [|lia]. split.
  - apply Z.div_pos; [lia|by vm_compute].
  - apply Z.div_lt_upper_bound; [by vm_compute|lia].
Qed.

Lemma lacks_take a n s : lacks a s = true → lacks a (take_bytes n s) = true.
Proof.
  unfold take_bytes. revert s. induction n as [|n IH]; intros [|b s]; cbn; try done.
  intros [H1 H2]%andb_true_iff. rewrite H1. by apply IH.
Qed.

Lemma verdict_prefix_glob_free name : glob_free (verdict_prefix name) = true.
Proof.
  unfold verdict_prefix. rewrite !glob_free_append. unfold alertHash.
  destruct (sha256_hex_decodes name) as [v Hv].
  assert (∀ a, hex_value a = None → lacks a (take_bytes 12 (sha256_hex name)) = true) as H
    by (intros a Ha; apply lacks_take; by eapply hex_decode_lacks).
  unfold glob_free. by rewrite !H by done.
Qed.

Lemma ID_nonempty p : alertkey.ID p ≠ "".
Proof.
  unfold alertkey.ID, take_bytes. pose proof (sha256_hex_length (raw5 p)) as H.
  destruct (sha256_hex (raw5 p)) as [|x t]; [done|]. simpl. by destruct t.
Qed.

Section lemmas.
Context `{HC : !Clock} {S : Type} `{HS : !Store S, HSp : !StoreSpec S, HU : !StoreUp S}.

Lemma feedback_Record_holds m p a n s links c1 :
  LinksEnabled m = true → pendingTTL m ≠ KeepTTL → feedback_Record m p (Some a) (n, s) = (links, c1) →
  links = (publicURL m +:+ "/feedback?id=" +:+ alertkey.ID p +:+ "&verdict=" +:+ "useful",
           publicURL m +:+ "/feedback?id=" +:+ alertkey.ID p +:+ "&verdict=" +:+ "wrong") ∧
  ∃ te, clk n <= te ∧ holds_until (pending_key (alertkey.ID p))
    (marshal_pending (MkPending (ClusterId p) (AlertName p) (Namespace p) (Some a)))
    (expires te (pendingTTL m)) c1.
Proof.
  intros Hl Hk. unfold feedback_Record. rewrite Hl. cbv zeta. set (key := pending_key _).
  set (v := marshal_pending _). unfold mbind, M_bind.
  destruct (store_Set key v (pendingTTL m) (n, s)) as [r [n1 s1]] eqn:Es.
  pose proof (Set_up key v (pendingTTL m) (n, s)) as Hup. rewrite Es in Hup. destruct r as [[]|]; [|done].
  apply Set_holds in Es as (te & Hte & Hh); [|done]. intros [= <- <-]. rewrite !append_assoc.
  split; [done|]. exists te. split; [lia|done].
Qed.

(** A click on a link whose entry is still held. *)
Lemma feedback_click m id verdict pend e n s r c1 :
  verdict = "useful" ∨ verdict = "wrong" → id ≠ "" → verdictTTL m ≠ KeepTTL →
  unmarshal_pending (marshal_pending pend) = Some pend →
  holds_until (pending_key id) (marshal_pending pend) e (n, s) →
  feedback_ServeHTTP m id verdict (n, s) = (r, c1) → before (clk c1.1) e = true →
  r = (200, feedback_page verdict (Pending_AlertName pend)) ∧
  ∃ k te, clk n <= clk k <= te ∧ clk k <= clk c1.1 ∧ holds_until (verdict_prefix (Pending_AlertName pend) +:+ id)
    (marshal_verdict (MkVerdict (Pending_AlertName pend) verdict (Pending_Analysis pend) (Unix (clk k))))
    (expires te (verdictTTL m)) c1.
Proof.
  intros Hv Hid Hk Hp Hh. unfold feedback_ServeHTTP. rewrite (proj2 (seqb_false _ _) Hid). cbn [orb].
  assert (negb (seqb verdict "useful") && negb (seqb verdict "wrong") = false) as ->
    by (destruct Hv as [-> | ->]; reflexivity).
  unfold mbind, M_bind. destruct (store_Get _ _) as [r1 [n1 s1]] eqn:Eg.
  pose proof (Get_up (pending_key id) (n, s)) as Hup. rewrite Eg in Hup. destruct r1 as [o|]; [|done].
  pose proof Eg as (Hn1 & _ & _)%Get_spec.
  destruct (decide (before (clk n1) e = true)) as [He1|He1].
  2: { intros Hr He. exfalso. apply He1. eapply before_mono; [|exact He]. apply clk_mono.
       destruct o as [d|]; [|by injection Hr as _ <-].
       destruct (unmarshal_pending d); [|by injection Hr as _ <-]. unfold time_Now in Hr. cbn [fst snd] in Hr.
       destruct (store_Set _ _ _ _) as [r2 [n2 s2]] eqn:E2. apply Set_spec in E2 as (Hn2 & _).
       injection Hr as _ <-. simpl. lia. }
  pose proof (Get_held _ _ _ _ _ _ _ _ Hh He1 Eg) as ->. rewrite Hp. unfold time_Now. cbn [fst snd].
  set (key := verdict_prefix _ +:+ id). set (v := marshal_verdict _).
  destruct (store_Set key v (verdictTTL m) _) as [r2 [n2 s2]] eqn:Es.
  pose proof (Set_up key v (verdictTTL m) (Datatypes.S n1, s1)) as Hup2. rewrite Es in Hup2.
  destruct r2 as [[]|]; [|done]. apply Set_holds in Es as (te & Hte & Hs); [|done]. intros [= <- <-] _.
  split; [done|]. exists n1, te. pose proof (clk_mono n n1 Hn1).
  pose proof (clk_mono n1 (Datatypes.S n1) ltac:(lia)). split_and!; [lia|lia|simpl; lia|done].
Qed.
End lemmas.

(** ** Properties *)

(** C38: the feedback loop closes: a link sent with a notification and clicked
    while it is valid stores the operator's verdict on exactly the analysis
    that was shown, and as long as that verdict lives, an evaluation of the
    same alert name gets it among its examples, unless [fewShot] newer or
    equally recent verdicts push it out. The store is up, and nobody overwrites or
    deletes the entry, not even another replica in the course of that listing. *)
Theorem feedback_is_replayed `{HC : !Clock} {S : Type} `{HS : !Store S, HSp : !StoreSpec S, HU : !StoreUp S}
    (sort : list verdictEntry → list verdictEntry) `{HSn : !SortNewest sort}
    (m : Manager) (p q : AlertPayload) (a : Analysis) (verdict : string)
    (links : string * string) (r : Z * string) (ex : list Example_) (c0 c1 c2 c3 c4 c5 : nat * S) :
  LinksEnabled m = true → analysis_utf8 a = true →
  ValidString (ClusterId p) = true → ValidString (AlertName p) = true → ValidString (Namespace p) = true →
  verdict = "useful" ∨ verdict = "wrong" → AlertName q = AlertName p →
  clk c3.1 < 2 ^ 63 * Second → 0 < pendingTTL m → 0 < verdictTTL m → 0 < fewShot m →
  feedback_Record m p (Some a) c0 = (links, c1) →
  rtc (evolves (pending_key (alertkey.ID p))) c1 c2 →
  feedback_ServeHTTP m (alertkey.ID p) verdict c2 = (r, c3) → clk c3.1 <= clk c0.1 + whole (pendingTTL m) →
  rtc (evolves (verdict_prefix (AlertName p) +:+ alertkey.ID p)) c3 c4 →
  Examples sort m q c4 = (ex, c5) → ¬ meddled c4.2 c5.2 (verdict_prefix (AlertName p) +:+ alertkey.ID p) →
  clk c5.1 <= clk c2.1 + whole (verdictTTL m) →
  r.1 = 200 ∧ (Z.of_nat (length ex) <= fewShot m) ∧
  (Z.of_nat (length ex) < fewShot m → MkExample (AlertName p) verdict (Some a) ∈ ex).
Proof.
  destruct c0 as [n s], c2 as [n2 s2], c4 as [n4 s4]. cbn [fst snd].
  intros Hl Hu H1 H2 H3 Hv Hq Hclk Hp Hvt Hfs Hrec Hev1 Hserve Ht1 Hev2 Hex Hmed Ht2.
  apply (feedback_Record_holds m p a) in Hrec as (_ & te & Hte & Hh); [|done|unfold KeepTTL; lia].
  apply (holds_until_star _ _ _ _ _ Hev1) in Hh.
  assert (before (clk c3.1) (expires te (pendingTTL m)) = true) as Hb.
  { unfold expires. destruct (pendingTTL m <=? 0); [done|]. simpl. apply Z.leb_le. lia. }
  destruct (feedback_click m (alertkey.ID p) verdict (MkPending (ClusterId p) (AlertName p) (Namespace p) (Some a))
    _ n2 s2 r c3 Hv (ID_nonempty p) ltac:(unfold KeepTTL; lia) (unmarshal_marshal_pending _ _ _ _ Hu H1 H2 H3) Hh Hserve Hb)
    as [-> (k & te2 & Ht & Hk & Hh2)]. cbn [Pending_AlertName Pending_Analysis] in *.
  apply (holds_until_star _ _ _ _ _ Hev2) in Hh2. split; [done|].
  revert Hex. unfold Examples, mbind, M_bind. rewrite Hq.
  destruct (store_ListByPrefix _ _) as [rl [n5 s5]] eqn:El.
  pose proof (ListByPrefix_up (verdict_prefix (AlertName p)) (n4, s4)) as Hup. rewrite El in Hup.
  destruct rl as [vals|]; [|done]. intros Hex.
  assert (c5 = (n5, s5) ∧ ex = map (λ e, MkExample (Verdict_AlertName e) (Verdict_Verdict e) (Verdict_Analysis e))
    (match vals with [] => [] | _ => few_shot m (sort (omap unmarshal_verdict vals)) end)) as [-> ->].
  { destruct vals; injection Hex as <- <-; done. }
  assert (before (clk n5) (expires te2 (verdictTTL m)) = true) as Hb2.
  { unfold expires. destruct (verdictTTL m <=? 0); [done|]. simpl in *. apply Z.leb_le. lia. }
  set (v := MkVerdict (AlertName p) verdict (Some a) (Unix (clk k))) in *.
  assert (marshal_verdict v ∈ vals) as Hin.
  { eapply List_held; [exact Hh2|exact Hb2|apply HasPrefix_append|apply verdict_prefix_glob_free|exact Hmed|exact El]. }
  assert (v ∈ sort (omap unmarshal_verdict vals)) as Hsort.
  { apply (sort_omap_elem sort _ _ _ Hin). apply unmarshal_marshal_verdict; [done|done|by destruct Hv as [-> | ->]|].
    by apply Unix_int64; [apply clk_gt0|lia]. }
  destruct vals as [|raw vals]; [by apply not_elem_of_nil in Hin|]. rewrite length_map.
  unfold few_shot. destruct (fewShot m <? _) eqn:E; zbool.
  - rewrite length_take. split; [lia|]. intros Hlt. lia.
  - split; [done|]. intros _. apply list_elem_of_fmap. by exists v.
Qed.

Lemma feedback_is_replayed_witness :
  let HC := unix_seconds_clock in
  let m := feedback_New "https://muthur.example/" 3 in
  let p := mk_alert "prod-a" "PodCrash" "warning" "shop" "web-1" "firing" 1 None in
  let q := mk_alert "prod-a" "PodCrash" "critical" "cart" "db-0" "firing" 9 None in
  let c1 := (feedback_Record m p (Some sample_analysis) (0%nat, Memory.NewMemory)).2 in
  let c3 := (feedback_ServeHTTP m (alertkey.ID p) "wrong" c1).2 in
  let ex := (Examples merge_newest m q c3).1 in
  (feedback_ServeHTTP m (alertkey.ID p) "wrong" c1).1.1 = 200 ∧
  (Z.of_nat (length ex) <= fewShot m) ∧
  (Z.of_nat (length ex) < fewShot m → MkExample "PodCrash" "wrong" (Some sample_analysis) ∈ ex).
Proof.
  intros HC m p q c1 c3 ex.
  eapply (feedback_is_replayed (HC := HC) merge_newest m p q sample_analysis "wrong"
    (feedback_Record m p (Some sample_analysis) (0%nat, Memory.NewMemory)).1
    (feedback_ServeHTTP m (alertkey.ID p) "wrong" c1).1 ex
    (0%nat, Memory.NewMemory) c1 c1 c3 c3 (Examples merge_newest m q c3).2);
    [reflexivity|vm_compute; reflexivity|reflexivity|reflexivity|reflexivity|by right|reflexivity|
     vm_compute; reflexivity|reflexivity|reflexivity|reflexivity|apply surjective_pairing|apply rtc_refl|
     apply surjective_pairing|apply Z.leb_le; vm_compute; reflexivity|apply rtc_refl|apply surjective_pairing|by intros []|
     apply Z.leb_le; vm_compute; reflexivity].
Defined.
