(* ===== verification/History.v ===== *)
(** * Incident history

    [internal/history/history.go]: one JSON record per incident in the store.
    [None] is the nil [*Store]; alerts are compared by pointer. *)
From S2P Require Import Prelude GoStrings Json Sha256 Proto Store Dedup Analysis Feedback.
From Stdlib Require Import Ascii.

Open Scope Z_scope.

Definition keyPrefix : string := "incident:".

Record Record_ := MkRecord {
  ID : string;
  R_ClusterID : string;
  R_AlertName : string;
  R_Namespace : string;
  R_Severity : string;
  R_FiredAt : Z;
  AlertCount : Z;
  RelatedAlerts : list string;
  R_Analysis : option Analysis;
  RecordedAt : Z;
}.

Record History := MkHistory { ttl : Duration }.

Definition history_New (ttl : Duration) : History :=
  MkHistory (if ttl <=? 0 then 30 * 24 * Hour else ttl).

(** [omitempty]. *)
Definition related_member (l : list string) : list (string * json) :=
  match l with [] => [] | _ => [("related_alerts", strings_json l)] end.
Definition analysis_member (a : option Analysis) : list (string * json) :=
  match a with None => [] | Some a => [("analysis", analysis_json a)] end.

Definition record_json (r : Record_) : json :=
  JObj ([("id", JStr (ID r)); ("cluster_id", JStr (R_ClusterID r)); ("alert_name", JStr (R_AlertName r));
         ("namespace", JStr (R_Namespace r)); ("severity", JStr (R_Severity r));
         ("fired_at", JNum (FormatInt (R_FiredAt r))); ("alert_count", JNum (FormatInt (AlertCount r)))] ++
        related_member (RelatedAlerts r) ++ analysis_member (R_Analysis r) ++
        [("recorded_at", JNum (FormatInt (RecordedAt r)))])%list.

Definition marshal_record (r : Record_) : string := json_print (record_json r).

Definition zero_record : Record_ := MkRecord "" "" "" "" "" 0 0 [] None 0.

Definition string_elem (v : json) : option string :=
  match v with JStr s => Some s | JNull => Some "" | _ => None end.

Definition record_fields : list (string * (json → Record_ → option Record_)) := [
  ("id", str_field (λ v r, MkRecord v (R_ClusterID r) (R_AlertName r) (R_Namespace r) (R_Severity r) (R_FiredAt r) (AlertCount r) (RelatedAlerts r) (R_Analysis r) (RecordedAt r)));
  ("cluster_id", str_field (λ v r, MkRecord (ID r) v (R_AlertName r) (R_Namespace r) (R_Severity r) (R_FiredAt r) (AlertCount r) (RelatedAlerts r) (R_Analysis r) (RecordedAt r)));
  ("alert_name", str_field (λ v r, MkRecord (ID r) (R_ClusterID r) v (R_Namespace r) (R_Severity r) (R_FiredAt r) (AlertCount r) (RelatedAlerts r) (R_Analysis r) (RecordedAt r)));
  ("namespace", str_field (λ v r, MkRecord (ID r) (R_ClusterID r) (R_AlertName r) v (R_Severity r) (R_FiredAt r) (AlertCount r) (RelatedAlerts r) (R_Analysis r) (RecordedAt r)));
  ("severity", str_field (λ v r, MkRecord (ID r) (R_ClusterID r) (R_AlertName r) (R_Namespace r) v (R_FiredAt r) (AlertCount r) (RelatedAlerts r) (R_Analysis r) (RecordedAt r)));
  ("fired_at", int_field (λ v r, MkRecord (ID r) (R_ClusterID r) (R_AlertName r) (R_Namespace r) (R_Severity r) v (AlertCount r) (RelatedAlerts r) (R_Analysis r) (RecordedAt r)));
  ("alert_count", int_field (λ v r, MkRecord (ID r) (R_ClusterID r) (R_AlertName r) (R_Namespace r) (R_Severity r) (R_FiredAt r) v (RelatedAlerts r) (R_Analysis r) (RecordedAt r)));
  ("related_alerts", slice_field string_elem (λ v r, MkRecord (ID r) (R_ClusterID r) (R_AlertName r) (R_Namespace r) (R_Severity r) (R_FiredAt r) (AlertCount r) v (R_Analysis r) (RecordedAt r)));
  ("analysis", ptr_field analysis_fields zero_analysis R_Analysis (λ v r, MkRecord (ID r) (R_ClusterID r) (R_AlertName r) (R_Namespace r) (R_Severity r) (R_FiredAt r) (AlertCount r) (RelatedAlerts r) v (RecordedAt r)));
  ("recorded_at", int_field (λ v r, MkRecord (ID r) (R_ClusterID r) (R_AlertName r) (R_Namespace r) (R_Severity r) (R_FiredAt r) (AlertCount r) (RelatedAlerts r) (R_Analysis r) v))
].

Definition unmarshal_record (raw : string) : option Record_ :=
  v ← json_parse raw; decode_struct record_fields zero_record v.

(** The record of an incident at the time [now]. *)
Definition incident_record (rep : ref AlertPayload) (analysis : option Analysis)
    (alerts : list (ref AlertPayload)) (now : Time) : Record_ :=
  let p := deref rep in
  let count := Z.of_nat (length alerts) in
  MkRecord (alertkey.ID p) (ClusterId p) (AlertName p) (Namespace p) (Severity p) (FiredAt p)
    (if count =? 0 then 1 else count)
    (map (λ a, AlertName (deref a)) (filter (λ a, ref_eqb a rep = false) alerts))
    analysis (Unix now).

Section history.
Context `{!Clock} {S : Type} `{!Store S}.

Definition history_Record (h : option History) (rep : option (ref AlertPayload))
    (analysis : option Analysis) (alerts : list (ref AlertPayload)) : M S unit :=
  match h, rep with
  | Some h, Some rep =>
      now ← time_Now;
      let rec := incident_record rep analysis alerts now in
      _ ← store_Set (keyPrefix +:+ ID rec) (marshal_record rec) (ttl h);
      mret tt
  | _, _ => mret tt
  end.

(** [Get]: the record, [ok], or an error of the store or of the decoder. *)
Definition history_Get (h : option History) (id : string) : M S (result string (option Record_)) :=
  match h with
  | None => mret (Ok None)
  | Some _ =>
      r ← store_Get (keyPrefix +:+ id);
      match r with
      | Err e => mret (Err e)
      | Ok None => mret (Ok None)
      | Ok (Some data) =>
          match unmarshal_record data with
          | None => mret (Err "decode")
          | Some rec => mret (Ok (Some rec))
          end
      end
  end.

Definition history_List (h : option History) : M S (result string (list Record_)) :=
  match h with
  | None => mret (Ok [])
  | Some _ =>
      r ← store_ListByPrefix keyPrefix;
      match r with
      | Err e => mret (Err e)
      | Ok vals => mret (Ok (omap unmarshal_record vals))
      end
  end.
End history.

(** ** Lemmas *)

Lemma mapM_string_elem l : mapM string_elem (map JStr l) = Some l.
Proof. induction l as [|s l IH]; [done|]. cbn [map mapM string_elem]. simpl. by rewrite IH. Qed.

Lemma strings_json_wf d l : forallb ValidString l = true → wf_json (S d) (strings_json l).
Proof.
  intros H. unfold strings_json. cbn [wf_json]. induction l as [|s l IH]; [done|].
  apply andb_true_iff in H as [Hs Hl]. cbn [map fold_right wf_json]. by split; [|apply IH].
Qed.

Definition record_utf8 (r : Record_) : bool :=
  forallb ValidString [ID r; R_ClusterID r; R_AlertName r; R_Namespace r; R_Severity r] &&
  forallb ValidString (RelatedAlerts r) &&
  match R_Analysis r with Some a => analysis_utf8 a | None => true end.

Definition record_ints (r : Record_) : Prop :=
  in_int64 (R_FiredAt r) ∧ in_int64 (AlertCount r) ∧ in_int64 (RecordedAt r).

Lemma decode_int {A} (fields : list (string * (json → A → option A))) k set z l a ok :
  find_field fields k = Some (int_field set) → in_int64 z →
  decode_members fields ((k, JNum (FormatInt z)) :: l) a ok = decode_members fields l (set z a) ok.
Proof.
  intros Hf Hz. cbn [decode_members]. rewrite Hf. unfold int_field. by rewrite ParseInt_FormatInt.
Qed.

Lemma decode_str {A} (fields : list (string * (json → A → option A))) k set s l a ok :
  find_field fields k = Some (str_field set) →
  decode_members fields ((k, JStr s) :: l) a ok = decode_members fields l (set s a) ok.
Proof. intros Hf. cbn [decode_members]. by rewrite Hf. Qed.

Lemma decode_strings {A} (fields : list (string * (json → A → option A))) k set ss l a ok :
  find_field fields k = Some (slice_field string_elem set) →
  decode_members fields ((k, strings_json ss) :: l) a ok = decode_members fields l (set ss a) ok.
Proof.
  intros Hf. cbn [decode_members]. rewrite Hf. unfold slice_field, strings_json. by rewrite mapM_string_elem.
Qed.

Lemma decode_analysis_json a : decode_struct analysis_fields zero_analysis (analysis_json a) = Some a.
Proof.
  destruct a as [a1 a2 a3 a4 a5 a6 a7 a8]. unfold analysis_json.
  cbn [A_Severity RootCause Evidence Action Confidence Grounding Silence SilenceReason].
  destruct (seqb a8 "") eqn:E; sbool; subst; reflexivity.
Qed.

Lemma decode_ptr_analysis {A} (fields : list (string * (json → A → option A))) k get set x l a ok :
  find_field fields k = Some (ptr_field analysis_fields zero_analysis get set) → get a = None →
  decode_members fields ((k, analysis_json x) :: l) a ok = decode_members fields l (set (Some x) a) ok.
Proof.
  intros Hf Hg. cbn [decode_members]. rewrite Hf. unfold ptr_field. rewrite Hg. cbn [default].
  pose proof (decode_analysis_json x) as E. unfold analysis_json in *. by rewrite E.
Qed.

(** The two optional members of a record. *)
Lemma decode_related rel l id cl al ns sev fa ac ok :
  decode_members record_fields
    (related_member rel ++ l)%list
    (MkRecord id cl al ns sev fa ac [] None 0) ok =
  decode_members record_fields l (MkRecord id cl al ns sev fa ac rel None 0) ok.
Proof. destruct rel as [|s rel]; [done|]. cbn [related_member app]. by erewrite decode_strings; [|reflexivity]. Qed.

Lemma decode_opt_analysis an l id cl al ns sev fa ac rel ok :
  decode_members record_fields
    (analysis_member an ++ l)%list
    (MkRecord id cl al ns sev fa ac rel None 0) ok =
  decode_members record_fields l (MkRecord id cl al ns sev fa ac rel an 0) ok.
Proof.
  destruct an as [a|]; [|done]. cbn [analysis_member app]. by erewrite decode_ptr_analysis; [|reflexivity|reflexivity].
Qed.

Lemma unmarshal_marshal_record r :
  record_utf8 r = true → record_ints r → unmarshal_record (marshal_record r) = Some r.
Proof.
  intros Hu (Hi1 & Hi2 & Hi3). unfold unmarshal_record, marshal_record. rewrite json_parse_print.
  - destruct r as [id cl al ns sev fa ac rel an ra]. cbn [R_FiredAt AlertCount RecordedAt] in *.
    unfold record_json. cbn [ID R_ClusterID R_AlertName R_Namespace R_Severity R_FiredAt AlertCount RelatedAlerts R_Analysis RecordedAt].
    cbn [mbind option_bind app]. unfold decode_struct.
    do 5 (erewrite decode_str; [|reflexivity]). do 2 (erewrite decode_int; [|reflexivity|assumption]).
    cbn [zero_record ID R_ClusterID R_AlertName R_Namespace R_Severity R_FiredAt AlertCount RelatedAlerts R_Analysis RecordedAt].
    rewrite (decode_related rel).
    rewrite (decode_opt_analysis an). erewrite decode_int; [|reflexivity|assumption]. reflexivity.
  - unfold record_utf8 in Hu. apply andb_true_iff in Hu as [Hu Ha]. apply andb_true_iff in Hu as [Hu Hr].
    simpl in Hu. repeat apply andb_true_iff in Hu as [? Hu].
    change maxNestingDepth with (S (S (pred (pred maxNestingDepth)))).
    generalize (pred (pred maxNestingDepth)) as d0. intros d0. unfold record_json.
    assert (∀ d l l', wf_json (S d) (JObj l) → wf_json (S d) (JObj l') → wf_json (S d) (JObj (l ++ l')%list)) as Happ.
    { intros d l l' Hl Hl'. cbn [wf_json] in *. induction l as [|kv l IH]; [done|].
      destruct Hl as [Hkv Hl]. split; [done|by apply IH]. }
    apply Happ; [cbn [wf_json fold_right fst snd]; split_and!; (done || apply number_FormatInt)|].
    apply Happ; [unfold related_member; destruct (RelatedAlerts r) eqn:E; [done|];
      cbn [wf_json fold_right fst snd]; split_and!; try done; by apply strings_json_wf|].
    apply Happ; [|cbn [wf_json fold_right fst snd]; split_and!; (done || apply number_FormatInt)].
    unfold analysis_member. destruct (R_Analysis r) as [a|]; [|done]. cbn [wf_json fold_right fst snd]. split_and!; try done.
    by apply (opt_analysis_wf _ (Some a)).
Qed.

(** ** Properties *)

(** An incident that is recorded can be looked up by the id that its
    feedback links carry, for as long as the record lives, and is read back
    whole: who it was about, how many alerts, which others, and the analysis. *)
Theorem history_roundtrip `{HC : !Clock} {S : Type} `{HS : !Store S, HSp : !StoreSpec S, HU : !StoreUp S}
    (h : History) (rep : ref AlertPayload) (analysis : option Analysis) (alerts : list (ref AlertPayload))
    (c0 c1 c2 c3 : nat * S) (o : result string (option Record_)) :
  let rec := incident_record rep analysis alerts (clk c0.1) in
  record_utf8 rec = true → record_ints rec →
  history_Record (Some h) (Some rep) analysis alerts c0 = (tt, c1) →
  rtc (evolves (keyPrefix +:+ alertkey.ID (deref rep))) c1 c2 →
  history_Get (Some h) (alertkey.ID (deref rep)) c2 = (o, c3) →
  ttl h ≠ KeepTTL → ttl h <= 0 ∨ clk c3.1 <= clk c0.1 + whole (ttl h) →
  o = Ok (Some rec).
Proof.
  destruct c0 as [n s], c2 as [n2 s2]. cbn [fst snd]. cbv zeta. intros Hu Hi Hrec Hev Hget Hk Hclk.
  unfold history_Record, mbind, M_bind, time_Now in Hrec. cbn [fst snd] in Hrec. revert Hrec.
  set (rec := incident_record _ _ _ _) in *. change (ID rec) with (alertkey.ID (deref rep)).
  set (key := keyPrefix +:+ alertkey.ID (deref rep)) in *.
  destruct (store_Set key (marshal_record rec) (ttl h) (Datatypes.S n, s)) as [r [n1 s1]] eqn:Es.
  pose proof (Set_up key (marshal_record rec) (ttl h) (Datatypes.S n, s)) as Hup. rewrite Es in Hup.
  destruct r as [[]|]; [|done]. apply Set_holds in Es as (te & Hte & Hh); [|done]. intros [= <-].
  apply (holds_until_star _ _ _ _ _ Hev) in Hh. revert Hget. unfold history_Get, mbind, M_bind. fold key.
  destruct (store_Get key (n2, s2)) as [r [n3 s3]] eqn:Eg.
  pose proof (Get_up key (n2, s2)) as Hup'. rewrite Eg in Hup'. destruct r as [d|]; [|done].
  intros Hg. assert (c3 = (n3, s3)) as ->.
  { destruct d as [d|]; [destruct (unmarshal_record d)|]; by injection Hg as _ <-. }
  assert (d = Some (marshal_record rec)) as ->.
  { eapply Get_held; [exact Hh| |exact Eg]. unfold expires. destruct (ttl h <=? 0) eqn:E; [done|].
    simpl in *. zbool. apply Z.leb_le. pose proof (clk_mono n (Datatypes.S n) ltac:(lia)). lia. }
  rewrite unmarshal_marshal_record in Hg by done. by injection Hg as <-.
Qed.

Lemma history_roundtrip_witness :
  let HC := unix_seconds_clock in
  let rep := Ref 1 (mk_alert "prod-a" "PodCrash" "warning" "shop" "web-1" "firing" 1 None) in
  let other := Ref 2 (mk_alert "prod-a" "OOM" "warning" "shop" "web-2" "firing" 1 None) in
  let h := history_New 0 in
  let c1 := (history_Record (Some h) (Some rep) (Some sample_analysis) [rep; other] (0%nat, Memory.NewMemory)).2 in
  (history_Get (Some h) (alertkey.ID (deref rep)) c1).1 =
    Ok (Some (incident_record rep (Some sample_analysis) [rep; other] (clk 0))).
Proof.
  intros HC rep other h c1.
  eapply (history_roundtrip (HC := HC) h rep (Some sample_analysis) [rep; other]
    (0%nat, Memory.NewMemory) c1 c1 (history_Get (Some h) (alertkey.ID (deref rep)) c1).2).
  - vm_compute. reflexivity.
  - unfold record_ints, in_int64. split_and!; apply Z.leb_le || apply Z.ltb_lt; vm_compute; reflexivity.
  - unfold c1. by destruct (history_Record _ _ _ _ _) as [[] ?].
  - apply rtc_refl.
  - apply surjective_pairing.
  - vm_compute. discriminate.
  - right. apply Z.leb_le. vm_compute. reflexivity.
Defined.
