(* ===== verification/SilenceClient.v ===== *)
(** * Silences

    [internal/silence/alertmanager.go]: the guards in front of AlertManager's
    silence API and the request itself. *)
From S2P Require Import Prelude GoStrings GoTime Json Proto Providers.
From Stdlib Require Import Ascii.

Open Scope Z_scope.

(** [allowed = None] is the nil map. *)
Record Client := MkClient {
  baseURL : string;
  duration : Duration;
  enabled : bool;
  allowed : option (gset string);
}.

Definition NewClient (baseURL : string) (duration : Duration) (enabled : bool) (allowlist : list string) : Client :=
  let allowed :=
    match allowlist with
    | [] => None
    | _ => Some (list_to_set (filter (λ name, name ≠ "") (map TrimSpace allowlist)))
    end in
  MkClient baseURL duration enabled allowed.

Record matcher := MkMatcher { M_Name : string; M_Value : string; IsRegex : bool; IsEqual : bool }.

Record silenceRequest := MkSilence {
  Matchers : list matcher;
  StartsAt : string;
  EndsAt : string;
  CreatedBy : string;
  Comment : string;
}.

Definition matcher_json (m : matcher) : json :=
  JObj [("name", JStr (M_Name m)); ("value", JStr (M_Value m)); ("isRegex", JBool (IsRegex m));
        ("isEqual", JBool (IsEqual m))].

Definition silence_json (r : silenceRequest) : json :=
  JObj [("matchers", JArr (map matcher_json (Matchers r))); ("startsAt", JStr (StartsAt r));
        ("endsAt", JStr (EndsAt r)); ("createdBy", JStr (CreatedBy r)); ("comment", JStr (Comment r))].

Definition silence_request (c : Client) (payload : AlertPayload) (reason : string) (now : Time) : silenceRequest :=
  MkSilence
    [MkMatcher "alertname" (AlertName payload) false true;
     MkMatcher "namespace" (Namespace payload) false true]
    (FormatRFC3339 now) (FormatRFC3339 (Add now (duration c))) "muthur-central" reason.

Section silence.
Context `{!Clock} {W : Type} `{!Net W}.

(** [None] is a nil error. *)
Definition CreateSilence (c : Client) (payload : AlertPayload) (reason : string) : M W (option string) :=
  if negb (enabled c) then mret None else
  if EqualFold (Severity payload) "critical" then mret None else
  if match allowed c with Some set => negb (bool_decide (AlertName payload ∈ set)) | None => false end
  then mret None else
  now ← time_Now;
  let data := json_print (silence_json (silence_request c payload reason now)) in
  let url := baseURL c +:+ "/api/v2/silences" in
  match request_error url with
  | Some e => mret (Some ("create silence request: " +:+ e))
  | None =>
      r ← http_do (MkRequest "POST" url [("Content-Type", "application/json")] data);
      match r with
      | Err e => mret (Some ("alertmanager API call: " +:+ e))
      | Ok resp =>
          if negb (StatusCode resp =? 200)
          then mret (Some ("alertmanager API returned " +:+ FormatInt (StatusCode resp)))
          else mret None
      end
  end.
End silence.

(** ** Properties *)

(** What AlertManager mutes with a request: the alerts whose labels satisfy
    every matcher. *)
Definition label (p : AlertPayload) (name : string) : string :=
  if seqb name "alertname" then AlertName p
  else if seqb name "namespace" then Namespace p
  else if seqb name "severity" then Severity p
  else if seqb name "pod" then PodName p
  else "".

Definition matches (p : AlertPayload) (m : matcher) : bool :=
  negb (IsRegex m) && Bool.eqb (IsEqual m) (seqb (label p (M_Name m)) (M_Value m)).

Definition mutes (r : silenceRequest) (p : AlertPayload) : bool := forallb (matches p) (Matchers r).

(** An alert the guards let through: silencing is on, the alert is not critical in
    any spelling, and a configured allowlist names it. *)
Definition admitted (c : Client) (p : AlertPayload) : Prop :=
  enabled c = true ∧ EqualFold (Severity p) "critical" = false ∧
  ∀ set, allowed c = Some set → AlertName p ∈ set.

(** C34: the guards in front of AlertManager, and what passes them: without an
    admission nothing is sent and nothing is wrong; with one, exactly one request is
    sent, unless the configured address is no URL, which is an error. The request is a
    POST to the silences API whose JSON matches the alert's name and namespace
    literally, from the clock's time on for the configured duration (in whole
    seconds), with the reason as comment; it succeeds exactly when the API answers
    200. *)
Theorem silence_guarded `{HC : !Clock} (refuses : string → option string)
    (answer : list http_request → result string http_response) (ended : list http_request → option string)
    (c : Client) (p : AlertPayload) (reason : string) (n n' : nat) (l l' : list http_request) (r : option string) :
  CreateSilence (Net0 := refusing_net refuses answer ended) c p reason (n, l) = (r, (n', l')) →
  let url := baseURL c +:+ "/api/v2/silences" in
  let equals name value :=
    JObj [("name", JStr name); ("value", JStr value); ("isRegex", JBool false); ("isEqual", JBool true)] in
  let body := json_print (JObj
    [("matchers", JArr [equals "alertname" (AlertName p); equals "namespace" (Namespace p)]);
     ("startsAt", JStr (FormatRFC3339 (clk n))); ("endsAt", JStr (FormatRFC3339 (clk n + duration c)));
     ("createdBy", JStr "muthur-central"); ("comment", JStr reason)]) in
  (¬ admitted c p → l' = l ∧ r = None) ∧
  (admitted c p →
    match refuses url with
    | Some e => l' = l ∧ r = Some ("create silence request: " +:+ e)
    | None => l' = (l ++ [MkRequest "POST" url [("Content-Type", "application/json")] body])%list ∧
        (r = None ↔ ∃ resp, answer l' = Ok resp ∧ StatusCode resp = 200)
    end).
Proof.
  unfold CreateSilence, admitted. cbv zeta. destruct (enabled c); cbn [negb].
  2: { intros [= <- _ <-]. by split; [|intros []]. }
  destruct (EqualFold _ _). { intros [= <- _ <-]. by split; [|intros (_ & ? & _)]. }
  destruct (match allowed c with Some set => _ | None => false end) eqn:Ea.
  { intros [= <- _ <-]. split; [done|]. intros (_ & _ & Hset). exfalso.
    destruct (allowed c) as [set|]; [|done]. apply negb_true_iff, bool_decide_eq_false in Ea. by apply Ea, Hset. }
  cbn [request_error refusing_net http_do]. munfold. mstep. intros H. split.
  { intros Hn. exfalso. apply Hn. split_and!; [done..|]. intros set Hset. rewrite Hset in Ea.
    apply negb_false_iff in Ea. by apply bool_decide_eq_true in Ea. }
  intros _. destruct (refuses _); [by injection H as <- _ <-|]. revert H. munfold. mstep.
  change (json_print _) with (json_print (silence_json (silence_request c p reason (clk n)))).
  set (req := MkRequest _ _ _ _). destruct (answer (l ++ [req])%list) as [resp|e] eqn:Er.
  - destruct (StatusCode resp =? 200) eqn:Es; zbool; intros [= <- _ <-]; (split; [done|]); rewrite Er; split; try done.
    + intros _. eauto.
    + intros (resp' & [= <-] & ?). lia.
  - intros [= <- _ <-]. split; [done|]. rewrite Er. split; [done|]. by intros (resp & ? & _).
Qed.

Definition sample_silence_client : Client := NewClient "http://alertmanager:9093" Hour true ["PodCrash"; " "].

Lemma silence_guarded_witness :
  let HC := unix_seconds_clock in
  let c := sample_silence_client in
  let p := mk_alert "prod-a" "PodCrash" "warning" "shop" "web-1" "firing" 1 None in
  let answer := λ _ : list http_request, Ok (E := string) (MkResponse 200 "") in
  let r := CreateSilence (Net0 := refusing_net (λ _, None) answer (λ _, None)) c p "noise" (0%nat, []) in
  let url := baseURL c +:+ "/api/v2/silences" in
  let equals name value :=
    JObj [("name", JStr name); ("value", JStr value); ("isRegex", JBool false); ("isEqual", JBool true)] in
  let body := json_print (JObj
    [("matchers", JArr [equals "alertname" (AlertName p); equals "namespace" (Namespace p)]);
     ("startsAt", JStr (FormatRFC3339 (clk 0))); ("endsAt", JStr (FormatRFC3339 (clk 0 + duration c)));
     ("createdBy", JStr "muthur-central"); ("comment", JStr "noise")]) in
  (¬ admitted c p → r.2.2 = [] ∧ r.1 = None) ∧
  (admitted c p → r.2.2 = ([] ++ [MkRequest "POST" url [("Content-Type", "application/json")] body])%list ∧
    (r.1 = None ↔ ∃ resp, answer r.2.2 = Ok resp ∧ StatusCode resp = 200)).
Proof.
  intros HC c p answer r.
  apply (silence_guarded (HC := HC) (λ _, None) answer (λ _, None) c p "noise" 0 r.2.1 [] r.2.2 r.1).
  subst r. by rewrite <- !surjective_pairing.
Defined.

(** The sample is admitted: the request goes out, for one hour. *)
Example silence_sent :
  let HC := unix_seconds_clock in
  let p := mk_alert "prod-a" "PodCrash" "warning" "shop" "web-1" "firing" 1 None in
  let double a := if Ascii.eqb a "'" then "034"%char else a in
  (CreateSilence (Net0 := refusing_net (λ _, None) (λ _, Ok (MkResponse 200 "")) (λ _, None))
     sample_silence_client p "noise" (0%nat, [])).2.2 =
  [MkRequest "POST" "http://alertmanager:9093/api/v2/silences" [("Content-Type", "application/json")] (map_string double
     "{'matchers':[{'name':'alertname','value':'PodCrash','isRegex':false,'isEqual':true},{'name':'namespace','value':'shop','isRegex':false,'isEqual':true}],'startsAt':'1970-01-01T00:00:00Z','endsAt':'1970-01-01T01:00:00Z','createdBy':'muthur-central','comment':'noise'}")].
Proof. vm_compute. reflexivity. Qed.

(** The matchers name neither severity nor cluster: the silence made for a
    warning also mutes the critical alert of the same name and namespace. *)
Lemma silence_mutes_critical c p q reason now :
  AlertName q = AlertName p → Namespace q = Namespace p →
  mutes (silence_request c p reason now) q = true.
Proof.
  intros E1 E2. unfold mutes, silence_request, matches, label. simpl. by rewrite E1, E2, !seqb_refl.
Qed.
