(* ===== verification/Notify.v ===== *)
(** * Notifications

    [internal/notify]: the message ([notifier.go]), its construction
    ([formatter.go]), the evidence ([evidence.go]) and the registry of receivers
    ([receiver.go]). The channels themselves are values of [Notifier]. *)
From S2P Require Import Prelude GoStrings GoTime Json Fmt Proto Analysis.
From Stdlib Require Import Ascii SpecFloat.

Open Scope Z_scope.

(** ** Messages *)

Record Incident := MkIncident { Incident_Alerts : list (ref AlertPayload) }.

(** A notifier is never given a nil payload. *)
Record Message := MkMsg {
  Payload : ref AlertPayload;
  Msg_Analysis : option Analysis;
  GrafanaURL : string;
  Msg_Incident : option Incident;
  FeedbackUpURL : string;
  FeedbackDownURL : string;
  EvidenceLogs : list string;
  EvidenceMetrics : list string;
}.

Record Notifier (W : Type) := MkNotifier {
  Notifier_Name : string;
  Send : Message → M W (option string);
}.
Arguments MkNotifier {W}. Arguments Notifier_Name {W}. Arguments Send {W}.

Definition HasEvidence (m : Message) : bool :=
  match EvidenceLogs m, EvidenceMetrics m with [], [] => false | _, _ => true end.

Definition IsIncident (m : Message) : bool :=
  match Msg_Incident m with Some i => (1 <? length (Incident_Alerts i))%nat | None => false end.

Definition summary_line (a : AlertPayload) : string :=
  AlertName a +:+ (if negb (seqb (Namespace a) "") then " (ns: " +:+ Namespace a +:+ ")" else "").

(** The loop skips the representative by pointer. *)
Definition RelatedSummaries (m : Message) : list string :=
  if negb (IsIncident m) then [] else
  match Msg_Incident m with
  | Some i => map (λ a, summary_line (deref a))
                (filter (λ a, ref_eqb a (Payload m) = false) (Incident_Alerts i))
  | None => []
  end.

Definition ConfidenceLine (m : Message) : string :=
  match Msg_Analysis m with
  | None => ""
  | Some a =>
      let conf := Confidence a in
      let ground := Grounding a in
      if negb (seqb conf "") && negb (seqb ground "") then conf +:+ " confidence · " +:+ ground
      else if negb (seqb conf "") then conf +:+ " confidence"
      else ground
  end.

Definition HasFeedback (m : Message) : bool :=
  negb (seqb (FeedbackUpURL m) "") && negb (seqb (FeedbackDownURL m) "").

Definition Resolved (m : Message) : bool := seqb (Status (deref (Payload m))) "resolved".

Definition Msg_Severity (m : Message) : string :=
  let s := Severity (deref (Payload m)) in
  if seqb s "critical" || seqb s "warning" || seqb s "info" then s else "info".

Definition upper_byte (a : ascii) : ascii :=
  let z := Z_of_byte a in if (97 <=? z) && (z <=? 122) then byte_of_Z (z - 32) else a.

Definition upper (s : string) : string := map_string upper_byte s.

Definition Title (m : Message) : string :=
  let prefix := if Resolved m then "[RESOLVED]" else "[" +:+ upper (Msg_Severity m) +:+ "]" in
  prefix +:+ " " +:+ ClusterId (deref (Payload m)) +:+ " / " +:+ AlertName (deref (Payload m)).

(** ** Construction *)

(** [url.QueryEscape]. *)
Definition unreserved (a : ascii) : bool :=
  let z := Z_of_byte a in
  in_range 48 57 a || in_range 65 90 a || in_range 97 122 a ||
  (z =? 45) || (z =? 95) || (z =? 46) || (z =? 126).

Definition hex_upper (n : Z) : ascii := if n <? 10 then byte_of_Z (48 + n) else byte_of_Z (55 + n).

Fixpoint QueryEscape (s : string) : string :=
  match s with
  | EmptyString => EmptyString
  | String a s =>
      let z := Z_of_byte a in
      if z =? 32 then String "+" (QueryEscape s)
      else if unreserved a then String a (QueryEscape s)
      else String "%" (String (hex_upper (z / 16)) (String (hex_upper (z mod 16)) (QueryEscape s)))
  end.

(** [url.Values.Encode] writes the keys in sorted order: "left", "orgId". *)
Definition buildGrafanaURL (payload : AlertPayload) : string :=
  if seqb (GrafanaBaseUrl payload) "" then "" else
  let q s := dqs +:+ s +:+ dqs in
  let left := "[" +:+ q "now-1h" +:+ "," +:+ q "now" +:+ "," +:+ q "Loki" +:+ ",{" +:+ q "expr" +:+ ":" +:+
    q ("{namespace=\" +:+ dqs +:+ Namespace payload +:+ "\" +:+ dqs +:+ ", pod=\" +:+ dqs +:+
       PodName payload +:+ "\" +:+ dqs +:+ "}") +:+ "}]" in
  TrimRight (GrafanaBaseUrl payload) "/" +:+ "/explore?left=" +:+ QueryEscape left +:+ "&orgId=1".

Definition FormatMessage (payload : ref AlertPayload) (analysis : option Analysis) : Message :=
  MkMsg payload analysis (buildGrafanaURL (deref payload)) None "" "" [] [].

Definition FormatIncidentMessage (representative : ref AlertPayload) (alerts : list (ref AlertPayload))
    (analysis : option Analysis) : Message :=
  MkMsg representative analysis (buildGrafanaURL (deref representative)) (Some (MkIncident alerts)) "" "" [] [].

Definition targetLine (payload : AlertPayload) : string :=
  match Target payload with
  | None => ""
  | Some t =>
      TargetType t +:+
      (if negb (seqb (Target_PodName t) "") then " / " +:+ Target_PodName t
       else if negb (seqb (Deployment t) "") then " / " +:+ Deployment t
       else if negb (seqb (Daemonset t) "") then " / " +:+ Daemonset t
       else if negb (seqb (Node t) "") then " / " +:+ Node t
       else if negb (seqb (Pvc t) "") then " / " +:+ Pvc t
       else "")
  end.

Fixpoint first_restarts (l : list PodMeta) : string :=
  match l with
  | [] => ""
  | pm :: l => if 0 <? RestartCount pm then FormatInt (RestartCount pm) +:+ " restarts" else first_restarts l
  end.

Definition restartInfo (payload : AlertPayload) : string := first_restarts (PodMetas payload).

(** ** Evidence *)

Record EvidenceConfig := MkEvidenceConfig { Ev_Enabled : bool; LogLines : Z }.

Definition maxEvidenceLogLineLen : Z := 200.

(** The cut is in bytes, whatever rune it falls into. *)
Definition evidence_line (l : string) : option string :=
  let l := TrimRight l (nl +:+ String "013" (String "009" " ")) in
  if seqb l "" then None
  else if maxEvidenceLogLineLen <? len l then Some (take_bytes 200 l +:+ "…") else Some l.

Definition evidenceLogs (payload : AlertPayload) (n : Z) : list string :=
  if (n <=? 0) || match RedactedLogs payload with [] => true | _ => false end then [] else
  let lines := RedactedLogs payload in
  let lines := if n <? Z.of_nat (length lines) then drop (length lines - Z.to_nat n) lines else lines in
  omap evidence_line lines.

Definition shortMetricName (name : string) : string :=
  if HasPrefix name "container_" then TrimPrefix name "container_"
  else if HasPrefix name "node_" then TrimPrefix name "node_"
  else if HasPrefix name "kube_" then TrimPrefix name "kube_"
  else if HasPrefix name "kubelet_" then TrimPrefix name "kubelet_"
  else name.

(** The loop of [humanBytes]: at most four divisions by 1024. *)
Fixpoint scale_bytes (fuel : nat) (val : spec_float) (exp : nat) : spec_float * nat :=
  match fuel with
  | O => (val, exp)
  | S fuel =>
      if SFleb (f64_of_Z 1024) val then scale_bytes fuel (f64_div val (f64_of_Z 1024)) (S exp)
      else (val, exp)
  end.

Definition unit_letter (exp : nat) : string :=
  match exp with 1%nat => "K" | 2%nat => "M" | 3%nat => "G" | _ => "T" end.

(** Go panics on the unit of a NaN, which no comparison stops: [None]. *)
Definition humanBytes (v : spec_float) : option string :=
  if SFltb v (f64_of_Z 1024) then Some (format_fixed 0 v +:+ "B") else
  let '(val, exp) := scale_bytes 4 v 0 in
  match exp with
  | O => None
  | _ => Some (format_fixed 1 val +:+ unit_letter exp +:+ "iB")
  end.

Section evidence.
(** [int64(v)] for a value outside the range of [int64] depends on the
    machine. *)
Context (int64_outside : spec_float → Z).

Definition int64_of (v : spec_float) : Z :=
  match v with
  | S754_nan | S754_infinity _ => int64_outside v
  | _ => let z := f64_trunc v in if in_int64b z then z else int64_outside v
  end.

Definition fmtMetricValue (unit : string) (v : spec_float) : option string :=
  if seqb unit "bytes" then humanBytes v
  else if seqb unit "percent" then Some (format_fixed 1 v +:+ "%")
  else if seqb unit "seconds" then Some (format_fixed 2 v +:+ "s")
  else if SFeqb v (f64_of_Z (int64_of v)) then Some (FormatInt (int64_of v))
  else Some (format_fixed 2 v).

(** The first loop, with the facts found so far; [None] when it panics. *)
Fixpoint metric_facts (l : list MetricSeries) (facts : list string) : option (list string) :=
  match l with
  | [] => Some facts
  | series :: l =>
      match last (Points series) with
      | None => metric_facts l facts
      | Some p =>
          v ← fmtMetricValue (Unit series) (Value p);
          let facts := (facts ++ [shortMetricName (MetricName series) +:+ ": " +:+ v])%list in
          if (4 <=? length facts)%nat then Some facts else metric_facts l facts
      end
  end.

Definition pod_facts (l : list PodMeta) : list string :=
  match l with
  | [] => []
  | pm :: _ =>
      ((if (0 <? RestartCount pm)%Z then ["restarts: " +:+ FormatInt (RestartCount pm)] else []) ++
       (if negb (seqb (MemoryLimit pm) "") then ["memory limit: " +:+ MemoryLimit pm] else []) ++
       (if negb (seqb (Phase pm) "") && negb (seqb (Phase pm) "Running") then ["phase: " +:+ Phase pm] else []))%list
  end.

Definition evidenceMetrics (payload : AlertPayload) : option (list string) :=
  facts ← metric_facts (Metrics payload) [];
  Some (facts ++ pod_facts (PodMetas payload))%list.

(** The message with its evidence; [None] when a metric value panics. *)
Definition AttachEvidence (msg : Message) (payload : AlertPayload) (cfg : EvidenceConfig) : option Message :=
  if negb (Ev_Enabled cfg) then Some msg else
  let logs := evidenceLogs payload (LogLines cfg) in
  facts ← evidenceMetrics payload;
  Some (MkMsg (Payload msg) (Msg_Analysis msg) (GrafanaURL msg) (Msg_Incident msg) (FeedbackUpURL msg)
          (FeedbackDownURL msg) logs facts).
End evidence.

(** ** Receivers *)

Record ReceiverConfig := MkReceiver { Rc_Name : string; Rc_Type : string; Rc_Config : gmap string string }.

Section receivers.
Context {W : Type}.
(** The factories of the built-in types, and the files of the receivers'
    secrets ([Err] is the error of [os.ReadFile]). *)
Context (factories : gmap string (string → gmap string string → result string (Notifier W))).
Context (read_file : string → result string string).

(** [resolveConfig] over the entries of the map in the order Go visits them. *)
Fixpoint resolve_entries (l : list (string * string)) (out : gmap string string) :
    result string (gmap string string) :=
  match l with
  | [] => Ok out
  | (k, v) :: l =>
      if HasSuffix k "_file" then
        let baseKey := TrimSuffix k "_file" in
        match read_file v with
        | Err e => Err ("read secret file for " +:+ baseKey +:+ ": " +:+ e)
        | Ok data => resolve_entries l (<[baseKey := TrimRight data (" " +:+ String "009" (String "013" nl))]> out)
        end
      else resolve_entries l (<[k := v]> out)
  end.

(** [order] is the order of the map's iteration. *)
Definition resolveConfig (order : list (string * string) → list (string * string))
    (cfg : gmap string string) : result string (gmap string string) :=
  resolve_entries (order (map_to_list cfg)) ∅.

Context (order : list (string * string) → list (string * string)).

Fixpoint build_receivers (configs : list ReceiverConfig) (seen : gset string)
    (out : gmap string (Notifier W)) : result string (gmap string (Notifier W)) :=
  match configs with
  | [] => Ok out
  | rc :: configs =>
      if seqb (Rc_Name rc) "" then build_receivers configs seen out else
      if bool_decide (Rc_Name rc ∈ seen) then Err (Rc_Name rc) else
      let seen := {[Rc_Name rc]} ∪ seen in
      match factories !! Rc_Type rc with
      | None => build_receivers configs seen out
      | Some factory =>
          match resolveConfig order (Rc_Config rc) with
          | Err _ => build_receivers configs seen out
          | Ok resolved =>
              match factory (Rc_Name rc) resolved with
              | Err _ => build_receivers configs seen out
              | Ok n => build_receivers configs seen (<[Rc_Name rc := n]> out)
              end
          end
      end
  end.

Definition BuildReceivers (configs : list ReceiverConfig) : result string (gmap string (Notifier W)) :=
  build_receivers configs ∅ ∅.
End receivers.

(** ** The evidence is bounded *)

Definition is_nan (v : spec_float) : bool := match v with S754_nan => true | _ => false end.

Lemma SFleb_of_not_ltb m e v :
  is_nan v = false → SFltb v (S754_finite false m e) = false → SFleb (S754_finite false m e) v = true.
Proof.
  unfold SFltb, SFleb, SFcompare. destruct v as [|[]| |[] m' e']; try done. intros _.
  rewrite (Z.compare_antisym e' e). destruct (e' ?= e)%Z eqn:He; cbn; try done.
  change (Pos.compare_cont Eq m' m) with (m' ?= m)%positive.
  change (Pos.compare_cont Eq m m') with (m ?= m')%positive.
  rewrite (Pos.compare_antisym m' m). by destruct (m' ?= m)%positive.
Qed.

Lemma scale_bytes_ge fuel v exp : (exp ≤ (scale_bytes fuel v exp).2)%nat.
Proof.
  revert v exp. induction fuel as [|fuel IH]; intros v exp; cbn; [done|].
  destruct (SFleb _ v); [|done]. etrans; [|apply IH]. lia.
Qed.

Lemma SFleb_1024 v : is_nan v = false → SFltb v (f64_of_Z 1024) = false → SFleb (f64_of_Z 1024) v = true.
Proof.
  assert (∃ m e, f64_of_Z 1024 = S754_finite false m e) as (m & e & ->) by (vm_compute; eauto).
  apply SFleb_of_not_ltb.
Qed.

Lemma humanBytes_total v : is_nan v = false → is_Some (humanBytes v).
Proof.
  intros Hv. unfold humanBytes. destruct (SFltb v (f64_of_Z 1024)) eqn:Hlt; [eauto|].
  change (scale_bytes 4 v 0) with
    (if SFleb (f64_of_Z 1024) v then scale_bytes 3 (f64_div v (f64_of_Z 1024)) 1 else (v, 0%nat)).
  rewrite (SFleb_1024 v Hv Hlt).
  pose proof (scale_bytes_ge 3 (f64_div v (f64_of_Z 1024)) 1) as Hge.
  destruct (scale_bytes 3 _ 1) as [val [|exp]]; cbn in Hge; [lia | eauto].
Qed.

Lemma fmtMetricValue_total i unit v :
  (unit = "bytes" → is_nan v = false) → is_Some (fmtMetricValue i unit v).
Proof.
  intros Hv. unfold fmtMetricValue. destruct (seqb unit "bytes") eqn:Hu; sbool; [apply humanBytes_total; auto|].
  code_cases; eauto.
Qed.

(** The latest value of a series is not the NaN that [humanBytes] panics on. *)
Definition renderable (series : MetricSeries) : Prop :=
  ∀ p, last (Points series) = Some p → Unit series = "bytes" → is_nan (Value p) = false.

Lemma metric_facts_total i l facts : Forall renderable l → is_Some (metric_facts i l facts).
Proof.
  intros H. revert facts. induction H as [|series l Hs _ IH]; intros facts; cbn; [eauto|].
  destruct (last (Points series)) as [p|] eqn:Hp; [|done].
  destruct (fmtMetricValue_total i (Unit series) (Value p) (Hs p Hp)) as [v ->]. cbn.
  code_cases; eauto.
Qed.

Lemma metric_facts_length i l facts facts' :
  (length facts ≤ 3)%nat → metric_facts i l facts = Some facts' → (length facts' ≤ 4)%nat.
Proof.
  revert facts. induction l as [|series l IH]; intros facts Hlen; cbn -[Nat.leb]; [intros [= ->]; lia|].
  destruct (last _) as [p|]; [|by apply IH].
  destruct (fmtMetricValue _ _ _) as [v|]; [cbn -[Nat.leb]|done].
  rewrite length_app. cbn [length]. destruct (4 <=? _)%nat eqn:H4.
  - intros [= <-]. rewrite length_app. cbn. lia.
  - apply IH. rewrite length_app. cbn. apply Nat.leb_gt in H4. lia.
Qed.

Lemma pod_facts_length l : (length (pod_facts l) ≤ 3)%nat.
Proof. destruct l as [|pm l]; cbn; [lia|]. rewrite !length_app. code_cases; cbn; lia. Qed.

Lemma omap_length {A B} (f : A → option B) l : (length (omap f l) ≤ length l)%nat.
Proof. induction l as [|x l IH]; cbn; [lia|]. destruct (f x); cbn; lia. Qed.

Lemma length_substring n s : (String.length (String.substring 0 n s) ≤ n)%nat.
Proof. revert s. induction n as [|n IH]; intros [|a s]; cbn; try lia. specialize (IH s). lia. Qed.

Lemma length_string_app s t : String.length (s +:+ t) = (String.length s + String.length t)%nat.
Proof. induction s as [|a s IH]; cbn; [done|]. by rewrite IH. Qed.

Lemma evidence_line_bounded l l' : evidence_line l = Some l' → l' ≠ "" ∧ len l' <= 203.
Proof.
  unfold evidence_line, len, maxEvidenceLogLineLen. set (t := TrimRight _ _).
  destruct (seqb t "") eqn:Ht; [done|]. sbool. destruct (200 <? _) eqn:Hl; intros [= <-]; zbool; [|split; [done|lia]].
  unfold take_bytes. rewrite length_string_app. pose proof (length_substring 200 t). cbn [String.length]. split; [|lia].
  intros Hnil%(f_equal String.length). rewrite length_string_app in Hnil. cbn in Hnil. lia.
Qed.

Lemma evidenceLogs_tail payload n :
  ∃ k, evidenceLogs payload n = omap evidence_line (drop k (RedactedLogs payload)) ∧
       Z.of_nat (length (drop k (RedactedLogs payload))) <= Z.max 0 n.
Proof.
  unfold evidenceLogs. destruct (n <=? 0) eqn:Hn; zbool; cbn.
  - exists (length (RedactedLogs payload)). rewrite drop_all. split; [done|cbn; lia].
  - destruct (RedactedLogs payload) as [|l ls] eqn:Hl; [exists 0%nat; split; [done|cbn; lia]|].
    rewrite <- Hl. destruct (n <? _) eqn:Hlt; zbool; [eexists; split; [done|]; rewrite length_drop; lia|].
    exists 0%nat. rewrite drop_0. split; [done|lia].
Qed.

Lemma AttachEvidence_total i msg payload cfg :
  Forall renderable (Metrics payload) →
  ∃ msg', AttachEvidence i msg payload cfg = Some msg' ∧
    (Payload msg', Msg_Analysis msg', GrafanaURL msg', Msg_Incident msg', FeedbackUpURL msg', FeedbackDownURL msg') =
      (Payload msg, Msg_Analysis msg, GrafanaURL msg, Msg_Incident msg, FeedbackUpURL msg, FeedbackDownURL msg).
Proof.
  intros Hr. unfold AttachEvidence. destruct (Ev_Enabled cfg); cbn [negb]; [|by exists msg].
  destruct (metric_facts_total i (Metrics payload) [] Hr) as [facts Hf].
  unfold evidenceMetrics. rewrite Hf. cbn. by eexists.
Qed.

(** The evidence attached to a notification is bounded whatever the alert
    carries: when enabled, it is at most [LogLines] log lines, the last ones of
    the alert, each not blank and of at most 200 bytes and an ellipsis, and at
    most seven facts; nothing else of the message changes; and the code does not
    panic as long as no series in bytes ends with a NaN. *)
Theorem evidence_bounded (i : spec_float → Z) (msg : Message) (payload : AlertPayload) (cfg : EvidenceConfig)
    (Hrender : Forall renderable (Metrics payload)) :
  ∃ msg', AttachEvidence i msg payload cfg = Some msg' ∧
    (Payload msg', Msg_Analysis msg', GrafanaURL msg', Msg_Incident msg', FeedbackUpURL msg', FeedbackDownURL msg') =
      (Payload msg, Msg_Analysis msg, GrafanaURL msg, Msg_Incident msg, FeedbackUpURL msg, FeedbackDownURL msg) ∧
    (Ev_Enabled cfg = false → msg' = msg) ∧
    (Ev_Enabled cfg = true →
      (∃ k, EvidenceLogs msg' = omap evidence_line (drop k (RedactedLogs payload))) ∧
      Z.of_nat (length (EvidenceLogs msg')) <= Z.max 0 (LogLines cfg) ∧
      Forall (λ l, l ≠ "" ∧ len l <= 203) (EvidenceLogs msg') ∧
      (length (EvidenceMetrics msg') ≤ 7)%nat).
Proof.
  unfold AttachEvidence. destruct (Ev_Enabled cfg); cbn [negb]; [|by exists msg].
  destruct (metric_facts_total i (Metrics payload) [] Hrender) as [facts Hf].
  unfold evidenceMetrics. rewrite Hf. cbn. eexists. split_and!; [done..|]. intros _. cbn.
  destruct (evidenceLogs_tail payload (LogLines cfg)) as (k & Hk & Hlen).
  pose proof (omap_length evidence_line (drop k (RedactedLogs payload))).
  rewrite Hk. split_and!; [eauto|lia| |].
  - apply Forall_forall. intros l (x & _ & Hx)%list_elem_of_omap. by eapply evidence_line_bounded.
  - rewrite length_app. pose proof (metric_facts_length i _ [] facts ltac:(cbn; lia) Hf).
    pose proof (pod_facts_length (PodMetas payload)). lia.
Qed.

Definition evidence_alert : AlertPayload :=
  MkAlertPayload "prod-a" "PodCrash" "critical" "shop" "web-1" 1 "" "" None
    ["starting"; "  "; "panic: nil map"]
    [MkMetricSeries "container_memory_working_set_bytes" "" "bytes" [MkDataPoint 0 (f64_of_Z 1048576)]]
    [] [] 0 0 0 "firing" "" [].

Lemma evidence_bounded_witness :
  let msg := FormatMessage (Ref 1%N evidence_alert) None in
  let cfg := MkEvidenceConfig true 5 in
  ∃ msg', AttachEvidence (λ _, 0) msg evidence_alert cfg = Some msg' ∧
    (Payload msg', Msg_Analysis msg', GrafanaURL msg', Msg_Incident msg', FeedbackUpURL msg', FeedbackDownURL msg') =
      (Payload msg, Msg_Analysis msg, GrafanaURL msg, Msg_Incident msg, FeedbackUpURL msg, FeedbackDownURL msg) ∧
    (Ev_Enabled cfg = false → msg' = msg) ∧
    (Ev_Enabled cfg = true →
      (∃ k, EvidenceLogs msg' = omap evidence_line (drop k (RedactedLogs evidence_alert))) ∧
      Z.of_nat (length (EvidenceLogs msg')) <= Z.max 0 (LogLines cfg) ∧
      Forall (λ l, l ≠ "" ∧ len l <= 203) (EvidenceLogs msg') ∧
      (length (EvidenceMetrics msg') ≤ 7)%nat).
Proof.
  intros msg cfg. apply (evidence_bounded (λ _, 0) msg evidence_alert cfg).
  repeat constructor. by intros p [= <-].
Defined.

(** A series in bytes whose latest value is NaN panics. *)
Lemma nan_bytes_panics i msg p label series metrics cfg :
  Ev_Enabled cfg = true → Metrics p = MkMetricSeries label series "bytes" [MkDataPoint 0 S754_nan] :: metrics →
  AttachEvidence i msg p cfg = None.
Proof. intros He Hm. unfold AttachEvidence, evidenceMetrics. by rewrite He, Hm. Qed.
