(* ===== verification/Channels.v ===== *)
(** * Notification channels: JSON over HTTP

    [internal/notify]: the rendering of a message for Discord, Slack, a generic
    webhook and PagerDuty ([discord.go], [slack.go], [webhook.go],
    [pagerduty.go]), and how each posts it. The payload of a message is never
    nil, so the branches for a nil one are left out. *)
From stdpp Require Import sorting.
From S2P Require Import Prelude GoStrings GoTime Json Fmt Proto Analysis Providers Notify.
From Stdlib Require Import Ascii.

Open Scope Z_scope.

(** ** Shared helpers *)

(** [truncate]. *)
Definition truncate (s : string) (n : Z) : string :=
  if len s <=? n then s
  else if n <=? 3 then take_bytes (Z.to_nat n) s
  else take_bytes (Z.to_nat (n - 3)) s +:+ "...".

Definition safe (s : string) : string := if seqb s "" then "-" else s.

(** [omitempty] on a string field, and on a list of strings. *)
Definition omit_str (k v : string) : list (string * json) := if seqb v "" then [] else [(k, JStr v)].
Definition omit_strs (k : string) (v : list string) : list (string * json) :=
  match v with [] => [] | _ => [(k, JArr (map JStr v))] end.

(** [json.Marshal] of a map writes its keys in order. *)
Definition key_le (x y : string * json) : Prop := String.leb x.1 y.1 = true.
#[export] Instance key_le_dec : RelDecision key_le.
Proof. unfold key_le. solve_decision. Defined.
Definition JMap (m : gmap string json) : json := JObj (merge_sort key_le (map_to_list m)).

Definition fired_at (p : AlertPayload) : string := FormatRFC3339 (time_Unix (FiredAt p)).

(** [strings.Join(l, nl + "• ")] after a first bullet. *)
Definition bulleted (l : list string) : string := "• " +:+ Join l (nl +:+ "• ").

Definition get_cfg (cfg : gmap string string) (k : string) : string := default "" (cfg !! k).

Section post.
Context {W : Type} `{!Net W}.

(** The common end of every [Send]: build the request, do it, look at the
    response; the three texts are those of the errors. [None] is a nil error. *)
Definition post_json (create call : string) (url data : string) (refuse : http_response → option string) :
    M W (option string) :=
  match request_error url with
  | Some e => mret (Some (create +:+ e))
  | None =>
      r ← http_do (MkRequest "POST" url [("Content-Type", "application/json")] data);
      match r with
      | Err e => mret (Some (call +:+ e))
      | Ok resp => mret (refuse resp)
      end
  end.
End post.

(** ** Discord *)

Module Discord.

Definition colorCritical : Z := 0xED4245.
Definition colorWarning : Z := 0xFAA61A.
Definition colorInfo : Z := 0x5865F2.
Definition colorResolved : Z := 0x57F287.

Record embedField := MkField { Name : string; Value : string; Inline : bool }.

Record embed := MkEmbed {
  Title_ : string;
  Description_ : string;
  URL_ : string;
  Color : Z;
  Fields : list embedField;
  Footer : option string;
  Timestamp_ : string;
}.

Definition field_json (f : embedField) : json :=
  JObj ([("name", JStr (Name f)); ("value", JStr (Value f))] ++ (if Inline f then [("inline", JBool true)] else []))%list.

Definition embed_json (e : embed) : json :=
  JObj (omit_str "title" (Title_ e) ++ omit_str "description" (Description_ e) ++ omit_str "url" (URL_ e) ++
    [("color", JNum (FormatInt (Color e)))] ++
    match Fields e with [] => [] | l => [("fields", JArr (map field_json l))] end ++
    match Footer e with None => [] | Some t => [("footer", JObj [("text", JStr t)])] end ++
    omit_str "timestamp" (Timestamp_ e))%list.

Definition color (msg : Message) : Z :=
  if Resolved msg then colorResolved
  else if seqb (Msg_Severity msg) "critical" then colorCritical
  else if seqb (Msg_Severity msg) "warning" then colorWarning
  else colorInfo.

Definition description (msg : Message) : string :=
  let p := deref (Payload msg) in
  truncate
    (if Resolved msg then "Alert has cleared."
     else match Msg_Analysis msg with
          | Some a => if negb (seqb (RootCause a) "") then RootCause a else Summary p
          | None => Summary p
          end) 4000.

(** The fields, in the order the code appends them. *)
Definition structural (msg : Message) : list embedField :=
  let p := deref (Payload msg) in
  ([MkField "Cluster" (safe (ClusterId p)) true; MkField "Severity" (safe (Msg_Severity msg)) true] ++
  (if negb (seqb (Namespace p) "") then [MkField "Namespace" (Namespace p) true] else []) ++
  (if negb (seqb (targetLine p) "") then [MkField "Target" (targetLine p) false] else []) ++
  (if negb (seqb (restartInfo p) "") then [MkField "Pod state" (restartInfo p) true] else []))%list.

Definition ai (msg : Message) : list embedField :=
  match Msg_Analysis msg with
  | Some a =>
      if Resolved msg then [] else
      ((if negb (seqb (Analysis.Evidence a) "")
        then [MkField "Evidence" (truncate (Analysis.Evidence a) 1024) false] else []) ++
       (if negb (seqb (Action a) "") then [MkField "Recommended action" (truncate (Action a) 1024) false] else []) ++
       (if negb (seqb (ConfidenceLine msg) "") then [MkField "Confidence" (ConfidenceLine msg) true] else []))%list
  | None => []
  end.

Definition evidence_text (msg : Message) : string :=
  (match EvidenceMetrics msg with [] => "" | l => Join l "  ·  " +:+ nl end) +:+
  (match EvidenceLogs msg with [] => "" | l => "```" +:+ nl +:+ Join l nl +:+ nl +:+ "```" end).

Definition buildDiscordEmbed (msg : Message) : embed :=
  let p := deref (Payload msg) in
  let related := RelatedSummaries msg in
  let fields := (structural msg ++ ai msg ++
    (if HasEvidence msg then [MkField "📊 Evidence" (truncate (evidence_text msg) 1024) false] else []) ++
    (match related with
     | [] => []
     | _ => [MkField ("Related alerts (" +:+ FormatInt (Z.of_nat (length related)) +:+ ")")
               (truncate (bulleted related) 1024) false]
     end) ++
    (if HasFeedback msg
     then [MkField "Was this analysis helpful?"
             ("[👍 Useful](" +:+ FeedbackUpURL msg +:+ ")  •  [👎 Wrong](" +:+ FeedbackDownURL msg +:+ ")") false]
     else []))%list in
  MkEmbed (Title msg) (description msg) (GrafanaURL msg) (color msg) fields
    (if negb (seqb (GrafanaURL msg) "") then Some "Click title to open in Grafana" else None)
    (if 0 <? FiredAt p then fired_at p else "").

Definition payload_json (msg : Message) : string :=
  json_print (JObj [("embeds", JArr [embed_json (buildDiscordEmbed msg)])]).

Section send.
Context {W : Type} `{!Net W}.

Definition Send (webhookURL : string) (msg : Message) : M W (option string) :=
  post_json "create discord request: " "discord API call: " webhookURL (payload_json msg) (λ resp,
    if negb (StatusCode resp =? 204) && negb (StatusCode resp =? 200)
    then Some ("discord API returned " +:+ FormatInt (StatusCode resp)) else None).

Definition newDiscord (name : string) (cfg : gmap string string) : result string (Notifier W) :=
  let url := get_cfg cfg "webhook_url" in
  if seqb url "" then Err "discord: webhook_url is required" else Ok (MkNotifier name (Send url)).
End send.
End Discord.

(** ** Slack *)

Module Slack.

Record text := MkText { Type_ : string; Text : string }.

Record block := MkBlock {
  Block_Type : string;
  Block_Text : option text;
  Block_Fields : list text;
  Elements : list text;
}.

Record attachment := MkAttachment { Color : string; Blocks : list block }.

Definition text_json (t : text) : json := JObj [("type", JStr (Type_ t)); ("text", JStr (Text t))].

Definition block_json (b : block) : json :=
  JObj ([("type", JStr (Block_Type b))] ++
    match Block_Text b with None => [] | Some t => [("text", text_json t)] end ++
    match Block_Fields b with [] => [] | l => [("fields", JArr (map text_json l))] end ++
    match Elements b with [] => [] | l => [("elements", JArr (map text_json l))] end)%list.

Definition attachment_json (a : attachment) : json :=
  JObj [("color", JStr (Color a)); ("blocks", JArr (map block_json (Blocks a)))].

Definition color (msg : Message) : string :=
  if Resolved msg then "#2EB67D"
  else if seqb (Msg_Severity msg) "critical" then "#E01E5A"
  else if seqb (Msg_Severity msg) "warning" then "#ECB22E"
  else "#36C5F0".

Definition mrkdwn (s : string) : text := MkText "mrkdwn" s.
Definition section (s : string) : block := MkBlock "section" (Some (mrkdwn s)) [] [].

Definition fields (msg : Message) : list text :=
  let p := deref (Payload msg) in
  ([mrkdwn ("*Cluster*" +:+ nl +:+ safe (ClusterId p)); mrkdwn ("*Severity*" +:+ nl +:+ Msg_Severity msg)] ++
  (if negb (seqb (Namespace p) "") then [mrkdwn ("*Namespace*" +:+ nl +:+ Namespace p)] else []) ++
  (if negb (seqb (targetLine p) "") then [mrkdwn ("*Target*" +:+ nl +:+ targetLine p)] else []) ++
  (if negb (seqb (restartInfo p) "") then [mrkdwn ("*Pod state*" +:+ nl +:+ restartInfo p)] else []))%list.

(** The text of the analysis. *)
Definition body (msg : Message) (a : Analysis) : string :=
  (if negb (seqb (RootCause a) "") then "*Root cause:* " +:+ RootCause a +:+ nl else "") +:+
  (if negb (seqb (Analysis.Evidence a) "") then "*Evidence:* " +:+ Analysis.Evidence a +:+ nl else "") +:+
  (if negb (seqb (Action a) "") then "*Action:* " +:+ Action a +:+ nl else "") +:+
  (if negb (seqb (ConfidenceLine msg) "") then "_" +:+ ConfidenceLine msg +:+ "_" else "").

Definition state_blocks (msg : Message) : list block :=
  let p := deref (Payload msg) in
  if Resolved msg then [section "_Alert has cleared._"]
  else match Msg_Analysis msg with
       | Some a => if negb (seqb (body msg a) "") then [section (truncate (body msg a) 3000)] else []
       | None => if negb (seqb (Summary p) "") then [section (truncate (Summary p) 3000)] else []
       end.

Definition evidence_text (msg : Message) : string :=
  "*📊 Evidence*" +:+
  (match EvidenceMetrics msg with [] => "" | l => nl +:+ Join l "  ·  " end) +:+
  (match EvidenceLogs msg with [] => "" | l => nl +:+ "```" +:+ nl +:+ Join l nl +:+ nl +:+ "```" end).

Definition buildSlackAttachment (msg : Message) : attachment :=
  let p := deref (Payload msg) in
  let related := RelatedSummaries msg in
  MkAttachment (color msg)
    ([MkBlock "header" (Some (MkText "plain_text" (truncate (Title msg) 150))) [] []] ++
     [MkBlock "section" None (fields msg) []] ++
     state_blocks msg ++
     (if HasEvidence msg then [section (truncate (evidence_text msg) 3000)] else []) ++
     (match related with
      | [] => []
      | _ => [section (truncate ("*Related alerts (" +:+ FormatInt (Z.of_nat (length related)) +:+ "):*" +:+ nl +:+
                bulleted related) 3000)]
      end) ++
     (if negb (seqb (GrafanaURL msg) "") then [section ("<" +:+ GrafanaURL msg +:+ "|Open in Grafana>")] else []) ++
     (if HasFeedback msg
      then [section ("Was this helpful? <" +:+ FeedbackUpURL msg +:+ "|👍 Useful> | <" +:+ FeedbackDownURL msg +:+
              "|👎 Wrong>")] else []) ++
     (if 0 <? FiredAt p then [MkBlock "context" None [] [mrkdwn ("Fired at " +:+ fired_at p)]] else []))%list.

Definition payload_json (msg : Message) : string :=
  json_print (JObj [("attachments", JArr [attachment_json (buildSlackAttachment msg)])]).

Section send.
Context {W : Type} `{!Net W}.

Definition Send (webhookURL : string) (msg : Message) : M W (option string) :=
  post_json "create slack request: " "slack API call: " webhookURL (payload_json msg) (λ resp,
    if negb (StatusCode resp =? 200) || negb (seqb (ResponseBody resp) "ok")
    then Some ("slack API returned " +:+ FormatInt (StatusCode resp) +:+ ": " +:+ ResponseBody resp) else None).

Definition newSlack (name : string) (cfg : gmap string string) : result string (Notifier W) :=
  let url := get_cfg cfg "webhook_url" in
  if seqb url "" then Err "slack: webhook_url is required" else Ok (MkNotifier name (Send url)).
End send.
End Slack.

(** ** Webhook *)

Module Webhook.

Record related := MkRelated { R_AlertName : string; R_Namespace : string; R_Severity : string }.

Record payload := MkPayload {
  Status_ : string;
  Severity_ : string;
  ClusterID_ : string;
  AlertName_ : string;
  Namespace_ : string;
  Pod : string;
  Target_ : string;
  Summary_ : string;
  Description_ : string;
  FiredAt_ : string;
  GrafanaURL_ : string;
  AI : option Analysis;
  KeyMetrics : list string;
  LogExcerpt : list string;
  Labels_ : gmap string json;
  RelatedAlerts : list related;
  Feedback : option (string * string);
}.

Definition ai_json (a : Analysis) : json :=
  JObj (omit_str "root_cause" (RootCause a) ++ omit_str "evidence" (Analysis.Evidence a) ++
    omit_str "action" (Action a) ++ omit_str "confidence" (Confidence a) ++ omit_str "grounding" (Grounding a) ++
    (if Silence a then [("silence", JBool true)] else []))%list.

Definition related_json (r : related) : json :=
  JObj ([("alert_name", JStr (R_AlertName r))] ++ omit_str "namespace" (R_Namespace r) ++
    omit_str "severity" (R_Severity r))%list.

Definition payload_json (p : payload) : json :=
  JObj ([("status", JStr (Status_ p)); ("severity", JStr (Severity_ p)); ("cluster_id", JStr (ClusterID_ p));
         ("alert_name", JStr (AlertName_ p)); ("namespace", JStr (Namespace_ p))] ++
    omit_str "pod" (Pod p) ++ omit_str "target" (Target_ p) ++ omit_str "summary" (Summary_ p) ++
    omit_str "description" (Description_ p) ++ omit_str "fired_at" (FiredAt_ p) ++
    omit_str "grafana_url" (GrafanaURL_ p) ++
    match AI p with None => [] | Some a => [("analysis", ai_json a)] end ++
    omit_strs "key_metrics" (KeyMetrics p) ++ omit_strs "log_excerpt" (LogExcerpt p) ++
    (if (size (Labels_ p) =? 0)%nat then [] else [("labels", JMap (Labels_ p))]) ++
    match RelatedAlerts p with [] => [] | l => [("related_alerts", JArr (map related_json l))] end ++
    match Feedback p with
    | None => []
    | Some (useful, wrong) =>
        [("feedback", JObj [("useful_url", JStr useful); ("wrong_url", JStr wrong)])]
    end)%list.

(** A label named twice keeps its last value. *)
Definition labels (l : list Label) : gmap string json :=
  fold_left (λ m x, <[Label_Name x := JStr (Label_Value x)]> m) l ∅.

Definition related_alerts (msg : Message) : list related :=
  if negb (IsIncident msg) then [] else
  match Msg_Incident msg with
  | None => []
  | Some i => map (λ a, MkRelated (AlertName (deref a)) (Namespace (deref a)) (Severity (deref a)))
                (filter (λ a, ref_eqb a (Payload msg) = false) (Incident_Alerts i))
  end.

Definition buildWebhookPayload (msg : Message) : payload :=
  let p := deref (Payload msg) in
  MkPayload (if Resolved msg then "resolved" else "firing") (Msg_Severity msg) (ClusterId p) (AlertName p)
    (Namespace p) (PodName p) (targetLine p) (Summary p) (Description p)
    (if 0 <? FiredAt p then fired_at p else "") (GrafanaURL msg) (Msg_Analysis msg) (EvidenceMetrics msg)
    (EvidenceLogs msg) (labels (Labels p)) (related_alerts msg)
    (if HasFeedback msg then Some (FeedbackUpURL msg, FeedbackDownURL msg) else None).

Section send.
Context {W : Type} `{!Net W}.

Definition Send (url : string) (msg : Message) : M W (option string) :=
  post_json "create webhook request: " "webhook call: " url (json_print (payload_json (buildWebhookPayload msg))) (λ resp,
    if 400 <=? StatusCode resp then Some ("webhook returned " +:+ FormatInt (StatusCode resp)) else None).

Definition newWebhook (name : string) (cfg : gmap string string) : result string (Notifier W) :=
  let url := get_cfg cfg "url" in
  if seqb url "" then Err "webhook: url is required" else Ok (MkNotifier name (Send url)).
End send.
End Webhook.

(** ** PagerDuty *)

Module PagerDuty.

Definition pagerDutyDefaultURL : string := "https://events.pagerduty.com/v2/enqueue".

(** [safeField] of the payload, for the field the code names. *)
Definition safeField (p : AlertPayload) (which : string) : string :=
  let v := if seqb which "cluster" then ClusterId p
           else if seqb which "alert" then AlertName p
           else if seqb which "namespace" then Namespace p
           else if seqb which "pod" then PodName p
           else "" in
  if negb (seqb v "") then v else "unknown".

Definition dedup_key (p : AlertPayload) : string :=
  "muthur-" +:+ safeField p "cluster" +:+ "-" +:+ safeField p "alert" +:+ "-" +:+ safeField p "namespace".

Definition summary (p : AlertPayload) : string :=
  truncate (if negb (seqb (Summary p) "") then AlertName p +:+ ": " +:+ Summary p else AlertName p) 1024.

(** [m[k] = v] when the test holds. *)
Definition put_if (c : bool) (k : string) (v : json) (m : gmap string json) : gmap string json :=
  if c then <[k := v]> m else m.

Definition details (msg : Message) : gmap string json :=
  let p := deref (Payload msg) in
  let m : gmap string json :=
    <["fired_at" := JStr (fired_at p)]> (<["target" := JStr (targetLine p)]>
      (<["pod" := JStr (PodName p)]> (<["namespace" := JStr (Namespace p)]> ∅))) in
  let m := put_if (negb (seqb (Description p) "")) "description" (JStr (Description p)) m in
  let m := match Msg_Analysis msg with
           | None => m
           | Some a =>
               let m := <["recommended_action" := JStr (Action a)]> (<["evidence" := JStr (Analysis.Evidence a)]>
                 (<["root_cause" := JStr (RootCause a)]> m)) in
               let m := put_if (negb (seqb (Confidence a) "")) "confidence" (JStr (Confidence a)) m in
               put_if (negb (seqb (Grounding a) "")) "grounding" (JStr (Grounding a)) m
           end in
  let m := match EvidenceMetrics msg with [] => m | l => <["key_metrics" := JArr (map JStr l)]> m end in
  let m := match EvidenceLogs msg with [] => m | l => <["log_excerpt" := JArr (map JStr l)]> m end in
  let m := put_if (negb (seqb (GrafanaURL msg) "")) "grafana" (JStr (GrafanaURL msg)) m in
  let m := match RelatedSummaries msg with [] => m | l => <["related_alerts" := JArr (map JStr l)]> m end in
  if HasFeedback msg
  then <["feedback_wrong_url" := JStr (FeedbackDownURL msg)]> (<["feedback_useful_url" := JStr (FeedbackUpURL msg)]> m)
  else m.

Definition severity (msg : Message) : string :=
  let s := Msg_Severity msg in
  if negb (seqb s "critical") && negb (seqb s "warning") && negb (seqb s "info") then "info" else s.

Definition buildPagerDutyEvent (routingKey : string) (msg : Message) : gmap string json :=
  let p := deref (Payload msg) in
  let base : gmap string json := {[ "routing_key" := JStr routingKey; "dedup_key" := JStr (dedup_key p) ]} in
  if Resolved msg then <["event_action" := JStr "resolve"]> base else
  let payload : gmap string json :=
    {[ "summary" := JStr (summary p); "source" := JStr (safeField p "cluster"); "severity" := JStr (severity msg);
       "component" := JStr (safeField p "pod"); "group" := JStr (safeField p "namespace");
       "class" := JStr (safeField p "alert"); "custom_details" := JMap (details msg) ]} in
  let payload := put_if (0 <? FiredAt p) "timestamp" (JStr (fired_at p)) payload in
  let event := <["payload" := JMap payload]> (<["event_action" := JStr "trigger"]> base) in
  put_if (negb (seqb (GrafanaURL msg) "")) "links"
    (JArr [JMap {[ "href" := JStr (GrafanaURL msg); "text" := JStr "Grafana" ]}]) event.

Section send.
Context {W : Type} `{!Net W}.

Definition Send (routingKey url : string) (msg : Message) : M W (option string) :=
  post_json "create pagerduty request: " "pagerduty API call: " url (json_print (JMap (buildPagerDutyEvent routingKey msg)))
    (λ resp, if negb (StatusCode resp =? 202)
             then Some ("pagerduty API returned " +:+ FormatInt (StatusCode resp)) else None).

Definition newPagerDuty (name : string) (cfg : gmap string string) : result string (Notifier W) :=
  let key := get_cfg cfg "routing_key" in
  if seqb key "" then Err "pagerduty: routing_key is required" else
  let url := get_cfg cfg "url" in
  let url := if seqb url "" then pagerDutyDefaultURL else url in
  Ok (MkNotifier name (Send key url)).
End send.
End PagerDuty.
