(* ===== verification/ChannelText.v ===== *)
(** * Notification channels: text

    [internal/notify]: Telegram's HTML ([telegram.go]), the plain-text email
    ([smtp.go]), and the registry of all channels. *)
From S2P Require Import Prelude GoStrings GoTime Json Fmt Proto Analysis Providers Notify Channels.
From Stdlib Require Import Ascii.

Open Scope Z_scope.

(** ** Telegram *)

Module Telegram.

(** [strings.NewReplacer] with one-byte patterns replaces byte by byte. *)
Definition escape_byte (attr : bool) (a : ascii) : string :=
  if Ascii.eqb a "&" then "&amp;"
  else if Ascii.eqb a "<" then "&lt;"
  else if Ascii.eqb a ">" then "&gt;"
  else if attr && Ascii.eqb a dquote then "&quot;"
  else String a "".

Fixpoint replace (attr : bool) (s : string) : string :=
  match s with
  | EmptyString => EmptyString
  | String a s => escape_byte attr a +:+ replace attr s
  end.

Definition tgEscape (s : string) : string := replace false s.
Definition tgEscapeAttr (s : string) : string := replace true s.

(** A line of the structural block, when there is something to say. *)
Definition line_if (v before after : string) : string :=
  if negb (seqb v "") then before +:+ tgEscape v +:+ after else "".

Definition header (msg : Message) : string := "<b>" +:+ tgEscape (Title msg) +:+ "</b>" +:+ nl +:+ nl.

Definition structural (p : AlertPayload) : string :=
  line_if (Namespace p) "<b>Namespace:</b> <code>" ("</code>" +:+ nl) +:+
  line_if (targetLine p) "<b>Target:</b> <code>" ("</code>" +:+ nl) +:+
  line_if (restartInfo p) "<b>Pod state:</b> " nl.

Definition analysis (msg : Message) : string :=
  let p := deref (Payload msg) in
  match Msg_Analysis msg with
  | Some a =>
      if Resolved msg then nl +:+ "<i>Alert has cleared.</i>" +:+ nl else
      line_if (RootCause a) (nl +:+ "<b>Root cause:</b> ") nl +:+
      line_if (Analysis.Evidence a) "<b>Evidence:</b> " nl +:+
      line_if (Action a) "<b>Action:</b> " nl +:+
      line_if (ConfidenceLine msg) "<i>" ("</i>" +:+ nl)
  | None =>
      if Resolved msg then nl +:+ "<i>Alert has cleared.</i>" +:+ nl else
      line_if (Summary p) nl nl
  end.

Definition evidence (msg : Message) : string :=
  if negb (Resolved msg) && HasEvidence msg then
    nl +:+ "<b>📊 Evidence</b>" +:+ nl +:+
    (match EvidenceMetrics msg with [] => "" | l => tgEscape (Join l "  ·  ") +:+ nl end) +:+
    (match EvidenceLogs msg with [] => "" | l => "<pre>" +:+ tgEscape (Join l nl) +:+ "</pre>" +:+ nl end)
  else "".

Fixpoint bullets (l : list string) : string :=
  match l with
  | [] => ""
  | line :: l => "• " +:+ tgEscape line +:+ nl +:+ bullets l
  end.

Definition related (msg : Message) : string :=
  match RelatedSummaries msg with
  | [] => ""
  | l => nl +:+ "<b>Related alerts (" +:+ FormatInt (Z.of_nat (length l)) +:+ "):</b>" +:+ nl +:+ bullets l
  end.

Definition link (url label : string) : string :=
  "<a href=" +:+ dqs +:+ tgEscapeAttr url +:+ dqs +:+ ">" +:+ label +:+ "</a>".

Definition links (msg : Message) : string :=
  (if negb (seqb (GrafanaURL msg) "") then nl +:+ link (GrafanaURL msg) "Open in Grafana" +:+ nl else "") +:+
  (if HasFeedback msg
   then nl +:+ "<b>Was this helpful?</b> " +:+ link (FeedbackUpURL msg) "👍 Useful" +:+ " | " +:+
        link (FeedbackDownURL msg) "👎 Wrong"
   else "").

Definition buildTelegramHTML (msg : Message) : string :=
  header msg +:+ structural (deref (Payload msg)) +:+ analysis msg +:+ evidence msg +:+ related msg +:+ links msg.

Definition body_json (chatID : string) (msg : Message) : string :=
  json_print (JObj [("chat_id", JStr chatID); ("text", JStr (buildTelegramHTML msg)); ("parse_mode", JStr "HTML");
    ("disable_web_page_preview", JBool true)]).

Definition api_url (token : string) : string := "https://api.telegram.org/bot" +:+ token +:+ "/sendMessage".

Section send.
Context {W : Type} `{!Net W}.

Definition Send (token chatID : string) (msg : Message) : M W (option string) :=
  post_json "create telegram request: " "telegram API call: " (api_url token) (body_json chatID msg) (λ resp,
    if negb (StatusCode resp =? 200) then Some ("telegram API returned " +:+ FormatInt (StatusCode resp)) else None).

Definition newTelegram (name : string) (cfg : gmap string string) : result string (Notifier W) :=
  let token := get_cfg cfg "token" in
  let chatID := get_cfg cfg "chat_id" in
  if seqb token "" then Err "telegram: token is required"
  else if seqb chatID "" then Err "telegram: chat_id is required"
  else Ok (MkNotifier name (Send token chatID)).
End send.
End Telegram.

(** ** Email *)

Module Smtp.

Definition crlf : string := String "013" nl.

(** [smtp.PlainAuth]: user name and password, for the host. *)
Record auth := MkAuth { Username : string; Password : string }.

Record t := MkSMTP { host : string; port : string; from : string; to : list string; smtp_auth : option auth }.

(** The date header: [t.UTC().Format(time.RFC1123Z)]. *)
Definition weekday (days : Z) : string :=
  nth (Z.to_nat (days mod 7)) ["Mon"; "Tue"; "Wed"; "Thu"; "Fri"; "Sat"; "Sun"] "".

Definition month (m : Z) : string :=
  nth (Z.to_nat (m - 1)) ["Jan"; "Feb"; "Mar"; "Apr"; "May"; "Jun"; "Jul"; "Aug"; "Sep"; "Oct"; "Nov"; "Dec"] "".

Definition FormatRFC1123Z (t : Time) : string :=
  let secs := t / Second in
  let days := secs / 86400 in
  let rem := secs mod 86400 in
  let '(y, m, d) := civil_of_days (days + 306) in
  weekday days +:+ ", " +:+ pad_int 2 d +:+ " " +:+ month m +:+ " " +:+ pad_int 4 y +:+ " " +:+
  pad_int 2 (rem / 3600) +:+ ":" +:+ pad_int 2 (rem mod 3600 / 60) +:+ ":" +:+ pad_int 2 (rem mod 60) +:+ " +0000".

Definition line (label v : string) : string := label +:+ v +:+ crlf.
Definition line_if (label v : string) : string := if negb (seqb v "") then line label v else "".

Definition headers (from : string) (to : list string) (now : Time) (msg : Message) : string :=
  line "From: " from +:+ line "To: " (Join to ", ") +:+ line "Subject: " (Title msg) +:+
  line "Date: " (FormatRFC1123Z now) +:+ line "MIME-Version: " "1.0" +:+
  line "Content-Type: " "text/plain; charset=utf-8".

Fixpoint indented (indent : string) (l : list string) : string :=
  match l with [] => "" | x :: l => line indent x +:+ indented indent l end.

Definition analysis (msg : Message) : string :=
  match Msg_Analysis msg with
  | Some a =>
      crlf +:+ line_if "Root cause: " (RootCause a) +:+ line_if "Evidence:   " (Analysis.Evidence a) +:+
      line_if "Action:     " (Action a) +:+ line_if "Confidence: " (ConfidenceLine msg)
  | None =>
      let s := Summary (deref (Payload msg)) in if negb (seqb s "") then crlf +:+ line "" s else ""
  end.

Definition evidence (msg : Message) : string :=
  if HasEvidence msg then
    crlf +:+ line "" "--- Evidence ---" +:+
    (match EvidenceMetrics msg with [] => "" | l => line "" (Join l "  ·  ") end) +:+
    indented "  " (EvidenceLogs msg)
  else "".

Definition related (msg : Message) : string :=
  match RelatedSummaries msg with
  | [] => ""
  | l => crlf +:+ line "Related alerts (" (FormatInt (Z.of_nat (length l)) +:+ "):") +:+ indented "  - " l
  end.

Definition buildEmail (from : string) (to : list string) (now : Time) (msg : Message) : string :=
  let p := deref (Payload msg) in
  headers from to now msg +:+ crlf +:+
  line "Cluster:   " (ClusterId p) +:+ line "Severity:  " (Msg_Severity msg) +:+
  line_if "Namespace: " (Namespace p) +:+ line_if "Target:    " (targetLine p) +:+
  (if Resolved msg then crlf +:+ line "" "Alert has cleared."
   else
     analysis msg +:+ evidence msg +:+ related msg +:+
     (if negb (seqb (GrafanaURL msg) "") then crlf +:+ line "Grafana: " (GrafanaURL msg) else "") +:+
     (if HasFeedback msg
      then crlf +:+ line "Feedback: useful " (FeedbackUpURL msg +:+ " | wrong " +:+ FeedbackDownURL msg) else "")).

(** The loop over the comma-separated addresses. *)
Definition addresses (s : string) : list string :=
  filter (λ a, a ≠ "") (map TrimSpace (Split s ",")).

(** [smtp.SendMail] in its goroutine: the context may end first, or the send
    returns an error or nil. *)
Inductive outcome := CtxDone (e : string) | Sent (err : option string).

Class Mailer (W : Type) := {
  SendMail : string → option auth → string → list string → string → M W outcome;
}.

Section send.
Context `{!Clock} {W : Type} `{!Mailer W}.

Definition Send (s : t) (msg : Message) : M W (option string) :=
  now ← time_Now;
  r ← SendMail (host s +:+ ":" +:+ port s) (smtp_auth s) (from s) (to s) (buildEmail (from s) (to s) now msg);
  match r with
  | CtxDone e => mret (Some ("smtp send cancelled: " +:+ e))
  | Sent (Some e) => mret (Some ("smtp send: " +:+ e))
  | Sent None => mret None
  end.

Definition newSMTP (name : string) (cfg : gmap string string) : result string (Notifier W) :=
  let host := get_cfg cfg "host" in
  if seqb host "" then Err "smtp: host is required" else
  let from := get_cfg cfg "from" in
  if seqb from "" then Err "smtp: from is required" else
  match addresses (get_cfg cfg "to") with
  | [] => Err "smtp: at least one 'to' address is required"
  | to =>
      let port := if seqb (get_cfg cfg "port") "" then "587" else get_cfg cfg "port" in
      let user := get_cfg cfg "username" in
      let auth := if negb (seqb user "") then Some (MkAuth user (get_cfg cfg "password")) else None in
      Ok (MkNotifier name (Send (MkSMTP host port from to auth)))
  end.
End send.
End Smtp.

(** ** The registry *)

Definition factories `{!Clock} {W : Type} `{!Net W, !Smtp.Mailer W} :
    gmap string (string → gmap string string → result string (Notifier W)) :=
  {[ "telegram" := Telegram.newTelegram; "discord" := Discord.newDiscord; "slack" := Slack.newSlack;
     "pagerduty" := PagerDuty.newPagerDuty; "webhook" := Webhook.newWebhook; "smtp" := Smtp.newSMTP;
     "email" := Smtp.newSMTP ]}.

Example rfc1123z : Smtp.FormatRFC1123Z (time_Unix 1136239445) = "Mon, 02 Jan 2006 22:04:05 +0000".
Proof. vm_compute. reflexivity. Qed.

(** ** Well-formed HTML

    Text without tags: no angle bracket, every ampersand starts one of the four
    entities, and inside an attribute no quote. *)
Fixpoint text_ok (attr : bool) (s : string) : bool :=
  match s with
  | EmptyString => true
  | String a r =>
      negb (Ascii.eqb a "<") && negb (Ascii.eqb a ">") && negb (attr && Ascii.eqb a dquote) &&
      (negb (Ascii.eqb a "&") || existsb (HasPrefix r) ["amp;"; "lt;"; "gt;"; "quot;"]) && text_ok attr r
  end.

(** The documents the parse mode accepts: text, closed elements of the four plain
    kinds, and links; the content of an element is text. *)
Inductive Html : string → Prop :=
| html_text s : text_ok false s = true → Html s
| html_app s t : Html s → Html t → Html (s +:+ t)
| html_element tag s : tag ∈ ["b"; "i"; "code"; "pre"] → text_ok false s = true →
    Html ("<" +:+ tag +:+ ">" +:+ s +:+ "</" +:+ tag +:+ ">")
| html_link url s : text_ok true url = true → text_ok false s = true →
    Html ("<a href=" +:+ dqs +:+ url +:+ dqs +:+ ">" +:+ s +:+ "</a>").

(** What a reader sees: the entities decoded. *)
Fixpoint unescape_from (fuel : nat) (s : string) : string :=
  match fuel, s with
  | Datatypes.S fuel, String a r =>
      if Ascii.eqb a "&" then
        match CutPrefix r "amp;", CutPrefix r "lt;", CutPrefix r "gt;", CutPrefix r "quot;" with
        | Some r, _, _, _ => String "&" (unescape_from fuel r)
        | _, Some r, _, _ => String "<" (unescape_from fuel r)
        | _, _, Some r, _ => String ">" (unescape_from fuel r)
        | _, _, _, Some r => String dquote (unescape_from fuel r)
        | _, _, _, _ => String a (unescape_from fuel r)
        end
      else String a (unescape_from fuel r)
  | _, _ => s
  end.

Definition unescape_entities (s : string) : string := unescape_from (String.length s) s.

Lemma HasPrefix_app r t p : HasPrefix r p = true → HasPrefix (r +:+ t) p = true.
Proof. rewrite !HasPrefix_spec. intros [u ->]. exists (u +:+ t). apply append_assoc. Qed.

Lemma text_ok_app attr s t : text_ok attr s = true → text_ok attr t = true → text_ok attr (s +:+ t) = true.
Proof.
  intros Hs Ht. induction s as [|a s IH]; [done|].
  cbn [text_ok] in Hs. apply andb_true_iff in Hs as [Hs H5]. apply andb_true_iff in Hs as [H3 H4].
  change (String a s +:+ t) with (String a (s +:+ t)). cbn [text_ok].
  rewrite H3, (IH H5), andb_true_r. cbn [andb].
  apply orb_true_iff in H4 as [->|H4]; [done|]. apply orb_true_iff. right.
  apply existsb_exists in H4 as (p & Hin & Hp). apply existsb_exists. exists p. split; [done|]. by apply HasPrefix_app.
Qed.

Lemma text_ok_escape_byte attr a : text_ok attr (Telegram.escape_byte attr a) = true.
Proof. destruct attr, a as [[] [] [] [] [] [] [] []]; reflexivity. Qed.

Lemma text_ok_replace attr s : text_ok attr (Telegram.replace attr s) = true.
Proof. induction s as [|a s IH]; [done|]. cbn. apply text_ok_app; [apply text_ok_escape_byte|done]. Qed.

Lemma unescape_escape_byte attr a fuel r :
  unescape_from (Datatypes.S fuel) (Telegram.escape_byte attr a +:+ r) = String a (unescape_from fuel r).
Proof.
  unfold Telegram.escape_byte.
  destruct (Ascii.eqb_spec a "&") as [->|H1]; [done|].
  destruct (Ascii.eqb_spec a "<") as [->|H2]; [done|].
  destruct (Ascii.eqb_spec a ">") as [->|H3]; [done|].
  destruct (attr && Ascii.eqb a dquote) eqn:E.
  - apply andb_true_iff in E as [_ E]. apply Ascii.eqb_eq in E as ->. done.
  - cbn [String.append unescape_from]. by rewrite (proj2 (Ascii.eqb_neq _ _) H1).
Qed.

Lemma length_replace attr s : (String.length s ≤ String.length (Telegram.replace attr s))%nat.
Proof.
  induction s as [|a s IH]; [done|]. cbn. rewrite length_append.
  assert (1 ≤ String.length (Telegram.escape_byte attr a))%nat as H.
  { unfold Telegram.escape_byte. repeat case_match; cbn; lia. }
  lia.
Qed.

Lemma unescape_replace attr s fuel : (String.length s ≤ fuel)%nat →
  unescape_from fuel (Telegram.replace attr s) = s.
Proof.
  revert fuel. induction s as [|a s IH]; intros [|fuel] Hf; cbn [String.length] in Hf; try lia; [done..|].
  cbn [Telegram.replace]. rewrite unescape_escape_byte. f_equal. apply IH. lia.
Qed.

(** Escaping loses nothing. *)
Lemma unescape_escape attr s : unescape_entities (Telegram.replace attr s) = s.
Proof. apply unescape_replace, length_replace. Qed.

(** Rewrite the goal's document as the concatenation [e]. *)
Ltac html_as e :=
  match goal with |- Html ?d => replace d with e by (rewrite ?append_assoc; reflexivity) end.

Lemma html_b s : text_ok false s = true → Html ("<b>" +:+ s +:+ "</b>").
Proof. intros H. apply (html_element "b"); [set_solver|done]. Qed.
Lemma html_i s : text_ok false s = true → Html ("<i>" +:+ s +:+ "</i>").
Proof. intros H. apply (html_element "i"); [set_solver|done]. Qed.
Lemma html_code s : text_ok false s = true → Html ("<code>" +:+ s +:+ "</code>").
Proof. intros H. apply (html_element "code"); [set_solver|done]. Qed.
Lemma html_pre s : text_ok false s = true → Html ("<pre>" +:+ s +:+ "</pre>").
Proof. intros H. apply (html_element "pre"); [set_solver|done]. Qed.

Create HintDb html.
#[export] Hint Resolve html_app html_text html_b html_i html_code html_pre text_ok_replace text_ok_app : html.
#[export] Hint Extern 1 (text_ok _ _ = true) => reflexivity : html.

(** A line is well formed if it is around every text. *)
Lemma html_line_if v before after :
  (∀ x, text_ok false x = true → Html (before +:+ x +:+ after)) → Html (Telegram.line_if v before after).
Proof.
  intros H. unfold Telegram.line_if. destruct (negb _); [|by apply html_text]. apply H, text_ok_replace.
Qed.

Lemma html_label label x after : text_ok false label = true → text_ok false x = true → Html after →
  Html (("<b>" +:+ label +:+ "</b> ") +:+ x +:+ after).
Proof.
  intros Hl Hx Ha. html_as (("<b>" +:+ label +:+ "</b>") +:+ (" " +:+ (x +:+ after))). auto 6 with html.
Qed.

Lemma html_structural p : Html (Telegram.structural p).
Proof.
  unfold Telegram.structural. apply html_app; [|apply html_app]; apply html_line_if; intros x Hx.
  - html_as (("<b>" +:+ "Namespace:" +:+ "</b>") +:+ (" " +:+ (("<code>" +:+ x +:+ "</code>") +:+ nl))). auto 8 with html.
  - html_as (("<b>" +:+ "Target:" +:+ "</b>") +:+ (" " +:+ (("<code>" +:+ x +:+ "</code>") +:+ nl))). auto 8 with html.
  - apply (html_label "Pod state:"); auto with html.
Qed.

Lemma html_analysis msg : Html (Telegram.analysis msg).
Proof.
  assert (Html (nl +:+ "<i>Alert has cleared.</i>" +:+ nl)) as Hclear.
  { html_as (nl +:+ (("<i>" +:+ "Alert has cleared." +:+ "</i>") +:+ nl)). auto 8 with html. }
  unfold Telegram.analysis. destruct (Msg_Analysis msg) as [a|], (Resolved msg); [done| |done|].
  - apply html_app; [|apply html_app; [|apply html_app]]; apply html_line_if; intros x Hx.
    + html_as (nl +:+ (("<b>" +:+ "Root cause:" +:+ "</b> ") +:+ x +:+ nl)).
      apply html_app; [auto with html|]. apply html_label; auto with html.
    + apply (html_label "Evidence:"); auto with html.
    + apply (html_label "Action:"); auto with html.
    + html_as (("<i>" +:+ x +:+ "</i>") +:+ nl). auto with html.
  - apply html_line_if. intros x Hx. auto 6 with html.
Qed.

Lemma html_evidence msg : Html (Telegram.evidence msg).
Proof.
  unfold Telegram.evidence, Telegram.tgEscape. destruct (_ && _); [|by apply html_text].
  html_as (nl +:+ (("<b>" +:+ "📊 Evidence" +:+ "</b>") +:+ (nl +:+
    ((match EvidenceMetrics msg with [] => "" | l => Telegram.replace false (Join l "  ·  ") +:+ nl end) +:+
     (match EvidenceLogs msg with
      | [] => "" | l => "<pre>" +:+ Telegram.replace false (Join l nl) +:+ "</pre>" +:+ nl end))))).
  apply html_app; [auto with html|]. apply html_app; [auto with html|]. apply html_app; [auto with html|].
  apply html_app; [destruct (EvidenceMetrics msg); auto with html|].
  destruct (EvidenceLogs msg) as [|l ls]; [by apply html_text|].
  html_as (("<pre>" +:+ Telegram.replace false (Join (l :: ls) nl) +:+ "</pre>") +:+ nl). auto with html.
Qed.

Lemma html_bullets l : text_ok false (Telegram.bullets l) = true.
Proof. induction l as [|x l IH]; [done|]. cbn [Telegram.bullets]. unfold Telegram.tgEscape. auto 8 with html. Qed.

Lemma text_ok_uint d : text_ok false (DecimalString.NilZero.string_of_uint d) = true.
Proof.
  assert (∀ d, text_ok false (DecimalString.NilEmpty.string_of_uint d) = true) as H.
  { clear d. intros d. induction d; cbn in *; by rewrite ?IHd. }
  destruct d; [done|apply H..].
Qed.

Lemma text_ok_FormatInt z : text_ok false (FormatInt z) = true.
Proof.
  unfold FormatInt. destruct (Z.to_int z); cbn [DecimalString.NilZero.string_of_int]; [apply text_ok_uint|].
  apply (text_ok_app false "-"); [done|apply text_ok_uint].
Qed.
#[export] Hint Resolve html_bullets text_ok_FormatInt : html.

Lemma html_related msg : Html (Telegram.related msg).
Proof.
  unfold Telegram.related. destruct (RelatedSummaries msg) as [|x l]; [by apply html_text|].
  set (n := FormatInt _).
  html_as (nl +:+ (("<b>" +:+ ("Related alerts (" +:+ (n +:+ "):")) +:+ "</b>") +:+ (nl +:+ Telegram.bullets (x :: l)))).
  subst n. auto 12 with html.
Qed.

Lemma html_tg_link url label : text_ok false label = true → Html (Telegram.link url label).
Proof. intros H. apply html_link; [apply text_ok_replace|done]. Qed.

Lemma html_links msg : Html (Telegram.links msg).
Proof.
  unfold Telegram.links. apply html_app.
  - destruct (negb _); [|by apply html_text].
    apply html_app; [auto with html|]. apply html_app; [by apply html_tg_link|auto with html].
  - destruct (HasFeedback msg); [|by apply html_text].
    set (up := Telegram.link (FeedbackUpURL msg) _). set (down := Telegram.link (FeedbackDownURL msg) _).
    html_as (nl +:+ (("<b>" +:+ "Was this helpful?" +:+ "</b>") +:+ (" " +:+ (up +:+ (" | " +:+ down))))).
    subst up down. auto 12 using html_tg_link with html.
Qed.

(** C28: no text of an alert, an analysis, a log line or a URL can add markup to a
    Telegram message or break it: whatever the message holds, the document is
    well formed for the HTML parse mode, with only the elements the code writes,
    and escaping loses nothing of the text it shows. *)
Theorem telegram_html_safe (msg : Message) :
  Html (Telegram.buildTelegramHTML msg) ∧
  (∀ s, unescape_entities (Telegram.tgEscape s) = s) ∧
  (∀ s, unescape_entities (Telegram.tgEscapeAttr s) = s).
Proof.
  split; [|split; intros s; apply unescape_escape].
  unfold Telegram.buildTelegramHTML, Telegram.header.
  apply html_app.
  - html_as (("<b>" +:+ Telegram.tgEscape (Title msg) +:+ "</b>") +:+ (nl +:+ nl)).
    unfold Telegram.tgEscape. auto with html.
  - auto using html_app, html_structural, html_analysis, html_evidence, html_related, html_links.
Qed.

(** ** Deliveries are reported *)

Section posted.
Context {W : Type} `{HN : !Net W}.

(** The request was built, done, and answered with a status in [ok]. *)
Definition posted (url data : string) (ok : http_response → Prop) (c : nat * W) : Prop :=
  request_error url = None ∧
  ∃ resp, (http_do (MkRequest "POST" url [("Content-Type", "application/json")] data) c).1 = Ok resp ∧ ok resp.

Lemma post_json_None create call url data refuse ok c :
  (∀ r, refuse r = None ↔ ok r) →
  (post_json create call url data refuse c).1 = None ↔ posted url data ok c.
Proof.
  intros Hok. unfold post_json, posted. destruct (request_error url); [by split; [|intros [? _]]|]. munfold.
  destruct (http_do _ c) as [[resp|e] c']; cbn [fst].
  - rewrite Hok. split; [eauto|]. by intros [_ (r & [= <-] & ?)].
  - split; [done|]. by intros [_ (r & ? & _)].
Qed.
End posted.

Lemma refuse_unless (b : bool) (e : string) (P : Prop) :
  (b = true ↔ P) → (if negb b then Some e else None) = None ↔ P.
Proof. intros <-. by destruct b. Qed.

(** C33: a channel reports every failure and only failures: its [Send] returns nil
    exactly when the request could be built, the call went through, and the answer
    has a status that channel acknowledges with (and, for Slack, its body). *)
Theorem channels_report_failures `{HN : !Net W} (url token chatID key : string) (msg : Message) (c : nat * W) :
  ((Discord.Send url msg c).1 = None ↔
     posted url (Discord.payload_json msg) (λ r, StatusCode r = 204 ∨ StatusCode r = 200) c) ∧
  ((Slack.Send url msg c).1 = None ↔
     posted url (Slack.payload_json msg) (λ r, StatusCode r = 200 ∧ ResponseBody r = "ok") c) ∧
  ((Webhook.Send url msg c).1 = None ↔
     posted url (json_print (Webhook.payload_json (Webhook.buildWebhookPayload msg))) (λ r, StatusCode r < 400) c) ∧
  ((PagerDuty.Send key url msg c).1 = None ↔
     posted url (json_print (JMap (PagerDuty.buildPagerDutyEvent key msg))) (λ r, StatusCode r = 202) c) ∧
  ((Telegram.Send token chatID msg c).1 = None ↔
     posted (Telegram.api_url token) (Telegram.body_json chatID msg) (λ r, StatusCode r = 200) c).
Proof.
  split_and!; apply post_json_None; intros r.
  - destruct (Z.eqb_spec (StatusCode r) 204), (Z.eqb_spec (StatusCode r) 200); cbn [negb andb]; split; auto; try done.
    intros []; lia.
  - destruct (Z.eqb_spec (StatusCode r) 200), (seqb (ResponseBody r) "ok") eqn:E; cbn [negb orb]; sbool;
      (split; [done|by intros []]) || by split.
  - destruct (Z.leb_spec 400 (StatusCode r)); split; try done; lia.
  - apply refuse_unless, Z.eqb_eq.
  - apply refuse_unless, Z.eqb_eq.
Qed.

(** ** Texts are bounded *)

Lemma length_take_bytes n s : (String.length (take_bytes n s) ≤ n)%nat.
Proof. apply length_substring. Qed.

Lemma truncate_bounded s n : 3 <= n → len (truncate s n) <= n.
Proof.
  intros Hn. unfold truncate, len in *. destruct (Z.leb_spec (Z.of_nat (String.length s)) n); [done|].
  destruct (Z.leb_spec n 3).
  - pose proof (length_take_bytes (Z.to_nat n) s). lia.
  - rewrite length_append. pose proof (length_take_bytes (Z.to_nat (n - 3)) s). cbn. lia.
Qed.

Lemma truncate_short s n : len s <= n → truncate s n = s.
Proof. intros H. unfold truncate. by rewrite (proj2 (Z.leb_le _ _) H). Qed.

(** The texts that come from the analysis and the raw data of an alert; the others
    are names, or written by the code. *)
Definition bounded_field (f : Discord.embedField) : Prop :=
  Discord.Name f ∈ ["Evidence"; "Recommended action"; "📊 Evidence"] ∨ HasPrefix (Discord.Name f) "Related alerts (" = true →
  len (Discord.Value f) <= 1024.

Definition bounded_block (msg : Message) (b : Slack.block) : Prop :=
  match Slack.Block_Text b with
  | None => True
  | Some t => len (Slack.Text t) <= 3000 ∨
      Slack.Text t = "<" +:+ GrafanaURL msg +:+ "|Open in Grafana>" ∨
      Slack.Text t = "Was this helpful? <" +:+ FeedbackUpURL msg +:+ "|👍 Useful> | <" +:+ FeedbackDownURL msg +:+ "|👎 Wrong>"
  end.

Lemma Forall_if {A} (P : A → Prop) (b : bool) l : Forall P l → Forall P (if b then l else []).
Proof. destruct b; [done|constructor]. Qed.

Lemma bounded_section msg s : len s <= 3000 → bounded_block msg (Slack.section s).
Proof. by left. Qed.

(** What an analysis or raw data put into a message stays within the size the
    code sets for each channel, however long they are: 4000 bytes for a Discord
    description and 1024 for its fields of evidence, action and related alerts, 150
    for a Slack header and 3000 for a section, links aside, and 1024 for the
    summary of a PagerDuty event. *)
Theorem channel_texts_bounded (msg : Message) :
  len (Discord.Description_ (Discord.buildDiscordEmbed msg)) <= 4000 ∧
  Forall bounded_field (Discord.Fields (Discord.buildDiscordEmbed msg)) ∧
  Forall (bounded_block msg) (Slack.Blocks (Slack.buildSlackAttachment msg)) ∧
  (∃ t bs, Slack.Blocks (Slack.buildSlackAttachment msg) = Slack.MkBlock "header" (Some t) [] [] :: bs ∧
     len (Slack.Text t) <= 150) ∧
  len (PagerDuty.summary (deref (Payload msg))) <= 1024.
Proof.
  assert (∀ n v b, n ∉ ["Evidence"; "Recommended action"; "📊 Evidence"] → HasPrefix n "Related alerts (" = false →
    bounded_field (Discord.MkField n v b)) as Hname.
  { intros n v b Hn Hp [?|H]; cbn in *; [done|congruence]. }
  assert (∀ n s b, bounded_field (Discord.MkField n (truncate s 1024) b)) as Htrunc.
  { intros n s b _. by apply truncate_bounded. }
  split_and!; try (by apply truncate_bounded).
  - unfold Discord.buildDiscordEmbed, Discord.structural, Discord.ai. cbn [Discord.Fields].
    repeat apply Forall_app_2; repeat case_match; repeat constructor;
      solve [apply Htrunc | apply Hname; [compute_done|reflexivity]].
  - assert (∀ s, bounded_block msg (Slack.section (truncate s 3000))) as Hsec.
    { intros s. left. by apply truncate_bounded. }
    unfold Slack.buildSlackAttachment, Slack.state_blocks. cbn [Slack.Blocks].
    repeat apply Forall_app_2; repeat case_match; try apply Forall_nil_2;
      apply Forall_singleton; first [apply Hsec | exact I | by right; left | by right; right
        | left; apply Z.leb_le; reflexivity | idtac].
    left. cbn [Slack.Text]. pose proof (truncate_bounded (Title msg) 150 ltac:(lia)). lia.
  - unfold Slack.buildSlackAttachment. cbn [Slack.Blocks app]. eexists _, _. split; [reflexivity|].
    cbn [Slack.Text]. by apply truncate_bounded.
Qed.

(** ** Events of one alert *)

Lemma event_dedup_key key msg :
  PagerDuty.buildPagerDutyEvent key msg !! "dedup_key" = Some (JStr (PagerDuty.dedup_key (deref (Payload msg)))).
Proof.
  unfold PagerDuty.buildPagerDutyEvent, PagerDuty.put_if.
  destruct (Resolved msg); [by rewrite lookup_insert_ne|].
  destruct (negb _); by rewrite !lookup_insert_ne.
Qed.

Lemma event_action key msg :
  PagerDuty.buildPagerDutyEvent key msg !! "event_action" = Some (JStr (if Resolved msg then "resolve" else "trigger")).
Proof.
  unfold PagerDuty.buildPagerDutyEvent, PagerDuty.put_if.
  destruct (Resolved msg); [by rewrite lookup_insert_eq|].
  destruct (negb _); rewrite !lookup_insert_ne by done; by rewrite lookup_insert_eq.
Qed.

(** A resolved notification closes the incident its firing opened: the events
    of one alert carry the same dedup key, the first to trigger and the second to
    resolve; and two alerts share a key only if they agree on cluster, name and
    namespace, provided clusters and names have no hyphen. *)
Theorem pagerduty_events_pair (key : string) (msg msg' : Message) :
  let field m := PagerDuty.safeField (deref (Payload m)) in
  (PagerDuty.buildPagerDutyEvent key msg !! "event_action" =
     Some (JStr (if Resolved msg then "resolve" else "trigger"))) ∧
  ((∀ f, f ∈ ["cluster"; "alert"; "namespace"] → field msg f = field msg' f) →
   PagerDuty.buildPagerDutyEvent key msg !! "dedup_key" = PagerDuty.buildPagerDutyEvent key msg' !! "dedup_key") ∧
  (PagerDuty.buildPagerDutyEvent key msg !! "dedup_key" = PagerDuty.buildPagerDutyEvent key msg' !! "dedup_key" →
   (∀ m f, m ∈ [msg; msg'] → f ∈ ["cluster"; "alert"] → lacks "-" (field m f) = true) →
   ∀ f, f ∈ ["cluster"; "alert"; "namespace"] → field msg f = field msg' f).
Proof.
  intros field. split; [apply event_action|]. rewrite !event_dedup_key. unfold PagerDuty.dedup_key. fold (field msg) (field msg').
  split.
  - intros Hf. rewrite !Hf by repeat constructor. reflexivity.
  - intros [= H] Hl.
    apply (sep_inj "-") in H as [H1 H]; [|apply (Hl msg); repeat constructor|apply (Hl msg'); repeat constructor].
    apply (sep_inj "-") in H as [H2 H3]; [|apply (Hl msg); repeat constructor|apply (Hl msg'); repeat constructor].
    intros f Hf. repeat (apply elem_of_cons in Hf as [->|Hf]; [done|]). by apply elem_of_nil in Hf.
Qed.

(** With hyphens the key is ambiguous: resolving one of these alerts closes the
    incident of the other. *)
Example pagerduty_key_clash :
  PagerDuty.dedup_key (mk_alert "eu-a" "b" "critical" "shop" "web-1" "firing" 1 None) =
  PagerDuty.dedup_key (mk_alert "eu" "a-b" "critical" "shop" "web-1" "resolved" 1 None).
Proof. reflexivity. Qed.

(** ** Email headers *)

Lemma line_Split label v rest : lacks "010" label = true → lacks "010" v = true →
  Split (Smtp.line label v +:+ rest) "010" = (label +:+ v +:+ String "013" "") :: Split rest "010".
Proof.
  intros Hl Hv. unfold Smtp.line, Smtp.crlf, nl.
  replace ((label +:+ v +:+ String "013" (String "010" "")) +:+ rest) with
    ((label +:+ v +:+ String "013" "") +:+ String "010" rest) by (rewrite !append_assoc; done).
  rewrite Split_sep; [done|]. by rewrite !lacks_append, Hl, Hv.
Qed.

(** An alert whose names hold no line break gives an email with the six headers
    the code writes and nothing else before the blank line. *)
Lemma email_headers from to now msg :
  lacks "010" from = true → lacks "010" (Join to ", ") = true → lacks "010" (Title msg) = true →
  lacks "010" (Smtp.FormatRFC1123Z now) = true →
  take 7 (Split (Smtp.buildEmail from to now msg) "010") =
    map (λ s, s +:+ String "013" "") ["From: " +:+ from; "To: " +:+ Join to ", "; "Subject: " +:+ Title msg;
      "Date: " +:+ Smtp.FormatRFC1123Z now; "MIME-Version: 1.0"; "Content-Type: text/plain; charset=utf-8"; ""].
Proof.
  intros Hf Ht Hs Hd. unfold Smtp.buildEmail, Smtp.headers. rewrite !append_assoc.
  do 6 (rewrite line_Split by done).
  match goal with |- context [Smtp.crlf +:+ ?r] => change (Smtp.crlf +:+ r) with (Smtp.line "" "" +:+ r) end.
  rewrite line_Split by done. cbn [take map String.append]. rewrite ?append_assoc. reflexivity.
Qed.

(** A line break in the alert's name adds a header of the sender's choice. *)
Example email_header_injection :
  let p := mk_alert "prod-a" ("x" +:+ Smtp.crlf +:+ "Bcc: eve@example.com") "critical" "shop" "web-1" "firing" 1 None in
  "Bcc: eve@example.com" +:+ String "013" "" ∈
    take 7 (Split (Smtp.buildEmail "muthur@x.io" ["oncall@x.io"] (time_Unix 0) (FormatMessage (Ref 1 p) None)) "010").
Proof. vm_compute. do 3 right. left. Qed.
