(* ===== verification/Config.v ===== *)
(** * Configuration

    [internal/config/config.go] and [internal/appconfig/loader.go]: the settings
    read from the environment, their defaults and their validation, and the file
    that holds receivers, routing rules and tenants. *)
From S2P Require Import Prelude GoStrings GoTime Routing Tenants Providers Notify.
From Stdlib Require Import Ascii SpecFloat.

Open Scope Z_scope.

(** ** [strconv]

    The code ignores most errors of the parsers and keeps the value they return
    with them, so the value on an error is part of the model. *)
Inductive num_error := ErrSyntax | ErrRange.

(** The loop of [ParseUint] in base 10, with its test before the multiplication. *)
Fixpoint parse_uint (n : Z) (s : string) : Z * option num_error :=
  match s with
  | EmptyString => (n, None)
  | String a s =>
      if negb (is_digit a) then (0, Some ErrSyntax)
      else if (2 ^ 64 - 1) / 10 + 1 <=? n then (2 ^ 64 - 1, Some ErrRange)
      else
        let n1 := n * 10 + (Z_of_byte a - 48) in
        if 2 ^ 64 <=? n1 then (2 ^ 64 - 1, Some ErrRange) else parse_uint n1 s
  end.

Definition ParseUint (s : string) : Z * option num_error :=
  if seqb s "" then (0, Some ErrSyntax) else parse_uint 0 s.

(** [strconv.Atoi]: an int64 and its error; out of range the nearest int64. *)
Definition Atoi (s : string) : Z * option num_error :=
  let '(neg, digits) :=
    match s with
    | String a r => if Ascii.eqb a "-" then (true, r) else if Ascii.eqb a "+" then (false, r) else (false, s)
    | EmptyString => (false, s)
    end in
  match ParseUint digits with
  | (_, Some ErrSyntax) => (0, Some ErrSyntax)
  | (un, _) =>
      if negb neg && (2 ^ 63 <=? un) then (2 ^ 63 - 1, Some ErrRange)
      else if neg && (2 ^ 63 <? un) then (- 2 ^ 63, Some ErrRange)
      else (if neg : bool then - un else un, None)
  end.

(** [strconv.ParseBool]; on an error the value is [false]. *)
Definition ParseBool (s : string) : option bool :=
  if bool_decide (s ∈ ["1"; "t"; "T"; "true"; "TRUE"; "True"]) then Some true
  else if bool_decide (s ∈ ["0"; "f"; "F"; "false"; "FALSE"; "False"]) then Some false
  else None.

(** ** The settings *)

Record Config := MkConfig {
  Port : string;
  PublicPort : string;
  LogLevel : string;
  LLMTimeout : Duration;
  TLSServerCertFile : string;
  TLSServerKeyFile : string;
  TLSTrustRootFile : string;
  AuthModes : list string;
  SignedPort : string;
  HPKEKeyFile : string;
  IntermediateCAFile : string;
  IntermediateKeyFile : string;
  ReplayWindow : Duration;
  TenantsReloadInterval : Duration;
  LLMProvider : string;
  LLMModel : string;
  LLMBaseURL : string;
  LLMAPIKey : string;
  LLMSchemaMode : string;
  LLMTemperature : spec_float;
  LLMMaxRetries : Z;
  LLMAuditMode : string;
  LLMAirGapped : bool;
  LLMMaxCallsPerMinute : Z;
  LLMBurst : Z;
  LLMMaxConcurrent : Z;
  AlertManagerURL : string;
  AlertManagerSilenceOn : bool;
  AlertManagerSilenceDur : Duration;
  AlertManagerSilenceAllow : list string;
  DedupWindowMinutes : Z;
  LLMCacheEnabled : bool;
  LLMCacheTTLMinutes : Z;
  ConfigFile : string;
  RedisURL : string;
  RedisPrefix : string;
  SemanticCacheEnabled : bool;
  SemanticThreshold : spec_float;
  EmbedDim : Z;
  CorrelationEnabled : bool;
  CorrelationWindowSeconds : Z;
  CorrelationMaxGroup : Z;
  PublicURL : string;
  FeedbackFewShot : Z;
  IncidentHistoryEnabled : bool;
  IncidentTTL : Duration;
  EvidenceEnabled : bool;
  EvidenceLogLines : Z;
}.

Definition AuthModeMTLS : string := "mtls".
Definition AuthModeSigned : string := "signed".

Inductive config_error :=
| KeyFileUnreadable (path e : string)
| UnknownAuthMode (m : string)
| NoAuthMode
| APIKeyRequired
| BaseURLRequired
| ModelRequired
| BadProvider (p : string)
| TrustRootRequired
| IntermediateRequired
| ServerCertRequired
| HPKEKeyRequired.

Definition AuthModeEnabled (c : Config) (mode : string) : bool := existsb (λ m, seqb m mode) (AuthModes c).

(** The loop of [parseAuthModes], with the modes found so far. *)
Fixpoint parse_modes (l modes : list string) : result config_error (list string) :=
  match l with
  | [] => match modes with [] => Err NoAuthMode | _ => Ok modes end
  | m :: l =>
      let m := ToLower (TrimSpace m) in
      if seqb m "" then parse_modes l modes
      else if seqb m AuthModeMTLS || seqb m AuthModeSigned then parse_modes l (modes ++ [m])
      else Err (UnknownAuthMode m)
  end.

Definition parseAuthModes (raw : string) : result config_error (list string) := parse_modes (Split raw ",") [].

(** ** [Load]

    [getenv] is [os.Getenv], [""] for a variable that is not set; [read_file] is
    [os.ReadFile] with the text of its error; [ParseFloat] is [strconv]'s. *)
Section load.
Context (getenv : string → string) (read_file : string → result string string).
Context (ParseFloat : string → option spec_float).

Definition envOr (key fallback : string) : string :=
  let v := getenv key in if negb (seqb v "") then v else fallback.

Definition boolEnv (key : string) (fallback : bool) : bool :=
  let v := getenv key in
  if seqb v "" then fallback else match ParseBool v with None => fallback | Some b => b end.

Definition resolveAPIKey : result config_error string :=
  let path := getenv "LLM_API_KEY_FILE" in
  if negb (seqb path "") then
    match read_file path with
    | Err e => Err (KeyFileUnreadable path e)
    | Ok data => Ok (TrimRight data (" " +:+ String "009" (String "013" (String "010" ""))))
    end
  else Ok (getenv "ANTHROPIC_API_KEY").

(** [x, _ := strconv.Atoi(envOr(...))] and [x, _ := strconv.ParseBool(envOr(...))]. *)
Definition atoi_env (key fallback : string) : Z := (Atoi (envOr key fallback)).1.
Definition bool_env (key fallback : string) : bool := default false (ParseBool (envOr key fallback)).

Definition duration_env (key fallback : string) (d : Duration) : Duration :=
  default d (ParseDuration (envOr key fallback)).

Definition silence_allow : list string :=
  let raw := getenv "ALERTMANAGER_SILENCE_ALLOWLIST" in
  if negb (seqb raw "") then filter (λ name, name ≠ "") (map TrimSpace (Split raw ",")) else [].

Definition llm_provider : string := ToLower (envOr "LLM_PROVIDER" "anthropic").

Definition llm_model : string :=
  let llmModel := getenv "LLM_MODEL" in
  let anthropicModel := envOr "ANTHROPIC_MODEL" "claude-opus-4-5" in
  if seqb llmModel "" && (seqb llm_provider "anthropic" || seqb llm_provider "") then anthropicModel else llmModel.

Definition max_retries : Z :=
  match Atoi (envOr "LLM_MAX_RETRIES" "1") with
  | (n, None) => if n <? 0 then 1 else n
  | _ => 1
  end.

Definition reload_interval : Duration :=
  match ParseDuration (envOr "TENANTS_RELOAD_INTERVAL" "5s") with
  | Some d => if d <=? 0 then 5 * Second else d
  | None => 5 * Second
  end.

(** The configuration before its validation. *)
Definition config_of (apiKey : string) (authModes : list string) : Config := {|
  Port := envOr "PORT" "8080";
  PublicPort := envOr "PUBLIC_PORT" "8081";
  LogLevel := envOr "LOG_LEVEL" "info";
  LLMTimeout := duration_env "LLM_TIMEOUT" "20s" (20 * Second);
  TLSServerCertFile := getenv "TLS_SERVER_CERT_FILE";
  TLSServerKeyFile := getenv "TLS_SERVER_KEY_FILE";
  TLSTrustRootFile := getenv "TLS_TRUST_ROOT_FILE";
  AuthModes := authModes;
  SignedPort := envOr "SIGNED_PORT" "8082";
  HPKEKeyFile := getenv "HPKE_KEY_FILE";
  IntermediateCAFile := getenv "INTERMEDIATE_CA_FILE";
  IntermediateKeyFile := getenv "INTERMEDIATE_KEY_FILE";
  ReplayWindow := duration_env "AUTH_REPLAY_WINDOW" "5m" (5 * Minute);
  TenantsReloadInterval := reload_interval;
  LLMProvider := llm_provider;
  LLMModel := llm_model;
  LLMBaseURL := getenv "LLM_BASE_URL";
  LLMAPIKey := apiKey;
  LLMSchemaMode := envOr "LLM_SCHEMA_MODE" "auto";
  LLMTemperature := default (S754_zero false) (ParseFloat (envOr "LLM_TEMPERATURE" "0"));
  LLMMaxRetries := max_retries;
  LLMAuditMode := ToLower (envOr "LLM_AUDIT_MODE" "off");
  LLMAirGapped := boolEnv "LLM_AIR_GAPPED" false;
  LLMMaxCallsPerMinute := atoi_env "LLM_MAX_CALLS_PER_MINUTE" "60";
  LLMBurst := atoi_env "LLM_BURST" "15";
  LLMMaxConcurrent := atoi_env "LLM_MAX_CONCURRENT" "8";
  AlertManagerURL := envOr "ALERTMANAGER_URL" "http://alertmanager.monitoring.svc:9093";
  AlertManagerSilenceOn := bool_env "ALERTMANAGER_SILENCE_ENABLED" "false";
  AlertManagerSilenceDur := duration_env "ALERTMANAGER_SILENCE_DURATION" "2h" (2 * Hour);
  AlertManagerSilenceAllow := silence_allow;
  DedupWindowMinutes := atoi_env "DEDUP_WINDOW_MINUTES" "15";
  LLMCacheEnabled := bool_env "LLM_CACHE_ENABLED" "true";
  LLMCacheTTLMinutes := atoi_env "LLM_CACHE_TTL_MINUTES" "30";
  ConfigFile := envOr "MUTHUR_CONFIG_FILE" "/config/muthur.yaml";
  RedisURL := getenv "REDIS_URL";
  RedisPrefix := envOr "REDIS_PREFIX" "muthur:";
  SemanticCacheEnabled := bool_env "SEMANTIC_CACHE_ENABLED" "false";
  SemanticThreshold :=
    default (f64_div (f64_of_Z 95) (f64_of_Z 100)) (ParseFloat (envOr "SEMANTIC_CACHE_THRESHOLD" "0.95"));
  EmbedDim := atoi_env "SEMANTIC_CACHE_EMBED_DIM" "256";
  CorrelationEnabled := bool_env "CORRELATION_ENABLED" "false";
  CorrelationWindowSeconds := atoi_env "CORRELATION_WINDOW_SECONDS" "30";
  CorrelationMaxGroup := atoi_env "CORRELATION_MAX_GROUP" "25";
  PublicURL := getenv "MUTHUR_PUBLIC_URL";
  FeedbackFewShot := atoi_env "FEEDBACK_FEW_SHOT" "3";
  IncidentHistoryEnabled := bool_env "INCIDENT_HISTORY_ENABLED" "true";
  IncidentTTL := duration_env "INCIDENT_TTL" "720h" (720 * Hour);
  EvidenceEnabled := bool_env "NOTIFY_EVIDENCE_ENABLED" "true";
  EvidenceLogLines := atoi_env "NOTIFY_LOG_LINES" "8";
|}.

(** The tests at the end of [Load], in their order. *)
Definition validate_provider (cfg : Config) : result config_error unit :=
  if seqb (LLMProvider cfg) "" || seqb (LLMProvider cfg) "anthropic" then
    if seqb (LLMAPIKey cfg) "" then Err APIKeyRequired else Ok tt
  else if seqb (LLMProvider cfg) "openai-compatible" then
    if seqb (LLMBaseURL cfg) "" then Err BaseURLRequired
    else if seqb (LLMModel cfg) "" then Err ModelRequired else Ok tt
  else Err (BadProvider (LLMProvider cfg)).

Definition validate_files (cfg : Config) : result config_error unit :=
  if seqb (TLSTrustRootFile cfg) "" then Err TrustRootRequired
  else if seqb (IntermediateCAFile cfg) "" || seqb (IntermediateKeyFile cfg) "" then Err IntermediateRequired
  else if AuthModeEnabled cfg AuthModeMTLS && (seqb (TLSServerCertFile cfg) "" || seqb (TLSServerKeyFile cfg) "")
  then Err ServerCertRequired
  else if AuthModeEnabled cfg AuthModeSigned && seqb (HPKEKeyFile cfg) "" then Err HPKEKeyRequired
  else Ok tt.

Definition Load : result config_error Config :=
  apiKey ← resolveAPIKey;
  authModes ← parseAuthModes (envOr "AUTH_MODES" "mtls");
  let cfg := config_of apiKey authModes in
  _ ← validate_provider cfg;
  _ ← validate_files cfg;
  Ok cfg.
End load.

(** ** The file *)

Record FileConfig := MkFileConfig {
  FC_Receivers : list ReceiverConfig;
  FC_Routing : list Rule;
  FC_Tenants : list Tenant;
}.

Inductive file_error := FileNotRead (path e : string) | FileNotParsed (path : string).

(** [appconfig.Load]; the YAML decoder is a parameter. *)
Definition LoadFile (yaml_Unmarshal : string → option FileConfig) (read_file : string → result string string)
    (path : string) : result file_error FileConfig :=
  match read_file path with
  | Err e => Err (FileNotRead path e)
  | Ok data => match yaml_Unmarshal data with None => Err (FileNotParsed path) | Some fc => Ok fc end
  end.

(** ** What is accepted *)

(** The modes a text of [AUTH_MODES] names. *)
Definition wanted_modes (l : list string) : list string :=
  filter (λ m, m ≠ "") (map (λ m, ToLower (TrimSpace m)) l).

Definition known_mode (m : string) : Prop := m = AuthModeMTLS ∨ m = AuthModeSigned.

Lemma parse_modes_Ok l modes r :
  parse_modes l modes = Ok r ↔ r = (modes ++ wanted_modes l)%list ∧ Forall known_mode (wanted_modes l) ∧ r ≠ [].
Proof.
  revert modes. induction l as [|m l IH]; intros modes; cbn [parse_modes].
  { unfold wanted_modes. cbn. rewrite app_nil_r. destruct modes as [|x modes]; split; [done|naive_solver|by intros [= <-]|naive_solver]. }
  change (wanted_modes (m :: l)) with (filter (λ m, m ≠ "") (ToLower (TrimSpace m) :: map (λ m, ToLower (TrimSpace m)) l)).
  destruct (seqb (ToLower (TrimSpace m)) "") eqn:E; sbool.
  - rewrite filter_cons_False by (intros H; by apply H). apply IH.
  - rewrite filter_cons_True by done. fold (wanted_modes l).
    destruct (_ || _) eqn:E'; [apply orb_true_iff in E'|apply orb_false_iff in E']; rewrite ?seqb_true, ?seqb_false in E'.
    + rewrite IH, <- app_assoc, Forall_cons. unfold known_mode at 2. naive_solver.
    + split; [done|]. intros (_ & [[]]%Forall_cons & _); tauto.
Qed.

Lemma AuthModeEnabled_spec cfg m : AuthModeEnabled cfg m = true ↔ m ∈ AuthModes cfg.
Proof.
  unfold AuthModeEnabled. rewrite existsb_exists. setoid_rewrite seqb_true. setoid_rewrite <- list_elem_of_In. naive_solver.
Qed.

(** What every later part of the program may assume of a loaded configuration. *)
Record valid (cfg : Config) : Prop := {
  v_provider : LLMProvider cfg = "anthropic" ∧ LLMAPIKey cfg ≠ "" ∨
               LLMProvider cfg = "openai-compatible" ∧ LLMBaseURL cfg ≠ "";
  v_model : LLMModel cfg ≠ "";
  v_trust : TLSTrustRootFile cfg ≠ "" ∧ IntermediateCAFile cfg ≠ "" ∧ IntermediateKeyFile cfg ≠ "";
  v_modes : AuthModes cfg ≠ [] ∧ Forall known_mode (AuthModes cfg);
  v_mtls : AuthModeMTLS ∈ AuthModes cfg → TLSServerCertFile cfg ≠ "" ∧ TLSServerKeyFile cfg ≠ "";
  v_signed : AuthModeSigned ∈ AuthModes cfg → HPKEKeyFile cfg ≠ "";
  v_retries : 0 <= LLMMaxRetries cfg;
  v_reload : 0 < TenantsReloadInterval cfg;
  v_addresses : Port cfg ≠ "" ∧ PublicPort cfg ≠ "" ∧ SignedPort cfg ≠ "" ∧ ConfigFile cfg ≠ "";
  v_allow : Forall (λ n, n ≠ "") (AlertManagerSilenceAllow cfg);
}.

Section accepted.
Context (getenv : string → string) (read_file : string → result string string).
Context (ParseFloat : string → option spec_float).

(** The key the environment leads to, if any can be read. *)
Definition key_is (k : string) : Prop :=
  if seqb (getenv "LLM_API_KEY_FILE") "" then k = getenv "ANTHROPIC_API_KEY"
  else ∃ data, read_file (getenv "LLM_API_KEY_FILE") = Ok data ∧
         k = TrimRight data (" " +:+ String "009" (String "013" (String "010" ""))).

(** The environments the brain can be started in. *)
Record env_ok (key : string) (modes : list string) : Prop := {
  e_key : key_is key;
  e_modes : modes = wanted_modes (Split (envOr getenv "AUTH_MODES" "mtls") ",");
  e_known : modes ≠ [] ∧ Forall known_mode modes;
  e_provider : llm_provider getenv = "anthropic" ∧ key ≠ "" ∨
               llm_provider getenv = "openai-compatible" ∧ getenv "LLM_BASE_URL" ≠ "" ∧ getenv "LLM_MODEL" ≠ "";
  e_trust : getenv "TLS_TRUST_ROOT_FILE" ≠ "" ∧ getenv "INTERMEDIATE_CA_FILE" ≠ "" ∧ getenv "INTERMEDIATE_KEY_FILE" ≠ "";
  e_mtls : AuthModeMTLS ∈ modes → getenv "TLS_SERVER_CERT_FILE" ≠ "" ∧ getenv "TLS_SERVER_KEY_FILE" ≠ "";
  e_signed : AuthModeSigned ∈ modes → getenv "HPKE_KEY_FILE" ≠ "";
}.

Lemma envOr_nonempty key fallback : fallback ≠ "" → envOr getenv key fallback ≠ "".
Proof. unfold envOr. destruct (seqb (getenv key) "") eqn:E; sbool; done. Qed.

Lemma ToLower_nonempty s : s ≠ "" → ToLower s ≠ "".
Proof. destruct s as [|a s]; [done|]. intros _. cbn [ToLower]. by repeat case_match. Qed.

Lemma resolveAPIKey_Ok k : resolveAPIKey getenv read_file = Ok k ↔ key_is k.
Proof.
  unfold resolveAPIKey, key_is. destruct (seqb _ ""); cbn [negb]; [split; [by intros [= ->]|by intros ->]|].
  destruct (read_file _) as [data|e]; [|split; [done|by intros (? & ? & _)]].
  split; [intros [= <-]; eauto|]. by intros (? & [= <-] & ->).
Qed.

Lemma validate_provider_Ok cfg :
  validate_provider cfg = Ok tt ↔
  (LLMProvider cfg = "" ∨ LLMProvider cfg = "anthropic") ∧ LLMAPIKey cfg ≠ "" ∨
  LLMProvider cfg = "openai-compatible" ∧ LLMBaseURL cfg ≠ "" ∧ LLMModel cfg ≠ "".
Proof.
  unfold validate_provider. generalize (LLMProvider cfg) (LLMAPIKey cfg) (LLMBaseURL cfg) (LLMModel cfg).
  intros p k b m. destruct (seqb p "" || seqb p "anthropic") eqn:E.
  - apply orb_true_iff in E. rewrite !seqb_true in E. destruct (seqb k "") eqn:Ek; sbool.
    + split; [done|]. intros [[_ ?]|[-> _]]; [done|by destruct E].
    + split; [by left|done].
  - apply orb_false_iff in E. rewrite !seqb_false in E. destruct E as [E1 E2].
    destruct (seqb p "openai-compatible") eqn:E3; sbool.
    + destruct (seqb b "") eqn:Eb; sbool; [|destruct (seqb m "") eqn:Em; sbool].
      * split; [done|]. by intros [[[] _]|(_ & ? & _)].
      * split; [done|]. by intros [[[] _]|(_ & _ & ?)].
      * split; [by right|done].
    + split; [done|]. by intros [[[] _]|[? _]].
Qed.

Lemma validate_files_Ok cfg :
  validate_files cfg = Ok tt ↔
  (TLSTrustRootFile cfg ≠ "" ∧ IntermediateCAFile cfg ≠ "" ∧ IntermediateKeyFile cfg ≠ "") ∧
  (AuthModeMTLS ∈ AuthModes cfg → TLSServerCertFile cfg ≠ "" ∧ TLSServerKeyFile cfg ≠ "") ∧
  (AuthModeSigned ∈ AuthModes cfg → HPKEKeyFile cfg ≠ "").
Proof.
  unfold validate_files. rewrite <- !AuthModeEnabled_spec.
  destruct (seqb (TLSTrustRootFile cfg) "") eqn:E1; sbool; [naive_solver|].
  destruct (seqb (IntermediateCAFile cfg) "") eqn:E2; sbool; [naive_solver|].
  destruct (seqb (IntermediateKeyFile cfg) "") eqn:E3; sbool; [naive_solver|].
  destruct (seqb (TLSServerCertFile cfg) "") eqn:E4, (seqb (TLSServerKeyFile cfg) "") eqn:E5,
    (seqb (HPKEKeyFile cfg) "") eqn:E6; sbool;
    destruct (AuthModeEnabled cfg AuthModeMTLS), (AuthModeEnabled cfg AuthModeSigned); cbn [orb andb];
    (split; [try done; intros _; split_and!; auto|intros ((? & ? & ?) & Hm & Hs); try done]);
    try (by destruct (Hm eq_refl)); by specialize (Hs eq_refl).
Qed.

Lemma Load_Ok cfg :
  Load getenv read_file ParseFloat = Ok cfg ↔
  ∃ key modes, env_ok key modes ∧ cfg = config_of getenv ParseFloat key modes.
Proof.
  unfold Load. split.
  - intros (key & Hk & H)%result_bind_Ok. apply result_bind_Ok in H as (modes & Hm & H).
    apply result_bind_Ok in H as ([] & Hp & H). apply result_bind_Ok in H as ([] & Hf & [= <-]).
    exists key, modes. split; [|done]. apply resolveAPIKey_Ok in Hk. apply parse_modes_Ok in Hm as (-> & Hm & Hne).
    apply validate_files_Ok in Hf as (Hf1 & Hf2 & Hf3). split; try done.
    apply validate_provider_Ok in Hp as [([Hp|Hp] & Hkey)|(Hp & Hb & Hmod)].
    + exfalso. revert Hp. by apply ToLower_nonempty, envOr_nonempty.
    + by left.
    + right. split_and!; [done..|]. revert Hp Hmod. cbn. unfold llm_model. intros ->. by rewrite andb_false_r.
  - intros (key & modes & [H1 -> [H3 H3'] H4 H5 H6 H7] & ->).
    apply resolveAPIKey_Ok in H1. rewrite H1. cbn [mbind result_bind].
    assert (parseAuthModes (envOr getenv "AUTH_MODES" "mtls") = Ok (wanted_modes (Split (envOr getenv "AUTH_MODES" "mtls") ","))) as ->.
    { by apply parse_modes_Ok. }
    cbn [mbind result_bind]. rewrite (proj2 (validate_provider_Ok _)), (proj2 (validate_files_Ok _)); [done|done|].
    cbn. destruct H4 as [[-> ?]|(Hp & Hb & Hm)]; [by left; split; [right|]|right].
    split_and!; [done..|]. unfold llm_model. rewrite Hp. by rewrite andb_false_r.
Qed.
End accepted.

Lemma config_of_valid getenv read_file ParseFloat key modes :
  env_ok getenv read_file key modes → valid (config_of getenv ParseFloat key modes).
Proof.
  intros [H1 H2 [H3 H3'] H4 H5 H6 H7].
  split; cbn; try done.
  - destruct H4 as [?|(? & ? & _)]; auto.
  - unfold llm_model. destruct (seqb (getenv "LLM_MODEL") "") eqn:E; sbool; [|done].
    destruct H4 as [[-> _]|(_ & _ & ?)]; [|done]. cbn. by apply envOr_nonempty.
  - unfold max_retries. destruct (Atoi _) as [n [e|]]; [lia|]. destruct (n <? 0) eqn:E; zbool; lia.
  - unfold reload_interval. destruct (ParseDuration _) as [d|]; [|done]. destruct (d <=? 0) eqn:E; zbool; [done|lia].
  - split_and!; by apply envOr_nonempty.
  - unfold silence_allow. destruct (negb _); [|constructor]. apply Forall_forall. intros x Hx. by apply list_elem_of_filter in Hx as [? _].
Qed.

(** C29: [Load] starts the brain in exactly the environments that name what it
    needs: a readable key file, known transports and at least one, a known
    provider with its key or its URL and model, the trust root, the CA's pair, and
    the files of each enabled transport; and what it then returns satisfies all the
    later parts assume, with no negative retries, no busy polling of the tenants
    and no empty address. *)
Theorem config_load_valid (getenv : string → string) (read_file : string → result string string)
    (ParseFloat : string → option spec_float) :
  (is_Ok (Load getenv read_file ParseFloat) = true ↔ ∃ key modes, env_ok getenv read_file key modes) ∧
  (∀ cfg, Load getenv read_file ParseFloat = Ok cfg → valid cfg ∧ env_ok getenv read_file (LLMAPIKey cfg) (AuthModes cfg)).
Proof.
  split.
  - split.
    + destruct (Load _ _ _) as [cfg|] eqn:E; [|done]. intros _. apply Load_Ok in E as (key & modes & H & _). eauto.
    + intros (key & modes & H). by rewrite (proj2 (Load_Ok _ _ _ _) (ex_intro _ key (ex_intro _ modes (conj H eq_refl)))).
  - intros cfg (key & modes & H & ->)%Load_Ok. split; [by eapply config_of_valid|done].
Qed.

(** ** Numbers *)

Lemma parse_uint_range n s : 0 <= n < 2 ^ 64 → 0 <= (parse_uint n s).1 < 2 ^ 64.
Proof.
  revert n. induction s as [|a s IH]; intros n Hn; [done|]. cbn [parse_uint].
  destruct (negb (is_digit a)) eqn:Ed; [done|]. destruct (_ <=? n) eqn:E1; [done|].
  destruct (2 ^ 64 <=? _) eqn:E2; [done|]. apply IH. zbool. apply negb_false_iff, andb_true_iff in Ed as [Ed _]. zbool. lia.
Qed.

(** Whatever text a setting has, the number kept for it is an int64. *)
Lemma Atoi_range s : in_int64 (Atoi s).1.
Proof.
  unfold Atoi, in_int64. set (p := match s with "" => _ | String _ _ => _ end). destruct p as [neg digits].
  assert (0 <= (ParseUint digits).1 < 2 ^ 64) as Hu.
  { unfold ParseUint. destruct (seqb _ _); [done|]. by apply parse_uint_range. }
  destruct (ParseUint digits) as [un e]. cbn [fst] in Hu.
  assert (in_int64 (if negb neg && (2 ^ 63 <=? un) then (2 ^ 63 - 1, Some ErrRange)
      else if neg && (2 ^ 63 <? un) then (- 2 ^ 63, Some ErrRange) else (if neg then - un else un, None)).1) as H.
  { unfold in_int64. destruct neg; cbn [negb andb].
    - destruct (2 ^ 63 <? un) eqn:E; zbool; cbn [fst]; lia.
    - destruct (2 ^ 63 <=? un) eqn:E; zbool; cbn [fst]; lia. }
  destruct e as [[]|]; [done|exact H|exact H].
Qed.

Lemma Atoi_syntax s : (Atoi s).2 = Some ErrSyntax → (Atoi s).1 = 0.
Proof. unfold Atoi. repeat case_match; try done; cbn; intros; congruence. Qed.

Example Atoi_values :
  (Atoi "60", Atoi "-7", Atoi "+3", Atoi "6O", Atoi "", Atoi "9223372036854775808", Atoi "-99999999999999999999x") =
  ((60, None), (-7, None), (3, None), (0, Some ErrSyntax), (0, Some ErrSyntax),
   (2 ^ 63 - 1, Some ErrRange), (- 2 ^ 63, Some ErrRange)).
Proof. vm_compute. reflexivity. Qed.

(** ** An environment *)

Definition sample_env (k : string) : string :=
  if seqb k "ANTHROPIC_API_KEY" then "sk-legacy"
  else if seqb k "TLS_TRUST_ROOT_FILE" then "root"
  else if seqb k "INTERMEDIATE_CA_FILE" then "inter"
  else if seqb k "INTERMEDIATE_KEY_FILE" then "inter.key"
  else if seqb k "TLS_SERVER_CERT_FILE" then "server.crt"
  else if seqb k "TLS_SERVER_KEY_FILE" then "server.key"
  else "".

Definition set_env (k v : string) (env : string → string) : string → string := λ x, if seqb x k then v else env x.

Definition no_files (path : string) : result string string := Err "no such file".
Definition no_floats (s : string) : option spec_float := None.

(** The defaults: Anthropic, one retry, mTLS alone. *)
Example sample_env_loads :
  match Load sample_env no_files no_floats with
  | Ok c => (LLMProvider c, LLMModel c, LLMAPIKey c, LLMMaxRetries c, AuthModes c, LLMMaxCallsPerMinute c,
             AlertManagerSilenceDur c) =
            ("anthropic", "claude-opus-4-5", "sk-legacy", 1, ["mtls"], 60, 2 * Hour)
  | Err _ => False
  end.
Proof. vm_compute. reflexivity. Qed.

(** Each refusal, in the order of the code's tests. *)
Example sample_env_refused :
  let load k v := match Load (set_env k v sample_env) no_files no_floats with Ok _ => None | Err e => Some e end in
  (load "LLM_API_KEY_FILE" "key", load "AUTH_MODES" "mtls,basic", load "AUTH_MODES" " , ", load "ANTHROPIC_API_KEY" "",
   load "LLM_PROVIDER" "OpenAI-Compatible", load "LLM_PROVIDER" "gemini", load "TLS_TRUST_ROOT_FILE" "",
   load "INTERMEDIATE_KEY_FILE" "", load "TLS_SERVER_CERT_FILE" "", load "AUTH_MODES" "Signed") =
  (Some (KeyFileUnreadable "key" "no such file"), Some (UnknownAuthMode "basic"), Some NoAuthMode, Some APIKeyRequired,
   Some BaseURLRequired, Some (BadProvider "gemini"), Some TrustRootRequired,
   Some IntermediateRequired, Some ServerCertRequired, Some HPKEKeyRequired).
Proof. vm_compute. reflexivity. Qed.
