(* ===== verification/Ingest.v ===== *)
(** * Ingestion

    [internal/ingest/handler.go]: a payload is accepted only under the cluster of
    the caller's certificate and processed by a goroutine of its own. *)
From S2P Require Import Prelude Proto Identity.

Inductive ingest_error := ErrIngestNoIdentity | ErrIngestForbidden.

(** The WaitGroup, as the payloads of the goroutines that have not returned. *)
Record Handler := MkHandler { inflight : list (ref AlertPayload) }.

Definition NewHandler : Handler := MkHandler [].

(** [h.wg.Add(1)] and the [go] statement. *)
Definition go_process (payload : ref AlertPayload) : M Handler unit :=
  modify (λ h, MkHandler (inflight h ++ [payload])%list).

(** [None] is a nil error. *)
Definition Ingest (ctx : option Identity) (payload : ref AlertPayload) : M Handler (option ingest_error) :=
  match FromContext ctx with
  | None => mret (Some ErrIngestNoIdentity)
  | Some id =>
      if negb (seqb (ClusterId (deref payload)) (ClusterID id)) then mret (Some ErrIngestForbidden)
      else go_process payload;; mret None
  end.

(** [h.wg.Done()]: the goroutine at position [i] returns. *)
Definition Done (i : nat) : M Handler unit := modify (λ h, MkHandler (delete i (inflight h))).

(** Whether [Wait] returns at once. *)
Definition Wait (h : Handler) : bool := match inflight h with [] => true | _ => false end.

Lemma Ingest_spec ctx payload n h :
  Ingest ctx payload (n, h) =
    match ctx with
    | None => (Some ErrIngestNoIdentity, (n, h))
    | Some id =>
        if seqb (ClusterId (deref payload)) (ClusterID id)
        then (None, (n, MkHandler (inflight h ++ [payload])%list))
        else (Some ErrIngestForbidden, (n, h))
    end.
Proof. unfold Ingest, FromContext. destruct ctx as [id|]; [|done]. by destruct (seqb _ _). Qed.
