(* ===== verification/GrpcSrv.v ===== *)
(** * The gRPC server

    [internal/grpcsrv]: the interceptors in front of the handlers
    ([interceptors.go]), the handlers with their status codes ([server.go]), and
    the chain [cmd/muthur/main.go] mounts. *)
From S2P Require Import Prelude GoStrings Store Identity Replay Tenants Signer Issue Proto Ingest.

(** ** Requests *)

(** The status codes the repository tells apart; the text of a status is that of
    the same error and is left out. *)
Inductive Code :=
| Unauthenticated
| PermissionDenied
| InvalidArgument
| NotFound
| FailedPrecondition
| Unavailable
| Internal.

(** [peer.Peer.AuthInfo]: a TLS connection with the certificates of the client,
    or anything else. *)
Inductive AuthInfo := TLSInfo (PeerCertificates : list Certificate) | OtherAuth.

(** What a unary call's context carries: the peer, the incoming metadata and,
    once the interceptor has put it there, the identity. *)
Record Ctx := MkCtx {
  ctx_peer : option AuthInfo;
  ctx_md : gmap string (list string);
  ctx_identity : option Identity;
}.

Definition with_identity (ctx : Ctx) (id : Identity) : Ctx :=
  MkCtx (ctx_peer ctx) (ctx_md ctx) (WithContext (ctx_identity ctx) id).

Inductive Request :=
| IngestRequest (payload : ref AlertPayload)
| BootstrapRequest (inp : BootstrapInput)
| SignCSRRequest (csr : string).

Inductive Response :=
| IngestResponse
| BootstrapResponse (certificate ca : string)
| SignCSRResponse (certificate ca : string).

Definition Brain_Ingest_FullMethodName : string := "/monitoring.v1.Brain/Ingest".
Definition Brain_BootstrapCert_FullMethodName : string := "/monitoring.v1.Brain/BootstrapCert".
Definition Brain_SignCSR_FullMethodName : string := "/monitoring.v1.Brain/SignCSR".

Definition FullMethod (req : Request) : string :=
  match req with
  | IngestRequest _ => Brain_Ingest_FullMethodName
  | BootstrapRequest _ => Brain_BootstrapCert_FullMethodName
  | SignCSRRequest _ => Brain_SignCSR_FullMethodName
  end.

Definition authExemptMethods : gset string := {[ Brain_BootstrapCert_FullMethodName ]}.

Definition exempt (method : string) : bool := bool_decide (method ∈ authExemptMethods).

(** ** Interceptors *)

Definition MetaTimestamp : string := "x-muthur-timestamp".
Definition MetaNonce : string := "x-muthur-nonce".

(** [md.Get]: the keys of a [metadata.MD] are lower case. *)
Definition md_Get (md : gmap string (list string)) (key : string) : list string := default [] (md !! ToLower key).

Fixpoint first_nonempty (l : list string) : string :=
  match l with
  | [] => ""
  | v :: l => let v := TrimSpace v in if negb (seqb v "") then v else first_nonempty l
  end.

Definition firstMeta (md : gmap string (list string)) (key : string) : string := first_nonempty (md_Get md key).

(** The state the server's calls share. *)
Record Brain (S : Type) := MkBrain {
  br_store : S;
  br_tenants : TenantsReloader;
  br_ingest : Handler;
}.
Arguments MkBrain {S}. Arguments br_store {S}. Arguments br_tenants {S}. Arguments br_ingest {S}.

Definition on_store {S A} : M S A → M (Brain S) A :=
  zoom br_store (λ s b, MkBrain s (br_tenants b) (br_ingest b)).
Definition on_ingest {S A} : M Handler A → M (Brain S) A :=
  zoom br_ingest (λ h b, MkBrain (br_store b) (br_tenants b) h).

Definition handler (S : Type) : Type := Ctx → M (Brain S) (result Code Response).
Definition interceptor (S : Type) : Type := string → handler S → handler S.

Section interceptors.
Context `{!Clock, !CertLib} {S : Type} `{!Store S}.

Definition AuthInterceptor : interceptor S := λ method next ctx,
  if exempt method then next ctx else
  match ctx_peer ctx with
  | None => mret (Err Unauthenticated)
  | Some (TLSInfo (cert :: _)) =>
      match ExtractFromCert (Some cert) with
      | Err _ => mret (Err Unauthenticated)
      | Ok id => next (with_identity ctx id)
      end
  | Some _ => mret (Err Unauthenticated)
  end.

Definition RevocationInterceptor : interceptor S := λ method next ctx,
  if exempt method then next ctx else
  match FromContext (ctx_identity ctx) with
  | None => mret (Err Unauthenticated)
  | Some id =>
      b ← get;
      match Current (br_tenants b) with
      | None => mret (Err Internal)
      | Some tenants =>
          match Lookup (Some tenants) (ClusterID id) with
          | None => mret (Err PermissionDenied)
          | Some tenant => if Revoked tenant then mret (Err PermissionDenied) else next ctx
          end
      end
  end.

Definition replay_code (e : replay_error) : Code :=
  match e with
  | ErrReplayMissingTimestamp | ErrReplayBadTimestamp | ErrReplayMissingNonce | ErrReplayBadNonce => InvalidArgument
  | _ => Unauthenticated
  end.

Definition ReplayInterceptor (guard : ReplayGuard) : interceptor S := λ method next ctx,
  if exempt method then next ctx else
  match FromContext (ctx_identity ctx) with
  | None => mret (Err Unauthenticated)
  | Some id =>
      let ts := firstMeta (ctx_md ctx) MetaTimestamp in
      let nonce := firstMeta (ctx_md ctx) MetaNonce in
      e ← on_store (Verify guard (Some id) ts nonce);
      match e with
      | Some e => mret (Err (replay_code e))
      | None => next ctx
      end
  end.

(** [grpc.ChainUnaryInterceptor]: the first interceptor is the outermost. *)
Fixpoint chain (ics : list (interceptor S)) (method : string) (h : handler S) : handler S :=
  match ics with
  | [] => h
  | i :: ics => i method (chain ics method h)
  end.

(** ** Handlers *)

(** What the server is built from; [sv_serial] is the serial number the next
    signature draws ([None] when the source of randomness fails). *)
Record Server := MkServer { sv_prefix : string; sv_signer : Signer; sv_guard : ReplayGuard }.

Definition ingest_code (e : ingest_error) : Code :=
  match e with ErrIngestNoIdentity => Unauthenticated | ErrIngestForbidden => PermissionDenied end.

Definition Server_Ingest (ctx : Ctx) (payload : ref AlertPayload) : M (Brain S) (result Code Response) :=
  e ← on_ingest (Ingest (ctx_identity ctx) payload);
  match e with
  | Some e => mret (Err (ingest_code e))
  | None => mret (Ok IngestResponse)
  end.

Definition bootstrap_code (e : bootstrap_error) : Code :=
  match e with
  | ErrBootstrapBadRequest => InvalidArgument
  | ErrBootstrapUnauthorized => Unauthenticated
  | ErrBootstrapForbidden => PermissionDenied
  | ErrBootstrapInternal => Internal
  end.

Definition Server_BootstrapCert (sv : Server) (serial : option Z) (inp : BootstrapInput) :
    M (Brain S) (result Code Response) :=
  b ← get;
  r ← on_store (Bootstrap_Issue (sv_prefix sv) (sv_signer sv) (Current (br_tenants b)) serial inp);
  match r with
  | Err e => mret (Err (bootstrap_code e))
  | Ok res => mret (Ok (BootstrapResponse (CertificatePEM res) (CAPEM res)))
  end.

Definition renew_code (e : renew_error) : Code :=
  match e with
  | ErrRenewBadRequest => InvalidArgument
  | ErrRenewForbidden => PermissionDenied
  | ErrRenewNoIdentity => Unauthenticated
  end.

Definition Server_SignCSR (sv : Server) (serial : option Z) (ctx : Ctx) (csr : string) :
    M (Brain S) (result Code Response) :=
  b ← get;
  r ← on_store (Renew_Issue (sv_signer sv) (Current (br_tenants b)) (ctx_identity ctx) serial csr);
  match r with
  | Err e => mret (Err (renew_code e))
  | Ok res => mret (Ok (SignCSRResponse (CertificatePEM res) (CAPEM res)))
  end.

Definition dispatch (sv : Server) (serial : option Z) (req : Request) : handler S := λ ctx,
  match req with
  | IngestRequest payload => Server_Ingest ctx payload
  | BootstrapRequest inp => Server_BootstrapCert sv serial inp
  | SignCSRRequest csr => Server_SignCSR sv serial ctx csr
  end.

(** A call of the server that [main.go] mounts. *)
Definition serve (sv : Server) (serial : option Z) (req : Request) : handler S :=
  chain [AuthInterceptor; RevocationInterceptor; ReplayInterceptor (sv_guard sv)] (FullMethod req)
    (dispatch sv serial req).
End interceptors.

(** ** Lemmas *)

(** The identity of the leaf certificate the caller presented. *)
Definition cert_identity (ctx : Ctx) : option Identity :=
  match ctx_peer ctx with
  | Some (TLSInfo (cert :: _)) =>
      match ExtractFromCert (Some cert) with Ok id => Some id | Err _ => None end
  | _ => None
  end.

(** The tenant of a cluster in the current snapshot, and whether it may call. *)
Definition active (r : TenantsReloader) (cluster : string) : Prop :=
  ∃ t, Lookup (Current r) cluster = Some t ∧ Revoked t = false.

Section lemmas.
Context `{HC : !Clock, HL : !CertLib} {S : Type} `{HS : !Store S}.

Definition replay_check (sv : Server) (id : Identity) (ctx : Ctx) : M S (option replay_error) :=
  Verify (sv_guard sv) (Some id) (firstMeta (ctx_md ctx) MetaTimestamp) (firstMeta (ctx_md ctx) MetaNonce).

(** A call that needs a certificate either fails at a gate, which leaves the
    handlers' state alone, or runs the handler under the caller's identity. *)
Lemma serve_gates sv serial req ctx n (b : Brain S) :
  exempt (FullMethod req) = false →
  (∃ code s' n', serve sv serial req ctx (n, b) = (Err code, (n', MkBrain s' (br_tenants b) (br_ingest b))) ∧
     ¬ (∃ id, cert_identity ctx = Some id ∧ active (br_tenants b) (ClusterID id) ∧
          (replay_check sv id ctx (n, br_store b)).1 = None)) ∨
  (∃ id n' s', cert_identity ctx = Some id ∧ active (br_tenants b) (ClusterID id) ∧
     replay_check sv id ctx (n, br_store b) = (None, (n', s')) ∧
     serve sv serial req ctx (n, b) =
       dispatch sv serial req (with_identity ctx id) (n', MkBrain s' (br_tenants b) (br_ingest b))).
Proof.
  intros He. destruct b as [s r h]. cbn [br_store br_tenants br_ingest].
  assert (∀ code m, cert_identity ctx = None →
    m = (Err code, (n, MkBrain s r h)) →
    ∃ c s' n', m = (@Err Code Response c, (n', MkBrain s' r h)) ∧
      ¬ (∃ id, cert_identity ctx = Some id ∧ active r (ClusterID id) ∧ (replay_check sv id ctx (n, s)).1 = None))
    as Hno.
  { intros code m Hn ->. exists code, s, n. split; [done|]. intros (id & Hid & _). congruence. }
  unfold serve. cbn [chain]. unfold AuthInterceptor. rewrite He.
  unfold cert_identity in *. destruct (ctx_peer ctx) as [[[|cert rest]|]|]; try (left; by eapply Hno).
  destruct (ExtractFromCert (Some cert)) as [id|]; [|left; by eapply Hno]. clear Hno.
  unfold RevocationInterceptor. rewrite He. cbn [ctx_identity with_identity WithContext FromContext].
  munfold. cbn [br_tenants]. unfold active.
  destruct (Current r) as [tenants|] eqn:Ec.
  2: { left. exists Internal, s, n. split; [done|]. by intros (? & [= <-] & (t & Ht & _) & _). }
  destruct (Lookup (Some tenants) (ClusterID id)) as [tenant|] eqn:Et.
  2: { left. exists PermissionDenied, s, n. split; [done|]. intros (? & [= <-] & (t & Ht & _) & _). congruence. }
  destruct (Revoked tenant) eqn:Er.
  { left. exists PermissionDenied, s, n. split; [done|]. intros (? & [= <-] & (t & Ht & Hr) & _). congruence. }
  unfold ReplayInterceptor. rewrite He. cbn [ctx_identity ctx_md with_identity WithContext FromContext].
  unfold on_store, zoom. munfold. cbn [br_store br_tenants br_ingest]. unfold replay_check.
  destruct (Verify _ _ _ _ (n, s)) as [[e|] [n' s']] eqn:Ev.
  - left. exists (replay_code e), s', n'. split; [done|]. intros (? & [= <-] & _ & Hv). by rewrite Ev in Hv.
  - right. exists id, n', s'. split_and!; [done|eauto|done|done].
Qed.
End lemmas.

(** ** Properties *)

(** C2: tenant isolation of ingestion. An alert pushed over mTLS is accepted
    exactly when the caller's leaf certificate names an identity, the cluster of
    that identity is a tenant that is not revoked, the timestamp and nonce of the
    call pass the replay check, and the alert is labelled with that very cluster;
    then, and only then, its processing starts. *)
Theorem grpc_ingest_isolated `{HC : !Clock, HL : !CertLib} {S : Type} `{HS : !Store S}
    (sv : Server) (serial : option Z) (payload : ref AlertPayload) (ctx : Ctx) (n : nat) (b : Brain S) :
  let '(r, (_, b')) := serve sv serial (IngestRequest payload) ctx (n, b) in
  (r = Ok IngestResponse ↔
    ∃ id, cert_identity ctx = Some id ∧ active (br_tenants b) (ClusterID id) ∧
      (replay_check sv id ctx (n, br_store b)).1 = None ∧
      ClusterId (deref payload) = ClusterID id) ∧
  inflight (br_ingest b') =
    (inflight (br_ingest b) ++ match r with Ok IngestResponse => [payload] | _ => [] end)%list ∧
  br_tenants b' = br_tenants b.
Proof.
  destruct (serve_gates sv serial (IngestRequest payload) ctx n b ltac:(by vm_compute))
    as [(code & s' & n' & -> & Hno)|(id & n' & s' & Hid & Ha & Hv & ->)].
  - rewrite app_nil_r. split_and!; [|done..]. split; [done|]. intros (id & H1 & H2 & H3 & _). destruct Hno. eauto.
  - unfold dispatch, Server_Ingest, on_ingest, zoom. munfold. cbn [br_ingest br_store br_tenants ctx_identity with_identity].
    rewrite Ingest_spec. unfold WithContext.
    destruct (seqb _ _) eqn:E; cbn [br_ingest br_tenants inflight]; sbool.
    + split_and!; [|done..]. split; [|done]. intros _. exists id. by rewrite Hv.
    + rewrite app_nil_r. split_and!; [|done..]. split; [done|]. intros (id' & H1 & _ & _ & H4). congruence.
Qed.

(** C20: certificates are renewed only over an authenticated call and only for
    the caller: a leaf is minted on a renewal only if the call passed the three
    gates, and it then carries the tenant and cluster of the certificate the
    caller presented, whatever the request asks for. *)
Theorem grpc_renewal_gated `{HC : !Clock, HL : !CertLib} {S : Type} `{HS : !Store S}
    (sv : Server) (serial : option Z) (csr : string) (ctx : Ctx) (n : nat) (b : Brain S) (pem ca : string) c' :
  serve sv serial (SignCSRRequest csr) ctx (n, b) = (Ok (SignCSRResponse pem ca), c') →
  ∃ id leaf, cert_identity ctx = Some id ∧ active (br_tenants b) (ClusterID id) ∧
    (replay_check sv id ctx (n, br_store b)).1 = None ∧
    create_certificate leaf = Ok pem ∧ Leaf_CommonName leaf = ClusterID id ∧ Leaf_URIs leaf = identity_uris id.
Proof.
  destruct (serve_gates sv serial (SignCSRRequest csr) ctx n b ltac:(by vm_compute))
    as [(code & s' & n' & -> & _)|(id & n' & s' & Hid & Ha & Hv & ->)]; [done|].
  unfold dispatch, Server_SignCSR, on_store, zoom. munfold. cbn [br_store br_tenants br_ingest ctx_identity with_identity].
  unfold Renew_Issue, WithContext, FromContext. destruct (Current _); [|done].
  destruct (match Lookup _ _ with Some _ => _ | None => _ end); [done|]. destruct (seqb csr ""); [done|].
  munfold. destruct (Sign _ _ _ _ _ _) as [[p|] [n2 s2]] eqn:Es; [|done]. cbn [CertificatePEM CAPEM]. intros [= <- _ _].
  apply Sign_Ok in Es as (? & sn & _ & _ & _ & _ & Es). eexists id, _.
  rewrite Hv. split_and!; [done..|exact Es|done|done].
Qed.

(** A caller of [prod-a], its request and a server, for examples. *)
Definition sample_ctx : Ctx :=
  MkCtx (Some (TLSInfo [MkCertificate 31 [MkURL "spiffe" "muthur" "/acme/prod-a"] "prod-a" 0]))
    {[ MetaTimestamp := ["0"]; MetaNonce := [" 00112233445566778899aabbccddeeff"] ]} None.

Definition sample_server : Server :=
  MkServer "m:" production_signer (NewReplayGuard (5 * Minute) "m:").

Definition sample_brain : Brain Memory.t :=
  MkBrain Memory.NewMemory
    (MkTenantsReloader (Some (MkTenantsState {[ "prod-a" := bootstrap_tenant 0 ]} 1)) (5 * Second)) NewHandler.

Lemma grpc_renewal_gated_witness :
  let HC := unix_seconds_clock in let HL := sample_certlib in
  ∃ id leaf, cert_identity sample_ctx = Some id ∧ active (br_tenants sample_brain) (ClusterID id) ∧
    (replay_check sample_server id sample_ctx (0%nat, br_store sample_brain)).1 = None ∧
    create_certificate leaf = Ok "leaf:prod-a" ∧ Leaf_CommonName leaf = ClusterID id ∧
    Leaf_URIs leaf = identity_uris id.
Proof.
  intros HC HL.
  apply (grpc_renewal_gated (HC := HC) (HL := HL) sample_server (Some 7) "csr" sample_ctx 0 sample_brain "leaf:prod-a" "ca"
    (serve sample_server (Some 7) (SignCSRRequest "csr") sample_ctx (0%nat, sample_brain)).2).
  vm_compute. reflexivity.
Defined.

Example grpc_ingest_accepts :
  let HC := unix_seconds_clock in let HL := sample_certlib in
  let p := Ref 1%N (mk_alert "prod-a" "PodCrash" "critical" "shop" "web-1" "firing" 1 None) in
  (serve sample_server None (IngestRequest p) sample_ctx (0%nat, sample_brain)).1 = Ok IngestResponse.
Proof. vm_compute. reflexivity. Qed.
