(* ===== verification/SignedSrv.v ===== *)
(** * The signed transport

    [internal/signedsrv/server.go]: the same service over plain HTTP, for
    collectors behind an edge that ends TLS. The caller signs each request with
    the key of its certificate and seals the body to the brain. *)
From S2P Require Import Prelude GoStrings Sha256 Json GoEncoding HttpSig Sealed Trust Store Identity Replay Tenants Signer Issue Proto Ingest GrpcSrv.
From Stdlib Require Import Ascii.

Definition PathKeys : string := "/muthur/v1/keys".
Definition PathBootstrap : string := "/muthur/v1/bootstrap".
Definition PathIngest : string := "/muthur/v1/ingest".
Definition PathSignCSR : string := "/muthur/v1/sign-csr".
Definition maxBody : nat := Z.to_nat (8 * 2 ^ 20).

Definition CodeBadRequest : string := "bad_request".
Definition CodeBadDigest : string := "bad_digest".
Definition CodeBadSignature : string := "bad_signature".
Definition CodeBadCert : string := "bad_cert".
Definition CodeUnknownTenant : string := "unknown_tenant".
Definition CodeRevoked : string := "revoked".
Definition CodeReplay : string := "replay".
Definition CodeHPKEKeyUnknown : string := "hpke_key_unknown".
Definition CodeSealed : string := "sealed_malformed".
Definition CodeUnauthorized : string := "unauthenticated".
Definition CodeForbidden : string := "forbidden".
Definition CodeNotFound : string := "not_found".
Definition CodePrecondition : string := "failed_precondition".
Definition CodeInternal : string := "internal".

(** ** Requests and replies *)

(** The body is [None] when reading it fails. *)
Record HttpRequest := MkHttpRequest {
  rq_method : string;
  rq_path : string;
  rq_header : Header;
  rq_body : option string;
}.

(** A JSON error body with its code (its message is left out), a sealed response,
    the keys document, the health page, what the router answers by itself, and
    the reply of [middleware.Recoverer] to a panic. *)
Inductive HttpReply :=
| ReplyError (st : Z) (code : string)
| ReplySealed (body : string)
| ReplyKeys (doc : string)
| ReplyHealthy
| ReplyNotFound
| ReplyMethodNotAllowed
| ReplyPanic.

(** [grpcToHTTP] on the code of the error. *)
Definition grpcToHTTP (c : Code) : Z * string :=
  match c with
  | InvalidArgument => (400, CodeBadRequest)
  | Unauthenticated => (401, CodeUnauthorized)
  | PermissionDenied => (403, CodeForbidden)
  | NotFound => (404, CodeNotFound)
  | FailedPrecondition => (412, CodePrecondition)
  | Unavailable => (503, CodeInternal)
  | Internal => (500, CodeInternal)
  end.

(** The generated protobuf code: decoding a request, encoding a response. *)
Class Wire := {
  unmarshal_bootstrap : string → option BootstrapInput;
  unmarshal_alert : string → option AlertPayload;
  unmarshal_signcsr : string → option string;
  marshal_response : Response → option string;
}.

(** ** The keys document *)

Record KeyEntry := MkKeyEntry { KE_KID : string; KE_PublicKey : string }.

Definition key_entry_json (e : KeyEntry) : json :=
  JObj [("kid", JStr (KE_KID e)); ("kem", JStr HPKEKEMName); ("kdf", JStr HPKEKDFName);
        ("aead", JStr HPKEAEADName); ("public_key", JStr (KE_PublicKey e))].

(** [json.Marshal] of a [KeysPayload]; a nil slice is [null]. *)
Definition keys_payload (issuedAt : Z) (entries : list KeyEntry) : string :=
  json_print (JObj [("issued_at", JNum (FormatInt issuedAt));
    ("keys", match entries with [] => JNull | _ => JArr (map key_entry_json entries) end)]).

(** The encoder ends the document with a line break. *)
Definition keys_document (payload signature signer : string) : string :=
  json_print (JObj [("payload", JStr (base64_Encode payload)); ("signature", JStr (base64_Encode signature));
    ("signer", JStr (base64_Encode signer))]) +:+ String "010" "".

(** ** The server *)

Record Deps (SK CK : Type) := MkDeps {
  dp_server : Server;
  dp_keys : HPKEKeySet SK;
  dp_trust : TrustPools;
  dp_ca_key : CK;
  dp_ca_raw : string;
}.
Arguments MkDeps {SK CK}. Arguments dp_server {SK CK}. Arguments dp_keys {SK CK}.
Arguments dp_trust {SK CK}. Arguments dp_ca_key {SK CK}. Arguments dp_ca_raw {SK CK}.

(** What one request draws from outside the server: a serial number, randomness
    for the CA's signature and for the response nonce, and the address of the
    message it decodes. *)
Record Draws := MkDraws {
  dr_serial : option Z;
  dr_sign : string;
  dr_nonce : option string;
  dr_addr : N;
}.

Definition parseCertHeader {PK} `{!X509 PK} (v : string) : option (X509Cert PK) :=
  let v := TrimSpace v in
  if seqb v "" then None else der ← base64_Decode v; ParseCertificate der.

Section server.
Context `{HC : !Clock, HL : !CertLib} {S : Type} `{HS : !Store S} (IsPrint : Z → bool).
Context {PK ESK SK HPK K CK CA : Type}.
Context `{HE : !Ecdsa PK ESK, HX : !X509 PK, HH : !Hpke SK HPK K, HG : !Gcm, HP : !PayloadLib CK CA, HW : !Wire}.
Context (d : Deps SK CK).

(** The errors of the guard that are the caller's mistake, and the others. *)
Definition replay_reply (e : replay_error) : HttpReply :=
  match e with
  | ErrReplayMissingTimestamp | ErrReplayBadTimestamp | ErrReplayMissingNonce | ErrReplayBadNonce =>
      ReplyError 400 CodeBadRequest
  | _ => ReplyError 401 CodeReplay
  end.

Definition authenticate (rq : HttpRequest) (path timestamp nonce : string) :
    M (Brain S) (HttpReply + Identity) :=
  match parseCertHeader (Header_Get (rq_header rq) HeaderCert) with
  | None => mret (inl (ReplyError 401 CodeBadCert))
  | Some leaf =>
    now ← time_Now;
    if negb (VerifyClientLeaf (dp_trust d) leaf now) then mret (inl (ReplyError 401 CodeBadCert)) else
    match PublicKey leaf with
    | None => mret (inl (ReplyError 401 CodeBadCert))
    | Some pub =>
      match VerifyRequest IsPrint (rq_method rq) path (rq_header rq) (Some pub) with
      | Err _ => mret (inl (ReplyError 401 CodeBadSignature))
      | Ok info =>
        if negb (seqb (KeyID info) (CertKeyID (Raw leaf))) then mret (inl (ReplyError 401 CodeBadSignature)) else
        if match ParseInt timestamp with None => true | Some ts => negb (ts =? Created info) end
        then mret (inl (ReplyError 401 CodeBadSignature)) else
        match ExtractFromCert (Some (cert_info leaf)) with
        | Err _ => mret (inl (ReplyError 401 CodeBadCert))
        | Ok id =>
          b ← get;
          match Current (br_tenants b) with
          | None => mret (inl (ReplyError 500 CodeInternal))
          | Some tenants =>
            match Lookup (Some tenants) (ClusterID id) with
            | None => mret (inl (ReplyError 403 CodeUnknownTenant))
            | Some tenant =>
              if Revoked tenant then mret (inl (ReplyError 403 CodeRevoked)) else
              e ← on_store (Verify (sv_guard (dp_server d)) (Some id) timestamp nonce);
              match e with
              | Some e => mret (inl (replay_reply e))
              | None => mret (inr id)
              end
            end
          end
        end
      end
    end
  end.

(** The common pipeline after authentication. *)
Definition answer (dr : Draws) (path timestamp nonce kid body : string) (ctx : Ctx)
    (call : Ctx → string → M (Brain S) (result Code Response)) : M (Brain S) HttpReply :=
  match OpenRequest (dp_keys d) kid path timestamp nonce body with
  | Err ErrUnknownHPKEKey => mret (ReplyError 400 CodeHPKEKeyUnknown)
  | Err _ => mret (ReplyError 400 CodeSealed)
  | Ok (plaintext, sealer) =>
    resp ← call ctx plaintext;
    match resp with
    | Err c => let '(st, code) := grpcToHTTP c in mret (ReplyError st code)
    | Ok resp =>
      match marshal_response resp with
      | None => mret (ReplyError 500 CodeInternal)
      | Some out =>
        match ResponseSealer_Seal sealer (dr_nonce dr) out with
        | Err _ => mret (ReplyError 500 CodeInternal)
        | Ok sealed => mret (ReplySealed sealed)
        end
      end
    end
  end.

Definition no_ctx : Ctx := MkCtx None ∅ None.

Definition handle (dr : Draws) (rq : HttpRequest) (path : string) (authenticated : bool)
    (call : Ctx → string → M (Brain S) (result Code Response)) : M (Brain S) HttpReply :=
  let h := rq_header rq in
  if negb (HasPrefix (Header_Get h "Content-Type") SealedContentType) then mret (ReplyError 415 CodeBadRequest) else
  match rq_body rq with
  | None => mret (ReplyError 413 CodeBadRequest)
  | Some body =>
    if (maxBody <? String.length body)%nat then mret (ReplyError 413 CodeBadRequest) else
    match VerifyContentDigest h body with
    | Some _ => mret (ReplyError 400 CodeBadDigest)
    | None =>
      let timestamp := TrimSpace (Header_Get h HeaderTimestamp) in
      let nonce := TrimSpace (Header_Get h HeaderNonce) in
      let kid := TrimSpace (Header_Get h HeaderHPKEKid) in
      if authenticated then
        r ← authenticate rq path timestamp nonce;
        match r with
        | inl reply => mret reply
        | inr id => answer dr path timestamp nonce kid body (with_identity no_ctx id) call
        end
      else answer dr path timestamp nonce kid body no_ctx call
    end
  end.

Definition bootstrap (dr : Draws) (rq : HttpRequest) : M (Brain S) HttpReply :=
  handle dr rq PathBootstrap false (λ ctx plain,
    match unmarshal_bootstrap plain with
    | None => mret (Err InvalidArgument)
    | Some inp => dispatch (dp_server d) (dr_serial dr) (BootstrapRequest inp) ctx
    end).

Definition ingest (dr : Draws) (rq : HttpRequest) : M (Brain S) HttpReply :=
  handle dr rq PathIngest true (λ ctx plain,
    match unmarshal_alert plain with
    | None => mret (Err InvalidArgument)
    | Some p => dispatch (dp_server d) (dr_serial dr) (IngestRequest (Ref (dr_addr dr) p)) ctx
    end).

Definition signCSR (dr : Draws) (rq : HttpRequest) : M (Brain S) HttpReply :=
  handle dr rq PathSignCSR true (λ ctx plain,
    match unmarshal_signcsr plain with
    | None => mret (Err InvalidArgument)
    | Some csr => dispatch (dp_server d) (dr_serial dr) (SignCSRRequest csr) ctx
    end).

Definition serve_keys (dr : Draws) : M (Brain S) HttpReply :=
  now ← time_Now;
  match Public (dp_keys d) with
  | None => mret ReplyPanic
  | Some pubs =>
    let payload := keys_payload (Unix now) (map (λ k, MkKeyEntry (KID k) (base64_Encode (pk_Bytes (Key k)))) pubs) in
    match SignPayload (dr_sign dr) (dp_ca_key d) payload with
    | None => mret (ReplyError 500 CodeInternal)
    | Some sig => mret (ReplyKeys (keys_document payload sig (dp_ca_raw d)))
    end
  end.

(** The routes of [New]. *)
Definition serve_http (dr : Draws) (rq : HttpRequest) : M (Brain S) HttpReply :=
  let route m (h : M (Brain S) HttpReply) :=
    if seqb (rq_method rq) m then h else mret ReplyMethodNotAllowed in
  if seqb (rq_path rq) PathKeys then route "GET" (serve_keys dr)
  else if seqb (rq_path rq) PathBootstrap then route "POST" (bootstrap dr rq)
  else if seqb (rq_path rq) PathIngest then route "POST" (ingest dr rq)
  else if seqb (rq_path rq) PathSignCSR then route "POST" (signCSR dr rq)
  else if seqb (rq_path rq) "/healthz" then route "GET" (mret ReplyHealthy)
  else mret ReplyNotFound.
End server.

(** ** Lemmas *)

Definition not_sealed (r : HttpReply) : Prop := ∀ out, r ≠ ReplySealed out.

Section lemmas.
Context `{HC : !Clock, HL : !CertLib} {S : Type} `{HS : !Store S} (i : Z → bool).
Context {PK ESK SK HPK K CK CA : Type}.
Context `{HE : !Ecdsa PK ESK, HX : !X509 PK, HH : !Hpke SK HPK K, HG : !Gcm, HP : !PayloadLib CK CA, HW : !Wire}.
Context (d : Deps SK CK).

Definition rq_timestamp (rq : HttpRequest) : string := TrimSpace (Header_Get (rq_header rq) HeaderTimestamp).
Definition rq_nonce (rq : HttpRequest) : string := TrimSpace (Header_Get (rq_header rq) HeaderNonce).
Definition rq_kid (rq : HttpRequest) : string := TrimSpace (Header_Get (rq_header rq) HeaderHPKEKid).

(** A request signed by the holder of [leaf], a certificate the vendor's PKI
    vouches for at [now] and that names [id]: the signature verifies under its
    ECDSA key, was made for this certificate, and at the time the request claims. *)
Definition signed_by (rq : HttpRequest) (path : string) (now : Time) (leaf : X509Cert PK) (pub : PK)
    (id : Identity) : Prop :=
  parseCertHeader (Header_Get (rq_header rq) HeaderCert) = Some leaf ∧
  VerifyClientLeaf (dp_trust d) leaf now = true ∧
  PublicKey leaf = Some pub ∧
  (∃ info, VerifyRequest i (rq_method rq) path (rq_header rq) (Some pub) = Ok info ∧
     KeyID info = CertKeyID (Raw leaf) ∧ ParseInt (rq_timestamp rq) = Some (Created info)) ∧
  ExtractFromCert (Some (cert_info leaf)) = Ok id.

Definition authentic (rq : HttpRequest) (path : string) (now : Time) (id : Identity) : Prop :=
  ∃ leaf pub, signed_by rq path now leaf pub id.

Definition replay_passes (rq : HttpRequest) (id : Identity) (c c' : nat * S) : Prop :=
  Verify (sv_guard (dp_server d)) (Some id) (rq_timestamp rq) (rq_nonce rq) c = (None, c').

(** The end of [authenticate], once the caller is known. *)
Definition admission (rq : HttpRequest) (id : Identity) : M (Brain S) (HttpReply + Identity) :=
  b ← get;
  match Current (br_tenants b) with
  | None => mret (inl (ReplyError 500 CodeInternal))
  | Some tenants =>
    match Lookup (Some tenants) (ClusterID id) with
    | None => mret (inl (ReplyError 403 CodeUnknownTenant))
    | Some tenant =>
      if Revoked tenant then mret (inl (ReplyError 403 CodeRevoked)) else
      e ← on_store (Verify (sv_guard (dp_server d)) (Some id) (rq_timestamp rq) (rq_nonce rq));
      match e with
      | Some e => mret (inl (replay_reply e))
      | None => mret (inr id)
      end
    end
  end.

(** A request is refused without touching the state, or is authentic for one
    identity, which goes on to the tenant and replay checks. *)
Lemma authenticate_identifies rq path c :
  (∃ reply n', authenticate i d rq path (rq_timestamp rq) (rq_nonce rq) c = (inl reply, (n', c.2)) ∧
     not_sealed reply ∧ ∀ id, ¬ authentic rq path (clk c.1) id) ∨
  (∃ id, (∀ id', authentic rq path (clk c.1) id' ↔ id' = id) ∧
     authenticate i d rq path (rq_timestamp rq) (rq_nonce rq) c = admission rq id (Datatypes.S c.1, c.2)).
Proof.
  destruct c as [n b]. cbn [fst snd].
  assert (∀ reply (n' : nat), not_sealed reply → (∀ id, ¬ authentic rq path (clk n) id) →
    ∃ r (m : nat), (@inl HttpReply Identity reply, (n', b)) = (inl r, (m, b)) ∧ not_sealed r ∧
      ∀ id, ¬ authentic rq path (clk n) id) as refuse by eauto 10.
  unfold authenticate.
  destruct (parseCertHeader _) as [leaf|] eqn:El;
    [|left; apply refuse; [done|]; intros id (l & p & H1 & _); congruence].
  munfold.
  destruct (VerifyClientLeaf _ leaf _) eqn:Ev; cbn [negb];
    [|left; apply refuse; [done|]; intros id (l & p & H1 & H2 & _); congruence].
  destruct (PublicKey leaf) as [pub|] eqn:Ep;
    [|left; apply refuse; [done|]; intros id (l & p & H1 & _ & H3 & _); congruence].
  destruct (VerifyRequest _ _ _ _ _) as [info|e] eqn:Er;
    [|left; apply refuse; [done|]; intros id (l & p & H1 & _ & H3 & (j & H4 & _) & _); congruence].
  destruct (seqb (KeyID info) _) eqn:Ek; cbn [negb]; sbool;
    [|left; apply refuse; [done|]; intros id (l & p & H1 & _ & H3 & (j & H4 & H5 & _) & _); congruence].
  destruct (match ParseInt (rq_timestamp rq) with None => true | Some ts => negb (ts =? Created info) end) eqn:Et.
  { left; apply refuse; [done|]. intros id (l & p & H1 & _ & H3 & (j & H4 & _ & H6) & _).
    rewrite H6 in Et. apply negb_true_iff in Et. zbool. congruence. }
  assert (ParseInt (rq_timestamp rq) = Some (Created info)) as Hts.
  { destruct (ParseInt _); [|done]. apply negb_false_iff in Et. zbool. congruence. }
  destruct (ExtractFromCert _) as [id|] eqn:Ei;
    [|left; apply refuse; [done|]; intros id (l & p & H1 & _ & _ & _ & H7); congruence].
  right. exists id. split; [|done]. intros id'. split.
  - intros (l & p & H1 & _ & _ & _ & H7). congruence.
  - intros ->. exists leaf, pub. split; [done|]. split; [done|]. split; [done|]. split; [|done]. by exists info.
Qed.

Lemma admit_cases rq id n b :
  (∃ reply n' s', admission rq id (n, b) = (inl reply, (n', MkBrain s' (br_tenants b) (br_ingest b))) ∧ not_sealed reply ∧
     (active (br_tenants b) (ClusterID id) → ∀ c', ¬ replay_passes rq id (n, br_store b) c')) ∨
  (∃ n' s', admission rq id (n, b) = (inr id, (n', MkBrain s' (br_tenants b) (br_ingest b))) ∧
     active (br_tenants b) (ClusterID id) ∧ replay_passes rq id (n, br_store b) (n', s')).
Proof.
  destruct b as [s t h]. unfold admission, active, replay_passes. munfold. cbn [br_store br_tenants br_ingest].
  destruct (Current t) as [tenants|].
  2: { left. eexists _, _, s. split; [done|]. split; [done|]. by intros (tn & ? & _). }
  destruct (Lookup (Some tenants) (ClusterID id)) as [tenant|] eqn:El.
  2: { left. eexists _, _, s. split; [done|]. split; [done|]. by intros (tn & ? & _). }
  destruct (Revoked tenant) eqn:Erv.
  { left. eexists _, _, s. split; [done|]. split; [done|]. intros (tn & ? & ?). congruence. }
  unfold on_store, zoom. munfold. cbn [br_store br_tenants br_ingest].
  destruct (Verify _ _ _ _ _) as [[e|] [n' s']] eqn:Evf.
  - left. eexists _, _, s'. split; [done|]. split; [by destruct e|]. intros _ c'. congruence.
  - right. exists n', s'. split; [done|]. split; [eauto|done].
Qed.

(** What an authenticated call must be before it is unsealed: its content type,
    its size, its digest, its signature, its tenant and its nonce. *)
Definition admitted (rq : HttpRequest) (path : string) (n : nat) (b : Brain S) (body : string) (id : Identity)
    (c' : nat * S) : Prop :=
  HasPrefix (Header_Get (rq_header rq) "Content-Type") SealedContentType = true ∧
  rq_body rq = Some body ∧ (String.length body ≤ maxBody)%nat ∧
  VerifyContentDigest (rq_header rq) body = None ∧
  authentic rq path (clk n) id ∧ active (br_tenants b) (ClusterID id) ∧
  replay_passes rq id (Datatypes.S n, br_store b) c'.

Lemma handle_gates dr rq path call n b :
  (∃ reply n' s', handle i d dr rq path true call (n, b) =
       (reply, (n', MkBrain s' (br_tenants b) (br_ingest b))) ∧ not_sealed reply ∧
     ∀ body id c', ¬ admitted rq path n b body id c') ∨
  (∃ body id n' s', admitted rq path n b body id (n', s') ∧
     (∀ body' id' c', admitted rq path n b body' id' c' → body' = body ∧ id' = id) ∧
     handle i d dr rq path true call (n, b) =
       answer d dr path (rq_timestamp rq) (rq_nonce rq) (rq_kid rq) body (with_identity no_ctx id) call
         (n', MkBrain s' (br_tenants b) (br_ingest b))).
Proof.
  unfold handle, admitted.
  destruct (HasPrefix _ _) eqn:Ec; cbn [negb].
  2: { left. destruct b as [s t h]. eexists _, n, s. split; [done|]. split; [done|]. by intros body id c' (? & _). }
  destruct (rq_body rq) as [body|].
  2: { left. destruct b as [s t h]. eexists _, n, s. split; [done|]. split; [done|]. by intros body id c' (_ & ? & _). }
  destruct (Nat.ltb_spec maxBody (String.length body)).
  { left. destruct b as [s t h]. eexists _, n, s. split; [done|]. split; [done|].
    intros body' id c' (_ & [= <-] & ? & _). lia. }
  destruct (VerifyContentDigest _ _) as [e|] eqn:Ed.
  { left. destruct b as [s t h]. eexists _, n, s. split; [done|]. split; [done|].
    intros body' id c' (_ & [= <-] & _ & ? & _). congruence. }
  change (TrimSpace (Header_Get (rq_header rq) HeaderTimestamp)) with (rq_timestamp rq).
  change (TrimSpace (Header_Get (rq_header rq) HeaderNonce)) with (rq_nonce rq).
  change (TrimSpace (Header_Get (rq_header rq) HeaderHPKEKid)) with (rq_kid rq).
  munfold. destruct (authenticate_identifies rq path (n, b)) as [(reply & n' & -> & Hr & Hno)|(id & Hid & ->)].
  { left. destruct b as [s t h]. eexists _, n', s. split; [done|]. split; [done|].
    intros body' id c' (_ & _ & _ & _ & Ha & _). by apply Hno in Ha. }
  cbn [fst snd]. destruct (admit_cases rq id (Datatypes.S n) b) as [(reply & n' & s' & -> & Hr & Hno)|(n' & s' & -> & Ha & Hp)].
  - left. eexists _, n', s'. split; [done|]. split; [done|].
    intros body' id' c' (_ & _ & _ & _ & ->%Hid & Ha & Hp). by eapply Hno.
  - right. exists body, id, n', s'. split; [|split; [|done]].
    + split_and!; [done..|by apply Hid|done|done].
    + intros body' id' c' (_ & [= <-] & _ & _ & ->%Hid & _). done.
Qed.
End lemmas.

(** Code that leaves the tenants and the alerts in flight alone. *)
Definition keeps {S A} (m : M (Brain S) A) : Prop :=
  ∀ n b, br_tenants (m (n, b)).2.2 = br_tenants b ∧ br_ingest (m (n, b)).2.2 = br_ingest b.

Lemma keeps_ret {S A} (a : A) : keeps (S := S) (mret a).
Proof. done. Qed.

Lemma keeps_get {S} : keeps (S := S) get.
Proof. done. Qed.

Lemma keeps_now `{!Clock} {S} : keeps (S := S) time_Now.
Proof. done. Qed.

Lemma keeps_on_store {S A} (m : M S A) : keeps (on_store m).
Proof. intros n b. unfold on_store, zoom. cbn. destruct (m _) as [a [n' s]]. done. Qed.

Lemma keeps_bind {S A B} (m : M (Brain S) A) (f : A → M (Brain S) B) :
  keeps m → (∀ a, keeps (f a)) → keeps (m ≫= f).
Proof.
  intros Hm Hf n b. unfold mbind, M_bind. specialize (Hm n b). destruct (m (n, b)) as [a [n1 b1]].
  cbn in Hm. specialize (Hf a n1 b1). destruct Hm, Hf. split; congruence.
Qed.

Lemma keeps_let {S A B C} (x : A * B) (f : A → B → M (Brain S) C) :
  (∀ a b, keeps (f a b)) → keeps (let '(a, b) := x in f a b).
Proof. destruct x. eauto. Qed.

#[export] Hint Resolve keeps_ret keeps_get keeps_now keeps_on_store : muthur.

(** Walk through a handler: binds, tests and leaves. *)
Ltac keeps_tac :=
  repeat first
    [ solve [auto with muthur]
    | apply keeps_bind; [|intros ?]
    | apply keeps_let; intros ? ?
    | match goal with |- keeps (match ?x with _ => _ end) => destruct x end
    | match goal with |- keeps (if ?x then _ else _) => destruct x end ].

Section others.
Context `{HC : !Clock, HL : !CertLib} {S : Type} `{HS : !Store S} (i : Z → bool).
Context {PK ESK SK HPK K CK CA : Type}.
Context `{HE : !Ecdsa PK ESK, HX : !X509 PK, HH : !Hpke SK HPK K, HG : !Gcm, HP : !PayloadLib CK CA, HW : !Wire}.
Context (d : Deps SK CK).

Lemma handle_keeps dr rq path authenticated call :
  (∀ ctx plain, keeps (call ctx plain)) → keeps (handle i d dr rq path authenticated call).
Proof. intros Hc. unfold handle, authenticate, answer. keeps_tac. Qed.

Lemma bootstrap_keeps dr rq : keeps (bootstrap i d dr rq).
Proof.
  apply handle_keeps. intros ctx plain. unfold dispatch, Server_BootstrapCert. keeps_tac.
Qed.

Lemma signCSR_keeps dr rq : keeps (signCSR i d dr rq).
Proof. apply handle_keeps. intros ctx plain. unfold dispatch, Server_SignCSR. keeps_tac. Qed.

Lemma serve_keys_keeps dr : keeps (S := S) (serve_keys d dr).
Proof. unfold serve_keys. keeps_tac. Qed.
Lemma serve_http_keeps dr rq : rq_path rq ≠ PathIngest → keeps (serve_http i d dr rq).
Proof.
  intros Hp. unfold serve_http. apply seqb_false in Hp. rewrite Hp.
  repeat match goal with |- keeps (if ?x then _ else _) => destruct x end;
    auto using keeps_ret, serve_keys_keeps, bootstrap_keeps, signCSR_keeps.
Qed.
Lemma serve_http_ingest dr rq : rq_path rq = PathIngest →
  serve_http i d dr rq = if seqb (rq_method rq) "POST" then ingest i d dr rq else mret ReplyMethodNotAllowed.
Proof. intros Hp. unfold serve_http. by rewrite Hp. Qed.
End others.

(** ** Properties *)

Section accepted.
Context `{HC : !Clock, HL : !CertLib} {S : Type} `{HS : !Store S} (i : Z → bool).
Context {PK ESK SK HPK K CK CA : Type}.
Context `{HE : !Ecdsa PK ESK, HX : !X509 PK, HH : !Hpke SK HPK K, HG : !Gcm, HP : !PayloadLib CK CA, HW : !Wire}.
Context (d : Deps SK CK).

(** The alert a request carries for the brain at its clock reading [n]: the
    request is admitted, its body opens under the key it names, and the alert in
    it is labelled with the cluster of the caller's certificate. *)
Definition carries (dr : Draws) (rq : HttpRequest) (n : nat) (b : Brain S) (p : ref AlertPayload) : Prop :=
  ∃ body id c' plain sealer payload,
    admitted i d rq PathIngest n b body id c' ∧
    OpenRequest (dp_keys d) (rq_kid rq) PathIngest (rq_timestamp rq) (rq_nonce rq) body = Ok (plain, sealer) ∧
    unmarshal_alert plain = Some payload ∧ ClusterId payload = ClusterID id ∧ p = Ref (dr_addr dr) payload.

Lemma ingest_carries dr rq n b :
  let '(r, (_, b')) := ingest i d dr rq (n, b) in
  br_tenants b' = br_tenants b ∧
  ((inflight (br_ingest b') = inflight (br_ingest b) ∧ not_sealed r ∧ ∀ p, ¬ carries dr rq n b p) ∨
   (∃ p, inflight (br_ingest b') = (inflight (br_ingest b) ++ [p])%list ∧ ∀ p', carries dr rq n b p' ↔ p' = p)).
Proof.
  unfold ingest. destruct (handle_gates i d dr rq PathIngest (λ ctx plain,
    match unmarshal_alert plain with
    | None => mret (Err InvalidArgument)
    | Some p => dispatch (dp_server d) (dr_serial dr) (IngestRequest (Ref (dr_addr dr) p)) ctx
    end) n b) as [(reply & n' & s' & -> & Hr & Hno)|(body & id & n' & s' & Had & Huniq & ->)].
  { cbn [br_tenants br_ingest]. split; [done|]. left. split_and!; [done..|].
    intros p (body & id & c' & ? & ? & ? & Ha & _). by apply Hno in Ha. }
  assert (∀ p', carries dr rq n b p' → ∃ plain sealer payload,
    OpenRequest (dp_keys d) (rq_kid rq) PathIngest (rq_timestamp rq) (rq_nonce rq) body = Ok (plain, sealer) ∧
    unmarshal_alert plain = Some payload ∧ ClusterId payload = ClusterID id ∧ p' = Ref (dr_addr dr) payload) as Hc.
  { intros p' (body' & id' & c' & plain & sealer & payload & [-> ->]%Huniq & H). eauto. }
  unfold answer. destruct (OpenRequest _ _ _ _ _ _) as [[plain sealer]|e] eqn:Eo.
  2: { destruct e; cbn [br_tenants br_ingest]; (split; [done|]); left; (split_and!; [done..|]);
       intros p (? & ? & ? & ? & _)%Hc; congruence. }
  munfold. destruct (unmarshal_alert plain) as [payload|] eqn:Eu.
  2: { cbn [br_tenants br_ingest grpcToHTTP]. split; [done|]. left. split_and!; [done..|].
       intros p (? & ? & ? & ? & ? & _)%Hc. congruence. }
  unfold dispatch, Server_Ingest, on_ingest, zoom. munfold.
  cbn [br_ingest br_store br_tenants ctx_identity with_identity]. rewrite Ingest_spec. unfold WithContext. cbn [deref].
  destruct (seqb (ClusterId payload) (ClusterID id)) eqn:Ecl; cbn [br_ingest br_tenants inflight]; sbool.
  - assert (∀ p', carries dr rq n b p' ↔ p' = Ref (dr_addr dr) payload) as Hiff.
    { intros p'. split; [intros (? & ? & ? & ? & ? & _ & ?)%Hc; congruence|intros ->].
      exists body, id, (n', s'), plain, sealer, payload. by split_and!. }
    destruct (marshal_response _) as [out|]; [destruct (ResponseSealer_Seal _ _ _) as [sealed|]|];
      cbn [br_ingest br_tenants inflight]; (split; [done|right; by exists (Ref (dr_addr dr) payload)]).
  - cbn [ingest_code grpcToHTTP]. split; [done|]. left. split_and!; [done..|].
    intros p (? & ? & ? & ? & ? & ? & _)%Hc. congruence.
Qed.
End accepted.

(** What one HTTP request does to the alerts in flight. *)
Lemma serve_http_spec `{HC : !Clock, HL : !CertLib} {S : Type} `{HS : !Store S} (i : Z → bool)
    {PK ESK SK HPK K CK CA : Type}
    `{HE : !Ecdsa PK ESK, HX : !X509 PK, HH : !Hpke SK HPK K, HG : !Gcm, HP : !PayloadLib CK CA, HW : !Wire}
    (d : Deps SK CK) (dr : Draws) (rq : HttpRequest) (n : nat) (b : Brain S) :
  let '(r, (_, b')) := serve_http i d dr rq (n, b) in
  br_tenants b' = br_tenants b ∧
  ∃ accepted, inflight (br_ingest b') = (inflight (br_ingest b) ++ accepted)%list ∧
    (∀ p, accepted = [p] ↔ rq_method rq = "POST" ∧ rq_path rq = PathIngest ∧ carries i d dr rq n b p) ∧
    (length accepted ≤ 1)%nat ∧
    (rq_path rq = PathIngest → accepted = [] → not_sealed r).
Proof.
  assert (∀ m : M (Brain S) HttpReply, keeps m → ¬ (rq_method rq = "POST" ∧ rq_path rq = PathIngest) →
    (rq_path rq = PathIngest → not_sealed (m (n, b)).1) →
    let '(r, (_, b')) := m (n, b) in br_tenants b' = br_tenants b ∧
    ∃ accepted, inflight (br_ingest b') = (inflight (br_ingest b) ++ accepted)%list ∧
    (∀ p, accepted = [p] ↔ rq_method rq = "POST" ∧ rq_path rq = PathIngest ∧ carries i d dr rq n b p) ∧
    (length accepted ≤ 1)%nat ∧ (rq_path rq = PathIngest → accepted = [] → not_sealed r)) as Hother.
  { intros m Hm Hno Hr. specialize (Hm n b). destruct (m (n, b)) as [r [n' b']]. cbn in *. destruct Hm as [-> ->].
    split; [done|]. exists []. rewrite app_nil_r. split_and!; [done| |cbn; lia|by auto].
    intros p. split; [done|]. intros (H1 & H2 & _). by destruct Hno. }
  destruct (decide (rq_path rq = PathIngest)) as [Hpath|Hpath].
  2: { pose proof (serve_http_keeps i d dr rq Hpath) as Hk.
       apply Hother; [exact Hk|by intros []|done]. }
  rewrite (serve_http_ingest i d dr rq Hpath).
  destruct (seqb (rq_method rq) "POST") eqn:E4; sbool.
  2: { apply (Hother (mret ReplyMethodNotAllowed)); [apply keeps_ret|by intros []|done]. }
  pose proof (ingest_carries i d dr rq n b) as H. destruct (ingest _ _ _ _ _) as [r [n' b']].
  destruct H as [Ht [(Hi & Hr & Hno)|(p & Hi & Hp)]]; (split; [done|]).
  - exists []. rewrite app_nil_r. split_and!; [done| |cbn; lia|done].
    intros p. split; [done|]. intros (_ & _ & H). by apply Hno in H.
  - exists [p]. split_and!; [done| |done|done].
    intros p'. rewrite Hp. split; [by intros [= <-]|by intros (_ & _ & ->)].
Qed.

(** C3: tenant isolation of the signed transport. Whatever arrives over HTTP, the
    processing of an alert starts exactly when a POST to the ingest route carries
    it: sealed content within the size bound, a digest that matches the body, a
    signature for that route by a key whose certificate chains to the vendor and
    names an identity, a cluster that is an active tenant, a fresh timestamp that
    is the signed one and an unused nonce, a body that opens under the key it names,
    and an alert labelled with that very cluster. A sealed answer to an ingest
    means the alert was taken, at most one alert is, and nothing changes the
    tenants. *)
Theorem signed_ingest_isolated `{HC : !Clock, HL : !CertLib} {S : Type} `{HS : !Store S} (i : Z → bool)
    {PK ESK SK HPK K CK CA : Type}
    `{HE : !Ecdsa PK ESK, HX : !X509 PK, HH : !Hpke SK HPK K, HG : !Gcm, HP : !PayloadLib CK CA, HW : !Wire}
    (d : Deps SK CK) (dr : Draws) (rq : HttpRequest) (n : nat) (b : Brain S) :
  let '(r, (_, b')) := serve_http i d dr rq (n, b) in
  br_tenants b' = br_tenants b ∧
  ∃ accepted, inflight (br_ingest b') = (inflight (br_ingest b) ++ accepted)%list ∧
    (∀ p, accepted = [p] ↔ rq_method rq = "POST" ∧ rq_path rq = PathIngest ∧ carries i d dr rq n b p) ∧
    (length accepted ≤ 1)%nat ∧
    (rq_path rq = PathIngest → accepted = [] → not_sealed r).
Proof. apply serve_http_spec. Qed.

(** C16: the edge cannot forge, alter or redirect an alert. Suppose only the
    digests its holder signed verify under a key, and that the holders' requests
    were honest. Then every alert the signed transport starts to process was in a
    body a holder sealed and signed for the ingest route, with this timestamp,
    nonce and HPKE key, under a certificate the vendor's PKI vouches for and whose
    cluster the alert is labelled with, unless SHA-256 collides on the very texts
    compared. *)
Theorem signed_alert_was_sent `{HC : !Clock, HL : !CertLib} {S : Type} `{HS : !Store S} (i : Z → bool)
    {PK ESK SK HPK K CK CA : Type}
    `{HE : !Ecdsa PK ESK, HX : !X509 PK, HH : !Hpke SK HPK K, HG : !Gcm, HP : !PayloadLib CK CA, HW : !Wire}
    (d : Deps SK CK) (dr : Draws) (rq : HttpRequest) (n : nat) (b : Brain S) (p : ref AlertPayload)
    (issued : PK → list SignedRequest) :
  (∀ pub dg r s, ecdsa_Verify pub dg r s = true → ∃ q, q ∈ issued pub ∧ dg = Sum256 (sr_base i q)) →
  (∀ pub, Forall sr_honest (issued pub)) →
  one_line (rq_method rq) PathIngest (rq_header rq) = true →
  inflight (br_ingest (serve_http i d dr rq (n, b)).2.2) = (inflight (br_ingest b) ++ [p])%list →
  ∃ leaf pub id q body params, signed_by i d rq PathIngest (clk n) leaf pub id ∧ active (br_tenants b) (ClusterID id) ∧
    ClusterId (deref p) = ClusterID id ∧ rq_body rq = Some body ∧ q ∈ issued pub ∧
    TrimSpace (Header_Get (rq_header rq) HeaderSignatureInput) = SignatureLabel +:+ "=" +:+ params ∧
    (collide (SignatureBase i (rq_method rq) PathIngest (rq_header rq) params) (sr_base i q) ∨
     collide body (sr_body q) ∨
     (sr_path q = PathIngest ∧ CertKeyID (sr_leafDER q) = CertKeyID (Raw leaf) ∧
      rq_nonce rq = TrimSpace (Header_Get (sr_header q) HeaderNonce) ∧
      ParseInt (rq_timestamp rq) = Some (sr_created q) ∧
      ∃ plain sealer, OpenRequest (dp_keys d) (rq_kid rq) PathIngest (rq_timestamp rq) (rq_nonce rq) (sr_body q) =
        Ok (plain, sealer) ∧ unmarshal_alert plain = Some (deref p))).
Proof.
  intros Hunf Hhon Hl Hin. pose proof (serve_http_spec i d dr rq n b) as H.
  destruct (serve_http i d dr rq (n, b)) as [r [n' b']]. cbn in Hin.
  destruct H as (_ & accepted & Hacc & Hiff & _). rewrite Hin in Hacc. apply app_inv_head in Hacc as <-.
  destruct (proj1 (Hiff p) eq_refl) as (_ & _ & body & id & c' & plain & sealer & payload & Had & Ho & Hu & Hcl & ->).
  destruct Had as (_ & Hb & _ & Hd & (leaf & pub & Hs) & Ha & _).
  pose proof Hs as (_ & _ & _ & (info & Hv & Hkid & Hts) & _).
  destruct (signed_request_or_collision i pub (issued pub) (rq_method rq) PathIngest (rq_header rq) body info
    (Hunf pub) (Hhon pub) Hl Hv Hd) as (q & params & Hq & Hp & Hcase).
  exists leaf, pub, id, q, body, params. split_and!; [done..|].
  destruct Hcase as [?|[?|(-> & -> & _ & Hpath & Hh)]]; [by left|by right; left|right; right].
  rewrite !Forall_cons in Hh. destruct Hh as (_ & Hn & _).
  split_and!; [done|done|exact Hn|done|]. by exists plain, sealer.
Qed.

(** ** Examples

    A collector of [prod-a] that signed one request, and the brain it was sent to. *)
Definition sample_x509 : X509 unit := {|
  ParseCertificate := λ der, Some (MkX509Cert der (Some tt)
    (MkCertificate 31 [MkURL "spiffe" "muthur" "/acme/prod-a"] "prod-a" 0));
  x509_Verify := λ leaf o, bool_decide ("vendor root" ∈ vo_Roots o) && seqb (Raw leaf) "leaf";
|}.

Definition sample_wire : Wire := {|
  unmarshal_bootstrap := λ _, None;
  unmarshal_alert := λ s, if seqb s "alert" then
    Some (mk_alert "prod-a" "PodCrash" "critical" "shop" "web-1" "firing" 1 None) else None;
  unmarshal_signcsr := λ s, Some s;
  marshal_response := λ _, Some "response";
|}.

Definition sample_payload_lib : PayloadLib unit unit := {|
  signer_kind := λ _, Ed25519Key;
  signer_Sign := λ _ _ p _, Some ("signed:" +:+ p);
  ca_kind := λ _, Ed25519Key;
  CheckSignature := λ _ _ p sg, seqb sg ("signed:" +:+ p);
|}.

Definition sample_deps : Deps string unit :=
  MkDeps sample_server sample_keyset (MkTrustPools {[ "vendor root" ]} {[ "ca" ]}) tt "ca".
Definition sample_draws : Draws := MkDraws None "" (Some "twelve bytes") 7.

Definition sample_envelope : string :=
  String SealedVersion (Sum256 "rnd" +:+ (Sum256 ("k2" +:+ hpkeInfo PathIngest +:+
    sealAAD "0" "00112233445566778899aabbccddeeff") +:+ "alert")).

Definition sample_sent : SignedRequest :=
  let h := Header_Set "Content-Type" SealedContentType (Header_Set HeaderContentDigest (ContentDigest sample_envelope)
    (Header_Set HeaderTimestamp "0" (Header_Set HeaderNonce "00112233445566778899aabbccddeeff"
      (Header_Set HeaderCert (base64_Encode "leaf") (Header_Set HeaderHPKEKid (HPKEKeyID (H := sample_hpke) "k2") ∅))))) in
  MkSignedRequest "POST" PathIngest h sample_envelope "leaf" 0.

Definition sample_sent_digest : string := Sum256 (sr_base (λ _, true) sample_sent).

Definition sample_post : HttpRequest :=
  MkHttpRequest "POST" PathIngest
    (signed_header (SignRequest (E := sample_ecdsa sample_sent_digest) (λ _, true) (sr_header sample_sent) "POST"
      PathIngest (Some tt) "leaf" 0 "")) (Some sample_envelope).

Definition sample_http (rq : HttpRequest) : HttpReply * (nat * Brain Memory.t) :=
  let HC := unix_seconds_clock in serve_http (HC := HC) (HL := sample_certlib) (λ _, true)
    (HE := sample_ecdsa sample_sent_digest) (HX := sample_x509) (HH := sample_hpke) (HG := sample_gcm)
    (HP := sample_payload_lib) (HW := sample_wire) sample_deps sample_draws rq (0%nat, sample_brain).

(** The alert is taken and the answer sealed to the sender. *)
Example signed_ingest_accepts :
  let '(r, (_, b')) := sample_http sample_post in
  match r with
  | ReplySealed out => ResponseOpener_Open (G := sample_gcm) (MkOpener
      (Sum256 (("k2" +:+ hpkeInfo PathIngest) +:+ responseExportContext))) out
  | _ => Err ErrSealedMalformed
  end = Ok "response" ∧ length (inflight (br_ingest b')) = 1%nat.
Proof. vm_compute. split; reflexivity. Qed.

(** The same request a second time is a replay; an altered body has another
    digest; and the ingest route takes no GET. *)
Example signed_ingest_replayed :
  (let HC := unix_seconds_clock in serve_http (HC := HC) (HL := sample_certlib) (λ _, true)
    (HE := sample_ecdsa sample_sent_digest) (HX := sample_x509) (HH := sample_hpke) (HG := sample_gcm)
    (HP := sample_payload_lib) (HW := sample_wire) sample_deps sample_draws sample_post (sample_http sample_post).2).1 =
  ReplyError 401 CodeReplay.
Proof. vm_compute. reflexivity. Qed.

Example signed_ingest_altered :
  (sample_http (MkHttpRequest "POST" PathIngest (rq_header sample_post) (Some "forged"))).1 =
  ReplyError 400 CodeBadDigest.
Proof. vm_compute. reflexivity. Qed.

Example signed_ingest_get :
  (sample_http (MkHttpRequest "GET" PathIngest (rq_header sample_post) (Some sample_envelope))).1 =
  ReplyMethodNotAllowed.
Proof. vm_compute. reflexivity. Qed.

Lemma signed_alert_was_sent_witness :
  let HC := unix_seconds_clock in let i := λ _ : Z, true in
  let HE := sample_ecdsa sample_sent_digest in let HX := sample_x509 in let HH := sample_hpke in let HW := sample_wire in
  let p := Ref 7 (mk_alert "prod-a" "PodCrash" "critical" "shop" "web-1" "firing" 1 None) in
  ∃ leaf pub id q body params, signed_by i sample_deps sample_post PathIngest (clk 0) leaf pub id ∧
    active (br_tenants sample_brain) (ClusterID id) ∧
    ClusterId (deref p) = ClusterID id ∧ rq_body sample_post = Some body ∧ q ∈ [sample_sent] ∧
    TrimSpace (Header_Get (rq_header sample_post) HeaderSignatureInput) = SignatureLabel +:+ "=" +:+ params ∧
    (collide (SignatureBase i (rq_method sample_post) PathIngest (rq_header sample_post) params) (sr_base i q) ∨
     collide body (sr_body q) ∨
     (sr_path q = PathIngest ∧ CertKeyID (sr_leafDER q) = CertKeyID (Raw leaf) ∧
      rq_nonce sample_post = TrimSpace (Header_Get (sr_header q) HeaderNonce) ∧
      ParseInt (rq_timestamp sample_post) = Some (sr_created q) ∧
      ∃ plain sealer, OpenRequest (dp_keys sample_deps) (rq_kid sample_post) PathIngest (rq_timestamp sample_post)
        (rq_nonce sample_post) (sr_body q) = Ok (plain, sealer) ∧ unmarshal_alert plain = Some (deref p))).
Proof.
  intros HC i HE HX HH HW p.
  apply (signed_alert_was_sent (HC := HC) (HL := sample_certlib) i (HE := HE) (HX := HX) (HH := HH) (HG := sample_gcm)
    (HP := sample_payload_lib) (HW := HW) sample_deps sample_draws sample_post 0 sample_brain p (λ _, [sample_sent])).
  - intros pub dg r s H. exists sample_sent. split; [by constructor|].
    apply andb_true_iff in H as [H _]. apply andb_true_iff in H as [H _]. by apply seqb_true in H.
  - intros pub. constructor; [|constructor]. split_and!; vm_compute; done.
  - vm_compute. reflexivity.
  - vm_compute. reflexivity.
Defined.
