(* ===== verification/Metrics.v ===== *)
(** * The instruments

    [internal/metrics/metrics.go]: the Prometheus instruments that the other
    packages feed. The client library is not part of the repository; what the
    code relies on is that registering two instruments under one name panics when
    the program starts, and that [WithLabelValues] panics unless it gets one value
    for each label. *)
From S2P Require Import Prelude.
From Stdlib Require Import QArith_base.

Inductive instrument_kind := CounterKind | HistogramKind (buckets : list Q) | GaugeKind.

(** An instrument: its kind, its name and its labels ([NewCounter] and [NewGauge]
    have none). *)
Record Instrument := MkInstrument { I_Kind : instrument_kind; I_Name : string; I_Labels : list string }.

Abbreviation NewCounterVec := (MkInstrument CounterKind) (only parsing).

Definition AlertsReceived := NewCounterVec "muthur_alerts_received_total" ["cluster"; "status"].
Definition AlertsDeduped := NewCounterVec "muthur_alerts_deduped_total" ["cluster"].
Definition CacheLookups := NewCounterVec "muthur_llm_cache_lookups_total" ["result"].
Definition LLMCalls := NewCounterVec "muthur_llm_calls_total" ["result"; "provider"; "model"; "cluster_id"].
Definition LLMCallDuration :=
  MkInstrument (HistogramKind [1#2; 1; 2; 5; 10; 20; 30; 60]%Q) "muthur_llm_call_duration_seconds"
    ["provider"; "model"; "cluster_id"].
Definition LLMTokens := NewCounterVec "muthur_llm_tokens_total" ["direction"; "provider"; "model"; "cluster_id"].
Definition LLMValidationFailures :=
  NewCounterVec "muthur_llm_validation_failures_total" ["provider"; "model"; "cluster_id"].
Definition LLMRetries := NewCounterVec "muthur_llm_retries_total" ["provider"; "model"; "cluster_id"].
Definition LLMDegraded := NewCounterVec "muthur_llm_degraded_total" ["provider"; "model"; "cluster_id"].
Definition LLMThrottled := NewCounterVec "muthur_llm_throttled_total" ["reason"; "cluster_id"].
Definition Silences := NewCounterVec "muthur_silences_total" ["result"].
Definition Notifications := NewCounterVec "muthur_notifications_total" ["receiver"; "result"].
Definition Incidents := NewCounterVec "muthur_incidents_total" ["size"].
Definition FeedbackVerdicts := NewCounterVec "muthur_feedback_total" ["verdict"].
Definition IncidentsRecorded := MkInstrument CounterKind "muthur_incidents_recorded_total" [].
Definition PipelineInFlight := MkInstrument GaugeKind "muthur_pipeline_in_flight" [].

(** Everything the package registers when it is initialised. *)
Definition registry : list Instrument :=
  [AlertsReceived; AlertsDeduped; CacheLookups; LLMCalls; LLMCallDuration; LLMTokens; LLMValidationFailures;
   LLMRetries; LLMDegraded; LLMThrottled; Silences; Notifications; Incidents; FeedbackVerdicts;
   IncidentsRecorded; PipelineInFlight].

(** Whether [WithLabelValues] accepts the values. *)
Definition fits (i : Instrument) (values : list string) : bool := (length values =? length (I_Labels i))%nat.

Definition IncidentSizeBucket (n : Z) : string :=
  if (n <=? 1)%Z then "1" else if (n <=? 5)%Z then "2-5" else "6+".

(** Registering the instruments does not panic. *)
Lemma registry_names : NoDup (map I_Name registry).
Proof. by apply (bool_decide_unpack _). Qed.
