(* ===== verification/Counts.v ===== *)
(** * What the components count

    The operations that feed an instrument of [Metrics], outside the pipeline, with
    the calls that feed it: [dedup.go], [llmcache.go], [llmlimit.go], [analyzer.go],
    [alertmanager.go], [history.go] and [feedback.go]. Feeding an instrument can
    panic, so an operation here may have no result; [tells] relates it to the
    operation of its component, which leaves the instruments out. The value of an
    observed duration is left out. *)
From S2P Require Import Prelude GoStrings GoTime Json Proto Identity Store Dedup Limiter Analysis Prompt Providers Evaluator.
From S2P Require Import Embed Cache Feedback History SilenceClient Metrics.
From Stdlib Require Import SpecFloat.

Open Scope Z_scope.

(** ** Samples *)

(** What an instrument has been told: a counter to grow, a histogram a value. *)
Inductive sample :=
| Added (i : Instrument) (values : list string) (amount : spec_float)
| Observed (i : Instrument) (values : list string).

Definition one : spec_float := f64_of_Z 1.
Definition negative (x : spec_float) : bool := SFltb x (S754_zero false).

(** What a counter, and a histogram, were told among the samples [l]. *)
Definition added (i : Instrument) (l : list sample) : list (list string * spec_float) :=
  l ≫= λ x, match x with Added j v a => if seqb (I_Name j) (I_Name i) then [(v, a)] else [] | _ => [] end.
Definition observed (i : Instrument) (l : list sample) : list (list string) :=
  l ≫= λ x, match x with Observed j v => if seqb (I_Name j) (I_Name i) then [v] else [] | _ => [] end.

Lemma added_app i l l' : added i (l ++ l') = (added i l ++ added i l')%list.
Proof. apply bind_app. Qed.

Lemma observed_app i l l' : observed i (l ++ l') = (observed i l ++ observed i l')%list.
Proof. apply bind_app. Qed.

(** ** Code that counts

    The state of the component and the samples so far; no result after a panic. *)
Definition K (S A : Type) : Type := nat * (S * list sample) → option A * (nat * (S * list sample)).

#[export] Instance K_ret S : MRet (K S) := λ A a c, (Some a, c).
#[export] Instance K_bind S : MBind (K S) := λ A B f k c,
  match k c with
  | (Some a, c') => f a c'
  | (None, c') => (None, c')
  end.

(** Code that feeds no instrument. *)
Definition quietly {S A} (m : M S A) : K S A := λ '(n, (s, l)),
  let '(a, (n', s')) := m (n, s) in (Some a, (n', (s', l))).

(** [WithLabelValues(values...).Add(amount)]: a counter cannot decrease. *)
Definition WithLabels_Add {S} (i : Instrument) (values : list string) (amount : spec_float) : K S unit := λ '(n, (s, l)),
  if fits i values && negb (negative amount) then (Some tt, (n, (s, l ++ [Added i values amount])%list))
  else (None, (n, (s, l))).

Definition WithLabels_Inc {S} (i : Instrument) (values : list string) : K S unit := WithLabels_Add i values one.

(** [WithLabelValues(values...).Observe(...)]. *)
Definition WithLabels_Observe {S} (i : Instrument) (values : list string) : K S unit := λ '(n, (s, l)),
  if fits i values then (Some tt, (n, (s, l ++ [Observed i values])%list)) else (None, (n, (s, l))).

(** Run the code of a component inside a larger state. *)
Definition kzoom {S T A} (proj : S → T) (upd : T → S → S) (k : K T A) : K S A := λ '(n, (s, l)),
  let '(a, (n', (t, l'))) := k (n, (proj s, l)) in (a, (n', (upd t s, l'))).

(** ** The operations *)

Section store_clients.
Context `{!Clock} {S : Type} `{!Store S}.

(** [dedup.go]. *)
Definition counted_IsDuplicate (d : Deduplicator) (p : AlertPayload) : K S bool :=
  let key := "dedup:" +:+ dedup_key p in
  r ← quietly (store_SetNX key "1" (window d));
  match r with
  | Err _ => mret false
  | Ok set => if negb set then WithLabels_Inc AlertsDeduped [ClusterId p];; mret true else mret false
  end.

Definition counted_IsDuplicateResolved (d : Deduplicator) (p : AlertPayload) : K S bool :=
  let key := "dedup:resolved:" +:+ resolvedKey p in
  r ← quietly (store_SetNX key "1" (window d));
  match r with
  | Err _ => mret false
  | Ok set => if negb set then WithLabels_Inc AlertsDeduped [ClusterId p];; mret true else mret false
  end.

(** [llmcache.go]. *)
Definition counted_Get (ParseFloat32 : string → option spec_float) (c : Cache.Cache) (payload : AlertPayload) :
    K S (option Analysis) :=
  if negb (Cache.enabled c) then mret None else
  r ← quietly (store_Get ("cache:" +:+ cache_key payload));
  match match r with Ok (Some data) => unmarshal_analysis data | _ => None end with
  | Some a => WithLabels_Inc CacheLookups ["exact_hit"];; mret (Some a)
  | None =>
      match semantic c, embedder c with
      | true, Some emb =>
          o ← quietly (semanticLookup ParseFloat32 c emb payload);
          match o with
          | Some (a, _) => WithLabels_Inc CacheLookups ["semantic_hit"];; mret (Some a)
          | None => WithLabels_Inc CacheLookups ["miss"];; mret None
          end
      | _, _ => WithLabels_Inc CacheLookups ["miss"];; mret None
      end
  end.

(** [history.go]. *)
Definition counted_Record (h : option History) (rep : option (ref AlertPayload))
    (analysis : option Analysis) (alerts : list (ref AlertPayload)) : K S unit :=
  match h, rep with
  | Some h, Some rep =>
      now ← quietly time_Now;
      let rec := incident_record rep analysis alerts now in
      r ← quietly (store_Set (keyPrefix +:+ ID rec) (marshal_record rec) (History.ttl h));
      match r with
      | Err _ => mret tt
      | Ok _ => WithLabels_Inc IncidentsRecorded []
      end
  | _, _ => mret tt
  end.

(** [feedback.go]. *)
Definition counted_ServeHTTP (m : Manager) (id verdict : string) : K S (Z * string) :=
  if seqb id "" || (negb (seqb verdict "useful") && negb (seqb verdict "wrong"))
  then mret (400, "bad request") else
  r ← quietly (store_Get (pending_key id));
  match r with
  | Err _ => mret (500, "internal error")
  | Ok None => mret (404, "feedback link expired or unknown")
  | Ok (Some data) =>
      match unmarshal_pending data with
      | None => mret (500, "internal error")
      | Some pending =>
          now ← quietly time_Now;
          let entry := MkVerdict (Pending_AlertName pending) verdict (Pending_Analysis pending) (Unix now) in
          _ ← quietly (store_Set (verdict_prefix (Pending_AlertName pending) +:+ id) (marshal_verdict entry) (verdictTTL m));
          WithLabels_Inc FeedbackVerdicts [verdict];;
          mret (200, feedback_page verdict (Pending_AlertName pending))
      end
  end.
End store_clients.

(** [llmlimit.go]. *)
Section limiter.
Context `{!Clock} {T : Type} `{!Num T}.

Definition counted_limiter_Acquire (clusterID : string) : K (Limiter T) bool :=
  slot ← quietly take_slot;
  if negb slot then WithLabels_Inc LLMThrottled ["concurrency"; clusterID];; mret false else
  token ← quietly take_token;
  if negb token then
    quietly give_slot;;
    WithLabels_Inc LLMThrottled ["rate"; clusterID];;
    mret false
  else mret true.

Definition counted_Limiter_Acquire (clusterID : string) : K (option (Limiter T)) bool := λ '(n, (o, l)),
  match o with
  | None => (Some true, (n, (None, l)))
  | Some lim => let '(b, (n, (lim, l))) := counted_limiter_Acquire clusterID (n, (lim, l)) in (b, (n, (Some lim, l)))
  end.

Definition counted_on_bucket {A} (id : string) (k : K (option (Limiter T)) A) : K (Pool T) A :=
  b ← quietly (Limiter.bucket id);
  (λ '(n, (p, l)), let '(a, (n, (b, l))) := k (n, (b, l)) in (a, (n, (set_bucket id b p, l)))) : K (Pool T) A.

Definition counted_Pool_Acquire (id : string) : K (option (Pool T)) bool := λ '(n, (o, l)),
  match o with
  | None => (Some true, (n, (None, l)))
  | Some p => let '(r, (n, (p, l))) := counted_on_bucket id (counted_Limiter_Acquire id) (n, (p, l)) in (r, (n, (Some p, l)))
  end.
End limiter.

(** [alertmanager.go]. *)
Definition counted_CreateSilence `{!Clock} {W} `{!Net W} (c : Client) (payload : AlertPayload) (reason : string) :
    K W (option string) :=
  if negb (SilenceClient.enabled c) then mret None else
  if EqualFold (Severity payload) "critical" then WithLabels_Inc Silences ["blocked"];; mret None else
  if match allowed c with Some set => negb (bool_decide (AlertName payload ∈ set)) | None => false end
  then WithLabels_Inc Silences ["blocked"];; mret None else
  now ← quietly time_Now;
  let data := json_print (silence_json (silence_request c payload reason now)) in
  let url := SilenceClient.baseURL c +:+ "/api/v2/silences" in
  match request_error url with
  | Some e => mret (Some ("create silence request: " +:+ e))
  | None =>
      r ← quietly (http_do (MkRequest "POST" url [("Content-Type", "application/json")] data));
      match r with
      | Err e => WithLabels_Inc Silences ["error"];; mret (Some ("alertmanager API call: " +:+ e))
      | Ok resp =>
          if negb (StatusCode resp =? 200) then
            WithLabels_Inc Silences ["error"];;
            mret (Some ("alertmanager API returned " +:+ FormatInt (StatusCode resp)))
          else WithLabels_Inc Silences ["created"];; mret None
      end
  end.

(** [analyzer.go]. *)
Section evaluator.
Context (IsPrint : Z → bool) (json_error : string → string).
Context {S : Type} (emit : audit_record → M S unit).

(** The loop of [run] from [attempt] on; [labels] are the provider, its model and
    the cluster. *)
Fixpoint counted_attempts (fuel : nat) (attempt : Z) (e : Evaluator S) (labels : list string) (auditID : string)
    (prompt instruction : Prompt) (lastErr : option validation_error) : K S (result run_error Analysis) :=
  match fuel with
  | O =>
      WithLabels_Inc LLMDegraded labels;;
      WithLabels_Inc LLMCalls ("error" :: labels);;
      WithLabels_Observe LLMCallDuration labels;;
      mret (Err (ErrDegraded lastErr))
  | Datatypes.S fuel =>
      let prov := name (provider e) in
      let mdl := model (provider e) in
      r ← quietly (complete (provider e) instruction);
      match r with
      | Err err =>
          WithLabels_Inc LLMCalls ("error" :: labels);;
          WithLabels_Observe LLMCallDuration labels;;
          mret (Err (CallFailed prov err))
      | Ok (raw, u) =>
          WithLabels_Add LLMTokens ("input" :: labels) (f64_of_Z (input u));;
          WithLabels_Add LLMTokens ("output" :: labels) (f64_of_Z (output u));;
          match decodeAndValidate raw with
          | Ok analysis =>
              quietly (emit_opt emit (auditOutput (auditMode e) auditID raw u prov mdl));;
              WithLabels_Inc LLMCalls ("ok" :: labels);;
              WithLabels_Observe LLMCallDuration labels;;
              mret (Ok analysis)
          | Err verr =>
              WithLabels_Inc LLMValidationFailures labels;;
              if attempt <? maxRetries e then
                WithLabels_Inc LLMRetries labels;;
                counted_attempts fuel (attempt + 1) e labels auditID prompt
                  (MkPrompt (System prompt) (User prompt +:+ correctiveSuffix (error_message IsPrint json_error raw verr)))
                  (Some verr)
              else counted_attempts fuel (attempt + 1) e labels auditID prompt instruction (Some verr)
          end
      end
  end.

(** The labels of [run]: the cluster is that of the identity in the context. *)
Definition llm_labels (e : Evaluator S) (ctx : option Identity) : list string :=
  [name (provider e); model (provider e); match FromContext ctx with Some i => ClusterID i | None => "" end].

Definition counted_run (e : Evaluator S) (ctx : option Identity) (prompt : Prompt) : K S (result run_error Analysis) :=
  let '(auditID, r) := auditInput (auditMode e) ctx prompt (name (provider e)) (model (provider e)) in
  quietly (emit_opt emit r);;
  counted_attempts (Z.to_nat (maxRetries e + 1)) 0 e (llm_labels e ctx) auditID prompt prompt None.

Definition counted_Evaluate (e : Evaluator S) (ctx : option Identity) (payload : AlertPayload)
    (examples : list Example_) : K S (result run_error Analysis) :=
  counted_run e ctx (buildPrompt IsPrint payload examples).

Definition counted_EvaluateIncident (e : Evaluator S) (ctx : option Identity) (payloads : list AlertPayload)
    (examples : list Example_) : K S (result run_error Analysis) :=
  counted_run e ctx (buildIncidentPrompt IsPrint payloads examples).
End evaluator.

(** ** Adding samples

    What a run does, and what it tells, does not depend on what was told before. *)
Definition additive {S A} (k : K S A) : Prop := ∀ n s l,
  k (n, (s, l)) = let '(a, (n', (s', l'))) := k (n, (s, [])) in (a, (n', (s', l ++ l')%list)).

Section additive.
Context {S : Type}.

Lemma additive_ret {A} (a : A) : additive (S := S) (mret a).
Proof. intros n s l. cbn. by rewrite app_nil_r. Qed.

Lemma additive_bind {A B} (k : K S A) (f : A → K S B) : additive k → (∀ a, additive (f a)) → additive (k ≫= f).
Proof.
  intros Hk Hf n s l. unfold mbind, K_bind. rewrite (Hk n s l). destruct (k (n, (s, []))) as [[a|] [n' [s' l']]]; [|done].
  rewrite (Hf a n' s' (l ++ l')%list), (Hf a n' s' l'). destruct (f a _) as [b [n'' [s'' l'']]]. by rewrite (assoc_L (++)).
Qed.

Lemma additive_quietly {A} (m : M S A) : additive (quietly m).
Proof. intros n s l. unfold quietly. destruct (m (n, s)) as [a [n' s']]. by rewrite app_nil_r. Qed.

Lemma additive_add i values amount : additive (S := S) (WithLabels_Add i values amount).
Proof. intros n s l. unfold WithLabels_Add. destruct (_ && _); [done|]. by rewrite app_nil_r. Qed.

Lemma additive_observe i values : additive (S := S) (WithLabels_Observe i values).
Proof. intros n s l. unfold WithLabels_Observe. destruct (fits _ _); [done|]. by rewrite app_nil_r. Qed.

Context (IsPrint : Z → bool) (json_error : string → string) (emit : audit_record → M S unit).

Lemma additive_attempts fuel attempt e labels id prompt instr last :
  additive (counted_attempts IsPrint json_error emit fuel attempt e labels id prompt instr last).
Proof.
  revert attempt instr last. induction fuel as [|fuel IH]; intros attempt instr last; cbn [counted_attempts];
    repeat first
      [ apply additive_bind; [|intros ?] | apply additive_quietly | apply additive_add | apply additive_observe
      | apply additive_ret | apply IH | match goal with |- additive match ?x with _ => _ end => destruct x end ].
Qed.

Lemma additive_run e ctx prompt : additive (counted_run IsPrint json_error emit e ctx prompt).
Proof.
  unfold counted_run. destruct (auditInput _ _ _ _ _). apply additive_bind; [apply additive_quietly|]. intros _.
  apply additive_attempts.
Qed.
End additive.

(** ** Telling without changing

    From the state [c], [k] does what [m] does and tells the instruments something
    that satisfies [Q] together with the result and the new state; or it panics,
    which takes [may]. *)
Definition tells {S A} (may : Prop) (k : K S A) (m : M S A) (c : nat * S) (Q : A → nat * S → list sample → Prop) : Prop :=
  ∀ l, match k (c.1, (c.2, l)) with
       | (Some a, (n', (s', l'))) => m c = (a, (n', s')) ∧ ∃ new, l' = (l ++ new)%list ∧ Q a (n', s') new
       | (None, _) => may
       end.

Section tells.
Context {S : Type} (may : Prop).

Lemma tells_mono {A} (k : K S A) m c (Q Q' : A → nat * S → list sample → Prop) :
  tells may k m c Q → (∀ a c' new, Q a c' new → Q' a c' new) → tells may k m c Q'.
Proof.
  intros H HQ l. specialize (H l). destruct (k _) as [[a|] [n' [s' l']]]; [|done].
  destruct H as (? & new & ? & ?). eauto 6.
Qed.

Lemma tells_may (may' : Prop) {A} (k : K S A) m c (Q : A → nat * S → list sample → Prop) :
  tells may' k m c Q → (may' → may) → tells may k m c Q.
Proof. intros H Hm l. specialize (H l). destruct (k _) as [[a|] [n' [s' l']]]; auto. Qed.

Lemma tells_ret {A} (a : A) c (Q : A → nat * S → list sample → Prop) : Q a c [] → tells may (mret a) (mret a) c Q.
Proof. intros H l. destruct c. split; [done|]. exists []. by rewrite app_nil_r. Qed.

Lemma tells_quietly {A} (m : M S A) c (Q : A → nat * S → list sample → Prop) :
  Q (m c).1 (m c).2 [] → tells may (quietly m) m c Q.
Proof.
  intros H l. destruct c as [n s]. unfold quietly. cbn [fst snd]. destruct (m (n, s)) as [a [n' s']].
  split; [done|]. exists []. by rewrite app_nil_r.
Qed.

Lemma tells_bind {A B} (k : K S A) (m : M S A) (f : A → K S B) (g : A → M S B) c Q :
  tells may k m c (λ a c' new, tells may (f a) (g a) c' (λ b c'' new', Q b c'' (new ++ new')%list)) →
  tells may (k ≫= f) (m ≫= g) c Q.
Proof.
  intros H l. specialize (H l). unfold mbind, K_bind, M_bind. destruct (k _) as [[a|] [n' [s' l']]]; [|done].
  destruct H as (-> & new & -> & H). specialize (H (l ++ new)%list). cbn [fst snd] in H.
  destruct (f a _) as [[b|] [n'' [s'' l'']]]; [|done]. destruct H as (-> & new' & -> & H).
  split; [done|]. exists (new ++ new')%list. by rewrite (assoc_L (++)).
Qed.

(** What only the counting code does. *)
Lemma tells_add {A} i values amount (k : unit → K S A) m c Q :
  fits i values = true → (negative amount = true → may) →
  tells may (k tt) m c (λ a c' new, Q a c' (Added i values amount :: new)) →
  tells may (WithLabels_Add i values amount ≫= k) m c Q.
Proof.
  intros Hf Hn H l. unfold mbind, K_bind, WithLabels_Add. rewrite Hf. destruct (negative amount); [by apply Hn|].
  specialize (H (l ++ [Added i values amount])%list). cbn [andb negb]. destruct (k tt _) as [[a|] [n' [s' l']]]; [|done].
  destruct H as (? & new & -> & HQ). split; [done|]. eexists. split; [|exact HQ]. by rewrite <- (assoc_L (++)).
Qed.

Lemma tells_inc {A} i values (k : unit → K S A) m c Q :
  fits i values = true → tells may (k tt) m c (λ a c' new, Q a c' (Added i values one :: new)) →
  tells may (WithLabels_Inc i values ≫= k) m c Q.
Proof. intros Hf. apply tells_add; [done|]. by vm_compute. Qed.

Lemma tells_inc_last i values c (Q : unit → nat * S → list sample → Prop) :
  fits i values = true → Q tt c [Added i values one] → tells may (WithLabels_Inc i values) (mret tt) c Q.
Proof.
  intros Hf H l. destruct c as [n s]. unfold WithLabels_Inc, WithLabels_Add. rewrite Hf. cbn [fst snd].
  split; [done|]. by eexists.
Qed.

Lemma tells_observe {A} i values (k : unit → K S A) m c Q :
  fits i values = true → tells may (k tt) m c (λ a c' new, Q a c' (Observed i values :: new)) →
  tells may (WithLabels_Observe i values ≫= k) m c Q.
Proof.
  intros Hf H l. unfold mbind, K_bind, WithLabels_Observe. rewrite Hf.
  specialize (H (l ++ [Observed i values])%list). destruct (k tt _) as [[a|] [n' [s' l']]]; [|done].
  destruct H as (? & new & -> & HQ). split; [done|]. eexists. split; [|exact HQ]. by rewrite <- (assoc_L (++)).
Qed.

Lemma tells_zoom {T A} (proj : T → S) upd (k : K S A) m c Q :
  tells may k m (c.1, proj c.2) (λ a c' new, Q a (c'.1, upd c'.2 c.2) new) →
  tells may (kzoom proj upd k) (zoom proj upd m) c Q.
Proof.
  intros H l. specialize (H l). destruct c as [n s]. unfold kzoom, zoom. cbn [fst snd] in *.
  destruct (k _) as [[a|] [n' [s' l']]]; [|done]. destruct H as (-> & new & -> & HQ). split; [done|]. by exists new.
Qed.
End tells.

(** Take both sides apart step by step. *)
Ltac tell :=
  repeat first
    [ progress intros
    | match goal with |- tells _ (WithLabels_Inc _ _ ≫= _) _ _ _ => apply tells_inc; [reflexivity|] end
    | match goal with |- tells _ (WithLabels_Inc _ _) _ _ _ => apply tells_inc_last; [reflexivity|] end
    | match goal with |- tells _ (WithLabels_Observe _ _ ≫= _) _ _ _ => apply tells_observe; [reflexivity|] end
    | match goal with |- tells _ (quietly _ ≫= _) _ _ _ => apply tells_bind, tells_quietly end
    | match goal with |- tells _ (mret _) _ _ _ => apply tells_ret end
    | progress cbn [app fst snd negb]
    | match goal with |- tells _ match ?x with _ => _ end _ _ _ => destruct x eqn:? end ].

(** ** What each operation tells *)

Section store_lemmas.
Context `{HC : !Clock} {S : Type} `{HS : !Store S}.

(** One count for each alert held to be a duplicate, under its cluster. *)
Definition dedup_told (p : AlertPayload) (dup : bool) (new : list sample) : Prop :=
  new = if dup then [Added AlertsDeduped [ClusterId p] one] else [].

Lemma IsDuplicate_tells d p c : tells False (counted_IsDuplicate d p) (IsDuplicate d p) c (λ b _, dedup_told p b).
Proof. unfold counted_IsDuplicate, IsDuplicate. by tell. Qed.

Lemma IsDuplicateResolved_tells d p c :
  tells False (counted_IsDuplicateResolved d p) (IsDuplicateResolved d p) c (λ b _, dedup_told p b).
Proof. unfold counted_IsDuplicateResolved, IsDuplicateResolved. by tell. Qed.

(** One count for each lookup in an enabled cache. *)
Definition lookup_told (c : Cache.Cache) (o : option Analysis) (new : list sample) : Prop :=
  if Cache.enabled c then
    ∃ result, new = [Added CacheLookups [result] one] ∧
      result ∈ match o with Some _ => ["exact_hit"; "semantic_hit"] | None => ["miss"] end
  else o = None ∧ new = [].

Lemma Get_tells PF ca payload c :
  tells False (counted_Get PF ca payload) (cache_Get PF ca payload) c (λ o _, lookup_told ca o).
Proof.
  unfold counted_Get, cache_Get, lookup_told. destruct (Cache.enabled ca); tell; try done; eexists; (split; [done|]);
    apply (bool_decide_unpack _); vm_compute; done.
Qed.

(** One count for each record the store has taken. *)
Definition recorded_told (h : option History) (rep : ref AlertPayload) (analysis : option Analysis)
    (alerts : list (ref AlertPayload)) (c : nat * S) (new : list sample) : Prop :=
  new = match h with
        | None => []
        | Some h =>
            let rec := incident_record rep analysis alerts (clk c.1) in
            if is_Ok (store_Set (keyPrefix +:+ ID rec) (marshal_record rec) (History.ttl h) (Datatypes.S c.1, c.2)).1
            then [Added IncidentsRecorded [] one] else []
        end.

Lemma Record_tells h rep analysis alerts c :
  tells False (counted_Record h (Some rep) analysis alerts) (history_Record h (Some rep) analysis alerts) c
    (λ _ _, recorded_told h rep analysis alerts c).
Proof.
  unfold counted_Record, history_Record, recorded_told. destruct h as [h|]; [|by tell].
  tell; unfold time_Now in Heqr; cbn [fst snd] in Heqr; by rewrite Heqr.
Qed.

(** One count for each verdict that was accepted. *)
Definition verdict_told (verdict : string) (status : Z) (new : list sample) : Prop :=
  (status = 200 ∧ verdict ∈ ["useful"; "wrong"] ∧ new = [Added FeedbackVerdicts [verdict] one]) ∨ (status ≠ 200 ∧ new = []).

Lemma ServeHTTP_tells m id verdict c :
  tells False (counted_ServeHTTP m id verdict) (feedback_ServeHTTP m id verdict) c (λ r _, verdict_told verdict r.1).
Proof.
  unfold counted_ServeHTTP, feedback_ServeHTTP, verdict_told. tell; try (by right). left. split_and!; try done.
  sbool. destruct (seqb verdict "useful") eqn:E1, (seqb verdict "wrong") eqn:E2; sbool; subst; set_solver.
Qed.
End store_lemmas.

(** One count for each refusal, with its reason. *)
Definition refusal_told (id : string) (reasons : list string) (ok : bool) (new : list sample) : Prop :=
  if ok then new = [] else ∃ reason, reason ∈ reasons ∧ new = [Added LLMThrottled [reason; id] one].

Section limiter_lemmas.
Context `{HC : !Clock} {T : Type} `{HN : !Num T}.

Lemma take_slot_answer (c : nat * Limiter T) : (take_slot c).1 = (used c.2 <? cap c.2)%nat.
Proof. unfold take_slot. munfold. by destruct (_ <? _)%nat. Qed.

(** The reason is the ceiling that was hit. *)
Lemma limiter_Acquire_tells id c :
  tells False (counted_limiter_Acquire (T := T) id) limiter_Acquire c
    (λ b _, refusal_told id [if (used c.2 <? cap c.2)%nat then "rate" else "concurrency"] b).
Proof.
  unfold counted_limiter_Acquire, limiter_Acquire, refusal_told. apply tells_bind, tells_quietly.
  rewrite take_slot_answer. destruct (_ <? _)%nat; cbn [negb]; tell;
    first [done|eexists; split; [apply list_elem_of_singleton; done|done]].
Qed.

Lemma Pool_Acquire_tells id c :
  tells False (counted_Pool_Acquire (T := T) id) (Pool_Acquire id) c (λ b _, refusal_told id ["rate"; "concurrency"] b).
Proof.
  intros l. destruct c as [n [p|]]; cbn [counted_Pool_Acquire Pool_Acquire fst snd]; [|split; [done|]; exists []; by rewrite app_nil_r].
  unfold counted_on_bucket, on_bucket, quietly. unfold mbind, K_bind, M_bind.
  destruct (Limiter.bucket id (n, p)) as [[lim|] [n1 p1]]; cbn [counted_Limiter_Acquire Limiter_Acquire].
  - pose proof (limiter_Acquire_tells id (n1, lim) l) as H. cbn [fst snd] in H.
    destruct (counted_limiter_Acquire id _) as [[b|] [n2 [lim2 l2]]]; [|done]. destruct H as (-> & new & -> & H).
    split; [done|]. exists new. split; [done|]. destruct b; [done|]. destruct H as (reason & Hr & ->).
    exists reason. split; [|done]. apply list_elem_of_singleton in Hr as ->. destruct (_ <? _)%nat; set_solver.
  - split; [done|]. exists []. by rewrite app_nil_r.
Qed.
End limiter_lemmas.

(** One count for each silence asked for while silencing is on, with what became of
    it; a request that cannot be built is not counted. *)
Definition silence_told `{!Net W} (c : Client) (payload : AlertPayload) (r : option string) (new : list sample) : Prop :=
  if negb (SilenceClient.enabled c) then r = None ∧ new = [] else
  if EqualFold (Severity payload) "critical"
     || match allowed c with Some set => negb (bool_decide (AlertName payload ∈ set)) | None => false end
  then r = None ∧ new = [Added Silences ["blocked"] one] else
  match request_error (SilenceClient.baseURL c +:+ "/api/v2/silences") with
  | Some _ => r ≠ None ∧ new = []
  | None => new = [Added Silences [match r with None => "created" | Some _ => "error" end] one]
  end.

Lemma CreateSilence_tells `{HC : !Clock} {W} `{HW : !Net W} cl payload reason c :
  tells False (counted_CreateSilence (W := W) cl payload reason) (CreateSilence cl payload reason) c
    (λ r _, silence_told cl payload r).
Proof.
  unfold counted_CreateSilence, CreateSilence, silence_told. destruct (negb _); [by tell|].
  destruct (EqualFold _ _); [by tell|]. destruct (match allowed cl with Some _ => _ | None => _ end); [by tell|].
  cbn [orb]. apply tells_bind, tells_quietly. destruct (request_error _); by tell.
Qed.

(** ** What a run of the evaluator tells *)

Abbreviation reply := (result string (string * usage)) (only parsing).

Definition token_counts (labels : list string) (r : reply) : list (list string * spec_float) :=
  match r with
  | Ok (_, u) => [("input" :: labels, f64_of_Z (input u)); ("output" :: labels, f64_of_Z (output u))]
  | Err _ => []
  end.

Definition invalid_reply (r : reply) : bool :=
  match r with Ok (raw, _) => negb (is_Ok (decodeAndValidate raw)) | Err _ => false end.

Definition negative_usage (u : usage) : bool := negative (f64_of_Z (input u)) || negative (f64_of_Z (output u)).

(** The instruments of the evaluator, and samples that are theirs. *)
Definition llm_names : list string :=
  map I_Name [LLMCalls; LLMCallDuration; LLMTokens; LLMValidationFailures; LLMRetries; LLMDegraded].
Definition sample_name (x : sample) : string := match x with Added i _ _ | Observed i _ => I_Name i end.
Definition of_llm (l : list sample) : bool := forallb (λ x, existsb (seqb (sample_name x)) llm_names) l.

(** The samples [new] tell of a run that got [replies] and ended with [r]. *)
Record llm_told (labels : list string) (replies : list reply) (r : result run_error Analysis) (new : list sample) : Prop := {
  lt_calls : added LLMCalls new = [((if is_Ok r then "ok" else "error") :: labels, one)];
  lt_duration : observed LLMCallDuration new = [labels];
  lt_tokens : added LLMTokens new = replies ≫= token_counts labels;
  lt_failures : added LLMValidationFailures new =
    replies ≫= λ x, if invalid_reply x then [(labels, one)] else [];
  lt_retries : added LLMRetries new = replicate (pred (length replies)) (labels, one);
  lt_degraded : added LLMDegraded new = match r with Err (ErrDegraded _) => [(labels, one)] | _ => [] end;
  lt_only : of_llm new = true;
}.

Lemma of_llm_added i new : of_llm new = true → existsb (seqb (I_Name i)) llm_names = false → added i new = [].
Proof.
  intros H Hi. induction new as [|x new IH]; [done|]. apply andb_true_iff in H as [Hx H].
  unfold added. rewrite bind_cons. fold (added i new). rewrite (IH H), app_nil_r. destruct x as [j v a|j v]; [|done].
  destruct (seqb (I_Name j) (I_Name i)) eqn:E; [|done]. apply seqb_true in E. cbn [sample_name] in Hx. by rewrite E, Hi in Hx.
Qed.

Section evaluator_lemmas.
Context (IsPrint : Z → bool) (json_error : string → string).
Context {S : Type} (emit : audit_record → M S unit) (e : Evaluator S).

(** [R s replies s']: the world went from [s] to [s'] while the provider gave the
    [replies]. *)
Context (R : S → list reply → S → Prop).
Context (R_nil : ∀ s, R s [] s).
Context (R_reply : ∀ instr n s r n1 s1 replies s2,
  complete (provider e) instr (n, s) = (r, (n1, s1)) → R s1 replies s2 → R s (r :: replies) s2).
Context (R_emit : ∀ rec n s replies s2, R (emit rec (n, s)).2.2 replies s2 → R s replies s2).

(** Some answer of the provider has a negative token count. *)
Definition may_panic : Prop :=
  ∃ instr c raw u, (complete (provider e) instr c).1 = Ok (raw, u) ∧ negative_usage u = true.

Lemma R_emit_opt o c replies s2 : R (emit_opt emit o c).2.2 replies s2 → R c.2 replies s2.
Proof. destruct c, o as [rec|]; [|done]. apply (R_emit rec). Qed.

Lemma llm_told_reply labels replies r new raw u :
  invalid_reply (Ok (raw, u)) = true → llm_told labels replies r new →
  llm_told labels (Ok (raw, u) :: replies) r
    (Added LLMTokens ("input" :: labels) (f64_of_Z (input u)) ::
     Added LLMTokens ("output" :: labels) (f64_of_Z (output u)) :: Added LLMValidationFailures labels one ::
     match replies with [] => new | _ => Added LLMRetries labels one :: new end).
Proof.
  intros Hi [H1 H2 H3 H4 H5 H6 H7]. assert (∀ l, (Ok (raw, u) :: l) ≫= (λ x, if invalid_reply x then [(labels, one)] else []) =
    (labels, one) :: (l ≫= λ x, if invalid_reply x then [(labels, one)] else []))%list as Hf by (intros; rewrite bind_cons, Hi; done).
  pose proof (f_equal (λ l, token_counts labels (Ok (raw, u)) ++ l)%list H3) as H3'.
  pose proof (f_equal (cons (labels, one)) H5) as H5'. pose proof (f_equal (cons (labels, one)) H4) as H4'.
  destruct replies as [|x l]; split; first [exact H1|exact H2|exact H3'|by rewrite Hf|exact H5|exact H5'|exact H6|exact H7].
Qed.

Lemma counted_attempts_tells fuel attempt prov mdl cl id prompt instr last c :
  attempt + Z.of_nat fuel = maxRetries e + 1 →
  tells may_panic (counted_attempts IsPrint json_error emit fuel attempt e [prov; mdl; cl] id prompt instr last)
    (attempts IsPrint json_error emit fuel attempt e id prompt instr last) c
    (λ r c' new, ∃ replies, R c.2 replies c'.2 ∧ (fuel = 0%nat ↔ replies = []) ∧ llm_told [prov; mdl; cl] replies r new).
Proof.
  revert attempt instr last c. induction fuel as [|fuel IH]; intros attempt instr last c Hf; cbn [counted_attempts attempts].
  { tell. exists []. by split_and!. }
  apply tells_bind, tells_quietly. pose proof (R_reply instr c.1 c.2) as HR. rewrite <- surjective_pairing in HR.
  destruct (complete (provider e) instr c) as [rep [n1 s1]] eqn:Hc. specialize (HR rep n1 s1). cbn [fst snd].
  destruct rep as [[raw u]|err]; cbn [app].
  2: { tell. exists [Err err]. split_and!; [by apply HR|done|]. by split. }
  assert (negative_usage u = true → may_panic) as Hn by (intros Hu; exists instr, c, raw, u; by rewrite Hc).
  apply tells_add; [done|intros H; apply Hn; unfold negative_usage; by rewrite H|].
  apply tells_add; [done|intros H; apply Hn; unfold negative_usage; by rewrite H, orb_true_r|].
  destruct (decodeAndValidate raw) as [a|verr] eqn:Hd.
  - apply tells_bind, tells_quietly. tell. exists [Ok (raw, u)]. split_and!; [|done|by split; cbn; rewrite ?Hd].
    apply (HR _ _ eq_refl), (R_emit_opt (auditOutput (auditMode e) id raw u (name (provider e)) (model (provider e))) (n1, s1)), R_nil.
  - assert (invalid_reply (Ok (raw, u)) = true) as Hi by (cbn; by rewrite Hd).
    apply tells_inc; [done|]. destruct (attempt <? maxRetries e) eqn:Ha; zbool.
    + apply tells_inc; [done|]. eapply tells_mono; [apply IH; lia|]. intros r c' new (replies & H1 & H2 & H3).
      exists (Ok (raw, u) :: replies). split_and!; [by apply HR|done|]. pose proof (llm_told_reply _ _ _ _ raw u Hi H3) as H.
      destruct replies; [|exact H]. destruct fuel; [lia|]. by destruct H2 as [_ H2']; specialize (H2' eq_refl).
    + eapply tells_mono; [apply IH; lia|]. intros r c' new (replies & H1 & H2 & H3).
      exists (Ok (raw, u) :: replies). split_and!; [by apply HR|done|]. pose proof (llm_told_reply _ _ _ _ raw u Hi H3) as H.
      destruct replies; [exact H|]. destruct fuel; [|lia]. by destruct H2 as [H2' _]; specialize (H2' eq_refl).
Qed.

Lemma counted_run_tells ctx prompt c :
  0 <= maxRetries e →
  tells may_panic (counted_run IsPrint json_error emit e ctx prompt) (run_prompt IsPrint json_error emit e ctx prompt) c
    (λ r c' new, ∃ replies, R c.2 replies c'.2 ∧ llm_told (llm_labels e ctx) replies r new).
Proof.
  intros Hmr. unfold counted_run, run_prompt. destruct (auditInput _ _ _ _ _) as [id rec].
  apply tells_bind, tells_quietly. eapply tells_mono; [apply counted_attempts_tells; lia|].
  intros r c' new (replies & H1 & _ & H2). exists replies. split; [by apply R_emit_opt in H1|done].
Qed.
End evaluator_lemmas.

(** ** Properties *)

(** The answers of a watched provider to the prompts [ps], sent after [before]. *)
Fixpoint replies_to (answer : list Prompt → reply) (before ps : list Prompt) : list reply :=
  match ps with
  | [] => []
  | p :: ps => answer (before ++ [p])%list :: replies_to answer (before ++ [p])%list ps
  end.

Section watched.
Context (answer : list Prompt → reply).

Definition watched_replies (w : watch) (replies : list reply) (w' : watch) : Prop :=
  ∃ ps, sent w' = (sent w ++ ps)%list ∧ replies = replies_to answer (sent w) ps.

Lemma watched_replies_nil w : watched_replies w [] w.
Proof. exists []. by rewrite app_nil_r. Qed.

Lemma watched_replies_cons instr n w r n1 w1 replies w2 :
  complete (watched answer) instr (n, w) = (r, (n1, w1)) →
  watched_replies w1 replies w2 → watched_replies w (r :: replies) w2.
Proof.
  cbn [watched complete]. munfold. intros [= <- <- <-] (ps & Hs & ->). cbn [sent] in *. exists (instr :: ps).
  by rewrite Hs, <- (assoc_L (++)).
Qed.

Lemma watched_replies_emit rec n w replies w2 : watched_replies (collect rec (n, w)).2.2 replies w2 → watched_replies w replies w2.
Proof. done. Qed.
End watched.

(** C25: the LLM instruments agree with what happened, whatever the provider
    answers: a run counts one call with its outcome and one duration, the tokens of
    every answer, one validation failure for each invalid answer, one retry for each
    prompt after the first, and one degradation exactly if it degrades; and it does
    what the run without instruments does. It panics only over an answer with a
    negative number of tokens. *)
Theorem llm_counts_agree (IsPrint : Z → bool) (json_error : string → string) (answer : list Prompt → reply)
    (mr : Z) (am : AuditMode) (ctx : option Identity) (prompt : Prompt) (n : nat) (w : watch) (l : list sample) :
  0 <= mr →
  let e := MkEvaluator (watched answer) mr am in
  match counted_run IsPrint json_error collect e ctx prompt (n, (w, l)) with
  | (Some r, (n', (w', l'))) =>
      run_prompt IsPrint json_error collect e ctx prompt (n, w) = (r, (n', w')) ∧
      ∃ ps new, sent w' = (sent w ++ ps)%list ∧ l' = (l ++ new)%list ∧
        llm_told (llm_labels e ctx) (replies_to answer (sent w) ps) r new
  | (None, _) => ∃ ps raw u, answer ps = Ok (raw, u) ∧ negative_usage u = true
  end.
Proof.
  intros Hmr e.
  pose proof (counted_run_tells IsPrint json_error collect e (watched_replies answer) (watched_replies_nil answer)
    (watched_replies_cons answer) (watched_replies_emit answer) ctx prompt (n, w) Hmr l) as H.
  cbn [fst snd] in H. destruct (counted_run _ _ _ _ _ _ _) as [[r|] [n' [w' l']]].
  - destruct H as (H & new & -> & replies & (ps & Hs & ->) & Ht). split; [done|]. by exists ps, new.
  - destruct H as (instr & c & raw & u & Hc & Hu). cbn [e provider watched complete] in Hc. revert Hc. munfold.
    intros Hc. by exists (sent c.2 ++ [instr])%list, raw, u.
Qed.

Lemma llm_counts_agree_witness :
  let e := MkEvaluator (watched sample_answer) 1 AuditOff in
  let prompt := MkPrompt "rules" "data" in
  match counted_run (λ _, true) (λ _, "") collect e None prompt (0%nat, (MkWatch [] [], [])) with
  | (Some r, (n', (w', l'))) =>
      run_prompt (λ _, true) (λ _, "") collect e None prompt (0%nat, MkWatch [] []) = (r, (n', w')) ∧
      ∃ ps new, sent w' = ([] ++ ps)%list ∧ l' = ([] ++ new)%list ∧
        llm_told (llm_labels e None) (replies_to sample_answer [] ps) r new
  | (None, _) => ∃ ps raw u, sample_answer ps = Ok (raw, u) ∧ negative_usage u = true
  end.
Proof. apply (llm_counts_agree (λ _, true) (λ _, "") sample_answer 1 AuditOff None _ 0 (MkWatch [] []) []). lia. Defined.

(** C26: an LLM endpoint can end the brain. When the first answer of a run reports a
    negative number of tokens, the token counter panics before the answer is even
    validated, in a goroutine nothing recovers; without the instruments the run
    would return. *)
Theorem negative_tokens_panic (IsPrint : Z → bool) (json_error : string → string) {S : Type}
    (emit : audit_record → M S unit) (e : Evaluator S) (ctx : option Identity) (prompt : Prompt)
    (n : nat) (s : S) (l : list sample) (raw : string) (u : usage) :
  0 <= maxRetries e →
  let audit := (auditInput (auditMode e) ctx prompt (name (provider e)) (model (provider e))).2 in
  (complete (provider e) prompt (emit_opt emit audit (n, s)).2).1 = Ok (raw, u) →
  negative_usage u = true →
  (counted_run IsPrint json_error emit e ctx prompt (n, (s, l))).1 = None.
Proof.
  intros Hmr audit Hc Hu. unfold counted_run. destruct (auditInput _ _ _ _ _) as [id rec]. cbn [snd] in audit. subst audit.
  unfold mbind, K_bind, quietly. destruct (emit_opt emit rec (n, s)) as [[] [n1 s1]]. cbn [snd] in Hc.
  destruct (Z.to_nat (maxRetries e + 1)) as [|fuel] eqn:Ef; [lia|]. cbn [counted_attempts]. unfold mbind, K_bind, quietly at 1.
  destruct (complete (provider e) prompt (n1, s1)) as [r [n2 s2]]. cbn [fst] in Hc. subst r.
  unfold negative_usage in Hu. unfold WithLabels_Add at 1. change (fits LLMTokens ("input" :: llm_labels e ctx)) with true.
  destruct (negative (f64_of_Z (input u))); [reflexivity|]. cbn [andb negb orb] in *. unfold WithLabels_Add at 1.
  change (fits LLMTokens ("output" :: llm_labels e ctx)) with true. rewrite Hu. reflexivity.
Qed.

(** An OpenAI-compatible endpoint that reports -1 prompt tokens. *)
Definition negative_body : string := json_print (JObj
  [("choices", JArr [JObj [("message", JObj [("content", JStr (marshal_analysis sample_analysis))])]]);
   ("usage", JObj [("prompt_tokens", JNum "-1"); ("completion_tokens", JNum "7")])]).

Definition negative_evaluator : Evaluator (openai_state * list http_request) :=
  MkEvaluator
    (openai_provider (W := list http_request) (Net0 := watched_net (λ _, Ok (MkResponse 200 negative_body)) (λ _, None))
       (λ _, "0") (λ _, "") (MkOpenAI "http://ollama/v1" "" "m" (S754_zero false))) 1 AuditOff.

Lemma negative_tokens_panic_witness :
  (counted_run (λ _, true) (λ _, "") (λ _, mret tt) negative_evaluator None (MkPrompt "rules" "data")
    (0%nat, ((MkOpenAIState modeAuto false, []), []))).1 = None.
Proof.
  apply (negative_tokens_panic (λ _, true) (λ _, "") (λ _, mret tt) negative_evaluator None (MkPrompt "rules" "data")
    0 (MkOpenAIState modeAuto false, []) [] (marshal_analysis sample_analysis) (MkUsage (-1) 7)).
  - cbn. lia.
  - vm_compute. reflexivity.
  - vm_compute. reflexivity.
Defined.

(** Without the instruments the same answer is a valid analysis. *)
Example negative_tokens_analysis :
  (run_prompt (λ _, true) (λ _, "") (λ _, mret tt) negative_evaluator None (MkPrompt "rules" "data")
    (0%nat, (MkOpenAIState modeAuto false, []))).1 = Ok sample_analysis.
Proof. vm_compute. reflexivity. Qed.
