(* ===== verification/Pipeline.v ===== *)
(** * The pipeline

    [internal/pipeline/pipeline.go]: what happens to an alert between ingestion
    and the receivers. It is the client of the other components; the analyzer and
    the receivers are interfaces, as in the code. The analyzer can panic, which ends
    the process. *)
From S2P Require Import Prelude GoStrings GoTime Proto Identity Store Dedup Routing Limiter Correlator Analysis Prompt.
From S2P Require Import Providers Evaluator Embed Cache Feedback History SilenceClient Notify Metrics Counts.
From Stdlib Require Import Ascii SpecFloat.

Open Scope Z_scope.

(** ** The parts *)

(** [evaluator.Analyzer]; a call that gives no result has panicked. *)
Record Analyzer (W : Type) := MkAnalyzer {
  Analyzer_Name : string;
  Analyze : option Identity → AlertPayload → list Example_ → M W (option (result run_error Analysis));
  AnalyzeIncident : option Identity → list AlertPayload → list Example_ → M W (option (result run_error Analysis));
}.
Arguments MkAnalyzer {W}. Arguments Analyzer_Name {W}. Arguments Analyze {W}. Arguments AnalyzeIncident {W}.

(** The code that feeds the instruments, its samples left out. *)
Definition uncounted {S A} (k : K S A) : M S (option A) := λ '(n, s),
  let '(a, (n', (s', _))) := k (n, (s, [])) in (a, (n', s')).

(** The [*Evaluator] of the evaluator package is one: its methods panic when an
    instrument does. *)
Definition evaluator_analyzer {W} (IsPrint : Z → bool) (json_error : string → string)
    (emit : audit_record → M W unit) (e : Evaluator.Evaluator W) : Analyzer W :=
  MkAnalyzer (Providers.name (Evaluator.provider e))
    (λ ctx payload examples, uncounted (counted_Evaluate IsPrint json_error emit e ctx payload examples))
    (λ ctx payloads examples, uncounted (counted_EvaluateIncident IsPrint json_error emit e ctx payloads examples)).

(** The fields of [Pipeline] that do not change; the correlator, the limiter's
    pool and the store are state. *)
Record Pipeline (W : Type) := MkPipeline {
  p_dedup : Deduplicator;
  p_evaluator : Analyzer W;
  p_cache : Cache.Cache;
  p_router : Router;
  p_notifiers : gmap string (Notifier W);
  p_silence : SilenceClient.Client;
  p_feedback : Manager;
  p_history : option History.History;
  p_evidence : EvidenceConfig;
}.
Arguments MkPipeline {W}. Arguments p_dedup {W}. Arguments p_evaluator {W}. Arguments p_cache {W}.
Arguments p_router {W}. Arguments p_notifiers {W}. Arguments p_silence {W}. Arguments p_feedback {W}.
Arguments p_history {W}. Arguments p_evidence {W}.

Record CorrelationConfig := MkCorrelation { Corr_Enabled : bool; WindowSeconds : Z; MaxGroup : Z }.

(** [pipeline.New] makes the correlator. *)
Definition pipeline_correlator (corr : CorrelationConfig) : Correlator.Correlator :=
  correlator_New (Corr_Enabled corr) (WindowSeconds corr) (MaxGroup corr).

(** What the processing of an alert changes: the limiters, the store and the
    world outside (LLM, AlertManager, receivers); [panicked] when a goroutine
    panicked, which ends the process. *)
Record Rest (T S W : Type) := MkRest {
  limiter : option (Limiter.Pool T);
  storage : S;
  outside : W;
  panicked : bool;
}.
Arguments MkRest {T S W}. Arguments limiter {T S W}. Arguments storage {T S W}.
Arguments outside {T S W}. Arguments panicked {T S W}.

Section on.
Context {T S W A : Type}.
Definition on_limiter : M (option (Limiter.Pool T)) A → M (Rest T S W) A :=
  zoom limiter (λ l r, MkRest l (storage r) (outside r) (panicked r)).
Definition on_storage : M S A → M (Rest T S W) A :=
  zoom storage (λ s r, MkRest (limiter r) s (outside r) (panicked r)).
Definition on_outside : M W A → M (Rest T S W) A :=
  zoom outside (λ w r, MkRest (limiter r) (storage r) w (panicked r)).
End on.

Definition panic {T S W} : M (Rest T S W) unit :=
  modify (λ r, MkRest (limiter r) (storage r) (outside r) true).

(** A call of the analyzer. When it panics, the deferred calls of the goroutine still
    run; everything else is [unless_panicked]. *)
Definition ask {T S W} (call : M W (option (result run_error Analysis))) :
    M (Rest T S W) (option (result run_error Analysis)) :=
  r ← on_outside call;
  match r with
  | None => panic;; mret None
  | Some x => mret (Some x)
  end.

Definition unless_panicked {T S W} (m : M (Rest T S W) unit) : M (Rest T S W) unit :=
  λ c, if panicked c.2 then (tt, c) else m c.

(** ** Operations

    The contexts carry deadlines and no identity; metrics and logs are left
    out. *)
Section pipeline.
Context `{!Clock} {T S W : Type} `{!Num T, !Store.Store S, !Net W}.
Context (FormatFloat32 : spec_float → string) (ParseFloat32 : string → option spec_float).
Context (sort : list verdictEntry → list verdictEntry) (int64_outside : spec_float → Z).

Definition evaluate (p : Pipeline W) (payload : AlertPayload) : M (Rest T S W) (option Analysis) :=
  cached ← on_storage (cache_Get ParseFloat32 (p_cache p) payload);
  match cached with
  | Some a => mret (Some a)
  | None =>
      ok ← on_limiter (Pool_Acquire (ClusterId payload));
      if negb ok then mret None else
      examples ← on_storage (Examples sort (p_feedback p) payload);
      r ← ask (Analyze (p_evaluator p) None payload examples);
      res ← match r with
            | Some (Ok analysis) =>
                on_storage (cache_Set FormatFloat32 (p_cache p) payload (Some analysis));;
                mret (Some analysis)
            | _ => mret None
            end;
      (* deferred *)
      on_limiter (Pool_Release (ClusterId payload));;
      mret res
  end.

Definition evaluateIncident (p : Pipeline W) (representative : ref AlertPayload)
    (alerts : list (ref AlertPayload)) : M (Rest T S W) (option Analysis) :=
  let rep := deref representative in
  ok ← on_limiter (Pool_Acquire (ClusterId rep));
  if negb ok then mret None else
  examples ← on_storage (Examples sort (p_feedback p) rep);
  r ← ask (AnalyzeIncident (p_evaluator p) None (map deref alerts) examples);
  let res := match r with Some (Ok analysis) => Some analysis | _ => None end in
  (* deferred *)
  on_limiter (Pool_Release (ClusterId rep));;
  mret res.

Definition maybeSilence (p : Pipeline W) (payload : AlertPayload) (analysis : option Analysis) :
    M (Rest T S W) unit :=
  match analysis with
  | None => mret tt
  | Some a =>
      if negb (Silence a) then mret tt else
      if seqb (Confidence a) "low" then mret tt else
      (* an error is only logged *)
      _ ← on_outside (CreateSilence (p_silence p) payload (SilenceReason a));
      mret tt
  end.

Definition attachFeedback (p : Pipeline W) (payload : AlertPayload) (analysis : option Analysis)
    (msg : Message) : M (Rest T S W) Message :=
  match analysis with
  | None => mret msg
  | Some _ =>
      '(up, down) ← on_storage (feedback_Record (p_feedback p) payload analysis);
      mret (MkMsg (Payload msg) (Msg_Analysis msg) (GrafanaURL msg) (Msg_Incident msg) up down
              (EvidenceLogs msg) (EvidenceMetrics msg))
  end.

(** The body of the loop of [deliver]. *)
Definition send_to (p : Pipeline W) (msg : Message) (name : string) : M (Rest T S W) unit :=
  match p_notifiers p !! name with
  | None => mret tt
  | Some notifier => _ ← on_outside (Send notifier msg); mret tt
  end.

Definition deliver (p : Pipeline W) (routeBy : AlertPayload) (msg : Message) : M (Rest T S W) unit :=
  let targets := Route (p_router p) routeBy in
  for_each targets (send_to p msg).

(** The last three calls of [processSingle] and [processIncident]. *)
Definition announce (p : Pipeline W) (representative : ref AlertPayload) (analysis : option Analysis)
    (msg : Message) : M (Rest T S W) unit :=
  match AttachEvidence int64_outside msg (deref representative) (p_evidence p) with
  | None => panic
  | Some msg =>
      msg ← attachFeedback p (deref representative) analysis msg;
      deliver p (deref representative) msg
  end.

Definition processSingle (p : Pipeline W) (payload : ref AlertPayload) : M (Rest T S W) unit :=
  analysis ← evaluate p (deref payload);
  unless_panicked (
    maybeSilence p (deref payload) analysis;;
    on_storage (history_Record (p_history p) (Some payload) analysis [payload]);;
    announce p payload analysis (FormatMessage payload analysis)).

Definition processIncident (p : Pipeline W) (alerts : list (ref AlertPayload)) : M (Rest T S W) unit :=
  match Representative alerts with
  | None => mret tt
  | Some rep =>
      if (length alerts =? 1)%nat then
        analysis ← evaluate p (deref rep);
        unless_panicked (
          maybeSilence p (deref rep) analysis;;
          on_storage (history_Record (p_history p) (Some rep) analysis alerts);;
          announce p rep analysis (FormatMessage rep analysis))
      else
        analysis ← evaluateIncident p rep alerts;
        unless_panicked (
          maybeSilence p (deref rep) analysis;;
          on_storage (history_Record (p_history p) (Some rep) analysis alerts);;
          announce p rep analysis (FormatIncidentMessage rep alerts analysis))
  end.

Definition processResolved (p : Pipeline W) (payload : ref AlertPayload) : M (Rest T S W) unit :=
  deliver p (deref payload) (FormatMessage payload None).

Definition on_rest {A} : M (Rest T S W) A → M (Correlator.Correlator * Rest T S W) A :=
  zoom snd (λ r s, (s.1, r)).
Definition on_correlator {A} : M Correlator.Correlator A → M (Correlator.Correlator * Rest T S W) A :=
  zoom fst (λ c s, (c, s.2)).

Definition Process (p : Pipeline W) (payload : ref AlertPayload) :
    M (Correlator.Correlator * Rest T S W) unit :=
  if seqb (Status (deref payload)) "resolved" then
    dup ← on_rest (on_storage (IsDuplicateResolved (p_dedup p) (deref payload)));
    if (dup : bool) then mret tt else on_rest (processResolved p payload)
  else
    dup ← on_rest (on_storage (IsDuplicate (p_dedup p) (deref payload)));
    if (dup : bool) then mret tt else
    s ← get;
    if Correlator.enabled s.1 then on_correlator (Correlator.Add payload)
    else on_rest (processSingle p payload).

(** A bucket's timer fires; the pipeline is drained at shutdown. *)
Definition flush_group (p : Pipeline W) (key : string) : M (Correlator.Correlator * Rest T S W) unit :=
  flushKey (processIncident p) key.

(** Once a goroutine has panicked no further group is processed. *)
Definition pipeline_Drain (p : Pipeline W) (order : list string → list string) :
    M (Correlator.Correlator * Rest T S W) unit :=
  Correlator.Drain (λ group, unless_panicked (processIncident p group)) order.
End pipeline.

(** ** What can be observed

    The alerts the LLM was asked about, the requests AlertManager received and
    the messages the receivers got, in order. *)
Record seen := MkSeen {
  sent : list (string * Message);
  asked : list (list AlertPayload);
  posted : list http_request;
}.

(** The interface of the world outside: a call of a receiver, of the analyzer or
    of the network is seen there once and changes nothing else that is seen. What
    the calls answer is unconstrained. *)
Class Observer {W : Type} `{!Net W} (p : Pipeline W) := {
  seen_in : W → seen;
  seen_Send name notifier msg n w : p_notifiers p !! name = Some notifier →
    seen_in (Send notifier msg (n, w)).2.2 =
      MkSeen (sent (seen_in w) ++ [(name, msg)])%list (asked (seen_in w)) (posted (seen_in w));
  seen_Analyze ctx payload examples n w :
    seen_in (Analyze (p_evaluator p) ctx payload examples (n, w)).2.2 =
      MkSeen (sent (seen_in w)) (asked (seen_in w) ++ [[payload]])%list (posted (seen_in w));
  seen_AnalyzeIncident ctx payloads examples n w :
    seen_in (AnalyzeIncident (p_evaluator p) ctx payloads examples (n, w)).2.2 =
      MkSeen (sent (seen_in w)) (asked (seen_in w) ++ [payloads])%list (posted (seen_in w));
  seen_http req n w :
    seen_in (http_do req (n, w)).2.2 =
      MkSeen (sent (seen_in w)) (asked (seen_in w)) (posted (seen_in w) ++ [req])%list;
}.

(** The slots a cluster's limiter has given out. *)
Definition slots {T} (o : option (Limiter.Pool T)) (id : string) : nat :=
  match o with
  | Some p => match Limiter.buckets p !! id with Some (Some l) => used l | _ => 0 end
  | None => 0
  end.

Section slots.
Context `{HC : !Clock} {T : Type} `{HN : !Num T}.

Lemma slots_set id j b (p : Limiter.Pool T) :
  slots (Some (set_bucket id b p)) j =
    if decide (j = id) then match b with Some l => used l | None => 0%nat end else slots (Some p) j.
Proof.
  unfold slots. cbn [Limiter.buckets set_bucket]. destruct (decide (j = id)) as [->|Hj].
  - by rewrite lookup_insert_eq.
  - by rewrite lookup_insert_ne by done.
Qed.

Lemma bucket_slots id n (p : Limiter.Pool T) b n1 p1 :
  Limiter.bucket id (n, p) = (b, (n1, p1)) →
  (∀ j, slots (Some p1) j = slots (Some p) j) ∧
  match b with Some l => used l | None => 0%nat end = slots (Some p) id.
Proof.
  unfold Limiter.bucket. munfold. mstep. unfold slots at 3.
  destruct (Limiter.buckets p !! id) as [b0|] eqn:Eb; [by intros [= <- <- <-]|].
  unfold Limiter_New. assert (slots (Some p) id = 0%nat) as H0 by (unfold slots; by rewrite Eb).
  destruct (_ || _); munfold; intros [= <- <- <-]; (split; [|done]); intros j;
    rewrite slots_set; destruct (decide (j = id)) as [->|]; done.
Qed.

Lemma Limiter_Acquire_used n (o : option (Limiter T)) b n1 o1 :
  Limiter_Acquire (n, o) = (b, (n1, o1)) →
  let u o := match o with Some l => used l | None => 0%nat end in
  if b then u o1 = match o with Some l => S (used l) | None => 0%nat end else u o1 = u o.
Proof.
  unfold Limiter_Acquire, limiter_Acquire, take_slot, take_token, give_slot.
  destruct o as [l|]; [|by intros [= <- <- <-]]. munfold. mstep.
  destruct (used l <? cap l)%nat; [|by intros [= <- <- <-]]. cbn [negb].
  destruct (n_ltb _ _); intros [= <- <- <-]; done.
Qed.

(** A refused call takes no slot, a granted one gives its slot back. *)
Lemma Pool_Acquire_slots id n (o : option (Limiter.Pool T)) b n1 o1 :
  Pool_Acquire id (n, o) = (b, (n1, o1)) →
  if b then ∀ n2, ∃ n3 o3, Pool_Release id (n2, o1) = (tt, (n3, o3)) ∧ ∀ j, slots o3 j = slots o j
  else ∀ j, slots o1 j = slots o j.
Proof.
  unfold Pool_Acquire. destruct o as [p|]; [|intros [= <- <- <-]; intros n2; by exists n2, None].
  unfold on_bucket, mbind, M_bind. destruct (Limiter.bucket id (n, p)) as [l [n' p']] eqn:Eb.
  apply bucket_slots in Eb as [Hp Hl]. destruct (Limiter_Acquire (n', l)) as [r [n'' l']] eqn:Ea.
  apply Limiter_Acquire_used in Ea. cbn zeta in Ea. intros [= <- <- <-]. destruct r.
  - intros n2. unfold Pool_Release, on_bucket, mbind, M_bind, Limiter.bucket. munfold. mstep.
    cbn [Limiter.buckets set_bucket]. rewrite lookup_insert_eq. mstep.
    unfold Limiter_Release, limiter_Release, give_slot. munfold.
    destruct l' as [l1|]; eexists _, _; (split; [done|]); intros j; rewrite !slots_set;
      destruct (decide (j = id)) as [->|]; auto; rewrite <- Hl; destruct l as [l0|]; cbn in Ea |- *; lia.
  - intros j. rewrite slots_set. destruct (decide (j = id)) as [->|]; [|done]. by rewrite Ea, Hl.
Qed.
End slots.

(** ** Lemmas *)

Definition registered {W} (p : Pipeline W) (name : string) : bool :=
  match p_notifiers p !! name with Some _ => true | None => false end.

(** The registered receivers an alert is routed to, in order. *)
Definition receivers_of {W} (p : Pipeline W) (routeBy : AlertPayload) : list string :=
  List.filter (registered p) (Route (p_router p) routeBy).

(** [msg] is about this group: an incident lists it, a single alert is its
    payload. *)
Definition announces (msg : Message) (rep : ref AlertPayload) (group : list (ref AlertPayload)) : Prop :=
  Payload msg = rep ∧ Msg_Incident msg = if (length group =? 1)%nat then None else Some (MkIncident group).

(** What the guards ask of a silence. *)
Definition silenceable (c : SilenceClient.Client) (payload : AlertPayload) (analysis : option Analysis) : Prop :=
  ∃ a, analysis = Some a ∧ Silence a = true ∧ Confidence a ≠ "low" ∧ SilenceClient.enabled c = true ∧
    EqualFold (Severity payload) "critical" = false ∧
    (∀ set, SilenceClient.allowed c = Some set → AlertName payload ∈ set).

(** What an evaluation does to the rest: one question [call] about [group] at most, no
    limiter slot kept; it is the question that panics, if anything. *)
Record evaluates {T S W} `{!Net W} (p : Pipeline W) `{!Observer p} (group : list AlertPayload)
    (call : list Example_ → M W (option (result run_error Analysis))) (r r' : Rest T S W) (a : option Analysis) : Prop := {
  ev_slots j : slots (limiter r') j = slots (limiter r) j;
  ev_seen : outside r' = outside r ∨
    seen_in (outside r') = MkSeen (sent (seen_in (outside r))) (asked (seen_in (outside r)) ++ [group])%list
                             (posted (seen_in (outside r)));
  ev_panic : panicked r' = panicked r ∨
    (panicked r' = true ∧ ∃ examples n n', call examples (n, outside r) = (None, (n', outside r')));
}.

(** The analyzer was asked about the group and panicked. *)
Definition analyzer_panics {W} (p : Pipeline W) (group : list AlertPayload) (w w' : W) : Prop :=
  ∃ examples n n',
    match group with
    | [a] => Analyze (p_evaluator p) None a examples
    | _ => AnalyzeIncident (p_evaluator p) None group examples
    end (n, w) = (None, (n', w')).

(** Everything that is seen of the processing of one group. *)
Record handled {W} `{!Net W} (p : Pipeline W) (rep : ref AlertPayload) (group : list (ref AlertPayload))
    (msg : Message) (s s' : seen) : Prop := {
  h_sent : sent s' = (sent s ++ map (λ name, (name, msg)) (receivers_of p (deref rep)))%list;
  h_asked : asked s' = asked s ∨ asked s' = (asked s ++ [map deref group])%list;
  h_posted : posted s' = posted s ∨
    ∃ req, posted s' = (posted s ++ [req])%list ∧ silenceable (p_silence p) (deref rep) (Msg_Analysis msg);
}.

Section lemmas.
Context `{HC : !Clock} {T S W : Type} `{HN : !Num T, HS : !Store.Store S, HW : !Net W}.
Context (FF : spec_float → string) (PF : string → option spec_float).
Context (sort : list verdictEntry → list verdictEntry) (i64 : spec_float → Z).
Context (p : Pipeline W) {HO : Observer p}.

Implicit Types r : Rest T S W.

Lemma on_storage_run {A} (m : M S A) n r :
  ∃ a n' s', m (n, storage r) = (a, (n', s')) ∧
    on_storage m (n, r) = (a, (n', MkRest (limiter r) s' (outside r) (panicked r))).
Proof.
  unfold on_storage, zoom. cbn [fst snd]. destruct (m (n, storage r)) as [a [n' s']]. by eexists _, _, _.
Qed.

Lemma on_outside_run {A} (m : M W A) n r :
  ∃ a n' w', m (n, outside r) = (a, (n', w')) ∧
    on_outside m (n, r) = (a, (n', MkRest (limiter r) (storage r) w' (panicked r))).
Proof.
  unfold on_outside, zoom. cbn [fst snd]. destruct (m (n, outside r)) as [a [n' w']]. by eexists _, _, _.
Qed.

Lemma on_limiter_run {A} (m : M (option (Limiter.Pool T)) A) n r a n' l' :
  m (n, limiter r) = (a, (n', l')) →
  on_limiter m (n, r) = (a, (n', MkRest l' (storage r) (outside r) (panicked r))).
Proof. unfold on_limiter, zoom. cbn [fst snd]. by intros ->. Qed.

Lemma ask_run (call : M W (option (result run_error Analysis))) n r :
  ∃ o n' w', call (n, outside r) = (o, (n', w')) ∧
    ask call (n, r) = (o, (n', MkRest (limiter r) (storage r) w' (match o with None => true | _ => panicked r end))).
Proof.
  unfold ask, mbind, M_bind. destruct (on_outside_run call n r) as (o & n' & w' & E & ->). exists o, n', w'.
  split; [done|]. by destruct o.
Qed.

(** The LLM call between [Acquire] and the deferred [Release]. *)
Definition with_slot {A} (id : string) (k : M (Rest T S W) A) (none : A) : M (Rest T S W) A :=
  ok ← on_limiter (Pool_Acquire id);
  if negb ok then mret none else
  a ← k; on_limiter (Pool_Release id);; mret a.

Lemma with_slot_run id {A} (k : M (Rest T S W) A) (none : A) n r :
  (∀ n r, limiter (k (n, r)).2.2 = limiter r) →
  let x := with_slot id k none (n, r) in
  (∀ j, slots (limiter x.2.2) j = slots (limiter r) j) ∧
  ((outside x.2.2 = outside r ∧ panicked x.2.2 = panicked r) ∨
   ∃ n1 l1, let y := k (n1, MkRest l1 (storage r) (outside r) (panicked r)) in
     outside x.2.2 = outside y.2.2 ∧ panicked x.2.2 = panicked y.2.2).
Proof.
  intros Hk x. unfold x, with_slot, mbind, M_bind.
  destruct (Pool_Acquire id (n, limiter r)) as [ok [n1 l1]] eqn:Ea. rewrite (on_limiter_run _ _ _ _ _ _ Ea).
  apply Pool_Acquire_slots in Ea. destruct ok; cbn [negb].
  - specialize (Hk n1 (MkRest l1 (storage r) (outside r) (panicked r))).
    destruct (k (n1, _)) as [a [n2 r2]] eqn:E. cbn [fst snd limiter] in Hk.
    destruct (Ea n2) as (n3 & l3 & Er & Hs). rewrite <- Hk in Er.
    rewrite (on_limiter_run (Pool_Release id) n2 r2 tt n3 l3 Er). cbn. split; [done|].
    right. exists n1, l1. by rewrite E.
  - cbn. split; [done|]. by left.
Qed.

(** One question to the LLM at most, and none of its slots is kept. *)
Lemma evaluate_run payload n r :
  evaluates p [payload] (Analyze (p_evaluator p) None payload) r (evaluate FF PF sort p payload (n, r)).2.2
    (evaluate FF PF sort p payload (n, r)).1.
Proof.
  unfold evaluate. unfold mbind at 1 2, M_bind at 1 2.
  destruct (on_storage_run (cache_Get PF (p_cache p) payload) n r) as (o & n1 & s1 & _ & ->).
  set (r1 := MkRest _ s1 _ _). destruct o as [a|]; [by split; [|left|left]|].
  set (k := examples ← on_storage (Examples sort (p_feedback p) payload);
            x ← ask (Analyze (p_evaluator p) None payload examples);
            match x with
            | Some (Ok an) => on_storage (cache_Set FF (p_cache p) payload (Some an));; mret (Some an)
            | _ => mret None
            end : M (Rest T S W) (option Analysis)).
  assert (∀ n r, let y := (k (n, r)).2.2 in limiter y = limiter r ∧
    seen_in (outside y) = MkSeen (sent (seen_in (outside r))) (asked (seen_in (outside r)) ++ [[payload]])%list
                    (posted (seen_in (outside r))) ∧
    (panicked y = panicked r ∨ (panicked y = true ∧ ∃ ex n n', Analyze (p_evaluator p) None payload ex (n, outside r) = (None, (n', outside y))))) as Hk.
  { clear. intros n r. unfold k, mbind, M_bind.
    destruct (on_storage_run (Examples sort (p_feedback p) payload) n r) as (ex & n1 & s1 & _ & ->).
    destruct (ask_run (Analyze (p_evaluator p) None payload ex) n1 (MkRest (limiter r) s1 (outside r) (panicked r)))
      as (x & n2 & w2 & Ew & ->). cbn [outside limiter storage panicked] in *.
    pose proof (seen_Analyze None payload ex n1 (outside r)) as Hs. rewrite Ew in Hs. cbn [snd] in Hs.
    destruct x as [[an|]|]; [|by split_and!; [..|left]|split_and!; [done..|right; split; [done|]; by exists ex, n1, n2]].
    destruct (on_storage_run (cache_Set FF (p_cache p) payload (Some an)) n2 (MkRest (limiter r) s1 w2 (panicked r)))
      as (u & n3 & s3 & _ & ->). by split_and!; [..|left]. }
  match goal with |- evaluates _ _ _ _ ?x.2.2 _ => assert (with_slot (ClusterId payload) k None (n1, r1) = x) as <- end.
  { unfold with_slot, k, mbind, M_bind, mret, M_ret. clear.
    destruct (on_limiter _ _) as [[] [m2 r2]]; [|done]. cbn [negb].
    destruct (on_storage _ _) as [ex [m3 r3]]. destruct (ask _ _) as [[[an|]|] [m4 r4]]; try by destruct (on_limiter _ _).
    destruct (on_storage _ _) as [u [m5 r5]]. by destruct (on_limiter _ _). }
  destruct (with_slot_run (ClusterId payload) k None n1 r1) as (Hs & Hw); [intros; apply Hk|].
  destruct Hw as [[Ew Ep]|(n2 & l2 & Ew & Ep)].
  - split; [exact Hs|by left|by left].
  - destruct (Hk n2 (MkRest l2 s1 (outside r) (panicked r))) as (_ & Hseen & Hp). cbn [storage outside panicked limiter r1] in *.
    split; [exact Hs|right; by rewrite Ew|]. rewrite Ew, Ep. exact Hp.
Qed.

Lemma evaluateIncident_run rep group n r :
  evaluates p (map deref group) (AnalyzeIncident (p_evaluator p) None (map deref group)) r
    (evaluateIncident sort p rep group (n, r)).2.2 (evaluateIncident sort p rep group (n, r)).1.
Proof.
  set (k := examples ← on_storage (Examples sort (p_feedback p) (deref rep));
            x ← ask (AnalyzeIncident (p_evaluator p) None (map deref group) examples);
            mret match x with Some (Ok an) => Some an | _ => None end : M (Rest T S W) (option Analysis)).
  assert (∀ n r, let y := (k (n, r)).2.2 in limiter y = limiter r ∧
    seen_in (outside y) = MkSeen (sent (seen_in (outside r))) (asked (seen_in (outside r)) ++ [map deref group])%list
                    (posted (seen_in (outside r))) ∧
    (panicked y = panicked r ∨ (panicked y = true ∧
       ∃ ex n n', AnalyzeIncident (p_evaluator p) None (map deref group) ex (n, outside r) = (None, (n', outside y))))) as Hk.
  { clear. intros n r. unfold k, mbind, M_bind.
    destruct (on_storage_run (Examples sort (p_feedback p) (deref rep)) n r) as (ex & n1 & s1 & _ & ->).
    destruct (ask_run (AnalyzeIncident (p_evaluator p) None (map deref group) ex) n1
      (MkRest (limiter r) s1 (outside r) (panicked r))) as (x & n2 & w2 & Ew & ->).
    cbn [outside limiter storage panicked] in *.
    pose proof (seen_AnalyzeIncident None (map deref group) ex n1 (outside r)) as Hs. rewrite Ew in Hs.
    destruct x as [x|]; [by split_and!; [..|left]|split_and!; [done..|right; split; [done|]; by exists ex, n1, n2]]. }
  assert (with_slot (ClusterId (deref rep)) k None (n, r) = evaluateIncident sort p rep group (n, r)) as <-.
  { unfold evaluateIncident, with_slot, k, mbind, M_bind, mret, M_ret. clear.
    destruct (on_limiter _ _) as [[] [m2 r2]]; [|done]. cbn [negb].
    destruct (on_storage _ _) as [ex [m3 r3]]. destruct (ask _ _) as [[[an|]|] [m4 r4]]; by destruct (on_limiter _ _). }
  destruct (with_slot_run (ClusterId (deref rep)) k None n r) as (Hs & Hw); [intros; apply Hk|].
  destruct Hw as [[Ew Ep]|(n2 & l2 & Ew & Ep)].
  - split; [exact Hs|by left|by left].
  - destruct (Hk n2 (MkRest l2 (storage r) (outside r) (panicked r))) as (_ & Hseen & Hp). cbn [storage outside panicked limiter] in *.
    split; [exact Hs|right; by rewrite Ew|]. rewrite Ew, Ep. exact Hp.
Qed.

(** One request to AlertManager at most, and only past every guard. *)
Lemma maybeSilence_run payload analysis n r :
  ∃ n' w', maybeSilence p payload analysis (n, r) = (tt, (n', MkRest (limiter r) (storage r) w' (panicked r))) ∧
    (w' = outside r ∨
     (silenceable (p_silence p) payload analysis ∧
      ∃ req, seen_in w' = MkSeen (sent (seen_in (outside r))) (asked (seen_in (outside r)))
                            (posted (seen_in (outside r)) ++ [req])%list)).
Proof.
  assert (∀ P : W → Prop, ∃ n' w', ((tt, (n, r)) : unit * (nat * Rest T S W)) =
    (tt, (n', MkRest (limiter r) (storage r) w' (panicked r))) ∧ (w' = outside r ∨ P w')) as Hno
    by (intros P; exists n, (outside r); split; [by destruct r|by left]).
  unfold maybeSilence. destruct analysis as [a|]; [|apply Hno].
  destruct (Silence a) eqn:Es; [|apply Hno]. destruct (seqb (Confidence a) "low") eqn:Ec; [apply Hno|]. sbool.
  cbn [negb]. clear Hno. unfold mbind, M_bind.
  destruct (on_outside_run (CreateSilence (p_silence p) payload (SilenceReason a)) n r) as (e & n1 & w1 & Ew & ->).
  exists n1, w1. split; [done|]. revert Ew. unfold CreateSilence.
  destruct (SilenceClient.enabled _) eqn:Een; cbn [negb]; [|intros [= _ _ <-]; by left].
  destruct (EqualFold _ _) eqn:Ef; [intros [= _ _ <-]; by left|].
  destruct (match SilenceClient.allowed _ with Some set => _ | None => false end) eqn:Ea; [intros [= _ _ <-]; by left|].
  munfold. mstep. destruct (request_error _); [intros [= _ _ <-]; by left|].
  set (req := MkRequest _ _ _ _). destruct (http_do req _) as [x [n2 w2]] eqn:Eh. intros Hw. right.
  assert (w2 = w1) as -> by (destruct x; [code_cases|]; by injection Hw).
  split; [exists a; split_and!; try done|].
  - intros set Hset. rewrite Hset in Ea. apply negb_false_iff in Ea. by apply bool_decide_eq_true in Ea.
  - exists req. pose proof (seen_http req (Datatypes.S n) (outside r)) as Hs. by rewrite Eh in Hs.
Qed.

Lemma deliver_run payload msg n r :
  ∃ n' w', deliver p payload msg (n, r) = (tt, (n', MkRest (limiter r) (storage r) w' (panicked r))) ∧
    seen_in w' = MkSeen (sent (seen_in (outside r)) ++ map (λ name, (name, msg)) (receivers_of p payload))%list
                   (asked (seen_in (outside r))) (posted (seen_in (outside r))).
Proof.
  unfold deliver, receivers_of. generalize (Route (p_router p) payload) as l. intros l. revert n r.
  induction l as [|name l IH]; intros n r.
  - exists n, (outside r). cbn. rewrite app_nil_r. destruct r. split; [done|]. by destruct (seen_in _).
  - cbn [for_each List.filter]. unfold mbind at 1, M_bind at 1. unfold send_to at 1, registered at 1.
    destruct (p_notifiers p !! name) as [nt|] eqn:En; [|apply IH].
    unfold mbind at 1, M_bind at 1.
    destruct (on_outside_run (Send nt msg) n r) as (e & n1 & w1 & Ew & ->). cbn [mret M_ret].
    destruct (IH n1 (MkRest (limiter r) (storage r) w1 (panicked r))) as (n2 & w2 & E2 & Hs2).
    exists n2, w2. split; [exact E2|]. rewrite Hs2. cbn [outside].
    pose proof (seen_Send name nt msg n (outside r) En) as Hs. rewrite Ew in Hs. cbn [snd] in Hs. rewrite Hs.
    cbn. by rewrite <- app_assoc.
Qed.

Lemma announce_run rep group analysis msg n r :
  Forall renderable (Metrics (deref rep)) → announces msg rep group →
  ∃ n' s' w' msg', announce i64 p rep analysis msg (n, r) = (tt, (n', MkRest (limiter r) s' w' (panicked r))) ∧
    announces msg' rep group ∧ Msg_Analysis msg' = Msg_Analysis msg ∧
    seen_in w' = MkSeen (sent (seen_in (outside r)) ++ map (λ name, (name, msg')) (receivers_of p (deref rep)))%list
                   (asked (seen_in (outside r))) (posted (seen_in (outside r))).
Proof.
  intros Hr Ha. unfold announce.
  destruct (AttachEvidence_total i64 msg (deref rep) (p_evidence p) Hr) as (msg1 & -> & E). injection E as E1 E2 _ E3 _ _.
  assert (announces msg1 rep group) as Ha1 by (unfold announces in *; by rewrite E1, E3).
  unfold mbind, M_bind, attachFeedback. rewrite <- E2. destruct analysis as [a|].
  - unfold mbind, M_bind.
    destruct (on_storage_run (feedback_Record (p_feedback p) (deref rep) (Some a)) n r) as ([up down] & n1 & s1 & _ & ->).
    unfold mret, M_ret. set (msg2 := MkMsg _ _ _ _ up down _ _).
    destruct (deliver_run (deref rep) msg2 n1 (MkRest (limiter r) s1 (outside r) (panicked r))) as (n2 & w2 & E & Hs).
    exists n2, s1, w2, msg2. by split_and!.
  - unfold mret, M_ret. destruct (deliver_run (deref rep) msg1 n r) as (n2 & w2 & E & Hs).
    exists n2, (storage r), w2, msg1. by split_and!.
Qed.

(** From the evaluation on, single alerts and incidents are handled alike, unless the
    analyzer panicked. *)
Lemma report_run (ev : M (Rest T S W) (option Analysis)) call rep group (fmt : option Analysis → Message) n r :
  evaluates p (map deref group) call r (ev (n, r)).2.2 (ev (n, r)).1 →
  Forall renderable (Metrics (deref rep)) →
  (∀ a, announces (fmt a) rep group ∧ Msg_Analysis (fmt a) = a) →
  ∃ n' r',
    (analysis ← ev;
     unless_panicked (
       maybeSilence p (deref rep) analysis;;
       on_storage (history_Record (p_history p) (Some rep) analysis group);;
       announce i64 p rep analysis (fmt analysis))) (n, r) = (tt, (n', r')) ∧
    (∀ j, slots (limiter r') j = slots (limiter r) j) ∧
    ((panicked r' = false ∧ panicked r = false ∧ ∃ msg, announces msg rep group ∧ Msg_Analysis msg = (ev (n, r)).1 ∧
        handled p rep group msg (seen_in (outside r)) (seen_in (outside r'))) ∨
     (panicked r' = true ∧ evaluates p (map deref group) call r r' (ev (n, r)).1)).
Proof.
  intros He Hr Hf. unfold mbind at 1, M_bind at 1. destruct (ev (n, r)) as [a [n1 r1]]. cbn [fst snd] in *.
  unfold unless_panicked at 1. cbn [snd]. destruct (panicked r1) eqn:Hp.
  { exists n1, r1. split_and!; [done|apply He|]. by right. }
  assert (panicked r = false) as Hp0 by (destruct (ev_panic _ _ _ _ _ _ He) as [E|[E _]]; congruence).
  pose proof (ev_slots _ _ _ _ _ _ He) as Hs. pose proof (ev_seen _ _ _ _ _ _ He) as Hw. clear He. unfold mbind, M_bind.
  destruct (maybeSilence_run (deref rep) a n1 r1) as (n2 & w2 & -> & Hw2). rewrite Hp.
  destruct (on_storage_run (history_Record (p_history p) (Some rep) a group) n2 (MkRest (limiter r1) (storage r1) w2 false))
    as (u & n3 & s3 & _ & ->). cbn [limiter storage outside panicked] in *. destruct (Hf a) as [Ha Ea].
  destruct (announce_run rep group a (fmt a) n3 (MkRest (limiter r1) s3 w2 false) Hr Ha)
    as (n4 & s4 & w4 & msg & -> & Hmsg & Em & H4). cbn [limiter storage outside panicked] in *.
  eexists n4, _. split; [done|]. cbn [limiter panicked outside]. split; [done|]. left. split; [done|]. split; [done|].
  exists msg. rewrite Ea in Em. split_and!; [done..|].
  split; rewrite H4; cbn [sent asked posted].
  - destruct Hw2 as [->|[_ (req & ->)]]; cbn [sent]; destruct Hw as [->| ->]; done.
  - destruct Hw2 as [->|[_ (req & ->)]]; cbn [asked]; destruct Hw as [->| ->]; cbn [asked]; auto.
  - rewrite Em. destruct Hw2 as [->|[Hsil (req & ->)]]; cbn [posted]; destruct Hw as [->| ->]; cbn [posted]; eauto.
Qed.

(** Either the group is announced, or the process has panicked and nothing was sent:
    before, or over the question about the group. *)
Lemma processIncident_run group rep n r :
  Representative group = Some rep → Forall renderable (Metrics (deref rep)) →
  ∃ n' r',
    processIncident FF PF sort i64 p group (n, r) = (tt, (n', r')) ∧
    (∀ j, slots (limiter r') j = slots (limiter r) j) ∧
    ((panicked r' = false ∧ panicked r = false ∧ ∃ msg, announces msg rep group ∧
        Msg_Analysis msg = ((if (length group =? 1)%nat then evaluate FF PF sort p (deref rep)
                             else evaluateIncident sort p rep group) (n, r)).1 ∧
        handled p rep group msg (seen_in (outside r)) (seen_in (outside r'))) ∨
     (panicked r' = true ∧
      (panicked r = true ∨ analyzer_panics p (map deref group) (outside r) (outside r')) ∧
      sent (seen_in (outside r')) = sent (seen_in (outside r)) ∧ posted (seen_in (outside r')) = posted (seen_in (outside r)) ∧
      (asked (seen_in (outside r')) = asked (seen_in (outside r)) ∨
       asked (seen_in (outside r')) = asked (seen_in (outside r)) ++ [map deref group])%list)).
Proof.
  intros Hrep Hr. unfold processIncident. rewrite Hrep.
  assert (∀ call r r' a, evaluates p (map deref group) call r r' a →
    (∀ ex w, call ex w = match map deref group with [x] => Analyze (p_evaluator p) None x ex | _ => AnalyzeIncident (p_evaluator p) None (map deref group) ex end w) →
    panicked r' = true → (panicked r = true ∨ analyzer_panics p (map deref group) (outside r) (outside r')) ∧
      sent (seen_in (outside r')) = sent (seen_in (outside r)) ∧ posted (seen_in (outside r')) = posted (seen_in (outside r)) ∧
      (asked (seen_in (outside r')) = asked (seen_in (outside r)) ∨
       asked (seen_in (outside r')) = asked (seen_in (outside r)) ++ [map deref group])%list) as Hend.
  { clear. intros call r r' a [_ Hs Hp] Hc Hp'. split.
    - destruct Hp as [Hp|(_ & ex & n & n' & E)]; [left; congruence|right]. exists ex, n, n'. by rewrite <- Hc.
    - destruct Hs as [->| ->]; auto. }
  destruct (length group =? 1)%nat eqn:El.
  - apply Nat.eqb_eq in El. destruct group as [|x [|? ?]]; try done. injection Hrep as ->.
    destruct (report_run (evaluate FF PF sort p (deref rep)) _ rep [rep] (FormatMessage rep) n r (evaluate_run (deref rep) n r) Hr)
      as (n' & r' & E & Hs & Hx); [by split|]. exists n', r'. split; [exact E|]. split; [done|].
    destruct Hx as [Hx|[Hp He]]; [by left|right]. split; [done|]. by apply (Hend _ _ _ _ He).
  - destruct (report_run (evaluateIncident sort p rep group) _ rep group (FormatIncidentMessage rep group) n r (evaluateIncident_run rep group n r) Hr)
      as (n' & r' & E & Hs & Hx); [intros a; unfold announces; by rewrite El|]. exists n', r'. split; [exact E|]. split; [done|].
    destruct Hx as [Hx|[Hp He]]; [by left|right]. split; [done|]. apply (Hend _ _ _ _ He); [|done].
    intros ex w. by destruct group as [|x [|? ?]].
Qed.

(** Group after group, as long as nothing panics. *)
Lemma for_each_incidents gs n r :
  panicked r = false →
  Forall (λ g, g ≠ []) gs → Forall (λ g, Forall (λ a, Forall renderable (Metrics (deref a))) g) gs →
  ∃ n' r' msgs, for_each gs (λ g, unless_panicked (processIncident FF PF sort i64 p g)) (n, r) = (tt, (n', r')) ∧
    sent (seen_in (outside r')) = (sent (seen_in (outside r)) ++
      (msgs ≫= λ msg, map (λ name, (name, msg)) (receivers_of p (deref (Payload msg)))))%list ∧
    ∃ gs1 gs2, gs = (gs1 ++ gs2)%list ∧
      Forall2 (λ g msg, ∃ rep, Representative g = Some rep ∧ announces msg rep g) gs1 msgs ∧
      ((panicked r' = false ∧ gs2 = []) ∨
       (panicked r' = true ∧ ∃ g gs3 w w', gs2 = g :: gs3 ∧ analyzer_panics p (map deref g) w w')).
Proof.
  intros Hp0 Hne Hr. revert n r Hp0. induction gs as [|g gs IH]; intros n r Hp0.
  { exists n, r, []. rewrite app_nil_r. split_and!; [done..|]. exists [], []. split_and!; [done|constructor|by left]. }
  apply Forall_cons in Hne as [Hne1 Hne], Hr as [Hr1 Hr].
  destruct (Representative g) as [rep|] eqn:Erep; [|by destruct g].
  rewrite Forall_forall in Hr1. specialize (Hr1 rep (Representative_elem _ _ Erep)).
  destruct (processIncident_run g rep n r Erep Hr1) as (n1 & r1 & E1 & _ & Hx).
  cbn [for_each]. unfold mbind at 1, M_bind at 1. unfold unless_panicked at 1. cbn [snd]. rewrite Hp0, E1.
  destruct Hx as [(Hp1 & _ & msg & Ha & _ & Hh)|(Hp1 & [?|Hx] & Hs1 & _)]; [|congruence|].
  - destruct (IH Hne Hr n1 r1 Hp1) as (n2 & r2 & msgs & E2 & Hs & gs1 & gs2 & -> & Hm & Hend).
    exists n2, r2, (msg :: msgs). split; [done|]. split.
    + rewrite Hs, (h_sent _ _ _ _ _ _ Hh), bind_cons. cbv beta. rewrite (proj1 Ha). by rewrite <- app_assoc.
    + exists (g :: gs1), gs2. split_and!; [done|by constructor; eauto|done].
  - exists n1, r1, []. split; [|split].
    + clear - Hp1. revert n1. induction gs as [|g gs IH]; intros n1; [done|]. cbn [for_each]. unfold mbind, M_bind.
      unfold unless_panicked at 1. cbn [snd]. rewrite Hp1. apply IH.
    + by rewrite Hs1, app_nil_r.
    + exists [], (g :: gs). split_and!; [done|constructor|]. right. split; [done|]. by exists g, gs, (outside r), (outside r1).
Qed.

Lemma processSingle_incident payload : processSingle FF PF sort i64 p payload = processIncident FF PF sort i64 p [payload].
Proof. done. Qed.
End lemmas.

(** ** A world that is watched

    Whatever they answer, these analyzers, receivers and networks record what
    they are asked. *)
Section trace.
Context (llm : seen → option (result run_error Analysis)) (receiver : string → seen → option string).
Context (answer : seen → result string http_response).

#[local] Instance trace_net : Net seen := {|
  http_do := λ req '(n, s), (answer s, (n, MkSeen (sent s) (asked s) (posted s ++ [req])%list));
  wait := λ _, mret None;
  request_error := λ _, None;
|}.

Definition trace_analyzer : Analyzer seen := MkAnalyzer "trace"
  (λ _ payload _ '(n, s), (llm s, (n, MkSeen (sent s) (asked s ++ [[payload]])%list (posted s))))
  (λ _ payloads _ '(n, s), (llm s, (n, MkSeen (sent s) (asked s ++ [payloads])%list (posted s)))).

Definition trace_notifier (name : string) : Notifier seen := MkNotifier name
  (λ msg '(n, s), (receiver name s, (n, MkSeen (sent s ++ [(name, msg)])%list (asked s) (posted s)))).

Definition trace_pipeline (names : list string) (rules : list Rule) (silence : SilenceClient.Client) : Pipeline seen :=
  MkPipeline (dedup_New 5) trace_analyzer (cache_New true 30 None false (f64_of_Z 1)) (routing_New rules)
    (list_to_map (map (λ name, (name, trace_notifier name)) names)) silence (feedback_New "https://muthur" 3)
    (Some (history_New Hour)) (MkEvidenceConfig true 5).

Lemma trace_notifiers names rules silence name notifier :
  p_notifiers (trace_pipeline names rules silence) !! name = Some notifier → notifier = trace_notifier name.
Proof.
  intros H. apply elem_of_list_to_map_2 in H. apply list_elem_of_fmap in H as (x & E & _). by injection E as -> ->.
Qed.

#[export] Instance trace_observer names rules silence : Observer (trace_pipeline names rules silence).
Proof.
  refine {| seen_in := id |}.
  - intros name notifier msg n w ->%trace_notifiers. done.
  - done.
  - done.
  - done.
Defined.
End trace.

Definition sample_rules : list Rule :=
  [MkRule "all" (MkMatch "" "" "" "") ["ops"; "absent"; "pager"]].

(** An analyzer that always fails, receivers that always fail. *)
Definition failing_pipeline : Pipeline seen :=
  trace_pipeline (λ _, Some (Err (CallFailed "trace" "down"))) (λ _ _, Some "down") ["ops"; "pager"] sample_rules
    sample_silence_client.

Definition failing_net : Net seen := trace_net (λ _, Err "down").

Definition failing_observer : @Observer seen failing_net failing_pipeline :=
  trace_observer _ _ _ ["ops"; "pager"] sample_rules sample_silence_client.

Definition fresh_rest : Rest spec_float Memory.t seen := MkRest (NewPool 60 0 2) Memory.NewMemory (MkSeen [] [] []) false.

(** ** Properties *)

Section properties.
Context `{HC : !Clock} {T S W : Type} `{HN : !Num T, HS : !Store.Store S, HW : !Net W}.
Context (FF : spec_float → string) (PF : string → option spec_float).
Context (sort : list verdictEntry → list verdictEntry) (i64 : spec_float → Z).
Context (p : Pipeline W) {HO : Observer p}.

(** C1: no failure loses an alert. With correlation off, for a firing alert that is not
    a duplicate and has no byte metrics that are no numbers: whatever the store, the
    LLM, AlertManager and the receivers answer, exactly one message about it goes to
    each registered receiver it is routed to, in order; the LLM is asked at most once
    and about this alert only; at most one silence is requested. The one exception is
    an analyzer that panics over the question ([Counts.negative_tokens_panic]): then the
    process ends, and nothing was sent to a receiver or to AlertManager. A duplicate
    causes nothing at all. *)
Theorem pipeline_firing_delivered (payload : ref AlertPayload) (n : nat) (c : Correlator.Correlator) (r : Rest T S W) :
  Status (deref payload) ≠ "resolved" → Correlator.enabled c = false →
  Forall renderable (Metrics (deref payload)) → panicked r = false →
  let dup := (IsDuplicate (p_dedup p) (deref payload) (n, storage r)).1 in
  let before := seen_in (outside r) in
  ∃ n' r', Process FF PF sort i64 p payload (n, (c, r)) = (tt, (n', (c, r'))) ∧
    let after := seen_in (outside r') in
    if dup then after = before ∧ panicked r' = false
    else
      (panicked r' = false ∧ ∃ msg, Payload msg = payload ∧ Msg_Incident msg = None ∧
         handled p payload [payload] msg before after) ∨
      (panicked r' = true ∧
         (∃ examples m m', Analyze (p_evaluator p) None (deref payload) examples (m, outside r) = (None, (m', outside r'))) ∧
         after = MkSeen (sent before) (asked before ++ [[deref payload]])%list (posted before)).
Proof.
  intros Hst Hen Hr Hp dup before. unfold Process. apply seqb_false in Hst as ->.
  unfold mbind, M_bind, on_rest, zoom. cbn [fst snd].
  destruct (on_storage_run (IsDuplicate (p_dedup p) (deref payload)) n r) as (d & n1 & s1 & Ed & ->).
  assert (dup = d) as -> by (unfold dup; by rewrite Ed). destruct d.
  { by exists n1, (MkRest (limiter r) s1 (outside r) (panicked r)). }
  unfold get. cbn [fst snd]. rewrite Hen, processSingle_incident. unfold zoom. cbn [fst snd].
  destruct (processIncident_run FF PF sort i64 p [payload] payload n1 (MkRest (limiter r) s1 (outside r) (panicked r)) eq_refl Hr)
    as (n2 & r2 & -> & _ & Hx).
  eexists n2, r2. split; [done|]. cbv zeta. cbn [outside panicked] in Hx.
  destruct Hx as [(Hp2 & _ & msg & [H1 H2] & _ & Hh)|(Hp2 & [?|(ex & m & m' & E)] & _)]; [|congruence|].
  - left. split; [done|]. by exists msg.
  - right. split; [done|]. cbn [map] in E. split; [by exists ex, m, m'|].
    pose proof (seen_Analyze None (deref payload) ex m (outside r)) as Hs. by rewrite E in Hs.
Qed.

(** A resolved alert bypasses everything but the receivers: it is never shown
    to the LLM, silenced or buffered; unless it is a repetition, each registered
    receiver it is routed to gets exactly one message without an analysis. *)
Theorem pipeline_resolved_bypass (payload : ref AlertPayload) (n : nat) (c : Correlator.Correlator) (r : Rest T S W) :
  Status (deref payload) = "resolved" →
  let dup := (IsDuplicateResolved (p_dedup p) (deref payload) (n, storage r)).1 in
  let before := seen_in (outside r) in
  ∃ n' s' w', Process FF PF sort i64 p payload (n, (c, r)) = (tt, (n', (c, MkRest (limiter r) s' w' (panicked r)))) ∧
    seen_in w' = MkSeen
      (sent before ++ if dup then [] else
         map (λ name, (name, FormatMessage payload None)) (receivers_of p (deref payload)))%list
      (asked before) (posted before).
Proof.
  intros Hst dup before. unfold Process. rewrite Hst, seqb_refl.
  unfold mbind, M_bind, on_rest, zoom. cbn [fst snd].
  destruct (on_storage_run (IsDuplicateResolved (p_dedup p) (deref payload)) n r) as (d & n1 & s1 & Ed & ->).
  assert (dup = d) as -> by (unfold dup; by rewrite Ed). destruct d.
  { exists n1, s1, (outside r). split; [done|]. rewrite app_nil_r. unfold before. by destruct (seen_in _). }
  cbn [fst snd]. unfold processResolved.
  destruct (deliver_run p (deref payload) (FormatMessage payload None) n1 (MkRest (limiter r) s1 (outside r) (panicked r)))
    as (n2 & w2 & -> & Hs). by exists n2, s1, w2.
Qed.

(** With correlation on, a firing alert that is not a duplicate is only
    buffered: it is added to its group, and neither the LLM nor AlertManager nor
    any receiver hears of it before the group is flushed. *)
Theorem pipeline_correlation_defers (payload : ref AlertPayload) (n : nat) (c : Correlator.Correlator) (r : Rest T S W) :
  Status (deref payload) ≠ "resolved" → Correlator.enabled c = true →
  ∃ dup n1 s1, IsDuplicate (p_dedup p) (deref payload) (n, storage r) = (dup, (n1, s1)) ∧
    Process FF PF sort i64 p payload (n, (c, r)) =
      (tt, let '(n', c') := if (dup : bool) then (n1, c) else (Correlator.Add payload (n1, c)).2 in
           (n', (c', MkRest (limiter r) s1 (outside r) (panicked r)))).
Proof.
  intros Hst Hen. unfold Process. apply seqb_false in Hst as ->.
  unfold mbind, M_bind, on_rest, zoom. cbn [fst snd].
  destruct (on_storage_run (IsDuplicate (p_dedup p) (deref payload)) n r) as (d & n1 & s1 & Ed & ->).
  exists d, n1, s1. split; [done|]. destruct d; [done|]. unfold get. cbn [fst snd]. rewrite Hen.
  unfold on_correlator, zoom. cbn [fst snd]. by destruct (Correlator.Add payload (n1, c)) as [[] [n2 c2]].
Qed.

(** A flushed group becomes one incident: its bucket is gone, and exactly one
    message about the whole group, centred on its representative, goes to each
    registered receiver the representative is routed to, unless the analyzer panics
    over the group; the LLM is asked at most once, about all of its alerts; no limiter
    slot is kept. *)
Theorem pipeline_incident_delivered (key : string) (b : Correlator.bucket) (n : nat) (c : Correlator.Correlator)
    (r : Rest T S W) :
  Correlator.buckets c !! key = Some b → alerts b ≠ [] →
  Forall (λ a, Forall renderable (Metrics (deref a))) (alerts b) → panicked r = false →
  ∃ rep n' r', Representative (alerts b) = Some rep ∧
    flush_group FF PF sort i64 p key (n, (c, r)) =
      (tt, (n', (Correlator.set_buckets (delete key (Correlator.buckets c)) c, r'))) ∧
    (∀ id, slots (limiter r') id = slots (limiter r) id) ∧
    ((panicked r' = false ∧ ∃ msg, announces msg rep (alerts b) ∧
        handled p rep (alerts b) msg (seen_in (outside r)) (seen_in (outside r'))) ∨
     (panicked r' = true ∧ analyzer_panics p (map deref (alerts b)) (outside r) (outside r'))).
Proof.
  intros Hb Hne Hr Hp. destruct (Representative (alerts b)) as [rep|] eqn:Erep; [|by destruct (alerts b)].
  assert (rep ∈ alerts b) as Hin by (by apply Representative_elem).
  rewrite Forall_forall in Hr. specialize (Hr rep Hin).
  destruct (processIncident_run FF PF sort i64 p (alerts b) rep n r Erep Hr) as (n2 & r2 & E & Hs & Hx).
  eexists rep, n2, r2. split; [done|]. split.
  - unfold flush_group. rewrite flushKey_run. unfold pending. rewrite Hb. cbv zeta.
    destruct (alerts b) as [|x l]; [done|]. by rewrite E.
  - split; [done|]. destruct Hx as [(? & _ & msg & ? & _ & ?)|(? & [?|?] & _)]; [left; eauto|congruence|by right].
Qed.

(** C17: the guards on automatic silences hold for groups too: processing a group
    requests at most one silence, and only if silencing is on, the analysis made
    for the group asks for it with more than low confidence, the allowlist admits
    the representative, and no alert of the group is critical. *)
Theorem pipeline_critical_never_silenced (group : list (ref AlertPayload)) (rep : ref AlertPayload)
    (n : nat) (r : Rest T S W) :
  Representative group = Some rep → Forall renderable (Metrics (deref rep)) →
  let before := posted (seen_in (outside r)) in
  let after := posted (seen_in (outside (processIncident FF PF sort i64 p group (n, r)).2.2)) in
  after = before ∨
  ∃ req a, after = (before ++ [req])%list ∧
    ((if (length group =? 1)%nat then evaluate FF PF sort p (deref rep)
      else evaluateIncident sort p rep group) (n, r)).1 = Some a ∧
    Silence a = true ∧ Confidence a ≠ "low" ∧ SilenceClient.enabled (p_silence p) = true ∧
    (∀ set, SilenceClient.allowed (p_silence p) = Some set → AlertName (deref rep) ∈ set) ∧
    Forall (λ a, Severity (deref a) ≠ "critical") group.
Proof.
  intros Hrep Hr before after. unfold after, before.
  destruct (processIncident_run FF PF sort i64 p group rep n r Hrep Hr)
    as (n2 & r2 & -> & _ & [(_ & _ & msg & _ & Hm & Hh)|(_ & _ & _ & Hpost & _)]); cbn [fst snd]; [|by left].
  destruct (h_posted _ _ _ _ _ _ Hh) as [|(req & Hq & (a & Ha & H1 & H2 & H3 & He & H4))]; [by left|].
  right. exists req, a. rewrite <- Hm. split_and!; [done..|].
  apply Forall_forall. intros x Hx Hc.
  rewrite (Representative_critical group rep Hrep) in He; [done|]. apply Exists_exists. eauto.
Qed.

(** At shutdown nothing buffered is lost: draining empties the correlator
    and announces every buffered alert, each group in one message to each of its
    registered receivers, group after group; unless the analyzer panics over a group,
    which ends the process before that group and the rest are announced. *)
Theorem pipeline_drain_announces_all (order : list string → list string) (n : nat) (c : Correlator.Correlator)
    (r : Rest T S W) :
  (∀ l, order l ≡ₚ l) → Forall (λ a, Forall renderable (Metrics (deref a))) (Schedule.buffered c) → panicked r = false →
  ∃ n' c' r' (gs gs' : list (list (ref AlertPayload))) (msgs : list Message),
    pipeline_Drain FF PF sort i64 p order (n, (c, r)) = (tt, (n', (c', r'))) ∧
    Correlator.buckets c' = ∅ ∧ mjoin (gs ++ gs')%list ≡ₚ Schedule.buffered c ∧
    Forall2 (λ g msg, ∃ rep, Representative g = Some rep ∧ announces msg rep g) gs msgs ∧
    sent (seen_in (outside r')) = (sent (seen_in (outside r)) ++
      (msgs ≫= λ msg, map (λ name, (name, msg)) (receivers_of p (deref (Payload msg)))))%list ∧
    ((panicked r' = false ∧ gs' = []) ∨
     (panicked r' = true ∧ ∃ g rest w w', gs' = g :: rest ∧ analyzer_panics p (map deref g) w w')).
Proof.
  intros Ho Hr Hp. pose proof (Drain_run (λ g, unless_panicked (processIncident FF PF sort i64 p g)) order n c r Ho) as H. cbn zeta in H.
  unfold pipeline_Drain. destruct (Correlator.Drain _ order (n, (c, r))) as [[] [n' [c' r']]]. cbn [fst snd] in H.
  destruct H as (Hb & gs & Hgs & Hne & Hrun).
  assert (Forall (λ g, Forall (λ a, Forall renderable (Metrics (deref a))) g) gs) as Hall.
  { apply Forall_forall. intros g Hg. apply Forall_forall. intros a Ha. rewrite Forall_forall in Hr. apply Hr.
    rewrite <- Hgs. apply list_elem_of_join. eauto. }
  destruct (for_each_incidents FF PF sort i64 p gs n r Hp Hne Hall) as (n2 & r2 & msgs & E & Hs & gs1 & gs2 & -> & Hm & Hend).
  rewrite E in Hrun. injection Hrun as -> ->. exists n2, c', r2, gs1, gs2, msgs. by split_and!.
Qed.

(** The evaluation of an alert costs at most one question to the LLM and
    keeps no limiter slot, error or not; an analysis found in the cache, or a
    refusal by the limiter, costs none, and the refusal yields no analysis. *)
Theorem pipeline_evaluate_frugal (payload : AlertPayload) (n : nat) (r : Rest T S W) :
  let '(a, (n', r')) := evaluate FF PF sort p payload (n, r) in
  let before := seen_in (outside r) in
  let '(cached, (n1, s1)) := cache_Get PF (p_cache p) payload (n, storage r) in
  (∀ id, slots (limiter r') id = slots (limiter r) id) ∧
  (seen_in (outside r') = before ∨
   seen_in (outside r') = MkSeen (sent before) (asked before ++ [[payload]])%list (posted before)) ∧
  match cached with
  | Some x => a = Some x ∧ r' = MkRest (limiter r) s1 (outside r) (panicked r)
  | None => (Pool_Acquire (ClusterId payload) (n1, limiter r)).1 = false → a = None ∧ outside r' = outside r
  end.
Proof.
  pose proof (evaluate_run FF PF sort p payload n r) as [Hs Hw _].
  destruct (evaluate FF PF sort p payload (n, r)) as [a [n' r']] eqn:E. cbn [fst snd] in *.
  cbn zeta. unfold evaluate, mbind at 1, M_bind at 1, on_storage at 1, zoom at 1 in E. cbn [fst snd] in E.
  destruct (cache_Get _ _ _ _) as [cached [n1 s1]]. cbn [limiter outside].
  split_and!; [done|destruct Hw as [->|]; auto|]. destruct cached as [x|]; [by injection E as <- _ <-|].
  intros Ha. unfold mbind at 1, M_bind at 1, on_limiter at 1, zoom at 1 in E. cbn [fst snd limiter] in E.
  destruct (Pool_Acquire _ _) as [ok [n2 l2]]. cbn [fst] in Ha. subst ok. cbn [negb] in E.
  by injection E as <- _ <-.
Qed.
End properties.

(** ** Witnesses: everything outside fails *)

Lemma sample_renderable cluster : Forall renderable (Metrics (deref (sample_firing cluster))).
Proof. by apply Forall_nil. Qed.

Lemma pipeline_firing_delivered_witness :
  let HC := unix_seconds_clock in let HW := failing_net in let HO := failing_observer in
  let payload := sample_firing "prod-a" in
  let c := correlator_New false 60 25 in
  let dup := (IsDuplicate (p_dedup failing_pipeline) (deref payload) (0%nat, storage fresh_rest)).1 in
  let before := seen_in (outside fresh_rest) in
  ∃ n' r', Process (λ _, "0") (λ _, None) merge_newest (λ _, 0) failing_pipeline payload (0%nat, (c, fresh_rest)) = (tt, (n', (c, r'))) ∧
    let after := seen_in (outside r') in
    if dup then after = before ∧ panicked r' = false
    else
      (panicked r' = false ∧ ∃ msg, Payload msg = payload ∧ Msg_Incident msg = None ∧
         handled failing_pipeline payload [payload] msg before after) ∨
      (panicked r' = true ∧
         (∃ examples m m', Analyze (p_evaluator failing_pipeline) None (deref payload) examples (m, outside fresh_rest) =
            (None, (m', outside r'))) ∧
         after = MkSeen (sent before) (asked before ++ [[deref payload]])%list (posted before)).
Proof.
  intros HC HW HO payload c dup before.
  apply (pipeline_firing_delivered (HC := HC) (HW := HW) (HO := HO) (λ _, "0") (λ _, None) merge_newest (λ _, 0)
    failing_pipeline payload 0 c fresh_rest); [done|done|apply sample_renderable|done].
Defined.

(** Everything fails, and the receivers are told; the analyzer panics, and they are
    not. *)
Example firing_told :
  let HC := unix_seconds_clock in let HW := failing_net in
  let told p := map fst (sent (outside (Process (λ _, "0") (λ _, None) merge_newest (λ _, 0) p (sample_firing "prod-a")
    (0%nat, (correlator_New false 60 25, fresh_rest))).2.2.2)) in
  told failing_pipeline = ["ops"; "pager"] ∧
  told (trace_pipeline (λ _, None) (λ _ _, None) ["ops"; "pager"] sample_rules sample_silence_client) = [].
Proof. vm_compute. done. Qed.

Definition sample_resolved : ref AlertPayload :=
  Ref 2 (mk_alert "prod-a" "PodCrash" "critical" "shop" "web-1" "resolved" 1 None).

Lemma pipeline_resolved_bypass_witness :
  let HC := unix_seconds_clock in let HW := failing_net in let HO := failing_observer in
  let c := correlator_New true 60 25 in
  let dup := (IsDuplicateResolved (p_dedup failing_pipeline) (deref sample_resolved) (0%nat, storage fresh_rest)).1 in
  ∃ n' s' w', Process (λ _, "0") (λ _, None) merge_newest (λ _, 0) failing_pipeline sample_resolved (0%nat, (c, fresh_rest)) =
      (tt, (n', (c, MkRest (limiter fresh_rest) s' w' false))) ∧
    seen_in w' = MkSeen
      ([] ++ if dup then [] else
         map (λ name, (name, FormatMessage sample_resolved None)) (receivers_of failing_pipeline (deref sample_resolved)))%list
      [] [].
Proof.
  intros HC HW HO c dup.
  apply (pipeline_resolved_bypass (HC := HC) (HW := HW) (HO := HO) (λ _, "0") (λ _, None) merge_newest (λ _, 0)
    failing_pipeline sample_resolved 0 c fresh_rest). reflexivity.
Defined.

Lemma pipeline_correlation_defers_witness :
  let HC := unix_seconds_clock in let HW := failing_net in
  let payload := sample_firing "prod-a" in
  let c := correlator_New true 60 25 in
  ∃ dup n1 s1, IsDuplicate (p_dedup failing_pipeline) (deref payload) (0%nat, storage fresh_rest) = (dup, (n1, s1)) ∧
    Process (λ _, "0") (λ _, None) merge_newest (λ _, 0) failing_pipeline payload (0%nat, (c, fresh_rest)) =
      (tt, let '(n', c') := if (dup : bool) then (n1, c) else (Correlator.Add payload (n1, c)).2 in
           (n', (c', MkRest (limiter fresh_rest) s1 (outside fresh_rest) false))).
Proof.
  intros HC HW payload c.
  apply (pipeline_correlation_defers (HC := HC) (HW := HW) (λ _, "0") (λ _, None) merge_newest (λ _, 0)
    failing_pipeline payload 0 c fresh_rest); [done|reflexivity].
Defined.

(** The alerts of two pods of a namespace, buffered. *)
Definition sample_group : list (ref AlertPayload) := [sample_firing "prod-a"; sample_firing "prod-a"].

Definition sample_buffered : Correlator.Correlator :=
  let HC := unix_seconds_clock in (for_each sample_group Correlator.Add (0%nat, correlator_New true 60 25)).2.2.

Lemma pipeline_incident_delivered_witness :
  let HC := unix_seconds_clock in let HW := failing_net in let HO := failing_observer in
  let b := Correlator.MkBucket sample_group 0 in
  ∃ rep n' r', Representative (alerts b) = Some rep ∧
    flush_group (λ _, "0") (λ _, None) merge_newest (λ _, 0) failing_pipeline "prod-a|ns|shop" (9%nat, (sample_buffered, fresh_rest)) =
      (tt, (n', (Correlator.set_buckets (delete "prod-a|ns|shop" (Correlator.buckets sample_buffered)) sample_buffered, r'))) ∧
    (∀ id, slots (limiter r') id = slots (limiter fresh_rest) id) ∧
    ((panicked r' = false ∧ ∃ msg, announces msg rep (alerts b) ∧
        handled failing_pipeline rep (alerts b) msg (seen_in (outside fresh_rest)) (seen_in (outside r'))) ∨
     (panicked r' = true ∧ analyzer_panics failing_pipeline (map deref (alerts b)) (outside fresh_rest) (outside r'))).
Proof.
  intros HC HW HO b.
  apply (pipeline_incident_delivered (HC := HC) (HW := HW) (HO := HO) (λ _, "0") (λ _, None) merge_newest (λ _, 0)
    failing_pipeline "prod-a|ns|shop" b 9 sample_buffered fresh_rest); [reflexivity|done| |done].
  repeat (constructor; [apply sample_renderable|]). constructor.
Defined.

(** An analyzer that asks to silence everything. *)
Definition eager_pipeline : Pipeline seen :=
  trace_pipeline (λ _, Some (Ok sample_analysis)) (λ _ _, None) ["ops"; "pager"] sample_rules sample_silence_client.

Definition eager_observer : @Observer seen failing_net eager_pipeline :=
  trace_observer _ _ _ ["ops"; "pager"] sample_rules sample_silence_client.

Lemma pipeline_critical_never_silenced_witness :
  let HC := unix_seconds_clock in let HW := failing_net in let HO := eager_observer in
  let rep := sample_firing "prod-a" in
  let before := posted (seen_in (outside fresh_rest)) in
  let after := posted (seen_in (outside
    (processIncident (λ _, "0") (λ _, None) merge_newest (λ _, 0) eager_pipeline sample_group (0%nat, fresh_rest)).2.2)) in
  after = before ∨
  ∃ req a, after = (before ++ [req])%list ∧
    (evaluateIncident merge_newest eager_pipeline rep sample_group (0%nat, fresh_rest)).1 = Some a ∧
    Silence a = true ∧ Confidence a ≠ "low" ∧ SilenceClient.enabled (p_silence eager_pipeline) = true ∧
    (∀ set, SilenceClient.allowed (p_silence eager_pipeline) = Some set → AlertName (deref rep) ∈ set) ∧
    Forall (λ a, Severity (deref a) ≠ "critical") sample_group.
Proof.
  intros HC HW HO rep before after.
  apply (pipeline_critical_never_silenced (HC := HC) (HW := HW) (HO := HO) (λ _, "0") (λ _, None) merge_newest (λ _, 0)
    eager_pipeline sample_group rep 0 fresh_rest); [reflexivity|apply sample_renderable].
Defined.

Lemma pipeline_drain_announces_all_witness :
  let HC := unix_seconds_clock in let HW := failing_net in let HO := failing_observer in
  ∃ n' c' r' (gs gs' : list (list (ref AlertPayload))) (msgs : list Message),
    pipeline_Drain (λ _, "0") (λ _, None) merge_newest (λ _, 0) failing_pipeline (λ l, l) (9%nat, (sample_buffered, fresh_rest)) =
      (tt, (n', (c', r'))) ∧
    Correlator.buckets c' = ∅ ∧ mjoin (gs ++ gs')%list ≡ₚ Schedule.buffered sample_buffered ∧
    Forall2 (λ g msg, ∃ rep, Representative g = Some rep ∧ announces msg rep g) gs msgs ∧
    sent (seen_in (outside r')) = ([] ++
      (msgs ≫= λ msg, map (λ name, (name, msg)) (receivers_of failing_pipeline (deref (Payload msg)))))%list ∧
    ((panicked r' = false ∧ gs' = []) ∨
     (panicked r' = true ∧ ∃ g rest w w', gs' = g :: rest ∧ analyzer_panics failing_pipeline (map deref g) w w')).
Proof.
  intros HC HW HO.
  apply (pipeline_drain_announces_all (HC := HC) (HW := HW) (HO := HO) (λ _, "0") (λ _, None) merge_newest (λ _, 0)
    failing_pipeline (λ l, l) 9 sample_buffered fresh_rest); [done| |done].
  vm_compute. repeat (constructor; [constructor|]). constructor.
Defined.
