(* ===== verification/Goroutines.v ===== *)
(** * Goroutines

    [internal/pipeline/pipeline.go] once more, at the grain at which goroutines
    interleave. A goroutine is a tree of its accesses to what it shares with the
    others: a call of the store's clients, a critical section of the correlator or
    of a limiter, a question to the LLM, a request to AlertManager, a message to a
    receiver, an instrument. [run] executes a tree without interruption and gives
    back the functions of [Pipeline]; [traces] are the sequences of accesses it can
    make, whatever happens between them, and the lemmas say what they look like. *)
From S2P Require Import Prelude GoStrings Proto Store Dedup Routing Limiter Correlator Analysis Prompt Providers Evaluator.
From S2P Require Import Cache Feedback History SilenceClient Notify Metrics Pipeline.
From Stdlib Require Import Ascii SpecFloat.

Open Scope Z_scope.

(** ** Accesses and programs *)

Section op.
Context (W : Type).

Inductive op : Type → Type :=
| IsDup (a : ref AlertPayload) : op bool
| IsDupResolved (a : ref AlertPayload) : op bool
| Enabled : op bool
| AddTo (a : ref AlertPayload) : op unit
| TakeBucket (key : string) : op (option (list (ref AlertPayload)))
| StopTimers (order : list string → list string) : op (list string)
| CacheGet (payload : AlertPayload) : op (option Analysis)
| CacheSet (payload : AlertPayload) (analysis : Analysis) : op unit
| Acquire (id : string) : op bool
| Release (id : string) : op unit
| GetExamples (payload : AlertPayload) : op (list Example_)
| Ask (payload : AlertPayload) (examples : list Example_) : op (option (result run_error Analysis))
| AskGroup (payloads : list AlertPayload) (examples : list Example_) : op (option (result run_error Analysis))
| RequestSilence (payload : AlertPayload) (reason : string) : op (option string)
| RecordIncident (rep : ref AlertPayload) (analysis : option Analysis) (alerts : list (ref AlertPayload)) : op unit
| RecordFeedback (payload : AlertPayload) (analysis : option Analysis) : op (string * string)
| SendTo (name : string) (notifier : Notifier W) (msg : Message) : op (option string)
| Count (i : Instrument) (values : list string) : op unit
| Gauge (i : Instrument) (delta : Z) : op unit
| Panics : op unit.

(** A goroutine's program: it returns, or makes an access and goes on with the
    answer. *)
Inductive proc (A : Type) : Type :=
| Return (a : A)
| Call {B} (o : op B) (k : B → proc A).
End op.

Arguments IsDup {W}. Arguments IsDupResolved {W}. Arguments Enabled {W}. Arguments AddTo {W}.
Arguments TakeBucket {W}. Arguments StopTimers {W}. Arguments CacheGet {W}. Arguments CacheSet {W}.
Arguments Acquire {W}. Arguments Release {W}. Arguments GetExamples {W}. Arguments Ask {W}. Arguments AskGroup {W}.
Arguments RequestSilence {W}. Arguments RecordIncident {W}. Arguments RecordFeedback {W}. Arguments SendTo {W}.
Arguments Count {W}. Arguments Gauge {W}. Arguments Panics {W}.
Arguments Return {W A}. Arguments Call {W A B}.

#[export] Instance proc_ret {W} : MRet (proc W) := λ A a, Return a.
#[export] Instance proc_bind {W} : MBind (proc W) := λ A B f,
  fix bind g := match g with Return a => f a | Call o k => Call o (λ b, bind (k b)) end.

Definition call {W A} (o : op W A) : proc W A := Call o Return.

Fixpoint each {W A} (l : list A) (body : A → proc W unit) : proc W unit :=
  match l with
  | [] => mret tt
  | x :: l => body x;; each l body
  end.

(** ** The code

    A question without an answer has panicked: the process is then gone, and what
    the program would do next is only of interest for the calls it has deferred. *)

Definition statusLabel (payload : AlertPayload) : string :=
  if seqb (Status payload) "resolved" then "resolved" else "firing".

Section code.
Context {W : Type} (int64_outside : spec_float → Z) (p : Pipeline W).

Definition go_evaluate (payload : AlertPayload) : proc W (option Analysis) :=
  cached ← call (CacheGet payload);
  match cached with
  | Some a => mret (Some a)
  | None =>
      ok ← call (Acquire (ClusterId payload));
      if negb ok then mret None else
      examples ← call (GetExamples payload);
      r ← call (Ask payload examples);
      res ← match r with
            | Some (Ok analysis) => call (CacheSet payload analysis);; mret (Some analysis)
            | _ => mret None
            end;
      (* deferred *)
      call (Release (ClusterId payload));;
      mret res
  end.

Definition go_evaluateIncident (representative : ref AlertPayload) (alerts : list (ref AlertPayload)) :
    proc W (option Analysis) :=
  let rep := deref representative in
  ok ← call (Acquire (ClusterId rep));
  if negb ok then mret None else
  examples ← call (GetExamples rep);
  r ← call (AskGroup (map deref alerts) examples);
  let res := match r with Some (Ok analysis) => Some analysis | _ => None end in
  (* deferred *)
  call (Release (ClusterId rep));;
  mret res.

Definition go_maybeSilence (payload : AlertPayload) (analysis : option Analysis) : proc W unit :=
  match analysis with
  | None => mret tt
  | Some a =>
      if negb (Silence a) then mret tt else
      if seqb (Confidence a) "low" then call (Count Silences ["low_confidence"]) else
      _ ← call (RequestSilence payload (SilenceReason a));
      mret tt
  end.

Definition go_attachFeedback (payload : AlertPayload) (analysis : option Analysis) (msg : Message) : proc W Message :=
  match analysis with
  | None => mret msg
  | Some _ =>
      '(up, down) ← call (RecordFeedback payload analysis);
      mret (MkMsg (Payload msg) (Msg_Analysis msg) (GrafanaURL msg) (Msg_Incident msg) up down
              (EvidenceLogs msg) (EvidenceMetrics msg))
  end.

Definition go_send (msg : Message) (name : string) : proc W unit :=
  match p_notifiers p !! name with
  | None => mret tt
  | Some notifier =>
      err ← call (SendTo name notifier msg);
      call (Count Notifications [name; match err with Some _ => "error" | None => "ok" end])
  end.

Definition go_deliver (routeBy : AlertPayload) (msg : Message) : proc W unit :=
  each (Route (p_router p) routeBy) (go_send msg).

(** The end of [processSingle] and [processIncident]. *)
Definition go_announce (representative : ref AlertPayload) (analysis : option Analysis) (msg : Message) : proc W unit :=
  match AttachEvidence int64_outside msg (deref representative) (p_evidence p) with
  | None => call Panics
  | Some msg =>
      msg ← go_attachFeedback (deref representative) analysis msg;
      go_deliver (deref representative) msg
  end.

Definition go_processSingle (payload : ref AlertPayload) : proc W unit :=
  call (Gauge PipelineInFlight 1);;
  analysis ← go_evaluate (deref payload);
  go_maybeSilence (deref payload) analysis;;
  call (RecordIncident payload analysis [payload]);;
  go_announce payload analysis (FormatMessage payload analysis);;
  (* deferred *)
  call (Gauge PipelineInFlight (-1)).

Definition go_processIncident (alerts : list (ref AlertPayload)) : proc W unit :=
  call (Gauge PipelineInFlight 1);;
  match Representative alerts with
  | None => mret tt
  | Some rep =>
      if (length alerts =? 1)%nat then
        analysis ← go_evaluate (deref rep);
        go_maybeSilence (deref rep) analysis;;
        call (RecordIncident rep analysis alerts);;
        go_announce rep analysis (FormatMessage rep analysis);;
        call (Count Incidents [IncidentSizeBucket 1])
      else
        analysis ← go_evaluateIncident rep alerts;
        go_maybeSilence (deref rep) analysis;;
        call (RecordIncident rep analysis alerts);;
        go_announce rep analysis (FormatIncidentMessage rep alerts analysis);;
        call (Count Incidents [IncidentSizeBucket (Z.of_nat (length alerts))])
  end;;
  (* deferred *)
  call (Gauge PipelineInFlight (-1)).

Definition go_processResolved (payload : ref AlertPayload) : proc W unit :=
  go_deliver (deref payload) (FormatMessage payload None).

Definition go_Process (payload : ref AlertPayload) : proc W unit :=
  call (Count AlertsReceived [ClusterId (deref payload); statusLabel (deref payload)]);;
  if seqb (Status (deref payload)) "resolved" then
    dup ← call (IsDupResolved payload);
    if (dup : bool) then mret tt else go_processResolved payload
  else
    dup ← call (IsDup payload);
    if (dup : bool) then mret tt else
    on ← call Enabled;
    if (on : bool) then call (AddTo payload) else go_processSingle payload.

(** The callback of a bucket's timer, and the drain at shutdown. *)
Definition go_flushKey (key : string) : proc W unit :=
  o ← call (TakeBucket key);
  match o with
  | None => mret tt
  | Some l => go_processIncident l
  end.

Definition go_Drain (order : list string → list string) : proc W unit :=
  keys ← call (StopTimers order);
  each keys go_flushKey.
End code.

(** ** One access *)

Section exec.
Context `{!Clock} {T S W : Type} `{!Num T, !Store.Store S, !Net W}.
Context (FormatFloat32 : spec_float → string) (ParseFloat32 : string → option spec_float).
Context (sort : list verdictEntry → list verdictEntry) (p : Pipeline W).

Definition exec {A} (o : op W A) : M (Correlator.Correlator * Rest T S W) A :=
  match o in op _ A return M (Correlator.Correlator * Rest T S W) A with
  | IsDup a => on_rest (on_storage (IsDuplicate (p_dedup p) (deref a)))
  | IsDupResolved a => on_rest (on_storage (IsDuplicateResolved (p_dedup p) (deref a)))
  | Enabled => s ← get; mret (Correlator.enabled s.1)
  | AddTo a => on_correlator (Correlator.Add a)
  | TakeBucket key => on_correlator (take_bucket key)
  | StopTimers order => on_correlator (drain_keys order)
  | CacheGet payload => on_rest (on_storage (cache_Get ParseFloat32 (p_cache p) payload))
  | CacheSet payload analysis => on_rest (on_storage (cache_Set FormatFloat32 (p_cache p) payload (Some analysis)))
  | Acquire id => on_rest (on_limiter (Pool_Acquire id))
  | Release id => on_rest (on_limiter (Pool_Release id))
  | GetExamples payload => on_rest (on_storage (Examples sort (p_feedback p) payload))
  | Ask payload examples => on_rest (ask (Analyze (p_evaluator p) None payload examples))
  | AskGroup payloads examples => on_rest (ask (AnalyzeIncident (p_evaluator p) None payloads examples))
  | RequestSilence payload reason => on_rest (on_outside (CreateSilence (p_silence p) payload reason))
  | RecordIncident rep analysis alerts =>
      on_rest (on_storage (history_Record (p_history p) (Some rep) analysis alerts))
  | RecordFeedback payload analysis => on_rest (on_storage (feedback_Record (p_feedback p) payload analysis))
  | SendTo _ notifier msg => on_rest (on_outside (Send notifier msg))
  | Count i values => if fits i values then mret tt else on_rest panic
  | Gauge _ _ => mret tt
  | Panics => on_rest panic
  end.

(** Without interruption. *)
Fixpoint run_proc {A} (g : proc W A) : M (Correlator.Correlator * Rest T S W) A :=
  match g with
  | Return a => mret a
  | Call o k => b ← exec o; run_proc (k b)
  end.
End exec.

(** What a goroutine has done: an access with its answer. *)
Inductive action (W : Type) : Type :=
| Action {B} (o : op W B) (b : B).
Arguments Action {W B}.

(** A question that the analyzer did not answer because it panicked. *)
Definition unanswered {W} (x : action W) : bool :=
  match x with
  | Action o b =>
      match o in op _ B return B → bool with
      | Ask _ _ | AskGroup _ _ => λ r, match r with None => true | Some _ => false end
      | _ => λ _, false
      end b
  end.

(** The access ends the process, if its labels fit. *)
Definition fatal {W} (x : action W) : bool :=
  unanswered x || match x with Action Panics _ => true | _ => false end.

(** The sequences of accesses that complete a program, with its result. *)
Fixpoint traces {W A} (g : proc W A) (h : list (action W)) (a : A) : Prop :=
  match g with
  | Return a' => h = [] ∧ a = a'
  | Call o k => ∃ b h', h = Action o b :: h' ∧ traces (k b) h' a
  end.

(** ** Lemmas *)

(** *** Without interruption, the pipeline *)

Section agree.
Context `{HC : !Clock} {T S W : Type} `{HN : !Num T, HS : !Store.Store S, HW : !Net W}.
Context (FF : spec_float → string) (PF : string → option spec_float).
Context (sort : list verdictEntry → list verdictEntry) (i64 : spec_float → Z) (p : Pipeline W).

Abbreviation run := (run_proc (T := T) (S := S) FF PF sort p).
Abbreviation on_rest := (on_rest (T := T) (S := S) (W := W)).
Abbreviation state := (nat * (Correlator.Correlator * Rest T S W))%type.

Definition dead (c : state) : Prop := panicked c.2.2 = true.

(** Nobody rises from the dead. *)
Definition lasting {A} (m : M (Correlator.Correlator * Rest T S W) A) : Prop := ∀ c, dead c → dead (m c).2.

(** A program that runs like a piece of the pipeline on the whole state, or on
    what lies behind the correlator; if one of them panics, so does the other. *)
Definition agrees {A} (g : proc W A) (m : M (Correlator.Correlator * Rest T S W) A) : Prop :=
  lasting (run g) ∧ lasting m ∧ ∀ c, ¬ dead (run g c).2 ∨ ¬ dead (m c).2 → run g c = m c.

Lemma dead_dec c : dead c ∨ ¬ dead c.
Proof. unfold dead. destruct (panicked c.2.2); auto. Qed.

Lemma lasting_bind {A B} (m : M (Correlator.Correlator * Rest T S W) A) (k : A → M _ B) :
  lasting m → (∀ a, lasting (k a)) → lasting (m ≫= k).
Proof.
  intros Hm Hk c Hc. unfold mbind, M_bind. specialize (Hm c Hc). destruct (m c) as [a c']. by apply Hk.
Qed.

Lemma lasting_on_rest {A} (m : M (Rest T S W) A) :
  (∀ n r, panicked r = true → panicked (m (n, r)).2.2 = true) → lasting (on_rest m).
Proof.
  intros Hm [n [c r]] Hc. specialize (Hm n r Hc). unfold dead, Pipeline.on_rest, zoom in *. cbn [fst snd] in *.
  by destruct (m (n, r)) as [a [n' r']].
Qed.

Lemma lasting_exec {A} (o : op W A) : lasting (exec FF PF sort p o).
Proof.
  assert (∀ A (m : M S A), lasting (on_rest (on_storage m))) as Hs.
  { intros B m. apply lasting_on_rest. intros n r Hr. by destruct (on_storage_run m n r) as (? & ? & ? & _ & ->). }
  assert (∀ A (m : M W A), lasting (on_rest (on_outside m))) as Hw.
  { intros B m. apply lasting_on_rest. intros n r Hr. by destruct (on_outside_run m n r) as (? & ? & ? & _ & ->). }
  assert (∀ A (m : M (option (Limiter.Pool T)) A), lasting (on_rest (on_limiter m))) as Hl.
  { intros B m. apply lasting_on_rest. intros n r Hr. destruct (m (n, limiter r)) as [a [n' l']] eqn:E.
    by rewrite (on_limiter_run _ _ _ _ _ _ E). }
  assert (∀ call, lasting (on_rest (ask call))) as Ha.
  { intros call. apply lasting_on_rest. intros n r Hr. destruct (ask_run call n r) as ([] & ? & ? & _ & ->); done. }
  assert (∀ A (m : M Correlator.Correlator A), lasting (on_correlator m)) as Hc.
  { intros B m [n [c r]] Hr. unfold dead, on_correlator, zoom in *. cbn [fst snd] in *. by destruct (m (n, c)) as [a [n' c']]. }
  assert (lasting (on_rest panic)) as Hp by (by apply lasting_on_rest).
  destruct o as [| | | | | | | | | | | | | | | | |i values| |]; cbn [exec]; auto; try by intros c.
  destruct (fits i values); [by intros c|exact Hp].
Qed.

Lemma lasting_run {A} (g : proc W A) : lasting (run g).
Proof.
  induction g as [a|B o k IH]; cbn [run_proc]; [by intros c|]. apply lasting_bind; [apply lasting_exec|exact IH].
Qed.

Lemma agrees_intro {A} (g : proc W A) m : (∀ c, run g c = m c) → agrees g m.
Proof.
  intros H. split; [apply lasting_run|]. split; [|by intros c _]. intros c. rewrite <- H. apply lasting_run.
Qed.

Lemma agrees_ext {A} (g : proc W A) m m' : (∀ c, m c = m' c) → agrees g m → agrees g m'.
Proof.
  intros E (H1 & H2 & H3). split; [done|]. split; intros c; rewrite <- E; [apply H2|apply H3].
Qed.

Lemma agrees_ret {A} (a : A) : agrees (mret a) (mret a).
Proof. by apply agrees_intro. Qed.

Lemma agrees_call {A} (o : op W A) : agrees (call o) (exec FF PF sort p o).
Proof. apply agrees_intro. intros c. unfold call. cbn. unfold mbind, M_bind. by destruct (exec _ _ _ _ o c). Qed.

Lemma run_bind {A B} (g : proc W A) (f : A → proc W B) c : run (g ≫= f) c = (run g ≫= λ a, run (f a)) c.
Proof.
  revert c. induction g as [a|B' o k' IH]; intros c; cbn; [done|]. unfold mbind, M_bind.
  destruct (exec _ _ _ _ o c) as [b c']. apply IH.
Qed.

Lemma agrees_bind {A B} (g : proc W A) (f : A → proc W B) m k :
  agrees g m → (∀ a, agrees (f a) (k a)) → agrees (g ≫= f) (m ≫= k).
Proof.
  intros (_ & Hm & Hg) Hf. split; [apply lasting_run|]. split; [apply lasting_bind; [done|apply Hf]|].
  intros c. rewrite run_bind. unfold mbind, M_bind. specialize (Hg c). intros Hc.
  assert (¬ dead (run g c).2 ∨ ¬ dead (m c).2) as Hgm.
  { destruct (run g c) as [a c1], (m c) as [a' c1']. cbn [snd] in *.
    destruct Hc as [Hc|Hc]; [left|right]; intros Hd; apply Hc; by apply Hf. }
  specialize (Hg Hgm). rewrite Hg in *. destruct (m c) as [a c']. by apply Hf.
Qed.

Lemma agrees_on_rest_bind {A B} (g : proc W A) (f : A → proc W B) m k :
  agrees g (on_rest m) → (∀ a, agrees (f a) (on_rest (k a))) → agrees (g ≫= f) (on_rest (m ≫= k)).
Proof.
  intros Hg Hf. pose proof (agrees_bind g f _ _ Hg Hf) as (H1 & H2 & H3).
  assert (∀ c, (on_rest m ≫= λ a, on_rest (k a)) c = on_rest (m ≫= k) c) as E.
  { intros c. unfold mbind, M_bind, Pipeline.on_rest, zoom. destruct (m (c.1, c.2.2)) as [a [n r]]. cbn [fst snd].
    by destruct (k a (n, r)) as [b [n' r']]. }
  split; [done|]. split; intros c; rewrite <- E; [apply H2|apply H3].
Qed.

(** Only if nothing has panicked. *)
Lemma agrees_unless_panicked (g : proc W unit) m : agrees g (on_rest m) → agrees g (on_rest (unless_panicked m)).
Proof.
  intros (H1 & H2 & H3).
  assert (∀ c, ¬ dead c → on_rest (unless_panicked m) c = on_rest m c) as E.
  { intros c Hc. unfold dead in Hc. unfold unless_panicked, Pipeline.on_rest, zoom. cbn [fst snd].
    destruct (panicked c.2.2); [by exfalso; apply Hc|done]. }
  assert (∀ c, dead c → dead (on_rest (unless_panicked m) c).2) as D.
  { intros c Hc. unfold dead in *. unfold unless_panicked, Pipeline.on_rest, zoom. cbn [fst snd]. by rewrite Hc. }
  split; [done|]. split; [done|]. intros c Hc. destruct (dead_dec c) as [Hd|Hd].
  - exfalso. destruct Hc as [Hc|Hc]; apply Hc; [by apply H1|by apply D].
  - rewrite (E c Hd) in *. by apply H3.
Qed.

Lemma agrees_on_rest_ret {A} (a : A) : agrees (mret a) (on_rest (mret a)).
Proof. apply agrees_intro. by intros [n [c r]]. Qed.

(** Instruments change nothing that is modelled. *)
Lemma agrees_count_l {A} i values (g : proc W A) m : fits i values = true → agrees g m → agrees (call (Count i values);; g) m.
Proof.
  intros Hf (H1 & H2 & H3). split; [apply lasting_run|]. split; [done|]. intros c.
  rewrite run_bind. cbn. rewrite Hf. unfold mbind, M_bind. cbn. apply H3.
Qed.

Lemma agrees_gauge_l {A} i d (g : proc W A) m : agrees g m → agrees (call (Gauge i d);; g) m.
Proof. intros (H1 & H2 & H3). split; [apply lasting_run|]. split; [done|]. intros c. rewrite run_bind. cbn. apply H3. Qed.

Lemma agrees_quiet_r (g g' : proc W unit) m : agrees g m → (∀ c, run g' c = (tt, c)) → agrees (g;; g') m.
Proof.
  intros (H1 & H2 & H3) Hg'. assert (∀ c, run (g;; g') c = run g c) as E.
  { intros c. rewrite run_bind. unfold mbind, M_bind. destruct (run g c) as [[] c']. apply Hg'. }
  split; [apply lasting_run|]. split; [done|]. intros c. rewrite E. apply H3.
Qed.

Lemma run_gauge i d c : run (call (Gauge i d)) c = (tt, c).
Proof. done. Qed.

Lemma run_count i values c : fits i values = true → run (call (Count i values)) c = (tt, c).
Proof. intros Hf. cbn. by rewrite Hf. Qed.
End agree.

(** Take both sides apart step by step. *)
Ltac agree :=
  repeat first
    [ progress intros
    | match goal with |- agrees _ _ _ _ (call ?o) _ => exact (agrees_call _ _ _ _ o) end
    | apply agrees_on_rest_ret
    | apply agrees_ret
    | apply agrees_count_l; [reflexivity|]
    | apply agrees_gauge_l
    | eapply agrees_on_rest_bind
    | eapply agrees_bind
    | progress cbn [negb]
    | by apply agrees_intro; intros [? [? ?]]
    | match goal with |- agrees _ _ _ _ match ?x with _ => _ end _ => destruct x end ].

Section agreement.
Context `{HC : !Clock} {T S W : Type} `{HN : !Num T, HS : !Store.Store S, HW : !Net W}.
Context (FF : spec_float → string) (PF : string → option spec_float).
Context (sort : list verdictEntry → list verdictEntry) (i64 : spec_float → Z) (p : Pipeline W).

Abbreviation agrees := (agrees (T := T) (S := S) FF PF sort p).
Abbreviation on_rest := (on_rest (T := T) (S := S) (W := W)).

Lemma go_evaluate_agrees payload : agrees (go_evaluate payload) (on_rest (evaluate FF PF sort p payload)).
Proof. unfold go_evaluate, evaluate. agree. Qed.

Lemma go_evaluateIncident_agrees rep alerts :
  agrees (go_evaluateIncident rep alerts) (on_rest (evaluateIncident sort p rep alerts)).
Proof. unfold go_evaluateIncident, evaluateIncident. agree. Qed.

Lemma go_maybeSilence_agrees payload analysis :
  agrees (go_maybeSilence payload analysis) (on_rest (maybeSilence p payload analysis)).
Proof. unfold go_maybeSilence, maybeSilence. agree. Qed.

Lemma go_deliver_agrees payload msg : agrees (go_deliver p payload msg) (on_rest (deliver p payload msg)).
Proof.
  unfold go_deliver, deliver. induction (Route _ _) as [|name l IH]; [agree|]. cbn [each for_each].
  apply agrees_on_rest_bind; [|done]. unfold go_send, send_to. by destruct (p_notifiers p !! name) as [nt|]; agree.
Qed.

Lemma go_announce_agrees rep analysis msg :
  agrees (go_announce i64 p rep analysis msg) (on_rest (announce i64 p rep analysis msg)).
Proof.
  unfold go_announce, announce. destruct (AttachEvidence _ _ _ _) as [m|]; [|agree].
  apply agrees_on_rest_bind; [|intros; apply go_deliver_agrees].
  unfold go_attachFeedback, attachFeedback. agree.
Qed.

(** The end of both branches of [processIncident], and of [processSingle]. *)
Lemma go_report_agrees (ev : proc W (option Analysis)) ev' (rest : proc W unit) rep group fmt :
  agrees ev (on_rest ev') → (∀ c, run_proc (T := T) (S := S) FF PF sort p rest c = (tt, c)) →
  agrees (analysis ← ev;
          go_maybeSilence (deref rep) analysis;;
          call (RecordIncident rep analysis group);;
          go_announce i64 p rep analysis (fmt analysis);;
          rest)
    (on_rest (analysis ← ev';
              unless_panicked (
                maybeSilence p (deref rep) analysis;;
                on_storage (history_Record (p_history p) (Some rep) analysis group);;
                announce i64 p rep analysis (fmt analysis)))).
Proof.
  intros Hev Hrest. apply agrees_on_rest_bind; [done|]. intros analysis. apply agrees_unless_panicked.
  apply agrees_on_rest_bind; [apply go_maybeSilence_agrees|]. intros _.
  apply agrees_on_rest_bind; [apply (agrees_call _ _ _ _ (RecordIncident _ _ _))|]. intros _.
  apply agrees_quiet_r; [apply go_announce_agrees|done].
Qed.

Lemma go_processIncident_agrees alerts :
  agrees (go_processIncident i64 p alerts) (on_rest (processIncident FF PF sort i64 p alerts)).
Proof.
  unfold go_processIncident, processIncident. apply agrees_gauge_l, agrees_quiet_r; [|done].
  destruct (Representative alerts) as [rep|]; [|agree]. destruct (length alerts =? 1)%nat.
  - apply go_report_agrees; [apply go_evaluate_agrees|by intros; apply run_count].
  - apply (go_report_agrees _ _ _ rep alerts (FormatIncidentMessage rep alerts));
      [apply go_evaluateIncident_agrees|by intros; apply run_count].
Qed.

Lemma go_processSingle_agrees payload :
  agrees (go_processSingle i64 p payload) (on_rest (processSingle FF PF sort i64 p payload)).
Proof.
  unfold go_processSingle, processSingle. apply agrees_gauge_l.
  apply (go_report_agrees _ _ (call (Gauge PipelineInFlight (-1))) payload [payload] (FormatMessage payload)); [apply go_evaluate_agrees|done].
Qed.

Lemma go_flushKey_agrees key : agrees (go_flushKey i64 p key) (flushKey (λ g, unless_panicked (processIncident FF PF sort i64 p g)) key).
Proof.
  unfold go_flushKey, flushKey. apply agrees_bind; [apply (agrees_call _ _ _ _ (TakeBucket key))|].
  intros [l|]; [apply agrees_unless_panicked, go_processIncident_agrees|agree].
Qed.

(** What is left out of the trees of accesses is nothing: a goroutine that is not
    interrupted does what [Process], a timer's flush and [Drain] do, up to a panic. *)
Theorem go_Process_agrees payload : agrees (go_Process i64 p payload) (Process FF PF sort i64 p payload).
Proof.
  unfold go_Process, Process. apply agrees_count_l; [done|]. destruct (seqb _ _).
  - apply agrees_bind; [apply (agrees_call _ _ _ _ (IsDupResolved payload))|]. intros [|]; [agree|].
    apply go_deliver_agrees.
  - apply agrees_bind; [apply (agrees_call _ _ _ _ (IsDup payload))|]. intros [|]; [agree|].
    apply (agrees_ext _ _ _ _ _ ((s ← get; mret (Correlator.enabled s.1)) ≫= λ on : bool,
      if on then on_correlator (Correlator.Add payload) else on_rest (processSingle FF PF sort i64 p payload))); [done|].
    apply agrees_bind; [apply (agrees_call _ _ _ _ Enabled)|]. intros [|].
    + apply (agrees_call _ _ _ _ (AddTo payload)).
    + apply go_processSingle_agrees.
Qed.

Theorem go_Drain_agrees order : agrees (go_Drain i64 p order) (pipeline_Drain FF PF sort i64 p order).
Proof.
  unfold go_Drain, pipeline_Drain, Drain. apply agrees_bind; [apply (agrees_call _ _ _ _ (StopTimers order))|].
  intros keys. induction keys as [|key keys IH]; [agree|]. cbn [each for_each].
  apply agrees_bind; [apply go_flushKey_agrees|done].
Qed.
End agreement.

(** *** What the accesses of a program look like

    [f] picks what is of interest in an access, [ok] is what is known about the
    answers. *)
Section emits.
Context {W O : Type} (f : action W → list O) (ok : action W → Prop).

Definition emits {A} (g : proc W A) (Q : A → list O → Prop) : Prop :=
  ∀ h a, traces g h a → Forall ok h → Q a (h ≫= f).

Definition quiet {A} (g : proc W A) : Prop := emits g (λ _ l, l = []).

Lemma traces_bind {A B} (g : proc W A) (k : A → proc W B) h b :
  traces (g ≫= k) h b ↔ ∃ h1 h2 a, h = (h1 ++ h2)%list ∧ traces g h1 a ∧ traces (k a) h2 b.
Proof.
  revert h. induction g as [a|B' o k' IH]; intros h; cbn.
  - split.
    + intros H. by exists [], h, a.
    + by intros (h1 & h2 & a' & -> & [-> ->] & H).
  - split.
    + intros (b' & h' & -> & (h1 & h2 & a & -> & H1 & H2)%IH). exists (Action o b' :: h1), h2, a.
      split_and!; [done| |done]. by exists b', h1.
    + intros (h1 & h2 & a & -> & (b' & h' & -> & H1) & H2). exists b', (h' ++ h2)%list.
      split; [done|]. apply IH. by exists h', h2, a.
Qed.

Lemma emits_mono {A} (g : proc W A) (Q Q' : A → list O → Prop) :
  emits g Q → (∀ a l, Q a l → Q' a l) → emits g Q'.
Proof. unfold emits. eauto. Qed.

Lemma emits_ret {A} (a : A) (Q : A → list O → Prop) : Q a [] → emits (mret a) Q.
Proof. by intros H h a' [-> ->] _. Qed.

Lemma emits_call {A} (o : op W A) (Q : A → list O → Prop) :
  (∀ b, ok (Action o b) → Q b (f (Action o b))) → emits (call o) Q.
Proof.
  intros H h a (b & h' & -> & -> & ->) Hok. cbn. rewrite app_nil_r. apply H. by apply Forall_inv in Hok.
Qed.

Lemma emits_bind {A B} (g : proc W A) (k : A → proc W B) (Q : B → list O → Prop) :
  emits g (λ a l1, emits (k a) (λ b l2, Q b (l1 ++ l2)%list)) → emits (g ≫= k) Q.
Proof.
  intros H h b (h1 & h2 & a & -> & H1 & H2)%traces_bind [Hk1 Hk2]%Forall_app. rewrite bind_app. by apply (H h1 a).
Qed.

Lemma quiet_bind {A B} (g : proc W A) (k : A → proc W B) (Q : B → list O → Prop) :
  quiet g → (∀ a, emits (k a) Q) → emits (g ≫= k) Q.
Proof. intros Hg Hk. apply emits_bind. eapply emits_mono; [exact Hg|]. intros a l ->. apply Hk. Qed.

(** A tail that emits nothing. *)
Lemma emits_then_quiet {A B} (g : proc W A) (k : A → proc W B) (Q : list O → Prop) :
  emits g (λ _, Q) → (∀ a, quiet (k a)) → emits (g ≫= k) (λ _, Q).
Proof.
  intros Hg Hk. apply emits_bind. eapply emits_mono; [exact Hg|]. intros a l Hl. eapply emits_mono; [apply Hk|].
  intros b l' ->. by rewrite app_nil_r.
Qed.

Lemma emits_each {X} (l : list X) (body : X → proc W unit) (R : X → list O → Prop) :
  (∀ x, emits (body x) (λ _, R x)) → emits (each l body) (λ _ out, ∃ outs, out = mjoin outs ∧ Forall2 R l outs).
Proof.
  intros Hb. induction l as [|x l IH]; cbn [each].
  - apply emits_ret. by exists [].
  - apply emits_bind. eapply emits_mono; [apply Hb|]. intros ? l1 H1. eapply emits_mono; [exact IH|].
    intros ? l2 (outs & -> & Ho). exists (l1 :: outs). by split; [|constructor].
Qed.

(** Every program can be completed, if every access can be answered. *)
Lemma traces_total {A} (g : proc W A) :
  (∀ B (o : op W B), ∃ b, ok (Action o b)) → ∃ h a, traces g h a ∧ Forall ok h.
Proof.
  intros Ho. induction g as [a|B o k IH].
  - by exists [], a.
  - destruct (Ho B o) as [b Hb]. destruct (IH b) as (h & a & Hh & Hf). exists (Action o b :: h), a.
    split; [by exists b, h|by constructor].
Qed.
End emits.

(** Take a program apart: [q] closes the accesses that emit nothing. *)
Ltac quiet_tac :=
  repeat first
    [ progress intros
    | apply emits_ret
    | apply emits_call
    | apply quiet_bind
    | progress cbn [negb]
    | reflexivity
    | match goal with |- emits _ _ match ?x with _ => _ end _ => destruct x end
    | match goal with |- quiet _ _ _ => unfold quiet end ].

(** What every single access of a program satisfies. *)
Section always.
Context {W : Type} (P : ∀ B, op W B → Prop).

Fixpoint always {A} (g : proc W A) : Prop :=
  match g with
  | Return _ => True
  | Call o k => P _ o ∧ ∀ b, always (k b)
  end.

Lemma always_bind {A B} (g : proc W A) (k : A → proc W B) : always g → (∀ a, always (k a)) → always (g ≫= k).
Proof. intros Hg Hk. induction g as [a|B' o k' IH]; cbn; [apply Hk|]. destruct Hg as [? Hg]. split; [done|]. intros b. apply IH, Hg. Qed.

Lemma always_call {A} (o : op W A) : P _ o → always (call o).
Proof. done. Qed.

Lemma always_each {X} (l : list X) (body : X → proc W unit) : (∀ x, always (body x)) → always (each l body).
Proof. intros Hb. induction l as [|x l IH]; [done|]. by apply always_bind. Qed.
End always.

(** *** Deeds

    What a goroutine does to the alerts: it looks one up in the deduplicator,
    buffers it, takes a group out of the correlator, tells a receiver; or it
    panics. *)
Inductive deed :=
| Deduped (a : ref AlertPayload) (dup : bool)
| Buffered (a : ref AlertPayload)
| Took (key : string) (group : option (list (ref AlertPayload)))
| Told (name : string) (msg : Message)
| Crashed.

(** Whose goroutine it is: the ingest handler started it for an alert, a bucket's
    timer has fired, or [run] drains the pipeline. *)
Inductive owner :=
| Alert (a : ref AlertPayload)
| Timer (key : string)
| Main (order : list string → list string).

Section deeds.
Context {W : Type} (i64 : spec_float → Z) (p : Pipeline W) (on : bool).

Definition body (w : owner) : proc W unit :=
  match w with
  | Alert a => go_Process i64 p a
  | Timer key => go_flushKey i64 p key
  | Main order => go_Drain i64 p order
  end.

Definition deeds (x : action W) : list deed :=
  match x with
  | Action o b =>
      match o in op _ B return B → list deed with
      | IsDup a | IsDupResolved a => λ dup, [Deduped a dup]
      | AddTo a => λ _, [Buffered a]
      | TakeBucket key => λ group, [Took key group]
      | SendTo name _ msg => λ _, [Told name msg]
      | Panics => λ _, [Crashed]
      | _ => λ _, []
      end b
  end.

Definition renders (a : ref AlertPayload) : Prop := Forall renderable (Metrics (deref a)).

(** What is known about the answers: the correlator is switched [on] or off for
    good, and groups come out of it non-empty, with alerts of their key that can be
    rendered. *)
Definition sound (x : action W) : Prop :=
  match x with
  | Action o b =>
      match o in op _ B return B → Prop with
      | Enabled => λ b, b = on
      | TakeBucket key => λ group, ∀ l, group = Some l → l ≠ [] ∧ Forall (λ a, renders a ∧ groupKey a = key) l
      | _ => λ _, True
      end b
  end.

Lemma sound_answer B (o : op W B) : ∃ b, sound (Action o b).
Proof.
  destruct o; try (by eexists (Err (CallFailed "" ""))); try (by exists on); try (by exists true); try (by exists tt);
    try (by exists None); try (by exists []); by exists ("", "").
Qed.

(** What a goroutine may do at all. *)
Definition allowed (w : owner) B (o : op W B) : Prop :=
  match o with
  | IsDup a | IsDupResolved a | AddTo a => w = Alert a
  | TakeBucket _ => ∀ a, w ≠ Alert a
  | StopTimers order => w = Main order
  | SendTo name notifier _ => p_notifiers p !! name = Some notifier
  | Count i values => fits i values = true
  | _ => True
  end.

Abbreviation emits := (emits deeds sound).

(** One message about [a], to each registered receiver it is routed to. *)
Definition delivery (a : ref AlertPayload) (msg : Message) : list (string * Message) :=
  map (λ name, (name, msg)) (receivers_of p (deref a)).

Definition tell : list (string * Message) → list deed := map (λ x, Told x.1 x.2).

(** The whole group is announced in one message. *)
Definition announced (group : list (ref AlertPayload)) (l : list deed) : Prop :=
  ∃ rep msg, Representative group = Some rep ∧ announces msg rep group ∧ l = tell (delivery rep msg).

(** The three ways of a goroutine of the ingest handler, and those of a flush. *)
Definition handles (a : ref AlertPayload) (l : list deed) : Prop :=
  l = [Deduped a true] ∨ (on = true ∧ l = [Deduped a false; Buffered a]) ∨
  ∃ l', l = Deduped a false :: l' ∧ announced [a] l'.

Definition flushes (key : string) (l : list deed) : Prop :=
  l = [Took key None] ∨ ∃ group l', l = Took key (Some group) :: l' ∧ announced group l' ∧
    Forall (λ a, groupKey a = key) group.

(** What the deeds of a goroutine are when it returns. *)
Definition script (w : owner) (l : list deed) : Prop :=
  match w with
  | Alert a => handles a l
  | Timer key => flushes key l
  | Main _ => ∃ keys ls, l = mjoin ls ∧ Forall2 flushes keys ls
  end.

Lemma go_evaluate_quiet payload : quiet deeds sound (go_evaluate payload).
Proof. unfold go_evaluate. quiet_tac. Qed.

Lemma go_evaluateIncident_quiet rep group : quiet deeds sound (go_evaluateIncident rep group).
Proof. unfold go_evaluateIncident. quiet_tac. Qed.

Lemma go_maybeSilence_quiet payload analysis : quiet deeds sound (go_maybeSilence payload analysis).
Proof. unfold go_maybeSilence. quiet_tac. Qed.

Lemma go_send_deeds msg name :
  emits (go_send p msg name) (λ _ l, l = if registered p name then [Told name msg] else []).
Proof.
  unfold go_send, registered. destruct (p_notifiers p !! name) as [nt|]; [|by apply emits_ret].
  apply emits_bind, emits_call. intros b _. by apply emits_call.
Qed.

Lemma go_deliver_deeds a msg : emits (go_deliver p (deref a) msg) (λ _ l, l = tell (delivery a msg)).
Proof.
  unfold go_deliver, delivery, receivers_of. induction (Route _ _) as [|name l IH]; [by apply emits_ret|].
  cbn [each List.filter]. apply emits_bind. eapply emits_mono; [apply go_send_deeds|]. intros ? l1 ->.
  eapply emits_mono; [exact IH|]. intros ? l2 ->. by destruct (registered p name).
Qed.

Lemma go_announce_deeds rep group analysis msg :
  renders rep → announces msg rep group →
  emits (go_announce i64 p rep analysis msg) (λ _ l, ∃ msg', announces msg' rep group ∧ l = tell (delivery rep msg')).
Proof.
  intros Hr Ha. unfold go_announce.
  destruct (AttachEvidence_total i64 msg (deref rep) (p_evidence p) Hr) as (msg1 & -> & E). injection E as E1 E2 _ E3 _ _.
  assert (announces msg1 rep group) as Ha1 by (unfold announces in *; by rewrite E1, E3).
  apply emits_bind. eapply (emits_mono _ _ _ (λ m l, announces m rep group ∧ l = [])).
  - unfold go_attachFeedback. destruct analysis as [a|]; [|by apply emits_ret].
    apply quiet_bind; [by apply emits_call|]. intros [up down]. by apply emits_ret.
  - intros msg2 l [H2 ->]. eapply emits_mono; [apply go_deliver_deeds|]. intros ? l ->. by exists msg2.
Qed.

(** The end of both branches of [processIncident], and of [processSingle]. *)
Lemma go_report_deeds (ev : proc W (option Analysis)) (rest : option Analysis → proc W unit) rep group fmt :
  quiet deeds sound ev → (∀ a, quiet deeds sound (rest a)) → Representative group = Some rep → renders rep →
  (∀ a, announces (fmt a) rep group) →
  emits (analysis ← ev;
         go_maybeSilence (deref rep) analysis;;
         call (RecordIncident rep analysis group);;
         go_announce i64 p rep analysis (fmt analysis);;
         rest analysis) (λ _, announced group).
Proof.
  intros Hev Hrest Hrep Hr Hf. apply quiet_bind; [done|]. intros an.
  apply quiet_bind; [apply go_maybeSilence_quiet|]. intros _. apply quiet_bind; [by apply emits_call|]. intros _.
  apply emits_then_quiet; [|done]. eapply emits_mono; [by apply (go_announce_deeds rep group)|].
  intros ? l (msg & Ha & ->). by exists rep, msg.
Qed.

Lemma go_processIncident_deeds group :
  group ≠ [] → Forall renders group → emits (go_processIncident i64 p group) (λ _, announced group).
Proof.
  intros Hne Hr. destruct (Representative group) as [rep|] eqn:Hrep; [|by destruct group].
  rewrite Forall_forall in Hr. specialize (Hr rep (Representative_elem _ _ Hrep)).
  unfold go_processIncident. rewrite Hrep. apply quiet_bind; [by apply emits_call|]. intros _.
  apply emits_then_quiet; [|intros; by apply emits_call]. destruct (length group =? 1)%nat eqn:El.
  - apply go_report_deeds; [apply go_evaluate_quiet|intros; by apply emits_call|done..|].
    intros a. unfold announces. by rewrite El.
  - apply (go_report_deeds _ _ rep group (FormatIncidentMessage rep group));
      [apply go_evaluateIncident_quiet|intros; by apply emits_call|done..|].
    intros a. unfold announces. by rewrite El.
Qed.

Lemma go_processSingle_deeds a : renders a → emits (go_processSingle i64 p a) (λ _, announced [a]).
Proof.
  intros Hr. unfold go_processSingle. apply quiet_bind; [by apply emits_call|]. intros _.
  apply (go_report_deeds _ (λ _, call (Gauge PipelineInFlight (-1))) a [a] (FormatMessage a));
    [apply go_evaluate_quiet|intros; by apply emits_call|done..].
Qed.

Lemma go_Process_deeds a : renders a → emits (go_Process i64 p a) (λ _, handles a).
Proof.
  intros Hr. unfold go_Process. apply quiet_bind; [by apply emits_call|]. intros _. destruct (seqb _ _).
  - apply emits_bind, emits_call. intros [|] _; [apply emits_ret; by left|].
    eapply emits_mono; [apply go_deliver_deeds|]. intros ? l ->. right. right. exists (tell (delivery a (FormatMessage a None))).
    split; [done|]. by exists a, (FormatMessage a None).
  - apply emits_bind, emits_call. intros [|] _; [apply emits_ret; by left|].
    apply emits_bind, emits_call. intros [|] Hon.
    + apply emits_call. intros [] _. right. by left.
    + eapply emits_mono; [by apply go_processSingle_deeds|]. intros ? l Hl. right. right. by exists l.
Qed.

Lemma go_flushKey_deeds key : emits (go_flushKey i64 p key) (λ _, flushes key).
Proof.
  unfold go_flushKey. apply emits_bind, emits_call. intros [group|] Hok; [|apply emits_ret; by left].
  destruct (Hok group eq_refl) as [Hne Hg]. eapply emits_mono.
  - apply go_processIncident_deeds; [done|]. by eapply Forall_impl; [exact Hg|]; intros ? [].
  - intros ? l Hl. right. exists group, l. split; [done|]. split; [done|]. by eapply Forall_impl; [exact Hg|]; intros ? [].
Qed.

(** The drain flushes one key after the other. *)
Lemma go_Drain_deeds order :
  emits (go_Drain i64 p order) (λ _ l, ∃ keys ls, l = mjoin ls ∧ Forall2 flushes keys ls).
Proof.
  unfold go_Drain. apply quiet_bind; [by apply emits_call|]. intros keys.
  eapply emits_mono; [apply emits_each; intros key; apply go_flushKey_deeds|]. intros ? l (ls & -> & Hl). by exists keys, ls.
Qed.

(** The contract of a goroutine: what it does, whatever happens between its
    accesses. *)
Theorem body_script (w : owner) : (∀ a, w = Alert a → renders a) → emits (body w) (λ _, script w).
Proof.
  intros Hr. destruct w as [a|key|order]; cbn [body script].
  - by apply go_Process_deeds, Hr.
  - apply go_flushKey_deeds.
  - apply go_Drain_deeds.
Qed.

Ltac always_tac :=
  repeat first
    [ progress intros
    | match goal with |- always _ (_ ≫= _) => apply always_bind end
    | match goal with |- always _ (each _ _) => apply always_each end
    | match goal with |- always _ (call _) => apply always_call end
    | progress cbn [negb allowed]
    | reflexivity
    | congruence
    | done
    | match goal with |- always _ match ?x with _ => _ end => destruct x eqn:? end ].

Lemma go_deliver_allowed w a msg : always (allowed w) (go_deliver p a msg).
Proof. unfold go_deliver, go_send. always_tac. Qed.

Lemma go_announce_allowed w rep analysis msg : always (allowed w) (go_announce i64 p rep analysis msg).
Proof. unfold go_announce, go_attachFeedback. always_tac. all: apply go_deliver_allowed. Qed.

Lemma go_evaluate_allowed w a : always (allowed w) (go_evaluate a).
Proof. unfold go_evaluate. always_tac. Qed.

Lemma go_maybeSilence_allowed w a analysis : always (allowed w) (go_maybeSilence a analysis).
Proof. unfold go_maybeSilence. always_tac. Qed.

Lemma go_processIncident_allowed w group : always (allowed w) (go_processIncident i64 p group).
Proof.
  unfold go_processIncident, go_evaluateIncident. always_tac;
    apply go_evaluate_allowed || apply go_maybeSilence_allowed || apply go_announce_allowed.
Qed.

Lemma body_allowed w : always (allowed w) (body w).
Proof.
  destruct w as [a|key|order]; cbn [body].
  - unfold go_Process, go_processSingle, go_processResolved. always_tac;
      apply go_evaluate_allowed || apply go_maybeSilence_allowed || apply go_announce_allowed || apply go_deliver_allowed.
  - unfold go_flushKey. always_tac. apply go_processIncident_allowed.
  - unfold go_Drain, go_flushKey. always_tac. apply go_processIncident_allowed.
Qed.
End deeds.

(** *** Alerts and messages in the deeds of a goroutine *)

Definition dups_of (l : list deed) : list (ref AlertPayload) :=
  l ≫= λ d, match d with Deduped a true => [a] | _ => [] end.
Definition added_of (l : list deed) : list (ref AlertPayload) :=
  l ≫= λ d, match d with Buffered a => [a] | _ => [] end.
Definition taken_of (l : list deed) : list (ref AlertPayload) :=
  l ≫= λ d, match d with Took _ (Some group) => group | _ => [] end.
Definition told_of (l : list deed) : list (string * Message) :=
  l ≫= λ d, match d with Told name msg => [(name, msg)] | _ => [] end.

Lemma dups_of_app l l' : dups_of (l ++ l') = (dups_of l ++ dups_of l')%list.
Proof. apply bind_app. Qed.
Lemma added_of_app l l' : added_of (l ++ l') = (added_of l ++ added_of l')%list.
Proof. apply bind_app. Qed.
Lemma taken_of_app l l' : taken_of (l ++ l') = (taken_of l ++ taken_of l')%list.
Proof. apply bind_app. Qed.
Lemma told_of_app l l' : told_of (l ++ l') = (told_of l ++ told_of l')%list.
Proof. apply bind_app. Qed.

(** The alerts a goroutine is given when it starts. *)
Definition own (w : owner) : list (ref AlertPayload) := match w with Alert a => [a] | _ => [] end.

(** The alerts a message is about. *)
Definition about (msg : Message) : list (ref AlertPayload) :=
  match Msg_Incident msg with Some i => Incident_Alerts i | None => [Payload msg] end.

(** What a goroutine has in its hands: the alerts it has neither dropped, buffered
    nor finished announcing, and the messages about them it has sent so far. *)
Definition hold (s : list (ref AlertPayload) * list (string * Message)) (d : deed) :
    list (ref AlertPayload) * list (string * Message) :=
  match d with
  | Deduped _ true | Buffered _ => ([], [])
  | Took _ group => (default [] group, [])
  | Told name msg => (s.1, s.2 ++ [(name, msg)])%list
  | _ => s
  end.

Definition holds (w : owner) (l : list deed) : list (ref AlertPayload) * list (string * Message) :=
  foldl hold (own w, []) l.

Section flow.
Context {W : Type} (p : Pipeline W) (on : bool).

(** Every message to the receivers it is routed to. *)
Definition deliveries (msg : Message) : list (string * Message) := delivery p (Payload msg) msg.

(** The message is about a group of one key, centred on its representative. *)
Definition well_formed (msg : Message) : Prop :=
  ∃ rep, Representative (about msg) = Some rep ∧ announces msg rep (about msg) ∧
    Forall (λ a, groupKey a = groupKey rep) (about msg).

(** The deeds [l] of a goroutine of [w] announce [msgs], and have gone through
    [held] and [part] of the next one. *)
Record flow (w : owner) (l : list deed) (msgs : list Message) (held : list (ref AlertPayload))
    (part : list (string * Message)) : Prop := {
  fl_told : told_of l = ((msgs ≫= deliveries) ++ part)%list;
  fl_alerts : (own w ++ taken_of l ≡ₚ dups_of l ++ added_of l ++ (msgs ≫= about) ++ held)%list;
  fl_wf : Forall well_formed msgs;
  fl_part : part = [] ∨ ∃ msg rest, (part ++ rest)%list = deliveries msg ∧ about msg = held ∧ well_formed msg;
}.

Lemma told_of_tell l : told_of (tell l) = l.
Proof. induction l as [|[name msg] l IH]; [done|]. cbn. by rewrite <- IH at 2. Qed.

Lemma none_of_tell l : dups_of (tell l) = [] ∧ added_of (tell l) = [] ∧ taken_of (tell l) = [].
Proof. by induction l. Qed.

Lemma tell_app_inv l1 l2 l : tell l = (l1 ++ l2)%list → ∃ m1 m2, l = (m1 ++ m2)%list ∧ l1 = tell m1 ∧ l2 = tell m2.
Proof. intros (m1 & m2 & -> & <- & <-)%map_eq_app. by exists m1, m2. Qed.

Lemma holds_tell s l : foldl hold s (tell l) = (s.1, s.2 ++ l)%list.
Proof.
  revert s. induction l as [|[name msg] l IH]; intros [h t]; cbn; [by rewrite app_nil_r|].
  rewrite IH. cbn. by rewrite <- app_assoc.
Qed.

Lemma announces_about msg rep group : Representative group = Some rep → announces msg rep group → about msg = group.
Proof.
  intros Hrep [Hp Hi]. unfold about. rewrite Hi. destruct (length group =? 1)%nat eqn:E; [|done].
  destruct group as [|x [|? ?]]; try done. injection Hrep as ->. by rewrite Hp.
Qed.

(** An announcement, as messages. *)
Lemma announced_message group l key : announced p group l → Forall (λ a, groupKey a = key) group →
  ∃ msg, l = tell (deliveries msg) ∧ about msg = group ∧ well_formed msg.
Proof.
  intros (rep & msg & Hrep & Ha & ->) Hk. exists msg. pose proof (announces_about _ _ _ Hrep Ha) as Hab.
  split; [|split; [done|]].
  - unfold deliveries. by rewrite (proj1 Ha).
  - exists rep. rewrite Hab. split; [done|]. split; [done|]. rewrite Forall_forall in Hk |- *.
    intros a Hin. rewrite (Hk a Hin). symmetry. apply Hk. by apply Representative_elem.
Qed.

(** One flush, up to some point after its start. *)
Lemma flushes_prefix key l r : flushes p key (l ++ r)%list → l ≠ [] →
  ∃ group part, l = Took key group :: tell part ∧
    match group with
    | None => part = [] ∧ r = []
    | Some g => ∃ msg rest, r = tell rest ∧ (part ++ rest)%list = deliveries msg ∧ about msg = g ∧ well_formed msg
    end.
Proof.
  intros [Hl|(g & l' & Hl & Ha & Hk)] Hne; destruct l as [|d l]; try done; injection Hl as -> Hl.
  - apply app_eq_nil in Hl as [-> ->]. by exists None, [].
  - destruct (announced_message _ _ _ Ha Hk) as (msg & -> & Hab & Hwf).
    destruct (tell_app_inv _ _ _ (eq_sym Hl)) as (part & rest & Hd & -> & ->).
    exists (Some g), part. split; [done|]. by exists msg, rest.
Qed.

(** Completed flushes. *)
Lemma flushes_flow keys ls : Forall2 (flushes p) keys ls → ∃ msgs,
  told_of (mjoin ls) = msgs ≫= deliveries ∧ taken_of (mjoin ls) = msgs ≫= about ∧
  dups_of (mjoin ls) = [] ∧ added_of (mjoin ls) = [] ∧ Forall well_formed msgs.
Proof.
  induction 1 as [|key l keys ls Hl _ (msgs & H1 & H2 & H3 & H4 & H5)]; [by exists []|].
  change (mjoin (l :: ls)) with (l ++ mjoin ls)%list. unfold told_of, taken_of, dups_of, added_of in *. rewrite !bind_app, H1, H2, H3, H4.
  destruct Hl as [->|(g & l' & -> & Ha & Hk)]; [by exists msgs|].
  destruct (announced_message _ _ _ Ha Hk) as (msg & -> & Hab & Hwf). exists (msg :: msgs).
  destruct (none_of_tell (deliveries msg)) as (E1 & E2 & E3). cbn. unfold told_of, taken_of, dups_of, added_of in *.
  rewrite E1, E2, E3, app_nil_r, Hab. split_and!; [|done..|by constructor].
  f_equal. apply told_of_tell.
Qed.

(** A non-empty prefix of a concatenation ends within one of its parts. *)
Lemma join_prefix {A} (ls : list (list A)) l r : mjoin ls = (l ++ r)%list → l ≠ [] →
  ∃ ls1 ls2 l1 r1, ls = (ls1 ++ (l1 ++ r1) :: ls2)%list ∧ l1 ≠ [] ∧ l = (mjoin ls1 ++ l1)%list.
Proof.
  revert l. induction ls as [|x ls IH]; intros l H Hne.
  { cbn in H. by destruct l. }
  change (mjoin (x :: ls)) with (x ++ mjoin ls)%list in H.
  apply app_eq_app in H as (k & [[-> Hk]|[-> Hk]]).
  - by exists [], ls, l, k.
  - destruct k as [|y k].
    + exists [], ls, x, []. rewrite !app_nil_r in *. by split_and!.
    + destruct (IH (y :: k) Hk ltac:(done)) as (ls1 & ls2 & l1 & r1 & -> & Hl1 & E).
      exists (x :: ls1), ls2, l1, r1. split_and!; [done..|]. rewrite E.
      change (mjoin (x :: ls1)) with (x ++ mjoin ls1)%list. by rewrite app_assoc.
Qed.

Lemma flow_start w : flow w [] [] (own w) [].
Proof. split; [done|..]; [|by constructor|by left]. by destruct w. Qed.

(** A run of flushes that has come to some point of the last one. *)
Lemma flushes_flow_prefix w s keys ls key group part r :
  own w = [] → Forall2 (flushes p) keys ls → flushes p key ((Took key group :: tell part) ++ r)%list →
  ∃ msgs, flow w (mjoin ls ++ Took key group :: tell part) msgs (default [] group) part ∧
    foldl hold s (mjoin ls ++ Took key group :: tell part)%list = (default [] group, part).
Proof.
  intros Hw Hls Hf. destruct (flushes_flow _ _ Hls) as (msgs & H1 & H2 & H3 & H4 & H5).
  apply flushes_prefix in Hf as (g & pt & [= <- Hpt] & Hg); [|done].
  apply (f_equal told_of) in Hpt. rewrite !told_of_tell in Hpt. subst pt. destruct (none_of_tell part) as (E1 & E2 & E3).
  exists msgs. split.
  - unfold told_of, taken_of, dups_of, added_of in *. split;
      unfold told_of, taken_of, dups_of, added_of; rewrite ?Hw, ?bind_app, ?bind_cons, ?H1, ?H2, ?H3, ?H4, ?E1, ?E2, ?E3; cbn.
    + f_equal. apply told_of_tell.
    + destruct group; cbn; by rewrite ?app_nil_r.
    + done.
    + destruct group as [g|]; cbn; [|by left; destruct Hg]. destruct Hg as (msg & rest & -> & E & Hab & Hwf). right.
      by exists msg, rest.
  - rewrite foldl_app. cbn. rewrite holds_tell. by destruct group.
Qed.

(** What a goroutine has done at any time, and when it returns. *)
Lemma script_prefix w l r : script p on w (l ++ r)%list → ∃ msgs, flow w l msgs (holds w l).1 (holds w l).2.
Proof.
  intros Hs. destruct (decide (l = [])) as [->|Hne]; [exists []; apply flow_start|]. unfold holds.
  destruct w as [a|key|order]; cbn [script] in Hs.
  - destruct l as [|d l]; [done|]. destruct Hs as [Hs|[[_ Hs]|(l' & Hs & Ha)]]; injection Hs as -> Hs.
    + apply app_eq_nil in Hs as [-> ->]. exists []. split; try done; try (by constructor); by left.
    + destruct l as [|d l]; [exists []; split; try done; try (by constructor); by left|]. injection Hs as -> Hs.
      apply app_eq_nil in Hs as [-> ->]. exists []. split; try done; try (by constructor); by left.
    + destruct (announced_message [a] l' (groupKey a) Ha) as (msg & -> & Hab & Hwf); [by constructor|].
      destruct (tell_app_inv _ _ _ (eq_sym Hs)) as (part & rest & E & -> & ->). exists [].
      cbn [foldl hold]. rewrite holds_tell. cbn. destruct (none_of_tell part) as (E1 & E2 & E3). split.
      * cbn. apply told_of_tell.
      * cbn. fold (taken_of (tell part)) (dups_of (tell part)) (added_of (tell part)). by rewrite E1, E2, E3.
      * by constructor.
      * right. by exists msg, rest.
  - destruct (flushes_prefix key l r Hs Hne) as (group & part & -> & _).
    destruct (flushes_flow_prefix (Timer key) ([], []) [] [] key group part r) as (msgs & Hf & E); [done|constructor|done|].
    exists msgs. cbn [mjoin list_join app] in Hf, E. cbn [own]. by rewrite E.
  - destruct Hs as (keys & ls & E & Hls). symmetry in E; apply join_prefix in E as (ls1 & ls2 & l1 & r1 & -> & Hl1 & ->); [|done].
    apply Forall2_app_inv_r in Hls as (k1 & k2 & H1 & H2 & ->). apply Forall2_cons_inv_r in H2 as (key & k3 & Hf & _ & ->).
    destruct (flushes_prefix key l1 r1 Hf Hl1) as (group & part & -> & _).
    destruct (flushes_flow_prefix (Main order) ([], []) k1 ls1 key group part r1) as (msgs & Hfl & E); [done..|].
    exists msgs. cbn [own]. by rewrite E.
Qed.

Lemma script_closed w l : script p on w l → ∃ msgs, flow w l msgs [] [].
Proof.
  destruct w as [a|key|order]; cbn [script].
  - intros [->|[[_ ->]|(l' & -> & Ha)]].
    + exists []. split; try done; try (by constructor); by left.
    + exists []. split; try done; try (by constructor); by left.
    + destruct (announced_message [a] l' (groupKey a) Ha) as (msg & -> & Hab & Hwf); [by constructor|].
      destruct (none_of_tell (deliveries msg)) as (E1 & E2 & E3). exists [msg]. split.
      * cbn. rewrite !app_nil_r. apply told_of_tell.
      * cbn. fold (taken_of (tell (deliveries msg))) (dups_of (tell (deliveries msg))) (added_of (tell (deliveries msg))).
        by rewrite E1, E2, E3, Hab.
      * by constructor.
      * by left.
  - intros Hf. destruct (flushes_flow [key] [l]) as (msgs & H1 & H2 & H3 & H4 & H5); [by constructor|].
    exists msgs. change (mjoin [l]) with (l ++ [])%list in *. rewrite app_nil_r in *. split; rewrite ?H1, ?H2, ?H3, ?H4; cbn; rewrite ?app_nil_r;
      try done; try by left.
  - intros (keys & ls & -> & Hls). destruct (flushes_flow keys ls Hls) as (msgs & H1 & H2 & H3 & H4 & H5).
    exists msgs. split; rewrite ?H1, ?H2, ?H3, ?H4; cbn; rewrite ?app_nil_r; try done; try by left.
Qed.
End flow.
