(* ===== verification/Service.v ===== *)
(** * The running brain

    [cmd/muthur/main.go]: the two transports, the public listener, the goroutines
    of the ingest handler, the timers of the correlator, the reloading of the
    tenants and the shutdown, as steps over one state. Goroutines interleave at the
    accesses of [Goroutines]; a call of a transport is one step. *)
From S2P Require Import Prelude GoStrings GoEncoding Sha256 Proto Identity Store Dedup Tenants Signer Routing Limiter Correlator.
From S2P Require Import Analysis Providers Evaluator Feedback Notify SilenceClient HttpSig Sealed Trust Ingest GrpcSrv SignedSrv Pipeline.
From S2P Require Import Goroutines.
From Stdlib Require Import Ascii SpecFloat.

Open Scope Z_scope.

(** ** State *)

(** A goroutine: whose it is, what it has done, and what it has left to do. *)
Record goroutine (W : Type) := MkGoroutine {
  g_owner : owner;
  g_done : list (action W);
  g_rest : proc W unit;
}.
Arguments MkGoroutine {W}. Arguments g_owner {W}. Arguments g_done {W}. Arguments g_rest {W}.

(** How far [run] has come: it waits for a signal; it drains the pipeline; it waits
    for the handler's goroutines; the process has ended, with "drained cleanly" or
    with "drain timed out"; or it has ended because a listener failed. [expired]:
    the 30 seconds for the shutdown were over before the drain, so that calls may
    still be under way. *)
Inductive phase :=
| Serving
| Draining (expired : bool)
| Waiting (expired : bool)
| Exited (clean : bool)
| Failed.

(** The store is shared by the servers and the pipeline. [pg_over] keeps what the
    goroutines that returned have done. *)
Record program (T S W : Type) := MkProgram {
  pg_phase : phase;
  pg_tenants : TenantsReloader;
  pg_ingest : Handler;
  pg_live : list (goroutine W);
  pg_over : list (owner * list (action W));
  pg_core : Correlator.Correlator * Rest T S W;
}.
Arguments MkProgram {T S W}. Arguments pg_phase {T S W}. Arguments pg_tenants {T S W}. Arguments pg_ingest {T S W}.
Arguments pg_live {T S W}. Arguments pg_over {T S W}. Arguments pg_core {T S W}.

Definition set_storage {T S W} (s : S) (r : Rest T S W) : Rest T S W := MkRest (limiter r) s (outside r) (panicked r).

Section setters.
Context {T S W : Type}.
Implicit Types g : program T S W.

Definition set_phase (x : phase) g := MkProgram x (pg_tenants g) (pg_ingest g) (pg_live g) (pg_over g) (pg_core g).
Definition set_tenants (x : TenantsReloader) g := MkProgram (pg_phase g) x (pg_ingest g) (pg_live g) (pg_over g) (pg_core g).
Definition set_live (x : list (goroutine W)) g := MkProgram (pg_phase g) (pg_tenants g) (pg_ingest g) x (pg_over g) (pg_core g).
Definition set_core (x : Correlator.Correlator * Rest T S W) g :=
  MkProgram (pg_phase g) (pg_tenants g) (pg_ingest g) (pg_live g) (pg_over g) x.

(** A call of a server on its part of the state. *)
Definition on_brain {A} : M (Brain S) A → M (program T S W) A :=
  zoom (λ g, MkBrain (storage (pg_core g).2) (pg_tenants g) (pg_ingest g))
    (λ b g, MkProgram (pg_phase g) (br_tenants b) (br_ingest b) (pg_live g) (pg_over g)
              ((pg_core g).1, set_storage (br_store b) (pg_core g).2)).

(** Calls reach the servers until the listeners are closed, or longer when the
    shutdown's deadline passed before they were. *)
Definition accepting (x : phase) : bool :=
  match x with Serving => true | Draining e | Waiting e => e | Exited _ | Failed => false end.

(** The process is there: it has not exited, and no goroutine has panicked. *)
Definition alive g : bool :=
  match pg_phase g with Exited _ | Failed => false | _ => true end && negb (panicked (pg_core g).2).
End setters.

(** ** The public listener *)

Inductive public_reply :=
| PublicFeedback (status : Z) (body : string)
| PublicMetrics
| PublicOK
| PublicMethodNotAllowed
| PublicNotFound.

(** The routes of [publicRouter]; the metrics page is rendered by the client
    library. *)
Definition serve_public `{!Clock} {S} `{!Store.Store S} (m : Manager) (method path id verdict : string) : M S public_reply :=
  if seqb path "/feedback" then
    if seqb method "GET" then '(status, body) ← feedback_ServeHTTP m id verdict; mret (PublicFeedback status body)
    else mret PublicMethodNotAllowed
  else if seqb path "/metrics" then mret PublicMetrics
  else if seqb path "/healthz" then if seqb method "GET" then mret PublicOK else mret PublicMethodNotAllowed
  else mret PublicNotFound.

(** What is recorded of a step: the alerts a call handed over, and the tenants then
    in force; a visit to the public listener, with its method, its path, the
    identifier and the verdict of its query, and the reply; an access of a goroutine; a reload with what it read; that something else
    than this process changed the store. *)
Inductive event (W : Type) :=
| Called (t : TenantsReloader) (accepted : list (ref AlertPayload))
| Visited (method path id verdict : string) (r : public_reply)
| Did (w : owner) (x : action W)
| Reloaded (stat : option Time) (read : option string)
| Elsewhere
| Other.
Arguments Called {W}. Arguments Visited {W}. Arguments Did {W}. Arguments Reloaded {W}. Arguments Elsewhere {W}. Arguments Other {W}.

(** ** Steps *)

Section service.
Context `{HC : !Clock, HL : !CertLib} {T S W : Type} `{HN : !Num T, HS : !Store.Store S, HW : !Net W}.
Context {PK ESK SK HPK K CK CA : Type}.
Context `{HE : !Ecdsa PK ESK, HX : !X509 PK, HH : !Hpke SK HPK K, HG : !Gcm, HP : !PayloadLib CK CA, HWi : !Wire}.
Context (FF : spec_float → string) (PF : string → option spec_float).
Context (sort : list verdictEntry → list verdictEntry) (i64 : spec_float → Z) (IsPrint : Z → bool).
Context (yaml_tenants : string → option (list Tenant)).
Context (p : Pipeline W) (sv : option Server) (d : option (Deps SK CK)).

(** The [go] statements. *)
Definition spawn (w : owner) : goroutine W := MkGoroutine w [] (body i64 p w).

Definition start_alerts (new : list (ref AlertPayload)) (g : program T S W) : program T S W :=
  set_live (pg_live g ++ map (λ a, spawn (Alert a)) new)%list g.

(** The steps of a brain that is alive, and the readings of its clock: a call over
    one of the transports that are mounted ([sv], the gRPC server, and [d], the
    signed one), which starts goroutines for the alerts it accepts; a
    visit to the public listener; an access of a goroutine; the return of a
    goroutine; a timer of the correlator that has gone off; the signal to stop, the
    end of the drain, the two ends of [run] and the failure of a listener; a reload
    of the tenants; whatever other replicas and the janitor do to the store. *)
Inductive step : event W → nat * program T S W → nat * program T S W → Prop :=
| s_grpc srv serial req ctx r n g n' g' new :
    alive g = true → accepting (pg_phase g) = true → sv = Some srv →
    on_brain (serve srv serial req ctx) (n, g) = (r, (n', g')) →
    inflight (pg_ingest g') = (inflight (pg_ingest g) ++ new)%list →
    step (Called (pg_tenants g) new) (n, g) (n', start_alerts new g')
| s_http deps dr rq r n g n' g' new :
    alive g = true → accepting (pg_phase g) = true → d = Some deps →
    on_brain (serve_http IsPrint deps dr rq) (n, g) = (r, (n', g')) →
    inflight (pg_ingest g') = (inflight (pg_ingest g) ++ new)%list →
    step (Called (pg_tenants g) new) (n, g) (n', start_alerts new g')
| s_public method path id verdict r n g n' s' :
    alive g = true → accepting (pg_phase g) = true →
    serve_public (p_feedback p) method path id verdict (n, storage (pg_core g).2) = (r, (n', s')) →
    step (Visited method path id verdict r) (n, g) (n', set_core ((pg_core g).1, set_storage s' (pg_core g).2) g)
| s_access i w done B (o : op W B) k b n g n' c' :
    alive g = true → pg_live g !! i = Some (MkGoroutine w done (Call o k)) →
    exec FF PF sort p o (n, pg_core g) = (b, (n', c')) →
    step (Did w (Action o b)) (n, g)
      (n', set_core c' (set_live (<[i := MkGoroutine w (done ++ [Action o b])%list (k b)]> (pg_live g)) g))
| s_return_alert i j a done n x t h live over c :
    alive (MkProgram x t h live over c) = true →
    live !! i = Some (MkGoroutine (Alert a) done (Return tt)) → inflight h !! j = Some a →
    step Other (n, MkProgram x t h live over c)
      (n, MkProgram x t (MkHandler (delete j (inflight h))) (delete i live) (over ++ [(Alert a, done)])%list c)
| s_return_timer i key done n x t h live over c :
    alive (MkProgram x t h live over c) = true →
    live !! i = Some (MkGoroutine (Timer key) done (Return tt)) →
    step Other (n, MkProgram x t h live over c)
      (n, MkProgram x t h (delete i live) (over ++ [(Timer key, done)])%list c)
| s_timer id key when n g :
    alive g = true → Correlator.timers (pg_core g).1 !! id = Some (key, when) → when <= clk n →
    step Other (n, g)
      (n, set_core (Correlator.set_timers (delete id (Correlator.timers (pg_core g).1)) (pg_core g).1, (pg_core g).2)
            (set_live (pg_live g ++ [spawn (Timer key)])%list g))
| s_signal expired order n g :
    alive g = true → pg_phase g = Serving → (∀ l, order l ≡ₚ l) →
    step Other (n, g) (n, set_phase (Draining expired) (set_live (pg_live g ++ [spawn (Main order)])%list g))
| s_drained i order done e n t h live over c :
    alive (MkProgram (Draining e) t h live over c) = true →
    live !! i = Some (MkGoroutine (Main order) done (Return tt)) →
    step Other (n, MkProgram (Draining e) t h live over c)
      (n, MkProgram (Waiting e) t h (delete i live) (over ++ [(Main order, done)])%list c)
| s_exit e n g :
    alive g = true → pg_phase g = Waiting e → Wait (pg_ingest g) = true →
    step Other (n, g) (n, set_phase (Exited true) g)
| s_timeout e n g :
    alive g = true → pg_phase g = Waiting e → step Other (n, g) (n, set_phase (Exited false) g)
| s_serve_error n g :
    alive g = true → pg_phase g = Serving → step Other (n, g) (n, set_phase Failed g)
| s_reload stat read n g :
    alive g = true →
    step (Reloaded stat read) (n, g) (n, set_tenants (reload yaml_tenants (pg_tenants g) stat read).2 g)
| s_store s n n' g :
    (n ≤ n')%nat → step Elsewhere (n, g) (n', set_core ((pg_core g).1, set_storage s (pg_core g).2) g)
| s_time n n' g : (n ≤ n')%nat → step Other (n, g) (n', g).

Inductive steps : list (event W) → nat * program T S W → nat * program T S W → Prop :=
| sr_nil s : steps [] s s
| sr_snoc es e s s' s'' : steps es s s' → step e s' s'' → steps (es ++ [e])%list s s''.
End service.

(** The goroutine's question made the analyzer panic. *)
Definition analyzer_panicked {W} (e : event W) : Prop := ∃ w x, e = Did w x ∧ unanswered x = true.

(** The alerts the calls of a run handed over. *)
Definition accepted {W} (es : list (event W)) : list (ref AlertPayload) :=
  es ≫= λ e, match e with Called _ new => new | _ => [] end.

(** The alert was accepted in a call, under a tenant active at the time. *)
Definition vouched {W} (es : list (event W)) (a : ref AlertPayload) : Prop :=
  ∃ t new, Called t new ∈ es ∧ a ∈ new ∧ active t (ClusterId (deref a)).

(** The records of all goroutines, those that run and those that returned. *)
Definition record {W} (x : goroutine W) : owner * list (action W) := (g_owner x, g_done x).
Definition records {T S W} (g : program T S W) : list (owner * list (action W)) :=
  (map record (pg_live g) ++ pg_over g)%list.

(** What a goroutine that runs has in its hands. *)
Definition in_hand {W} (x : goroutine W) : list (ref AlertPayload) := (holds (g_owner x) (g_done x ≫= deeds)).1.
Definition half_sent {W} (x : goroutine W) : list (string * Message) := (holds (g_owner x) (g_done x ≫= deeds)).2.

(** ** Lemmas *)

Lemma accepted_app {W} (es es' : list (event W)) : accepted (es ++ es') = (accepted es ++ accepted es')%list.
Proof. apply bind_app. Qed.

Lemma analyzer_panicked_snoc {W} (es : list (event W)) e :
  Exists analyzer_panicked (es ++ [e]) ↔ Exists analyzer_panicked es ∨ analyzer_panicked e.
Proof. rewrite Exists_app, Exists_cons, Exists_nil. tauto. Qed.

Lemma analyzer_panicked_did {W} w (x : action W) : analyzer_panicked (Did w x) ↔ unanswered x = true.
Proof. split; [by intros (? & ? & [= <- <-] & ?)|by eexists _, _]. Qed.

(** An event that is not an access of a goroutine. *)
Lemma analyzer_quiet_snoc {W} (es : list (event W)) e :
  match e with Did _ _ => False | _ => True end → Exists analyzer_panicked (es ++ [e]) ↔ Exists analyzer_panicked es.
Proof. intros He. rewrite analyzer_panicked_snoc. split; [|by left]. intros [?|(w & x & -> & _)]; done. Qed.

Lemma vouched_app {W} (es es' : list (event W)) a : vouched es a → vouched (es ++ es') a.
Proof. intros (t & new & H1 & H2). exists t, new. split; [|done]. apply elem_of_app. by left. Qed.

(** *** Calls *)

Section calls.
Context `{HC : !Clock, HL : !CertLib} {S : Type} `{HS : !Store S}.

(** What a call may do: take alerts of active tenants only. *)
Definition takes {A} (m : M (Brain S) A) : Prop := ∀ n b,
  br_tenants (m (n, b)).2.2 = br_tenants b ∧
  ∃ new, inflight (br_ingest (m (n, b)).2.2) = (inflight (br_ingest b) ++ new)%list ∧
    Forall (λ a, active (br_tenants b) (ClusterId (deref a))) new.

Lemma keeps_takes {A} (m : M (Brain S) A) : keeps m → takes m.
Proof. intros Hm n b. destruct (Hm n b) as [Ht ->]. split; [done|]. exists []. by rewrite app_nil_r. Qed.

Lemma serve_takes sv serial req ctx : takes (serve sv serial req ctx).
Proof.
  destruct req as [payload|inp|csr].
  - intros n b. destruct (serve_gates sv serial (IngestRequest payload) ctx n b ltac:(by vm_compute))
      as [(code & s' & n' & -> & _)|(id & n' & s' & _ & Ha & _ & ->)].
    { cbn. split; [done|]. exists []. by rewrite app_nil_r. }
    unfold dispatch, Server_Ingest, on_ingest, zoom. munfold. cbn [br_ingest br_store br_tenants ctx_identity with_identity].
    rewrite Ingest_spec. unfold WithContext. destruct (seqb _ _) eqn:E; cbn; sbool; (split; [done|]).
    + exists [payload]. split; [done|]. apply Forall_singleton. by rewrite E.
    + exists []. by rewrite app_nil_r.
  - apply keeps_takes. unfold serve. cbn [chain]. unfold AuthInterceptor, RevocationInterceptor, ReplayInterceptor.
    unfold dispatch, Server_BootstrapCert. keeps_tac.
  - apply keeps_takes. unfold serve. cbn [chain]. unfold AuthInterceptor, RevocationInterceptor, ReplayInterceptor.
    unfold dispatch, Server_SignCSR. keeps_tac.
Qed.

Context {PK ESK SK HPK K CK CA : Type}.
Context `{HE : !Ecdsa PK ESK, HX : !X509 PK, HH : !Hpke SK HPK K, HG : !Gcm, HP : !PayloadLib CK CA, HWi : !Wire}.

Lemma serve_http_takes i (d : Deps SK CK) dr rq : takes (serve_http i d dr rq).
Proof.
  intros n b. pose proof (serve_http_spec i d dr rq n b) as H. destruct (serve_http i d dr rq (n, b)) as [r [n' b']].
  destruct H as (Ht & new & Hi & Hc & Hl & _). split; [done|]. exists new. split; [done|].
  destruct new as [|a [|]]; [constructor| |cbn in Hl; lia]. apply Forall_singleton.
  destruct (proj1 (Hc a) eq_refl) as (_ & _ & body & id & c' & plain & sealer & payload & Had & _ & _ & Hcl & ->).
  cbn [deref]. rewrite Hcl. by destruct Had as (_ & _ & _ & _ & _ & Ha & _).
Qed.
End calls.

Lemma on_brain_takes {T S W A} (m : M (Brain S) A) n (g : program T S W) r n' g' :
  takes m → on_brain m (n, g) = (r, (n', g')) →
  pg_phase g' = pg_phase g ∧ pg_tenants g' = pg_tenants g ∧ pg_live g' = pg_live g ∧ pg_over g' = pg_over g ∧
  pg_core g' = ((pg_core g).1, set_storage (storage (pg_core g').2) (pg_core g).2) ∧
  ∃ new, inflight (pg_ingest g') = (inflight (pg_ingest g) ++ new)%list ∧
    Forall (λ a, active (pg_tenants g) (ClusterId (deref a))) new.
Proof.
  intros Hm. unfold on_brain, zoom. cbn [fst snd].
  destruct (Hm n (MkBrain (storage (pg_core g).2) (pg_tenants g) (pg_ingest g))) as [Ht Hi].
  destruct (m _) as [a [n1 b1]]. intros [= <- <- <-]. by split_and!.
Qed.

(** *** Accesses *)

Section access.
Context `{HC : !Clock} {T S W : Type} `{HN : !Num T, HS : !Store.Store S, HW : !Net W}.
Context (FF : spec_float → string) (PF : string → option spec_float).
Context (sort : list verdictEntry → list verdictEntry).
Context (p : Pipeline W) {HO : Observer p}.

Lemma CreateSilence_sent c payload reason n w e n' w' :
  CreateSilence c payload reason (n, w) = (e, (n', w')) → sent (seen_in (p := p) w') = sent (seen_in (p := p) w).
Proof.
  unfold CreateSilence. destruct (negb _); [by intros [= _ _ <-]|]. destruct (EqualFold _ _); [by intros [= _ _ <-]|].
  destruct (match SilenceClient.allowed _ with Some set => _ | None => false end); [by intros [= _ _ <-]|].
  munfold. mstep. destruct (request_error _); [by intros [= _ _ <-]|].
  set (req := MkRequest _ _ _ _). destruct (http_do req _) as [x [n2 w2]] eqn:Eh.
  pose proof (seen_http (p := p) req (Datatypes.S n) w) as Hs. rewrite Eh in Hs. cbn in Hs. intros Hw.
  assert (w2 = w') as -> by (destruct x; code_cases; by injection Hw). by rewrite Hs.
Qed.

Lemma on_storage_effect {A} (m : M S A) n c (r : Rest T S W) b n' c' r' :
  on_rest (on_storage m) (n, (c, r)) = (b, (n', (c', r'))) → c' = c ∧ outside r' = outside r ∧ panicked r' = panicked r.
Proof. unfold on_rest, on_storage, zoom. cbn. destruct (m _) as [x [n1 s1]]. by intros [= _ _ <- <-]. Qed.

Lemma on_limiter_effect {A} (m : M (option (Limiter.Pool T)) A) n c (r : Rest T S W) b n' c' r' :
  on_rest (on_limiter m) (n, (c, r)) = (b, (n', (c', r'))) → c' = c ∧ outside r' = outside r ∧ panicked r' = panicked r.
Proof. unfold on_rest, on_limiter, zoom. cbn. destruct (m _) as [x [n1 s1]]. by intros [= _ _ <- <-]. Qed.

Lemma on_outside_effect {A} (m : M W A) n c (r : Rest T S W) b n' c' r' :
  on_rest (on_outside m) (n, (c, r)) = (b, (n', (c', r'))) →
  c' = c ∧ panicked r' = panicked r ∧ m (n, outside r) = (b, (n', outside r')).
Proof. unfold on_rest, on_outside, zoom. cbn. destruct (m _) as [x [n1 w1]]. by intros [= <- <- <- <-]. Qed.

Lemma on_correlator_effect {A} (m : M Correlator.Correlator A) n c (r : Rest T S W) b n' c' r' :
  on_correlator m (n, (c, r)) = (b, (n', (c', r'))) → r' = r ∧ m (n, c) = (b, (n', c')).
Proof. unfold on_correlator, zoom. cbn. destruct (m _) as [x [n1 c1]]. by intros [= <- <- <- <-]. Qed.

Lemma ask_effect (call : M W (option (result run_error Analysis))) n c (r : Rest T S W) b n' c' r' :
  on_rest (ask call) (n, (c, r)) = (b, (n', (c', r'))) →
  c' = c ∧ panicked r' = (match b with None => true | _ => panicked r end) ∧ call (n, outside r) = (b, (n', outside r')).
Proof.
  unfold on_rest, zoom. cbn [fst snd]. destruct (ask_run call n r) as (o & n1 & w1 & E & ->). by intros [= <- <- <- <-].
Qed.

(** What an access does to the correlator, to the messages sent and to the process. *)
Lemma exec_effect {B} w (o : op W B) n c (r : Rest T S W) b n' c' r' :
  exec FF PF sort p o (n, (c, r)) = (b, (n', (c', r'))) → allowed p w B o →
  match o in op _ B return B → Prop with
  | AddTo a => λ _, Correlator.Add a (n, c) = (tt, (n', c'))
  | TakeBucket key => λ b, take_bucket key (n, c) = (b, (n', c'))
  | StopTimers order => λ b, drain_keys order (n, c) = (b, (n', c'))
  | Enabled => λ b, c' = c ∧ b = Correlator.enabled c
  | _ => λ _, c' = c
  end b ∧
  sent (seen_in (p := p) (outside r')) = (sent (seen_in (p := p) (outside r)) ++ told_of (deeds (Action o b)))%list ∧
  panicked r' = fatal (Action o b) || panicked r.
Proof.
  intros H Ha. destruct o; cbn [exec] in H; cbn; rewrite ?app_nil_r;
    try (apply on_storage_effect in H as (-> & -> & ->); done);
    try (apply on_limiter_effect in H as (-> & -> & ->); done);
    try (apply on_correlator_effect in H as [-> H]; try destruct b; done);
    try (apply on_outside_effect in H as (-> & -> & H)); try (apply ask_effect in H as (-> & -> & H)).
  - by injection H as <- _ <- <-.
  - pose proof (seen_Analyze (p := p) None payload examples n (outside r)) as Hs. rewrite H in Hs. cbn in Hs. rewrite Hs. by destruct b.
  - pose proof (seen_AnalyzeIncident (p := p) None payloads examples n (outside r)) as Hs. rewrite H in Hs. cbn in Hs.
    rewrite Hs. by destruct b.
  - by rewrite (CreateSilence_sent _ _ _ _ _ _ _ _ H).
  - cbn in Ha. pose proof (seen_Send (p := p) name notifier msg n (outside r) Ha) as Hs. rewrite H in Hs. cbn in Hs.
    by rewrite Hs.
  - cbn in Ha. rewrite Ha in H. by injection H as _ _ <- <-.
  - by injection H as _ _ <- <-.
  - by injection H as _ _ <- <-.
Qed.
End access.

(** *** The invariant of a run *)

Section invariant.
Context `{HC : !Clock} {T S W : Type} `{HN : !Num T, HS : !Store.Store S, HW : !Net W}.
Context (FF : spec_float → string) (PF : string → option spec_float).
Context (sort : list verdictEntry → list verdictEntry) (i64 : spec_float → Z).
Context (p : Pipeline W) {HO : Observer p} (on : bool).

Abbreviation sent_in r := (sent (seen_in (p := p) (outside r))) (only parsing).

Definition records_of (live : list (goroutine W)) (over : list (owner * list (action W))) : list (owner * list (action W)) :=
  (map record live ++ over)%list.

(** All deeds of all goroutines. *)
Definition deeds_in (rs : list (owner * list (action W))) : list deed := rs ≫= λ r, r.2 ≫= deeds.

(** [es]: the events so far; [h]: the handler's goroutines that have not returned. *)
Record inv (es : list (event W)) (live : list (goroutine W)) (over : list (owner * list (action W)))
    (h : list (ref AlertPayload)) (c : Correlator.Correlator) (r : Rest T S W) : Prop := {
  iv_live x t : x ∈ live → traces (g_rest x) t tt → traces (body i64 p (g_owner x)) (g_done x ++ t)%list tt;
  iv_over w t : (w, t) ∈ over → traces (body i64 p w) t tt;
  iv_sound w t : (w, t) ∈ records_of live over → Forall (sound on) t;
  iv_allowed x : x ∈ live → always (allowed p (g_owner x)) (g_rest x);
  iv_alerts : accepted es ≡ₚ (records_of live over).*1 ≫= own;
  iv_inflight : h ≡ₚ live ≫= (λ x, own (g_owner x));
  iv_vouched a : a ∈ accepted es → vouched es a;
  iv_bucket k b a : Correlator.buckets c !! k = Some b → a ∈ alerts b → groupKey a = k ∧ a ∈ accepted es;
  iv_buffer : ∃ fulls, (added_of (deeds_in (records_of live over)) ≡ₚ
    taken_of (deeds_in (records_of live over)) ++ Schedule.buffered c ++ mjoin fulls)%list ∧
    Forall (λ l, Correlator.maxGroup c <= Z.of_nat (length l)) fulls;
  iv_sent : sent_in r ≡ₚ told_of (deeds_in (records_of live over));
  iv_on : Correlator.enabled c = on;
  iv_alive : panicked r = true ↔ Exists analyzer_panicked es;
}.

#[local] Instance deeds_in_perm : Proper ((≡ₚ) ==> (≡ₚ)) deeds_in.
Proof. intros x y H. unfold deeds_in. by rewrite H. Qed.
#[local] Instance added_of_perm : Proper ((≡ₚ) ==> (≡ₚ)) added_of.
Proof. intros x y H. unfold added_of. by rewrite H. Qed.
#[local] Instance taken_of_perm : Proper ((≡ₚ) ==> (≡ₚ)) taken_of.
Proof. intros x y H. unfold taken_of. by rewrite H. Qed.
#[local] Instance dups_of_perm : Proper ((≡ₚ) ==> (≡ₚ)) dups_of.
Proof. intros x y H. unfold dups_of. by rewrite H. Qed.
#[local] Instance told_of_perm : Proper ((≡ₚ) ==> (≡ₚ)) told_of.
Proof. intros x y H. unfold told_of. by rewrite H. Qed.

Lemma insert_perm {A} (l : list A) i x y : l !! i = Some x → ∃ l', l ≡ₚ x :: l' ∧ <[i:=y]> l ≡ₚ y :: l'.
Proof.
  intros H. exists (take i l ++ drop (Datatypes.S i) l)%list. split.
  - rewrite <- (take_drop_middle l i x H) at 1. by rewrite Permutation_middle.
  - rewrite (insert_take_drop l i y) by (by eapply lookup_lt_Some). by rewrite Permutation_middle.
Qed.

Lemma deeds_in_cons w t rs : deeds_in ((w, t) :: rs) = ((t ≫= deeds) ++ deeds_in rs)%list.
Proof. done. Qed.

(** A goroutine has got through part of its script. *)
Lemma live_script es live over h c r x (hx : list (action W)) :
  inv es live over h c r → (∀ a, a ∈ accepted es → renders a) → x ∈ live →
  ∀ g' : proc W unit, (∀ t, traces g' t tt → traces (g_rest x) (hx ++ t)%list tt) → Forall (sound on) hx →
  ∃ l, script p on (g_owner x) ((g_done x ≫= deeds) ++ (hx ≫= deeds) ++ l)%list.
Proof.
  intros Hi Hr Hx g' Hg Hs. destruct (traces_total (sound on) g' (sound_answer on)) as (t & [] & Ht & Hst).
  exists (t ≫= deeds). apply Hg in Ht. apply (iv_live _ _ _ _ _ _ Hi x _ Hx) in Ht.
  assert ((g_owner x, g_done x) ∈ records_of live over) as Hin.
  { apply elem_of_app. left. apply list_elem_of_fmap. by exists x. }
  pose proof (iv_sound _ _ _ _ _ _ Hi _ _ Hin) as Hd.
  apply (body_script i64 p on) in Ht.
  - rewrite !bind_app in Ht. apply Ht. rewrite !Forall_app. by split_and!.
  - intros a E. apply Hr. rewrite (iv_alerts _ _ _ _ _ _ Hi). apply list_elem_of_bind. exists (g_owner x).
    split; [rewrite E; by left|]. apply list_elem_of_fmap. by exists (g_owner x, g_done x).
Qed.

Lemma script_runs w l : script p on w l → Crashed ∉ l.
Proof.
  assert (∀ group l, announced p group l → Crashed ∉ l) as Ha.
  { intros group l' (rep & msg & _ & _ & ->) (x & E & _)%list_elem_of_fmap. done. }
  assert (∀ key l, flushes p key l → Crashed ∉ l) as Hf.
  { intros key l' [->|(group & l2 & -> & Hl & _)]; rewrite not_elem_of_cons; (split; [done|]).
    - apply not_elem_of_nil.
    - by apply (Ha group). }
  destruct w as [a|key|order]; cbn [script]; [|apply Hf|].
  - intros [->|[[_ ->]|(l' & -> & Hl)]]; rewrite ?not_elem_of_cons; (split; [done|]); try (split; [done|]);
      try apply not_elem_of_nil. by apply (Ha [a]).
  - intros (keys & ls & -> & Hls) (x & Hx & Hin)%list_elem_of_join.
    apply list_elem_of_lookup_1 in Hin as [i Hi]. destruct (Forall2_lookup_r _ _ _ _ _ Hls Hi) as (key & _ & Hk).
    by apply (Hf key x).
Qed.

(** The correlator keeps track of the alerts that goroutines buffer and take. *)
Lemma buffer_access {B} w (o : op W B) n c (r : Rest T S W) b n' c' r' rs fulls :
  exec FF PF sort p o (n, (c, r)) = (b, (n', (c', r'))) → allowed p w B o →
  (added_of (deeds_in rs) ≡ₚ taken_of (deeds_in rs) ++ Schedule.buffered c ++ mjoin fulls)%list →
  Forall (λ l, Correlator.maxGroup c <= Z.of_nat (length l)) fulls →
  ∃ fulls', (added_of (deeds (Action o b) ++ deeds_in rs) ≡ₚ
    taken_of (deeds (Action o b) ++ deeds_in rs) ++ Schedule.buffered c' ++ mjoin fulls')%list ∧
    Forall (λ l, Correlator.maxGroup c' <= Z.of_nat (length l)) fulls'.
Proof.
  intros He Ha Hb Hf. destruct (exec_effect FF PF sort p w o n c r b n' c' r' He Ha) as (Hc & _ & _).
  assert (c' = c → (added_of (deeds (Action o b)) = [] ∧ taken_of (deeds (Action o b)) = []) →
    ∃ fulls', (added_of (deeds (Action o b) ++ deeds_in rs) ≡ₚ
    taken_of (deeds (Action o b) ++ deeds_in rs) ++ Schedule.buffered c' ++ mjoin fulls')%list ∧
    Forall (λ l, Correlator.maxGroup c' <= Z.of_nat (length l)) fulls') as Hsame.
  { intros -> [E1 E2]. exists fulls. unfold added_of, taken_of in *. rewrite !bind_app, E1, E2. by split. }
  destruct o; cbn in Hc; try (by apply Hsame).
  - apply Hsame; [by destruct Hc|done].
  - destruct (Add_spec _ _ _ _ _ Hc) as (Hm & _ & _ & kept & tm & _ & Hk).
    assert (∃ fulls', mjoin fulls' = (Schedule.overwritten c a ++ mjoin fulls)%list ∧
      Forall (λ l, Correlator.maxGroup c <= Z.of_nat (length l)) fulls') as (fulls' & E & Hf').
    { unfold Schedule.overwritten. destruct (Correlator.buckets c !! groupKey a) as [b0|]; [|by exists fulls].
      destruct (Z.leb_spec (Correlator.maxGroup c) (Z.of_nat (length (alerts b0)))); [|by exists fulls].
      exists (alerts b0 :: fulls). split; [done|]. by constructor. }
    apply Add_buffered in Hc. exists fulls'. rewrite Hm. split; [|done]. rewrite E. cbn.
    fold (added_of (deeds_in rs)) (taken_of (deeds_in rs)). rewrite Hb.
    trans ((a :: Schedule.buffered c) ++ taken_of (deeds_in rs) ++ mjoin fulls)%list; [solve_Permutation|].
    rewrite Hc. solve_Permutation.
  - pose proof (take_bucket_buffered _ _ _ _ _ _ Hc) as Hp. apply take_bucket_spec in Hc as (_ & -> & _).
    exists fulls. split; [|done]. cbn.
    fold (added_of (deeds_in rs)) (taken_of (deeds_in rs)). rewrite Hb, Hp. destruct b; cbn; solve_Permutation.
  - apply drain_keys_spec in Hc as (_ & _ & ts & -> & _). exists fulls. by split.
Qed.

(** The answers of an access are what is known about them. *)
Lemma access_sound {B} w (o : op W B) n c (r : Rest T S W) b n' c' r' es live over h :
  inv es live over h c r → (∀ a, a ∈ accepted es → renders a) → allowed p w B o →
  exec FF PF sort p o (n, (c, r)) = (b, (n', (c', r'))) → sound on (Action o b).
Proof.
  intros Hi Hr Ha He. destruct (exec_effect FF PF sort p w o n c r b n' c' r' He Ha) as (Hc & _ & _).
  destruct o; cbn in Hc |- *; try done.
  - destruct Hc as [_ ->]. apply (iv_on _ _ _ _ _ _ Hi).
  - intros l ->. apply take_bucket_spec in Hc as (_ & _ & bk & Hb & -> & Hne). split; [done|]. apply Forall_forall.
    intros a Hin. destruct (iv_bucket _ _ _ _ _ _ Hi _ _ _ Hb Hin) as [Hk Hacc]. auto.
Qed.

Lemma bucket_access {B} w (o : op W B) n c (r : Rest T S W) b n' c' r' (P : string → ref AlertPayload → Prop) :
  exec FF PF sort p o (n, (c, r)) = (b, (n', (c', r'))) → allowed p w B o →
  (∀ k b a, Correlator.buckets c !! k = Some b → a ∈ alerts b → P k a) → (∀ a, w = Alert a → P (groupKey a) a) →
  Correlator.enabled c' = Correlator.enabled c ∧
  ∀ k b a, Correlator.buckets c' !! k = Some b → a ∈ alerts b → P k a.
Proof.
  intros He Ha HP Hw. destruct (exec_effect FF PF sort p w o n c r b n' c' r' He Ha) as (Hc & _ & _).
  destruct o; cbn in Hc, Ha; try (by subst c').
  - by destruct Hc as [-> _].
  - split.
    { revert Hc. unfold Correlator.Add, AfterFunc. munfold.
      destruct (Correlator.buckets c !! _) as [b0|]; [destruct (_ <=? _)|]; mstep; by intros [= _ <-]. }
    apply Add_spec in Hc as (_ & _ & _ & kept & tm & Hb & Hk). rewrite Hb. intros k b' x Hl Hx.
    apply lookup_insert_Some in Hl as [[<- <-]|[Hne Hl]]; [|by eapply HP].
    cbn [alerts] in Hx. apply elem_of_app in Hx as [Hx|Hx].
    + destruct Hk as [(b0 & Hb0 & -> & _)|(-> & _)]; [|by apply elem_of_nil in Hx]. by eapply HP.
    + apply list_elem_of_singleton in Hx as ->. by apply Hw.
  - apply take_bucket_spec in Hc as (_ & -> & _). split; [done|]. cbn. intros k b' x [_ Hl]%lookup_delete_Some. by eapply HP.
  - apply drain_keys_spec in Hc as (_ & _ & ts & -> & _). by split.
Qed.

Lemma inv_access es live over h c r i w done {B} (o : op W B) k b n n' c' r' :
  inv es live over h c r → (∀ a, a ∈ accepted es → renders a) →
  live !! i = Some (MkGoroutine w done (Call o k)) → exec FF PF sort p o (n, (c, r)) = (b, (n', (c', r'))) →
  inv (es ++ [Did w (Action o b)]) (<[i := MkGoroutine w (done ++ [Action o b])%list (k b)]> live) over h c' r'.
Proof.
  intros Hi Hr Hl He. pose proof (list_elem_of_lookup_2 _ _ _ Hl) as Hin.
  destruct (iv_allowed _ _ _ _ _ _ Hi _ Hin) as [Ha Hk]. cbn [g_owner] in Ha, Hk.
  pose proof (access_sound w o n c r b n' c' r' es live over h Hi Hr Ha He) as Hs.
  destruct (insert_perm live i _ (MkGoroutine w (done ++ [Action o b])%list (k b)) Hl) as (l' & Hp & Hp').
  set (x := MkGoroutine w done (Call o k)) in *. set (x' := MkGoroutine w _ (k b)) in *.
  assert (records_of live over ≡ₚ (w, done) :: records_of l' over) as Hrec by (unfold records_of; by rewrite Hp).
  assert (records_of (<[i:=x']> live) over ≡ₚ (w, done ++ [Action o b])%list :: records_of l' over) as Hrec'
    by (unfold records_of; by rewrite Hp').
  assert (deeds_in (records_of (<[i:=x']> live) over) ≡ₚ deeds (Action o b) ++ deeds_in (records_of live over))%list as Hd.
  { rewrite Hrec, Hrec', !deeds_in_cons, bind_app. cbn [mbind list_bind]. change (mbind (M := list) ?f []) with (@nil deed).
    rewrite app_nil_r. solve_Permutation. }
  assert (∀ y, y ∈ <[i:=x']> live → y = x' ∨ y ∈ live) as Hy.
  { intros y. rewrite Hp', Hp, !elem_of_cons. tauto. }
  assert (accepted (es ++ [Did w (Action o b)]) = accepted es) as Hacc by (rewrite accepted_app; apply app_nil_r).
  assert (∀ a, w = Alert a → a ∈ accepted es) as Hown.
  { intros a E. rewrite (iv_alerts _ _ _ _ _ _ Hi), Hrec. cbn. rewrite E. by left. }
  destruct (exec_effect FF PF sort p w o n c r b n' c' r' He Ha) as (_ & Hsent & Hpan).
  destruct (bucket_access w o n c r b n' c' r' (λ k a, groupKey a = k ∧ a ∈ accepted es) He Ha
    (iv_bucket _ _ _ _ _ _ Hi)) as [Hen Hbk]; [by auto|].
  destruct (iv_buffer _ _ _ _ _ _ Hi) as (fulls & Hb & Hf).
  split; rewrite ?Hacc.
  - intros y t [->|Hyl]%Hy Ht; [|by apply (iv_live _ _ _ _ _ _ Hi)]. cbn [g_owner g_done g_rest x'] in *.
    rewrite <- app_assoc. apply (iv_live _ _ _ _ _ _ Hi x); [done|]. cbn. by exists b, t.
  - apply (iv_over _ _ _ _ _ _ Hi).
  - intros w1 t. rewrite Hrec', elem_of_cons. intros [[= -> ->]|Hin1].
    + apply Forall_app. split; [|by constructor]. apply (iv_sound _ _ _ _ _ _ Hi w). rewrite Hrec. by left.
    + apply (iv_sound _ _ _ _ _ _ Hi w1). rewrite Hrec. by right.
  - intros y [->|Hyl]%Hy; [apply Hk|by apply (iv_allowed _ _ _ _ _ _ Hi)].
  - rewrite (iv_alerts _ _ _ _ _ _ Hi), Hrec, Hrec'. done.
  - etrans; [apply (iv_inflight _ _ _ _ _ _ Hi)|]. trans ((x :: l') ≫= λ y, own (g_owner y)); [by apply bind_Permutation|].
    by trans ((x' :: l') ≫= λ y, own (g_owner y)); [|symmetry; apply bind_Permutation].
  - intros a Hin'. apply vouched_app. by apply (iv_vouched _ _ _ _ _ _ Hi).
  - exact Hbk.
  - destruct (buffer_access w o n c r b n' c' r' _ fulls He Ha Hb Hf) as (fulls' & Hb' & Hf'). exists fulls'.
    rewrite Hd. by split.
  - rewrite Hsent, Hd, (iv_sent _ _ _ _ _ _ Hi). unfold told_of. rewrite bind_app. by rewrite Permutation_app_comm.
  - rewrite Hen. apply (iv_on _ _ _ _ _ _ Hi).
  - rewrite Hpan, analyzer_panicked_snoc, analyzer_panicked_did, <- (iv_alive _ _ _ _ _ _ Hi). unfold fatal.
    assert (match Action o b with Action Panics _ => true | _ => false end = false) as ->;
      [|rewrite orb_false_r, orb_true_iff; tauto].
    destruct o; try done. exfalso.
    destruct (live_script es live over h c r x [Action Panics b] Hi Hr Hin (k b)) as [l Hl'].
    + intros t Ht. cbn. by exists b, t.
    + by constructor.
    + apply script_runs in Hl'. apply Hl'. apply elem_of_app. right. by left.
Qed.

(** New goroutines, for the alerts of a call, a timer or the drain. *)
Lemma inv_spawn es e live over h h' c r (ws : list owner) :
  inv es live over h c r → match e with Did _ _ => False | _ => True end → accepted [e] = ws ≫= own → (h' ≡ₚ h ++ (ws ≫= own))%list →
  (∀ a, a ∈ ws ≫= own → vouched (es ++ [e]) a) → inv (es ++ [e]) (live ++ map (spawn i64 p) ws) over h' c r.
Proof.
  intros Hi Hd' He Hh Hv.
  assert (records_of (live ++ map (spawn i64 p) ws) over ≡ₚ map (λ w, (w, [])) ws ++ records_of live over)%list as Hrec.
  { unfold records_of. rewrite map_app, map_map. cbn. solve_Permutation. }
  assert (deeds_in (records_of (live ++ map (spawn i64 p) ws) over) ≡ₚ deeds_in (records_of live over)) as Hd.
  { rewrite Hrec. unfold deeds_in at 1. rewrite bind_app. fold (deeds_in (records_of live over)).
    replace (map (λ w, (w, [])) ws ≫= (λ r0 : owner * list (action W), r0.2 ≫= deeds)) with (@nil deed); [done|].
    clear. induction ws as [|w ws IH]; [done|exact IH]. }
  assert (∀ y, y ∈ (live ++ map (spawn i64 p) ws)%list → y ∈ live ∨ ∃ w, y = spawn i64 p w) as Hy.
  { intros y [?|(w & -> & _)%list_elem_of_fmap]%elem_of_app; eauto. }
  split; rewrite ?Hd, ?accepted_app, ?He.
  - intros y t [Hyl|[w ->]]%Hy Ht; [by apply (iv_live _ _ _ _ _ _ Hi)|done].
  - apply (iv_over _ _ _ _ _ _ Hi).
  - intros w t. rewrite Hrec. intros [(w' & [= -> ->] & _)%list_elem_of_fmap|Hin]%elem_of_app; [by constructor|].
    by apply (iv_sound _ _ _ _ _ _ Hi w).
  - intros y [Hyl|[w ->]]%Hy; [by apply (iv_allowed _ _ _ _ _ _ Hi)|]. apply body_allowed.
  - rewrite (iv_alerts _ _ _ _ _ _ Hi), Hrec, fmap_app, bind_app, Permutation_app_comm. apply Permutation_app_tail.
    rewrite <- (list_fmap_id ws) at 1. clear. induction ws as [|w ws IH]; [done|]. cbn. by apply Permutation_app_head.
  - rewrite Hh, bind_app. rewrite <- (iv_inflight _ _ _ _ _ _ Hi). apply Permutation_app_head.
    clear. induction ws as [|w ws IH]; [done|]. cbn. by apply Permutation_app_head.
  - intros a [Hin|Hin]%elem_of_app; [|by apply Hv]. apply vouched_app. by apply (iv_vouched _ _ _ _ _ _ Hi).
  - intros k b a Hb Ha. destruct (iv_bucket _ _ _ _ _ _ Hi k b a Hb Ha). split; [done|]. apply elem_of_app. by left.
  - destruct (iv_buffer _ _ _ _ _ _ Hi) as (fulls & Hb & Hf). exists fulls. by rewrite Hd.
  - apply (iv_sent _ _ _ _ _ _ Hi).
  - apply (iv_on _ _ _ _ _ _ Hi).
  - rewrite analyzer_quiet_snoc by done. apply (iv_alive _ _ _ _ _ _ Hi).
Qed.

(** A goroutine returns. *)
Lemma inv_return es live over h h' c r i w done :
  inv es live over h c r → live !! i = Some (MkGoroutine w done (Return tt)) → (h ≡ₚ own w ++ h')%list →
  inv (es ++ [Other]) (delete i live) (over ++ [(w, done)])%list h' c r.
Proof.
  intros Hi Hl Hh. pose proof (delete_Permutation _ _ _ Hl) as Hp. set (x := MkGoroutine w done _) in *.
  assert (records_of (delete i live) (over ++ [(w, done)]) ≡ₚ records_of live over)%list as Hrec.
  { unfold records_of. rewrite Hp at 2. cbn. rewrite (assoc_L (++)). by rewrite (Permutation_app_comm _ [_]). }
  assert (∀ y, y ∈ delete i live → y ∈ live) as Hy by (intros y ?; rewrite Hp; by right).
  assert (accepted (es ++ [Other]) = accepted es) as Hacc by (rewrite accepted_app; apply app_nil_r).
  split; rewrite ?Hacc, ?Hrec; try (apply Hi).
  - intros y t Hyl. by apply (iv_live _ _ _ _ _ _ Hi), Hy.
  - intros w' t [Hin|Hin]%elem_of_app; [by apply (iv_over _ _ _ _ _ _ Hi)|]. apply list_elem_of_singleton in Hin as [= -> ->].
    rewrite <- (app_nil_r done). apply (iv_live _ _ _ _ _ _ Hi x); [|done]. by eapply list_elem_of_lookup_2.
  - intros w' t. rewrite Hrec. apply (iv_sound _ _ _ _ _ _ Hi).
  - intros y Hyl. by apply (iv_allowed _ _ _ _ _ _ Hi), Hy.
  - apply (Permutation_app_inv_l (own w)). rewrite <- Hh. etrans; [apply (iv_inflight _ _ _ _ _ _ Hi)|].
    by trans ((x :: delete i live) ≫= λ y, own (g_owner y)); [apply bind_Permutation|].
  - intros a Ha. by apply vouched_app, (iv_vouched _ _ _ _ _ _ Hi).
  - destruct (iv_buffer _ _ _ _ _ _ Hi) as (fulls & Hb & Hf). exists fulls. by rewrite Hrec.
  - rewrite analyzer_quiet_snoc by done. apply (iv_alive _ _ _ _ _ _ Hi).
Qed.

(** Nothing of this changes. *)
Lemma inv_core es live over h c c' r r' :
  inv es live over h c r →
  Correlator.buckets c' = Correlator.buckets c → Correlator.maxGroup c' = Correlator.maxGroup c →
  Correlator.enabled c' = Correlator.enabled c → outside r' = outside r → panicked r' = panicked r →
  inv es live over h c' r'.
Proof.
  intros Hi Hb Hm Hen Ho Hp. split; rewrite ?Hb, ?Hm, ?Hen, ?Ho, ?Hp; try (apply Hi).
  destruct (iv_buffer _ _ _ _ _ _ Hi) as (fulls & Hbf & Hf). exists fulls. unfold Schedule.buffered in *. by rewrite Hb.
Qed.

Lemma inv_event es e live over h c r : inv es live over h c r → match e with Did _ _ => False | _ => True end → accepted [e] = [] →
  inv (es ++ [e]) live over h c r.
Proof.
  intros Hi Hd' He. assert (accepted (es ++ [e]) = accepted es) as Hacc by (rewrite accepted_app, He; apply app_nil_r).
  split; rewrite ?Hacc; try (apply Hi).
  - intros a Ha. by apply vouched_app, (iv_vouched _ _ _ _ _ _ Hi).
  - rewrite analyzer_quiet_snoc by done. apply (iv_alive _ _ _ _ _ _ Hi).
Qed.
End invariant.

(** *** Accounts *)

Section accounts.
Context `{HC : !Clock} {T S W : Type} `{HN : !Num T, HS : !Store.Store S, HW : !Net W}.
Context (i64 : spec_float → Z) (p : Pipeline W) {HO : Observer p} (on : bool).

#[local] Existing Instance added_of_perm.
#[local] Existing Instance taken_of_perm.
#[local] Existing Instance dups_of_perm.
#[local] Existing Instance told_of_perm.

Lemma Forall2_map_same {A B C} (P : B → C → Prop) (f : A → B) (k : A → C) l :
  (∀ x, x ∈ l → P (f x) (k x)) → Forall2 P (map f l) (map k l).
Proof.
  intros H. induction l as [|x l IH]; constructor; [apply H; by left|]. apply IH. intros y Hy. apply H. by right.
Qed.

Lemma bind_map {A B C} (f : A → B) (k : B → list C) l : map f l ≫= k = l ≫= (λ x, k (f x)).
Proof. induction l as [|x l IH]; [done|]. cbn. by f_equal. Qed.

Lemma bind_nil {A B} (l : list A) : (l ≫= λ _, @nil B) = [].
Proof. by induction l. Qed.

(** The accounts of several goroutines make one. *)
Lemma flows (rs : list (owner * list (action W))) (hs : list (list (ref AlertPayload) * list (string * Message))) :
  Forall2 (λ r h, ∃ msgs, flow p r.1 (r.2 ≫= deeds) msgs h.1 h.2) rs hs → ∃ msgs,
  told_of (deeds_in rs) ≡ₚ ((msgs ≫= deliveries p) ++ (hs ≫= snd))%list ∧
  ((rs.*1 ≫= own) ++ taken_of (deeds_in rs) ≡ₚ
    dups_of (deeds_in rs) ++ added_of (deeds_in rs) ++ (msgs ≫= about) ++ (hs ≫= fst))%list ∧
  Forall well_formed msgs.
Proof.
  induction 1 as [|[w t] [h q] rs hs (msgs & [H1 H2 H3 _]) _ (msgs' & H4 & H5 & H6)]; [by exists []|].
  cbn [fst snd] in *. exists (msgs ++ msgs')%list. rewrite !deeds_in_cons, !bind_app.
  rewrite told_of_app, taken_of_app, dups_of_app, added_of_app. split_and!; [| |by apply Forall_app].
  - rewrite H1, H4. cbn. solve_Permutation.
  - change ((((w, t) :: rs).*1) ≫= own) with (own w ++ (rs.*1 ≫= own))%list.
    change (((h, q) :: hs) ≫= fst) with (h ++ (hs ≫= fst))%list.
    trans ((own w ++ taken_of (t ≫= deeds)) ++ ((rs.*1 ≫= own) ++ taken_of (deeds_in rs)))%list; [solve_Permutation|]. rewrite H2, H5. solve_Permutation.
Qed.

(** Every goroutine is somewhere in its script. *)
Lemma live_flow es live over h c (r : Rest T S W) x :
  inv i64 p on es live over h c r → (∀ a, a ∈ accepted es → renders a) → x ∈ live →
  ∃ msgs, flow p (g_owner x) (g_done x ≫= deeds) msgs (in_hand x) (half_sent x).
Proof.
  intros Hi Hr Hx. destruct (live_script i64 p on es live over h c r x [] Hi Hr Hx (g_rest x)) as [l Hl]; [done|constructor|].
  by apply (script_prefix p on) in Hl.
Qed.

Lemma over_script es live over h c (r : Rest T S W) w t :
  inv i64 p on es live over h c r → (∀ a, a ∈ accepted es → renders a) → (w, t) ∈ over → script p on w (t ≫= deeds).
Proof.
  intros Hi Hr Hw. assert ((w, t) ∈ records_of live over) as Hin by (apply elem_of_app; by right).
  refine (body_script i64 p on w _ t tt _ _).
  - intros a ->. apply Hr. rewrite (iv_alerts _ _ _ _ _ _ _ _ _ Hi). apply list_elem_of_bind. exists (Alert a).
    split; [by left|]. apply list_elem_of_fmap. by exists (Alert a, t).
  - by apply (iv_over _ _ _ _ _ _ _ _ _ Hi).
  - by apply (iv_sound _ _ _ _ _ _ _ _ _ Hi w).
Qed.

(** Only the goroutine of an alert buffers it, and only with correlation on. *)
Lemma script_added w l a : script p on w l → a ∈ added_of l → a ∈ own w ∧ on = true.
Proof.
  assert (∀ keys ls, Forall2 (flushes p) keys ls → a ∈ added_of (mjoin ls) → False) as Hf.
  { intros keys ls (msgs & _ & _ & _ & -> & _)%flushes_flow. apply elem_of_nil. }
  destruct w as [b|key|order]; cbn [script].
  - intros [->|[[-> ->]|(l' & -> & Ha)]] Hin; [by apply elem_of_nil in Hin|done|].
    destruct (announced_message p [b] l' (groupKey b) Ha) as (msg & -> & _ & _); [by constructor|].
    destruct (none_of_tell (deliveries p msg)) as (_ & E & _). cbn in Hin. fold (added_of (tell (deliveries p msg))) in Hin.
    rewrite E in Hin. by apply elem_of_nil in Hin.
  - intros Hl Hin. exfalso. apply (Hf [key] [l]); [by constructor|]. by rewrite <- (app_nil_r l) in Hin.
  - intros (keys & ls & -> & Hls) Hin. exfalso. by apply (Hf keys ls).
Qed.

Lemma added_own es live over h c (r : Rest T S W) a :
  inv i64 p on es live over h c r → (∀ a, a ∈ accepted es → renders a) →
  a ∈ added_of (deeds_in (records_of live over)) → a ∈ accepted es ∧ on = true.
Proof.
  intros Hi Hr (x & Hx & ([w t] & Hd & Hin)%list_elem_of_bind)%list_elem_of_bind. cbn in Hd.
  assert (∃ l, script p on w ((t ≫= deeds) ++ l)%list) as [l Hl].
  { apply elem_of_app in Hin as [(y & [= -> ->] & Hy)%list_elem_of_fmap|Hin].
    - by apply (live_script i64 p on es live over h c r y [] Hi Hr Hy (g_rest y)).
    - exists []. rewrite app_nil_r. by eapply over_script. }
  destruct (script_added w _ a Hl) as [Ho ->].
  - apply list_elem_of_bind. exists x. split; [done|]. apply elem_of_app. by left.
  - split; [|done]. rewrite (iv_alerts _ _ _ _ _ _ _ _ _ Hi). apply list_elem_of_bind. exists w. split; [done|].
    apply list_elem_of_fmap. by exists (w, t).
Qed.

(** Where the accepted alerts are, and what the receivers have been sent. *)
Record account (es : list (event W)) (g : program T S W) (msgs : list Message)
    (fulls : list (list (ref AlertPayload))) : Prop := {
  ac_alerts : (accepted es ≡ₚ (pg_live g ≫= in_hand) ++ Schedule.buffered (pg_core g).1 ++ mjoin fulls ++
    dups_of (deeds_in (records g)) ++ (msgs ≫= about))%list;
  ac_sent : (sent (seen_in (p := p) (outside (pg_core g).2)) ≡ₚ (msgs ≫= deliveries p) ++ (pg_live g ≫= half_sent))%list;
  ac_msgs : Forall well_formed msgs;
  ac_fulls : Forall (λ l, Correlator.maxGroup (pg_core g).1 <= Z.of_nat (length l)) fulls;
  ac_parts : Forall (λ x, half_sent x = [] ∨
    ∃ msg rest, (half_sent x ++ rest)%list = deliveries p msg ∧ about msg = in_hand x ∧ well_formed msg) (pg_live g);
  ac_off : Correlator.enabled (pg_core g).1 = false → Schedule.buffered (pg_core g).1 = [] ∧ mjoin fulls = [];
}.

Lemma inv_account es g :
  inv i64 p on es (pg_live g) (pg_over g) (inflight (pg_ingest g)) (pg_core g).1 (pg_core g).2 →
  (∀ a, a ∈ accepted es → renders a) → ∃ msgs fulls, account es g msgs fulls.
Proof.
  intros Hi Hr. destruct (iv_buffer _ _ _ _ _ _ _ _ _ Hi) as (fulls & Hb & Hf).
  set (hs := (map (λ x, (in_hand x, half_sent x)) (pg_live g) ++ map (λ _, ([], [])) (pg_over g))%list).
  destruct (flows (records g) hs) as (msgs & H1 & H2 & H3).
  { unfold records, hs. apply Forall2_app.
    - apply Forall2_map_same. intros x Hx. by eapply live_flow.
    - rewrite <- (map_id (pg_over g)) at 1. apply Forall2_map_same. intros [w t] Hx.
      by eapply script_closed, over_script. }
  assert (hs ≫= fst = pg_live g ≫= in_hand ∧ hs ≫= snd = pg_live g ≫= half_sent) as [E1 E2].
  { unfold hs. rewrite !bind_app, !bind_map. cbn [fst snd]. by rewrite !bind_nil, !app_nil_r. }
  exists msgs, fulls. split; [| |done..| |].
  - rewrite E1 in H2. unfold records_of, records in *. rewrite (iv_alerts _ _ _ _ _ _ _ _ _ Hi).
    apply (Permutation_app_inv_r (taken_of (deeds_in (map record (pg_live g) ++ pg_over g)))).
    rewrite H2, Hb. solve_Permutation.
  - rewrite (iv_sent _ _ _ _ _ _ _ _ _ Hi), <- E2. exact H1.
  - apply Forall_forall. intros x Hx. destruct (live_flow _ _ _ _ _ _ x Hi Hr Hx) as (m & Hfl). apply Hfl.
  - rewrite (iv_on _ _ _ _ _ _ _ _ _ Hi). intros Hoff.
    destruct (added_of (deeds_in (records_of (pg_live g) (pg_over g)))) as [|a l] eqn:E.
    + apply Permutation_nil in Hb. by apply app_eq_nil in Hb as [_ [-> ->]%app_eq_nil].
    + destruct (added_own es _ _ _ _ _ a Hi Hr) as [_ Hon]; [rewrite E; by left|]. congruence.
Qed.

End accounts.

(** *** Runs *)

Section runs.
Context `{HC : !Clock, HL : !CertLib} {T S W : Type} `{HN : !Num T, HS : !Store.Store S, HW : !Net W}.
Context {PK ESK SK HPK K CK CA : Type}.
Context `{HE : !Ecdsa PK ESK, HX : !X509 PK, HH : !Hpke SK HPK K, HG : !Gcm, HP : !PayloadLib CK CA, HWi : !Wire}.
Context (FF : spec_float → string) (PF : string → option spec_float).
Context (sort : list verdictEntry → list verdictEntry) (i64 : spec_float → Z) (IsPrint : Z → bool).
Context (yaml_tenants : string → option (list Tenant)).
Context (p : Pipeline W) {HO : Observer p} (sv : option Server) (d : option (Deps SK CK)).

Abbreviation step := (step (T := T) FF PF sort i64 IsPrint yaml_tenants p sv d).
Abbreviation steps := (steps (T := T) FF PF sort i64 IsPrint yaml_tenants p sv d).
Abbreviation sent_in g := (sent (seen_in (p := p) (outside (pg_core g).2))) (only parsing).

(** A brain that has just started. *)
Definition idle (g : program T S W) : Prop :=
  pg_phase g = Serving ∧ inflight (pg_ingest g) = [] ∧ pg_live g = [] ∧ pg_over g = [] ∧
  Correlator.buckets (pg_core g).1 = ∅ ∧ sent_in g = [] ∧ panicked (pg_core g).2 = false.

Definition run_inv (on : bool) (es : list (event W)) (g : program T S W) : Prop :=
  inv i64 p on es (pg_live g) (pg_over g) (inflight (pg_ingest g)) (pg_core g).1 (pg_core g).2.

Lemma idle_inv g : idle g → run_inv (Correlator.enabled (pg_core g).1) [] g.
Proof.
  intros (_ & Hh & Hl & Ho & Hb & Hs & Hp). unfold run_inv. rewrite Hh, Hl, Ho. split; try done; try (by intros ? ?%elem_of_nil);
    try (by intros ? ? ?%elem_of_nil).
  - intros k b a. by rewrite Hb, lookup_empty.
  - exists []. cbn. rewrite app_nil_r. unfold Schedule.buffered. by rewrite Hb, map_to_list_empty.
  - by rewrite Hs.
  - by rewrite Hp, Exists_nil.
Qed.

Lemma call_inv {A} on es (m : M (Brain S) A) n (g : program T S W) r n' g' new :
  takes m → run_inv on es g → on_brain m (n, g) = (r, (n', g')) →
  inflight (pg_ingest g') = (inflight (pg_ingest g) ++ new)%list →
  run_inv on (es ++ [Called (pg_tenants g) new]) (start_alerts i64 p new g').
Proof.
  intros Hm Hi Hb Hn. destruct (on_brain_takes m n g r n' g' Hm Hb) as (_ & _ & Hl & Ho & Hc & new' & Hi' & Hf).
  rewrite Hn in Hi'. apply app_inv_head in Hi' as <-. unfold run_inv, start_alerts, set_live.
  cbn [pg_live pg_over pg_ingest pg_core]. rewrite Hl, Ho, Hc, Hn. cbn [fst snd].
  replace (map (λ a, spawn i64 p (Alert a)) new) with (map (spawn i64 p) (map Alert new)) by (by rewrite map_map).
  assert ((map Alert new ≫= own) = new) as Hown by (clear; induction new as [|a new IH]; cbn in *; [done|by rewrite IH]).
  destruct (Hi) as []. eapply inv_spawn; [|done|cbn; by rewrite Hown, app_nil_r|by rewrite Hown|].
  - by split.
  - rewrite Hown. intros a Ha. exists (pg_tenants g), new. rewrite Forall_forall in Hf. split; [|by auto].
    apply elem_of_app. right. by left.
Qed.

Lemma step_inv on es e s s' :
  step e s s' → (∀ a, a ∈ accepted es → renders a) → run_inv on es s.2 → run_inv on (es ++ [e]) s'.2.
Proof.
  destruct 1 as [srv serial req ctx r n g n' g' new _ _ _ Hb Hn|deps dr rq r n g n' g' new _ _ _ Hb Hn
    |method path id verdict r n g n' s' _ _ _|i w done B o k b n [x t h live over [c r]] n' [c' r'] _ Hl He
    |i j a done n x t h live over c _ Hl Hj|i key done n x t h live over c _ Hl
    |id key when n [x t h live over c] _ _ _|expired order n [x t h live over c] _ _ _
    |i order done e n t h live over c _ Hl|e n g _ _ _|e n g _ _|n g _ _|stat read n g _|st n n' g _|n n' g _];
    cbn [snd]; intros Hr Hi.
  - by eapply call_inv; [apply serve_takes|..].
  - by eapply call_inv; [apply serve_http_takes|..].
  - apply inv_event; [by eapply inv_core|done|done].
  - by eapply inv_access.
  - eapply inv_return; [exact Hi|exact Hl|]. cbn. by apply delete_Permutation.
  - by eapply inv_return; [exact Hi|exact Hl|].
  - eapply (inv_spawn i64 p on es Other live over _ _ _ _ [Timer key]); try done; [by eapply inv_core|cbn; by rewrite app_nil_r|].
    by intros a ?%elem_of_nil.
  - eapply (inv_spawn i64 p on es Other live over _ _ _ _ [Main order]); try done; [cbn; by rewrite app_nil_r|].
    by intros a ?%elem_of_nil.
  - by eapply inv_return; [exact Hi|exact Hl|].
  - by apply inv_event.
  - by apply inv_event.
  - by apply inv_event.
  - by apply inv_event.
  - apply inv_event; [by eapply inv_core|done|done].
  - by apply inv_event.
Qed.

Lemma steps_inv es s s' :
  steps es s s' → idle s.2 → (∀ a, a ∈ accepted es → renders a) →
  run_inv (Correlator.enabled (pg_core s.2).1) es s'.2.
Proof.
  intros Hs H0. induction Hs as [s|es e s s' s'' Hs IH Hstep]; intros Hr; [by apply idle_inv|].
  assert (∀ a, a ∈ accepted es → renders a) as Hr' by (intros a Ha; apply Hr; rewrite accepted_app; apply elem_of_app; by left).
  by eapply step_inv; [exact Hstep| |apply IH].
Qed.
Lemma steps_cons_inv e es s s'' : steps (e :: es) s s'' → ∃ s', step e s s' ∧ steps es s' s''.
Proof.
  remember (e :: es) as all eqn:E. intros Hs. revert es E.
  induction Hs as [s|es0 e0 s s' s'' Hs IH Hstep]; intros es E; [done|].
  destruct es0 as [|x es0]; injection E as -> <-.
  - exists s''. split; [|constructor]. inversion Hs; [done|]. by destruct es.
  - destruct (IH es0 eq_refl) as (s1 & H1 & H2). exists s1. split; [done|]. by eapply sr_snoc.
Qed.

(** A reload that installs a file in which the cluster is an active tenant. *)
Definition reinstates (cluster : string) (e : event W) : Prop :=
  ∃ stat data list idx, e = Reloaded stat (Some data) ∧ yaml_tenants data = Some list ∧ NewTenants list = Ok idx ∧
    ∃ x, idx !! cluster = Some x ∧ Revoked x = false.

(** The file [data], modified at [m], is newer than the snapshot and revokes the
    cluster. *)
Definition revokes (t : TenantsReloader) (cluster : string) (m : Time) (data : string) : Prop :=
  (∀ c, cached t = Some c → ts_mtime c < m) ∧
  ∃ list idx x, yaml_tenants data = Some list ∧ NewTenants list = Ok idx ∧ idx !! cluster = Some x ∧ Revoked x = true.

Lemma revokes_inactive t cluster m data :
  revokes t cluster m data → ¬ active (reload yaml_tenants t (Some m) (Some data)).2 cluster.
Proof.
  intros (Hm & list & idx & x & Hy & Hn & Hx & Hr). unfold reload. rewrite Hy, Hn.
  destruct (cached t) as [c|] eqn:Ec.
  - specialize (Hm c eq_refl). unfold After. destruct (Z.ltb_spec (ts_mtime c) m); [|lia]. cbn [negb].
    intros (y & Hl & Hry). cbn in Hl. congruence.
  - intros (y & Hl & Hry). cbn in Hl. congruence.
Qed.

Lemma reload_inactive t cluster stat read :
  ¬ active t cluster → ¬ reinstates cluster (Reloaded stat read) → ¬ active (reload yaml_tenants t stat read).2 cluster.
Proof.
  intros Ht Hr. unfold reload. destruct stat as [m|]; [|done]. destruct (match cached t with Some c => negb (After m (ts_mtime c)) | None => false end); [done|].
  destruct read as [data|]; [|done]. destruct (yaml_tenants data) as [list|] eqn:Ey; [|done].
  destruct (NewTenants list) as [idx|e] eqn:En; [|done]. intros (x & Hx & Hrx). apply Hr.
  exists (Some m), data, list, idx. split_and!; [done..|]. by exists x.
Qed.

Lemma steps_inactive cluster es s s' :
  steps es s s' → ¬ active (pg_tenants s.2) cluster → (∀ e, e ∈ es → ¬ reinstates cluster e) →
  ¬ active (pg_tenants s'.2) cluster ∧ ∀ a, a ∈ accepted es → ClusterId (deref a) ≠ cluster.
Proof.
  intros Hs H0. induction Hs as [|es e s s' s'' Hs IH Hstep]; intros He.
  { split; [done|]. by intros a ?%elem_of_nil. }
  destruct (IH H0) as [Ht Ha]. { intros x Hx. apply He, elem_of_app. by left. }
  rewrite accepted_app. specialize (He e). clear IH H0 Hs.
  assert (∀ {A} (m : M (Brain S) A) n g r n' g' new, takes m → ¬ active (pg_tenants g) cluster →
    on_brain m (n, g) = (r, (n', g')) → inflight (pg_ingest g') = (inflight (pg_ingest g) ++ new)%list →
    ¬ active (pg_tenants (g' : program T S W)) cluster ∧
    ∀ a, a ∈ (accepted es ++ accepted (W := W) [Called (pg_tenants g) new])%list → ClusterId (deref a) ≠ cluster) as Hcall.
  { intros A m n g r n' g' new Hm Hg Hb Hn. destruct (on_brain_takes m n g r n' g' Hm Hb) as (_ & -> & _ & _ & _ & new' & Hi & Hf).
    split; [done|]. rewrite Hn in Hi. apply app_inv_head in Hi as <-. cbn. rewrite app_nil_r.
    intros a [Hin|Hin]%elem_of_app; [by apply Ha|]. rewrite Forall_forall in Hf. intros <-. by apply Hg, Hf. }
  destruct Hstep as [srv serial req ctx r n g n' g' new _ _ _ Hb Hn|deps dr rq r n g n' g' new _ _ _ Hb Hn
    | | | | | | | | | | |stat read n g _| |]; cbn [snd pg_tenants] in *;
    try (by rewrite app_nil_r).
  - eapply (Hcall _ _ n g r n' g' new); [apply serve_takes|done..].
  - eapply (Hcall _ _ n g r n' g' new); [apply serve_http_takes|done..].
  - rewrite app_nil_r. split; [|done]. apply reload_inactive; [done|]. apply He, elem_of_app. right. by left.
Qed.


(** C5: no accepted alert is forgotten. In any interleaving, at any moment, every
    alert that was accepted is in the hands of a goroutine, or buffered in the
    correlator, or was found to be a duplicate, or is one of those announced
    (or, with correlation on, was in a full bucket that was replaced); the
    receivers have got exactly one message about each announced alert or group, each
    registered receiver it is routed to, besides what goroutines at work have sent
    of the message they are about to complete. Without correlation nothing is
    buffered or replaced. This is for runs whose alerts have no byte metric that is
    not a number: [AttachEvidence] panics on one. A goroutine then panics just when
    the analyzer has panicked on its question ([negative_tokens_panic] of [Counts]
    says when the evaluator does), and the account still holds when the process is
    gone. *)
Theorem accepted_alerts_are_announced (es : list (event W)) (n n' : nat) (g g' : program T S W) :
  steps es (n, g) (n', g') → idle g → (∀ a, a ∈ accepted es → renders a) →
  (panicked (pg_core g').2 = true ↔ Exists analyzer_panicked es) ∧
  ∃ msgs fulls,
    (accepted es ≡ₚ (pg_live g' ≫= in_hand) ++ Schedule.buffered (pg_core g').1 ++ mjoin fulls ++
       dups_of (deeds_in (records g')) ++ (msgs ≫= about))%list ∧
    (sent_in g' ≡ₚ (msgs ≫= deliveries p) ++ (pg_live g' ≫= half_sent))%list ∧
    Forall well_formed msgs ∧
    Forall (λ l, Correlator.maxGroup (pg_core g').1 <= Z.of_nat (length l)) fulls ∧
    (Correlator.enabled (pg_core g).1 = false → Schedule.buffered (pg_core g').1 = [] ∧ mjoin fulls = []).
Proof.
  intros Hs Hid Hr. pose proof (steps_inv es _ _ Hs Hid Hr) as Hi. cbn [snd] in Hi.
  split; [apply (iv_alive _ _ _ _ _ _ _ _ _ Hi)|]. destruct (inv_account i64 p _ es g' Hi Hr) as (msgs & fulls & [H1 H2 H3 H4 _ H6]).
  exists msgs, fulls. split_and!; [done..|]. by rewrite <- (iv_on _ _ _ _ _ _ _ _ _ Hi).
Qed.

(** However the goroutines interleave, each one that returned kept to its
    script: the goroutine of an alert found it to be a duplicate, or buffered it
    with correlation on, or announced it; a timer's found its bucket gone or
    announced the group it took; and so did the drain, key by key. *)
Theorem goroutines_keep_to_their_script (es : list (event W)) (n n' : nat) (g g' : program T S W) (w : owner)
    (t : list (action W)) :
  steps es (n, g) (n', g') → idle g → (∀ a, a ∈ accepted es → renders a) → (w, t) ∈ pg_over g' →
  script p (Correlator.enabled (pg_core g).1) w (t ≫= deeds).
Proof.
  intros Hs Hid Hr Hw. eapply over_script; [exact (steps_inv es _ _ Hs Hid Hr)|done|exact Hw].
Qed.

(** C6: revocation takes effect without a restart: once the reloader has seen a
    newer file in which the cluster is revoked, no alert of that cluster is accepted
    any more, over either transport and in any interleaving, however later reloads
    fail, until a file is installed that lists it as active again. *)
Theorem revocation_cuts_off (es : list (event W)) (cluster data : string) (m : Time) (n n' : nat) (g g' : program T S W) :
  revokes (pg_tenants g) cluster m data →
  steps (Reloaded (Some m) (Some data) :: es) (n, g) (n', g') →
  (∀ e, e ∈ es → ¬ reinstates cluster e) →
  Forall (λ a, ClusterId (deref a) ≠ cluster) (accepted es).
Proof.
  intros Hr (s1 & H1 & Hs)%steps_cons_inv He. apply Forall_forall. inversion H1; subst.
  eapply steps_inactive; [exact Hs| |exact He]. by apply revokes_inactive.
Qed.

End runs.

(** ** A scheduler

    Executes the steps it is told to, if they can be taken. *)
Inductive move :=
| MCall (serial : option Z) (req : Request) (ctx : Ctx)
| MAccess (i : nat)
| MReturn (i j : nat)
| MTimer (id : nat)
| MSignal (expired : bool)
| MDrained (i : nat)
| MExit
| MReload (stat : option Time) (read : option string)
| MTime (n : nat)
| MVisit (method path id verdict : string).

Section scheduler.
Context `{HC : !Clock, HL : !CertLib} {T S W : Type} `{HN : !Num T, HS : !Store.Store S, HW : !Net W}.
Context {PK ESK SK HPK K CK CA : Type}.
Context `{HE : !Ecdsa PK ESK, HX : !X509 PK, HH : !Hpke SK HPK K, HG : !Gcm, HP : !PayloadLib CK CA, HWi : !Wire}.
Context (FF : spec_float → string) (PF : string → option spec_float).
Context (sort : list verdictEntry → list verdictEntry) (i64 : spec_float → Z) (IsPrint : Z → bool).
Context (yaml_tenants : string → option (list Tenant)).
Context (p : Pipeline W) (sv : option Server) (d : option (Deps SK CK)).

Abbreviation step := (step (T := T) FF PF sort i64 IsPrint yaml_tenants p sv d).
Abbreviation steps := (steps (T := T) FF PF sort i64 IsPrint yaml_tenants p sv d).

Definition perform (m : move) (s : nat * program T S W) : option (event W * (nat * program T S W)) :=
  let '(n, g) := s in
  if negb (alive g) then None else
  match m with
  | MCall serial req ctx =>
      match sv with
      | Some srv =>
          if negb (accepting (pg_phase g)) then None else
          let '(_, (n', g')) := on_brain (serve srv serial req ctx) s in
          let new := drop (length (inflight (pg_ingest g))) (inflight (pg_ingest g')) in
          Some (Called (pg_tenants g) new, (n', start_alerts i64 p new g'))
      | None => None
      end
  | MAccess i =>
      match pg_live g !! i with
      | Some (MkGoroutine w past (Call o k)) =>
          let '(b, (n', c')) := exec FF PF sort p o (n, pg_core g) in
          Some (Did w (Action o b),
            (n', set_core c' (set_live (<[i := MkGoroutine w (past ++ [Action o b])%list (k b)]> (pg_live g)) g)))
      | _ => None
      end
  | MReturn i j =>
      match pg_live g !! i with
      | Some (MkGoroutine (Alert a) past (Return _)) =>
          if decide (inflight (pg_ingest g) !! j = Some a) then
            Some (Other, (n, MkProgram (pg_phase g) (pg_tenants g) (MkHandler (delete j (inflight (pg_ingest g))))
              (delete i (pg_live g)) (pg_over g ++ [(Alert a, past)])%list (pg_core g)))
          else None
      | Some (MkGoroutine (Timer key) past (Return _)) =>
          Some (Other, (n, MkProgram (pg_phase g) (pg_tenants g) (pg_ingest g)
            (delete i (pg_live g)) (pg_over g ++ [(Timer key, past)])%list (pg_core g)))
      | _ => None
      end
  | MTimer id =>
      match Correlator.timers (pg_core g).1 !! id with
      | Some (key, when) =>
          if when <=? clk n then
            Some (Other, (n, set_core (Correlator.set_timers (delete id (Correlator.timers (pg_core g).1)) (pg_core g).1, (pg_core g).2)
              (set_live (pg_live g ++ [spawn i64 p (Timer key)])%list g)))
          else None
      | None => None
      end
  | MSignal expired =>
      match pg_phase g with
      | Serving => Some (Other, (n, set_phase (Draining expired) (set_live (pg_live g ++ [spawn i64 p (Main id)])%list g)))
      | _ => None
      end
  | MDrained i =>
      match pg_phase g, pg_live g !! i with
      | Draining e, Some (MkGoroutine (Main order) past (Return _)) =>
          Some (Other, (n, MkProgram (Waiting e) (pg_tenants g) (pg_ingest g) (delete i (pg_live g))
            (pg_over g ++ [(Main order, past)])%list (pg_core g)))
      | _, _ => None
      end
  | MExit =>
      match pg_phase g with
      | Waiting _ => if Wait (pg_ingest g) then Some (Other, (n, set_phase (Exited true) g)) else None
      | _ => None
      end
  | MReload stat read => Some (Reloaded stat read, (n, set_tenants (reload yaml_tenants (pg_tenants g) stat read).2 g))
  | MTime n' => if (n <=? n')%nat then Some (Other, (n', g)) else None
  | MVisit method path id verdict =>
      if negb (accepting (pg_phase g)) then None else
      let '(r, (n', s')) := serve_public (p_feedback p) method path id verdict (n, storage (pg_core g).2) in
      Some (Visited method path id verdict r, (n', set_core ((pg_core g).1, set_storage s' (pg_core g).2) g))
  end.

Fixpoint schedule (ms : list move) (s : nat * program T S W) : option (list (event W) * (nat * program T S W)) :=
  match ms with
  | [] => Some ([], s)
  | m :: ms =>
      match perform m s with
      | Some (e, s') => '(es, s'') ← schedule ms s'; Some (e :: es, s'')
      | None => None
      end
  end.

Lemma perform_step m s e s' : perform m s = Some (e, s') → step e s s'.
Proof.
  destruct s as [n [ph t h live over c]]. unfold perform. destruct (alive _) eqn:Ha; cbn [negb]; [|discriminate].
  destruct m as [serial req ctx|i|i j|id|expired|i| |stat read|n'|method path id verdict]; cbn [pg_phase pg_tenants pg_ingest pg_live pg_over pg_core].
  - destruct sv as [srv|] eqn:Esv; [|discriminate].
    destruct (accepting ph) eqn:Hacc; cbn [negb]; [|discriminate]. destruct (on_brain _ _) as [r [n' g']] eqn:Hb.
    intros [= <- <-]. eapply (s_grpc _ _ _ _ _ _ _ _ _ srv serial req ctx r n (MkProgram ph t h live over c)); [done|exact Hacc|done|exact Hb|].
    destruct (on_brain_takes _ _ _ _ _ _ (serve_takes srv serial req ctx) Hb) as (_ & _ & _ & _ & _ & new & E & _).
    cbn [pg_ingest] in *. by rewrite E, drop_app_length.
  - destruct (live !! i) as [[w past [u|B o k]]|] eqn:El; try discriminate.
    destruct (exec _ _ _ _ o _) as [b [n' c']] eqn:Ee. intros [= <- <-].
    by apply (s_access _ _ _ _ _ _ _ _ _ i w past B o k b n (MkProgram ph t h live over c)).
  - destruct (live !! i) as [[[a|key|order] past [[]|B o k]]|] eqn:El; try discriminate.
    + destruct (decide _) as [Hj|]; [|discriminate]. intros [= <- <-]. by eapply s_return_alert.
    + intros [= <- <-]. by eapply s_return_timer.
  - destruct (Correlator.timers c.1 !! id) as [[key when]|] eqn:Et; [|discriminate].
    destruct (Z.leb_spec when (clk n)); [|discriminate]. intros [= <- <-].
    by apply (s_timer _ _ _ _ _ _ _ _ _ id key when n (MkProgram ph t h live over c)).
  - destruct ph; try discriminate. intros [= <- <-]. by apply (s_signal _ _ _ _ _ _ _ _ _ expired id).
  - destruct ph as [|ex|ex|cl|]; try discriminate.
    destruct (live !! i) as [[[a|key|order] past [[]|B o k]]|] eqn:El; try discriminate. intros [= <- <-]. by eapply s_drained.
  - destruct ph as [|ex|ex|cl|]; try discriminate. destruct (Wait h) eqn:Hw; [|discriminate]. intros [= <- <-].
    by eapply s_exit.
  - intros [= <- <-]. by apply (s_reload _ _ _ _ _ _ _ _ _ stat read n (MkProgram ph t h live over c)).
  - destruct (Nat.leb_spec n n'); [|discriminate]. intros [= <- <-]. by apply s_time.
  - destruct (accepting ph) eqn:Hacc; cbn [negb]; [|discriminate]. destruct (serve_public _ _ _ _ _ _) as [r [n1 s1]] eqn:Ev.
    intros [= <- <-]. by apply (s_public _ _ _ _ _ _ _ _ _ method path id verdict r n (MkProgram ph t h live over c)).
Qed.

Lemma schedule_steps ms s0 s es es' s' :
  steps es s0 s → schedule ms s = Some (es', s') → steps (es ++ es')%list s0 s'.
Proof.
  revert es es' s. induction ms as [|m ms IH]; intros es es' s Hs; cbn [schedule]; [intros [= <- <-]; by rewrite app_nil_r|].
  destruct (perform m s) as [[e s1]|] eqn:Ep; [|discriminate]. apply perform_step in Ep.
  destruct (schedule ms s1) as [[es1 s2]|] eqn:Es; [|discriminate]. intros [= <- <-].
  specialize (IH (es ++ [e])%list es1 s1). rewrite <- app_assoc in IH. apply IH; [|done]. by eapply sr_snoc.
Qed.

(** A schedule from the start. *)
Lemma scheduled ms s es s' : schedule ms s = Some (es, s') → steps es s s'.
Proof. apply (schedule_steps ms s s []). constructor. Qed.
End scheduler.

(** ** A run

    A collector pushes one alert over mTLS and its goroutine processes it; the LLM
    and both receivers fail. *)
Section sample.
#[local] Instance run_clock : Clock := unix_seconds_clock.
#[local] Instance run_certlib : CertLib := sample_certlib.
#[local] Instance run_net : Net seen := failing_net.
#[local] Instance run_observer : Observer failing_pipeline := failing_observer.
#[local] Instance run_ecdsa : Ecdsa unit unit := sample_ecdsa "".
#[local] Instance run_x509 : X509 unit := sample_x509.
#[local] Instance run_hpke : Hpke string string string := sample_hpke.
#[local] Instance run_gcm : Gcm := sample_gcm.
#[local] Instance run_payload_lib : PayloadLib unit unit := sample_payload_lib.
#[local] Instance run_wire : Wire := sample_wire.

Abbreviation sample_step yaml :=
  (step (λ _, "0") (λ _, None) merge_newest (λ _, 0) (λ _, true) yaml failing_pipeline (Some sample_server) (Some sample_deps)) (only parsing).
Abbreviation sample_steps yaml :=
  (steps (λ _, "0") (λ _, None) merge_newest (λ _, 0) (λ _, true) yaml failing_pipeline (Some sample_server) (Some sample_deps)) (only parsing).
Abbreviation no_yaml := (λ _ : string, @None (list Tenant)) (only parsing).

Definition run_program : program spec_float Memory.t seen :=
  MkProgram Serving (br_tenants sample_brain) NewHandler [] [] (correlator_New false 60 25, fresh_rest).

Definition run_alert : ref AlertPayload := sample_firing "prod-a".

Abbreviation sample_schedule yaml ms s :=
  (schedule (T := spec_float) (λ _, "0") (λ _, None) merge_newest (λ _, 0) yaml failing_pipeline (Some sample_server) ms s)
  (only parsing).

Definition run_result : list (event seen) * (nat * program spec_float Memory.t seen) :=
  default ([], (0%nat, run_program))
    (sample_schedule no_yaml (MCall None (IngestRequest run_alert) sample_ctx :: repeat (MAccess 0) 15 ++ [MReturn 0 0])%list
      (0%nat, run_program)).

Definition run_events : list (event seen) := run_result.1.
Definition run_done : program spec_float Memory.t seen := run_result.2.2.

(** What the goroutine did. *)
Definition run_trace : list (action seen) := snd (nth 0 (pg_over run_done) (Timer "", [])).

Definition run_sent : list (string * Message) := sent (seen_in (outside (pg_core run_done).2)).

Lemma run_steps : sample_steps no_yaml run_events (0%nat, run_program) (run_result.2.1, run_done).
Proof.
  apply (scheduled _ _ _ _ _ _ _ _ _ (MCall None (IngestRequest run_alert) sample_ctx :: repeat (MAccess 0) 15 ++ [MReturn 0 0])%list).
  vm_compute. reflexivity.
Qed.

Lemma run_renders a : a ∈ accepted run_events → renders a.
Proof.
  assert (accepted run_events = [run_alert]) as -> by (vm_compute; reflexivity).
  intros ->%list_elem_of_singleton. apply sample_renderable.
Qed.

Lemma run_idle : idle failing_pipeline run_program.
Proof. split_and!; reflexivity. Qed.


Lemma accepted_alerts_are_announced_witness :
  (panicked (pg_core run_done).2 = true ↔ Exists analyzer_panicked run_events) ∧
  ∃ msgs fulls,
    (accepted run_events ≡ₚ (pg_live run_done ≫= in_hand) ++ Schedule.buffered (pg_core run_done).1 ++ mjoin fulls ++
       dups_of (deeds_in (records run_done)) ++ (msgs ≫= about))%list ∧
    (sent (seen_in (outside (pg_core run_done).2)) ≡ₚ
       (msgs ≫= deliveries failing_pipeline) ++ (pg_live run_done ≫= half_sent))%list ∧
    Forall well_formed msgs ∧
    Forall (λ l, Correlator.maxGroup (pg_core run_done).1 <= Z.of_nat (length l)) fulls ∧
    (Correlator.enabled (pg_core run_program).1 = false →
       Schedule.buffered (pg_core run_done).1 = [] ∧ mjoin fulls = []).
Proof.
  apply (accepted_alerts_are_announced (λ _, "0") (λ _, None) merge_newest (λ _, 0) (λ _, true) no_yaml failing_pipeline
    (Some sample_server) (Some sample_deps) run_events 0 run_result.2.1 run_program run_done).
  - exact run_steps.
  - exact run_idle.
  - exact run_renders.
Defined.

Lemma goroutines_keep_to_their_script_witness :
  script failing_pipeline false (Alert run_alert) (run_trace ≫= deeds).
Proof.
  apply (goroutines_keep_to_their_script (λ _, "0") (λ _, None) merge_newest (λ _, 0) (λ _, true) no_yaml failing_pipeline
    (Some sample_server) (Some sample_deps) run_events 0 run_result.2.1 run_program run_done).
  - exact run_steps.
  - exact run_idle.
  - exact run_renders.
  - vm_compute. left.
Defined.

(** The same call after the vendor has revoked the tenant. *)
Definition revoked_tenant : Tenant :=
  MkTenant "prod-a" "acme" ("sha256:" +:+ sha256_hex "t0ken") 0 true 0 "".

Definition revoking_yaml : string → option (list Tenant) := λ _, Some [revoked_tenant].

Definition revoked_result : list (event seen) * (nat * program spec_float Memory.t seen) :=
  default ([], (0%nat, run_program))
    (sample_schedule revoking_yaml [MReload (Some 2) (Some ""); MCall None (IngestRequest run_alert) sample_ctx]
      (0%nat, run_program)).

Definition revoked_events : list (event seen) := tail revoked_result.1.

Lemma revoked_steps :
  sample_steps revoking_yaml (Reloaded (Some 2) (Some "") :: revoked_events) (0%nat, run_program) (revoked_result.2.1, revoked_result.2.2).
Proof.
  apply (scheduled _ _ _ _ _ _ _ _ _ [MReload (Some 2) (Some ""); MCall None (IngestRequest run_alert) sample_ctx]).
  vm_compute. reflexivity.
Qed.

Lemma revocation_cuts_off_witness : Forall (λ a, ClusterId (deref a) ≠ "prod-a") (accepted revoked_events).
Proof.
  apply (revocation_cuts_off (λ _, "0") (λ _, None) merge_newest (λ _, 0) (λ _, true) revoking_yaml failing_pipeline
    (Some sample_server) (Some sample_deps) revoked_events "prod-a" "" 2 0 revoked_result.2.1 run_program revoked_result.2.2).
  - split; [by intros c [= <-]|]. exists [revoked_tenant], {[ "prod-a" := revoked_tenant ]}, revoked_tenant.
    split_and!; vm_compute; reflexivity.
  - exact revoked_steps.
  - intros e. assert (revoked_events = [Called (reload revoking_yaml (pg_tenants run_program) (Some 2) (Some "")).2 []]) as ->
      by (vm_compute; reflexivity).
    intros ->%list_elem_of_singleton. by intros (? & ? & ? & ? & ? & _).
Defined.

(** Both registered receivers got the alert, the absent one did not. *)
Example run_delivers : map fst run_sent = ["ops"; "pager"].
Proof. vm_compute. reflexivity. Qed.
End sample.
