(* ===== verification/Startup.v ===== *)
(** * The program

    [cmd/muthur/main.go]: how [run] builds the brain from its configuration and
    which transports it mounts. Ports, probes, the metrics page, reflection and log
    lines are left out; so is the configuration of the logger, except that building
    it can fail. *)
From S2P Require Import Prelude GoStrings GoEncoding Proto Identity Store Dedup Replay Tenants Signer Routing Limiter.
From S2P Require Import Correlator Analysis Providers Evaluator Embed Cache Feedback History SilenceClient Notify Channels.
From S2P Require Import ChannelText Sealed Trust Ingest GrpcSrv SignedSrv Pipeline Config.
From Stdlib Require Import Ascii SpecFloat.

Open Scope Z_scope.

Inductive start_error :=
| StartConfig (e : Config.config_error)
| StartLogger
| StartFile (e : file_error)
| StartReceivers (e : string)
| StartStore (e : string)
| StartEvaluator (e : Evaluator.config_error)
| StartTLS (e : tls_error)
| StartSigner (e : ca_error)
| StartTenants (e : reload_error)
| StartKeys (e : option key_error)
| StartTrust (e : tls_error).

(** [fmt.Errorf("...: %w", err)]. *)
Definition wrap {E A} (f : E → start_error) (r : result E A) : result start_error A :=
  match r with Ok a => Ok a | Err e => Err (f e) end.

(** The receivers a rule names that no notifier was built for: each is logged. *)
Definition unknown_receivers {W} (notifiers : gmap string (Notifier W)) (rules : list Rule) : list (string * string) :=
  flat_map (λ rule, map (λ name, (Rule_Name rule, name)) (filter (λ name, notifiers !! name = None) (Receivers rule))) rules.

(** The world of a provider in use is the world outside with the provider's
    mutable fields. *)
#[export] Instance st_net {W} `{!Net W} : Net (openai_state * W) := {|
  http_do := λ r, st_world (http_do r);
  wait := λ d, st_world (wait d);
  request_error := request_error;
|}.

#[export] Instance st_mailer {W} `{!Smtp.Mailer W} : Smtp.Mailer (openai_state * W) := {|
  Smtp.SendMail := λ addr a from to msg, st_world (Smtp.SendMail addr a from to msg);
|}.

(** What [run] has built when it starts to listen. *)
Record System (T S W C SK X : Type) := MkSystem {
  sys_config : Config.Config;
  sys_warned : list (string * string);
  sys_pipeline : Pipeline (openai_state * W);
  sys_limiter : option (Limiter.Pool T);
  sys_store : S;
  sys_correlator : Correlator.Correlator;
  sys_server : Server;
  sys_tenants : TenantsReloader;
  sys_ca : CaSigner X;
  sys_mtls : option (TLSConfig C);
  sys_signed : option (Deps SK (CaKey X));
}.
Arguments MkSystem {T S W C SK X}. Arguments sys_config {T S W C SK X}. Arguments sys_warned {T S W C SK X}.
Arguments sys_pipeline {T S W C SK X}. Arguments sys_limiter {T S W C SK X}. Arguments sys_store {T S W C SK X}.
Arguments sys_correlator {T S W C SK X}. Arguments sys_server {T S W C SK X}. Arguments sys_tenants {T S W C SK X}.
Arguments sys_ca {T S W C SK X}. Arguments sys_mtls {T S W C SK X}. Arguments sys_signed {T S W C SK X}.

Section run.
Context `{HC : !Clock} {T S W : Type} `{HN : !Num T, HW : !Net W, HM : !Smtp.Mailer W, HA : !AnthropicSDK W}.
Context {C SK PK K X : Type} `{HH : !Hpke SK PK K, HK : !KeyLib X SK, HP : !Pem, HCA : !CaLib X}.

(** The environment and the files, which do not change while the brain starts. *)
Context (getenv : string → string) (read_file : string → result string string) (mtime : string → option Time).
Context (ParseFloat : string → option spec_float) (pem_certs : string → list string).
Context (X509KeyPair : string → string → option C).
Context (yaml_file : string → option FileConfig) (yaml_tenants : string → option (list Tenant)).
Context (map_order : list (string * string) → list (string * string)).

(** The stores, the logger, and what the evaluator and the embedder need. *)
Context (NewMemory : S) (NewRedis : string → string → result string S) (build_logger : string → option string).
Context (FormatFloat : spec_float → string) (IsPrint : Z → bool) (json_error : string → string).
Context (emit : audit_record → M (openai_state * W) unit) (is_word : Z → bool) (lower_rune : Z → string).

Definition files : TrustFiles := {|
  ReadFile := λ p, match read_file p with Ok d => Some d | Err _ => None end;
  Trust.pem_certs := pem_certs;
|}.

(** [tls.LoadX509KeyPair]. *)
Definition LoadX509KeyPair (certFile keyFile : string) : option C :=
  cert ← @ReadFile files certFile; key ← @ReadFile files keyFile; X509KeyPair cert key.

Definition newStore (cfg : Config.Config) : result string S :=
  if seqb (RedisURL cfg) "" then Ok NewMemory else NewRedis (RedisURL cfg) (RedisPrefix cfg).

(** [evaluator.Config] from the settings. *)
Definition evaluator_config (cfg : Config.Config) : Evaluator.Config :=
  Evaluator.MkConfig (LLMProvider cfg) (LLMModel cfg) (LLMBaseURL cfg) (LLMAPIKey cfg) (LLMSchemaMode cfg)
    (LLMTemperature cfg) (LLMMaxRetries cfg) (LLMTimeout cfg) (LLMAuditMode cfg) (LLMAirGapped cfg).

(** The end of [evaluator.New]: the provider's state, its preflight, and the
    analyzer. *)
Definition provider_lift (p : Providers.provider W) : Providers.provider (openai_state * W) :=
  MkProvider (Providers.name p) (Providers.model p) (st_world (structured p)) (λ prompt, st_world (complete p prompt)).

Definition start_provider (b : backend) : M (openai_state * W) (Providers.provider (openai_state * W)) :=
  match b with
  | Anthropic p => mret (provider_lift (anthropic_provider p))
  | OpenAI p st =>
      modify (λ s, (st, s.2));;
      _ ← preflight FormatFloat json_error p;
      mret (openai_provider FormatFloat json_error p)
  end.

Definition start_evaluator (r : backend * Z * AuditMode) : M (openai_state * W) (Analyzer (openai_state * W)) :=
  let '(b, maxRetries, auditMode) := r in
  p ← start_provider b;
  mret (evaluator_analyzer IsPrint json_error emit (Evaluator.MkEvaluator p maxRetries auditMode)).

(** The parts between the evaluator and the transports. *)
Definition embedder_of (cfg : Config.Config) : option Embedder :=
  if SemanticCacheEnabled cfg then Some (hash_embedder is_word lower_rune (NewHashEmbedder (EmbedDim cfg))) else None.

Definition build_pipeline (cfg : Config.Config) (fileCfg : FileConfig) (notifiers : gmap string (Notifier (openai_state * W)))
    (eval : Analyzer (openai_state * W)) : Pipeline (openai_state * W) :=
  MkPipeline (dedup_New (DedupWindowMinutes cfg)) eval
    (cache_New (LLMCacheEnabled cfg) (LLMCacheTTLMinutes cfg) (embedder_of cfg) (SemanticCacheEnabled cfg)
       (SemanticThreshold cfg))
    (routing_New (FC_Routing fileCfg)) notifiers
    (NewClient (AlertManagerURL cfg) (AlertManagerSilenceDur cfg) (AlertManagerSilenceOn cfg)
       (AlertManagerSilenceAllow cfg))
    (feedback_New (PublicURL cfg) (FeedbackFewShot cfg))
    (if IncidentHistoryEnabled cfg then Some (history_New (IncidentTTL cfg)) else None)
    (MkEvidenceConfig (EvidenceEnabled cfg) (EvidenceLogLines cfg)).

(** The configuration, the receivers and the store. *)
Definition start_config : result start_error (Config.Config * FileConfig * gmap string (Notifier (openai_state * W)) * S) :=
  cfg ← wrap StartConfig (Load getenv read_file ParseFloat);
  match build_logger (LogLevel cfg) with
  | Some _ => Err StartLogger
  | None =>
      fileCfg ← wrap StartFile (LoadFile yaml_file read_file (ConfigFile cfg));
      notifiers ← wrap StartReceivers (BuildReceivers factories read_file map_order (FC_Receivers fileCfg));
      st ← wrap StartStore (newStore cfg);
      Ok (cfg, fileCfg, notifiers, st)
  end.

(** The material of the transports. *)
Definition start_mtls (cfg : Config.Config) : result start_error (option (TLSConfig C)) :=
  if AuthModeEnabled cfg AuthModeMTLS then
    let cert := TLSServerCertFile cfg in
    let key := TLSServerKeyFile cfg in
    tls ← wrap StartTLS (@LoadServerTLS files C
      (MkServerTLSConfig cert key (TLSTrustRootFile cfg) (Config.IntermediateCAFile cfg))
      (mtime cert) (LoadX509KeyPair cert key));
    Ok (Some tls)
  else Ok None.

Definition start_signed (cfg : Config.Config) (sv : Server) (ca : CaSigner X) : result start_error (option (Deps SK (CaKey X))) :=
  if AuthModeEnabled cfg AuthModeSigned then
    keys ← match LoadHPKEKeys (@ReadFile files (HPKEKeyFile cfg)) with
           | Some r => wrap (λ e, StartKeys (Some e)) r
           | None => Err (StartKeys None)
           end;
    trust ← wrap StartTrust (@LoadTrustPools files (TLSTrustRootFile cfg) (Config.IntermediateCAFile cfg));
    Ok (Some (MkDeps sv keys trust (caKey ca) (caCert ca)))
  else Ok None.

Definition start_tenants (cfg : Config.Config) : result start_error TenantsReloader :=
  wrap StartTenants (NewTenantsReloader yaml_tenants (TenantsReloadInterval cfg) (mtime (ConfigFile cfg))
    (@ReadFile files (ConfigFile cfg))).

Definition start_transports (cfg : Config.Config) :
    result start_error (Server * TenantsReloader * CaSigner X * option (TLSConfig C) * option (Deps SK (CaKey X))) :=
  tls ← start_mtls cfg;
  let replayGuard := NewReplayGuard (ReplayWindow cfg) (RedisPrefix cfg) in
  ca ← wrap StartSigner (@NewSignerFromFiles X HP HCA files (Config.IntermediateCAFile cfg) (IntermediateKeyFile cfg));
  tenants ← start_tenants cfg;
  let sv := MkServer (RedisPrefix cfg) (MkSigner (ca_MaxLeafDuration ca)) replayGuard in
  signed ← start_signed cfg sv ca;
  Ok (sv, tenants, ca, tls, signed).

(** [run] up to the point where it listens. *)
Definition start : M (openai_state * W) (result start_error (System T S W C SK X)) :=
  match start_config with
  | Err e => mret (Err e)
  | Ok (cfg, fileCfg, notifiers, st) =>
    match evaluator_New (evaluator_config cfg) with
    | Err e => mret (Err (StartEvaluator e))
    | Ok b =>
      eval ← start_evaluator b;
      match start_transports cfg with
      | Err e => mret (Err e)
      | Ok (sv, tenants, ca, tls, signed) =>
        mret (Ok (MkSystem cfg (unknown_receivers notifiers (FC_Routing fileCfg))
          (build_pipeline cfg fileCfg notifiers eval)
          (NewPool (LLMMaxCallsPerMinute cfg) (LLMBurst cfg) (LLMMaxConcurrent cfg)) st
          (pipeline_correlator
             (MkCorrelation (CorrelationEnabled cfg) (CorrelationWindowSeconds cfg) (CorrelationMaxGroup cfg)))
          sv tenants ca tls signed))
      end
    end
  end.
End run.

(** ** Lemmas *)

Lemma wrap_Ok {E A} (f : E → start_error) (r : result E A) a : wrap f r = Ok a ↔ r = Ok a.
Proof. destruct r; split; by intros [= ->]. Qed.

Section lemmas.
Context `{HC : !Clock} {T S W : Type} `{HN : !Num T, HW : !Net W, HM : !Smtp.Mailer W, HA : !AnthropicSDK W}.
Context {C SK PK K X : Type} `{HH : !Hpke SK PK K, HK : !KeyLib X SK, HP : !Pem, HCA : !CaLib X}.
Context (getenv : string → string) (read_file : string → result string string) (mtime : string → option Time).
Context (ParseFloat : string → option spec_float) (pem_certs : string → list string).
Context (X509KeyPair : string → string → option C).
Context (yaml_file : string → option FileConfig) (yaml_tenants : string → option (list Tenant)).
Context (map_order : list (string * string) → list (string * string)).
Context (NewMemory : S) (NewRedis : string → string → result string S) (build_logger : string → option string).
Context (FormatFloat : spec_float → string) (IsPrint : Z → bool) (json_error : string → string).
Context (emit : audit_record → M (openai_state * W) unit) (is_word : Z → bool) (lower_rune : Z → string).

Abbreviation started := (start (T := T) (SK := SK) (X := X) getenv read_file mtime ParseFloat pem_certs X509KeyPair yaml_file yaml_tenants
  map_order NewMemory NewRedis build_logger FormatFloat IsPrint json_error emit is_word lower_rune).

(** The steps of a start that succeeded. *)
Record start_steps (sys : System T S W C SK X) (c : nat * (openai_state * W)) : Prop := {
  ss_load : Load getenv read_file ParseFloat = Ok (sys_config sys);
  ss_file : ∃ fileCfg notifiers b eval,
    LoadFile yaml_file read_file (ConfigFile (sys_config sys)) = Ok fileCfg ∧
    BuildReceivers factories read_file map_order (FC_Receivers fileCfg) = Ok notifiers ∧
    evaluator_New (evaluator_config (sys_config sys)) = Ok b ∧
    (start_evaluator FormatFloat IsPrint json_error emit b c).1 = eval ∧
    sys_warned sys = unknown_receivers notifiers (FC_Routing fileCfg) ∧
    sys_pipeline sys = build_pipeline is_word lower_rune (sys_config sys) fileCfg notifiers eval;
  ss_store : newStore NewMemory NewRedis (sys_config sys) = Ok (sys_store sys);
  ss_transports :
    start_transports read_file mtime pem_certs X509KeyPair yaml_tenants (sys_config sys) =
      Ok (sys_server sys, sys_tenants sys, sys_ca sys, sys_mtls sys, sys_signed sys);
  ss_limiter : sys_limiter sys =
    NewPool (LLMMaxCallsPerMinute (sys_config sys)) (LLMBurst (sys_config sys)) (LLMMaxConcurrent (sys_config sys));
}.

Lemma start_Ok c sys : (started c).1 = Ok sys → start_steps sys c.
Proof.
  unfold start. destruct (start_config _ _ _ _ _ _ _ _) as [[[[cfg fileCfg] notifiers] st]|e] eqn:E1; [|done].
  destruct (evaluator_New _) as [b|e] eqn:E2; [|done]. munfold.
  destruct (start_evaluator _ _ _ _ b c) as [eval c1] eqn:E3.
  destruct (start_transports _ _ _ _ _ cfg) as [[[[[sv tenants] ca] tls] signed]|e] eqn:E4; [|done].
  cbn [fst]. intros [= <-].
  unfold start_config in E1. apply result_bind_Ok in E1 as (cfg' & H1%wrap_Ok & E1).
  destruct (build_logger _); [done|]. apply result_bind_Ok in E1 as (f' & H2%wrap_Ok & E1).
  apply result_bind_Ok in E1 as (n' & H3%wrap_Ok & E1). apply result_bind_Ok in E1 as (s' & H4%wrap_Ok & [= -> -> -> ->]).
  split; cbn; try done. exists fileCfg, notifiers, b, eval. rewrite E3. done.
Qed.

(** The provider behind the analyzer is the one the settings name. *)
Lemma start_evaluator_name b mr am c :
  Analyzer_Name (start_evaluator FormatFloat IsPrint json_error emit (b, mr, am) c).1 =
    match b with Anthropic _ => "anthropic" | OpenAI _ _ => "openai-compatible" end.
Proof.
  unfold start_evaluator, start_provider. munfold. destruct b as [p|p st]; [done|].
  munfold. unfold modify. cbn [fst snd]. by destruct (preflight _ _ _ _) as [r c1].
Qed.

Lemma evaluator_New_airgapped (cfg : Evaluator.Config) p mr am :
  AirGapped cfg = true → evaluator_New cfg = Ok (Anthropic p, mr, am) → False.
Proof.
  intros Ha. unfold evaluator_New. rewrite Ha. destruct (_ || _); [done|]. repeat case_match; done.
Qed.

Abbreviation tls_material cfg :=
  (start_mtls read_file mtime pem_certs X509KeyPair cfg) (only parsing).

Lemma start_mtls_Ok cfg tls : start_mtls read_file mtime pem_certs X509KeyPair cfg = Ok tls →
  (is_Some tls ↔ AuthModeMTLS ∈ AuthModes cfg) ∧
  ∀ t, tls = Some t → @LoadServerTLS (files read_file pem_certs) C
    (MkServerTLSConfig (TLSServerCertFile cfg) (TLSServerKeyFile cfg) (TLSTrustRootFile cfg) (Config.IntermediateCAFile cfg))
    (mtime (TLSServerCertFile cfg))
    (LoadX509KeyPair read_file pem_certs X509KeyPair (TLSServerCertFile cfg) (TLSServerKeyFile cfg)) = Ok t.
Proof.
  rewrite <- AuthModeEnabled_spec. unfold start_mtls. destruct (AuthModeEnabled _ _).
  - intros (t & Ht%wrap_Ok & [= <-])%result_bind_Ok. split; [by split; eauto|]. by intros ? [= <-].
  - intros [= <-]. split; [|done]. split; [by intros []|done].
Qed.

Lemma start_signed_Ok cfg sv (ca : CaSigner X) signed :
  start_signed (PK := PK) (K := K) read_file pem_certs cfg sv ca = Ok signed →
  (is_Some signed ↔ AuthModeSigned ∈ AuthModes cfg) ∧
  ∀ d, signed = Some d → dp_server d = sv ∧ dp_ca_key d = caKey ca ∧ dp_ca_raw d = caCert ca ∧
    (∃ data, read_file (HPKEKeyFile cfg) = Ok data ∧ ParseHPKEKeys data = Some (Ok (dp_keys d))) ∧
    @LoadTrustPools (files read_file pem_certs) (TLSTrustRootFile cfg) (Config.IntermediateCAFile cfg) = Ok (dp_trust d).
Proof.
  rewrite <- AuthModeEnabled_spec. unfold start_signed. destruct (AuthModeEnabled _ _).
  - intros (keys & Hk & H)%result_bind_Ok. apply result_bind_Ok in H as (trust & Ht%wrap_Ok & [= <-]).
    split; [by split; eauto|]. intros ? [= <-]. cbn. split_and!; try done.
    destruct (LoadHPKEKeys _) as [r|] eqn:E; [|done]. apply wrap_Ok in Hk as ->.
    cbn in E. destruct (read_file (HPKEKeyFile cfg)) as [data|]; [|done]. exists data. by split.
  - intros [= <-]. split; [|done]. split; [by intros []|done].
Qed.

Lemma LoadServerTLS_pair `{!TrustFiles} (cfg : ServerTLSConfig) (stat : option Time) (pair : option C) t :
  LoadServerTLS cfg stat pair = Ok t → stat ≠ None ∧ pair ≠ None.
Proof.
  unfold LoadServerTLS. destruct (_ || _); [done|]. intros (r & Hr & _)%result_bind_Ok.
  unfold newCertReloader, cr_load in Hr. destruct stat; [|done]. by destruct pair.
Qed.

(** The tenants are those of the file, and are polled at a positive interval. *)
Lemma start_tenants_Ok cfg r : start_tenants read_file mtime pem_certs yaml_tenants cfg = Ok r →
  0 < TenantsReloadInterval cfg →
  pollEvery r = TenantsReloadInterval cfg ∧
  ∃ data list idx, read_file (ConfigFile cfg) = Ok data ∧ yaml_tenants data = Some list ∧
    NewTenants list = Ok idx ∧ Current r = Some idx.
Proof.
  unfold start_tenants. intros H%wrap_Ok Hpos. revert H. unfold NewTenantsReloader, reload. cbn [cached].
  rewrite (proj2 (Z.leb_gt _ _) Hpos). destruct (mtime _) as [t|]; [|done]. cbn [ReadFile files].
  destruct (read_file (ConfigFile cfg)) as [data|]; [|done]. destruct (yaml_tenants data) as [list|] eqn:E1; [|done].
  destruct (NewTenants list) as [idx|] eqn:E2; [|done]. intros [= <-]. split; [done|]. by exists data, list, idx.
Qed.

(** C15: the brain that starts is the one configured. It runs under a valid
    configuration; each transport is mounted exactly when its mode is enabled, and
    at least one is; both serve the same server, whose replay window is positive and
    whose signer caps leaves at 30 days, and trust the same certificates; the keys
    of the signed transport are those of the key file; the tenants in force are
    those of the configuration file; an air-gapped brain never runs the cloud
    provider; and every receiver a rule names either has a notifier or was
    reported. *)
Theorem startup_as_configured (c : nat * (openai_state * W)) :
  match (start (T := T) (SK := SK) (X := X) getenv read_file mtime ParseFloat pem_certs X509KeyPair yaml_file yaml_tenants
      map_order NewMemory NewRedis build_logger FormatFloat IsPrint json_error emit is_word lower_rune c).1 with
  | Err _ => True
  | Ok sys =>
      let cfg := sys_config sys in
      valid cfg ∧
      (is_Some (sys_mtls sys) ↔ AuthModeMTLS ∈ AuthModes cfg) ∧
      (is_Some (sys_signed sys) ↔ AuthModeSigned ∈ AuthModes cfg) ∧
      (is_Some (sys_mtls sys) ∨ is_Some (sys_signed sys)) ∧
      0 < rg_window (sv_guard (sys_server sys)) ∧ MaxLeafDuration (sv_signer (sys_server sys)) = 30 * 24 * Hour ∧
      (∀ d, sys_signed sys = Some d → dp_server d = sys_server sys ∧
         ∃ data, read_file (HPKEKeyFile cfg) = Ok data ∧ ParseHPKEKeys data = Some (Ok (dp_keys d))) ∧
      (∀ tls d, sys_mtls sys = Some tls → sys_signed sys = Some d →
         ClientCAs tls = Roots (dp_trust d) ∪ Intermediates (dp_trust d)) ∧
      (∃ data list idx, read_file (ConfigFile cfg) = Ok data ∧ yaml_tenants data = Some list ∧
         NewTenants list = Ok idx ∧ Current (sys_tenants sys) = Some idx) ∧
      (LLMAirGapped cfg = true → Analyzer_Name (p_evaluator (sys_pipeline sys)) = "openai-compatible") ∧
      (∀ rule name, rule ∈ rules (p_router (sys_pipeline sys)) → name ∈ Receivers rule →
         is_Some (p_notifiers (sys_pipeline sys) !! name) ∨ (Rule_Name rule, name) ∈ sys_warned sys)
  end.
Proof.
  destruct (started c).1 as [sys|e] eqn:E; [|done]. apply start_Ok in E as [Hl Hf Hs Ht _].
  assert (valid (sys_config sys)) as Hv.
  { apply Load_Ok in Hl as (key & modes & Henv & ->). by eapply config_of_valid. }
  unfold start_transports in Ht. apply result_bind_Ok in Ht as (tls & Htls & Ht).
  apply result_bind_Ok in Ht as (ca & Hca%wrap_Ok & Ht). apply result_bind_Ok in Ht as (tn & Htn & Ht).
  apply result_bind_Ok in Ht as (sg & Hsg & [= Esv Etn Eca Etls Esg]). subst tls tn sg ca.
  apply start_mtls_Ok in Htls as [Hm Hm']. apply start_signed_Ok in Hsg as [Hg Hg'].
  apply NewSignerFromFiles_Ok in Hca as (_ & Hdur & _).
  apply start_tenants_Ok in Htn as (_ & Htn); [|apply Hv].
  destruct Hf as (fileCfg & notifiers & [[b mr] am] & eval & _ & _ & Hb & Heval & Hw & Hp).
  split; [done|]. split; [done|]. split; [done|]. split; [|split; [|split; [|split; [|split; [|split; [done|split]]]]]].
  - rewrite Hm, Hg. destruct (v_modes _ Hv) as [Hne Hk]. destruct (AuthModes _) as [|m l]; [done|].
    apply Forall_cons in Hk as [[->| ->] _]; [left|right]; left.
  - rewrite <- Esv. unfold NewReplayGuard. cbn. destruct (_ <=? 0) eqn:E; zbool; [done|lia].
  - rewrite <- Esv. exact Hdur.
  - intros d Hd. destruct (Hg' d Hd) as (-> & _ & _ & Hk & _). by split.
  - intros t d Ht Hd. destruct (Hg' d Hd) as (_ & _ & _ & _ & Htr). specialize (Hm' t Ht).
    apply LoadServerTLS_pair in Hm' as Hpair. destruct Hpair as [Hst Hpair].
    pose proof (pools_alike (HT := files read_file pem_certs)
      (MkServerTLSConfig (TLSServerCertFile (sys_config sys)) (TLSServerKeyFile (sys_config sys))
        (TLSTrustRootFile (sys_config sys)) (Config.IntermediateCAFile (sys_config sys)))
      (mtime (TLSServerCertFile (sys_config sys)))
      (LoadX509KeyPair read_file pem_certs X509KeyPair (TLSServerCertFile (sys_config sys)) (TLSServerKeyFile (sys_config sys)))) as H.
    rewrite Hm' in H. cbn [TrustRootFile Trust.IntermediateCAFile] in H. rewrite Htr in H.
    destruct (v_mtls _ Hv) as [? ?]; [apply Hm; eauto|]. destruct (v_trust _ Hv) as (? & _ & _). by apply H.
  - intros Ha. rewrite Hp. cbn. rewrite <- Heval, start_evaluator_name. destruct b as [p|]; [|done].
    exfalso. eapply evaluator_New_airgapped; [|exact Hb]. exact Ha.
  - intros rule name Hr Hn. rewrite Hp in *. cbn in Hr |- *. destruct (notifiers !! name) eqn:E; [eauto|right].
    rewrite Hw. apply list_elem_of_In, in_flat_map. exists rule. split; [by apply list_elem_of_In|].
    apply in_map, list_elem_of_In, list_elem_of_filter. by split.
Qed.

(** A mistyped setting does not stop the brain, it removes the protection the
    setting stands for: when the call rate or the concurrency is not a number the
    cost backstop is off and every LLM call is granted; when the deduplication
    window is not a number its markers never expire; and an air-gap switch that is
    not a boolean is off. With readable, positive limits the backstop is on. *)
Theorem malformed_settings_fail_open (c : nat * (openai_state * W)) :
  match (start (T := T) (SK := SK) (X := X) getenv read_file mtime ParseFloat pem_certs X509KeyPair yaml_file yaml_tenants
      map_order NewMemory NewRedis build_logger FormatFloat IsPrint json_error emit is_word lower_rune c).1 with
  | Err _ => True
  | Ok sys =>
      let rate := Atoi (envOr getenv "LLM_MAX_CALLS_PER_MINUTE" "60") in
      let concurrent := Atoi (envOr getenv "LLM_MAX_CONCURRENT" "8") in
      (rate.2 = Some ErrSyntax ∨ concurrent.2 = Some ErrSyntax →
         sys_limiter sys = None ∧ ∀ id n, Pool_Acquire id (n, sys_limiter sys) = (true, (n, None))) ∧
      (0 < rate.1 → 0 < concurrent.1 → is_Some (sys_limiter sys)) ∧
      ((Atoi (envOr getenv "DEDUP_WINDOW_MINUTES" "15")).2 = Some ErrSyntax →
         Dedup.window (p_dedup (sys_pipeline sys)) = 0 ∧ ∀ te, expires te (Dedup.window (p_dedup (sys_pipeline sys))) = None) ∧
      (ParseBool (getenv "LLM_AIR_GAPPED") = None → LLMAirGapped (sys_config sys) = false)
  end.
Proof.
  destruct (started c).1 as [sys|e] eqn:E; [|done]. apply start_Ok in E as [Hl Hf _ _ Hlim].
  apply Load_Ok in Hl as (key & modes & _ & Hcfg). rewrite Hcfg in Hlim. cbn in Hlim. unfold atoi_env, NewPool in Hlim.
  cbv zeta. split_and!.
  - intros H. assert (sys_limiter sys = None) as ->; [|done]. rewrite Hlim.
    destruct H as [H|H]; apply Atoi_syntax in H; rewrite H; [done|by rewrite orb_true_r].
  - intros H1 H2. rewrite Hlim, !(proj2 (Z.leb_gt _ _)) by done. cbn [orb]. eauto.
  - intros H%Atoi_syntax. destruct Hf as (? & ? & ? & ? & _ & _ & _ & _ & _ & ->). rewrite Hcfg. cbn.
    unfold atoi_env. rewrite H. done.
  - intros H. rewrite Hcfg. cbn. unfold boolEnv. rewrite H. by destruct (seqb _ "").
Qed.
End lemmas.

(** ** A start

    Both transports, with the example environment of [Config], files that hold
    what the parsers of the examples expect, and a rule that names a receiver with
    an unknown type. *)
Definition sample_net : Net unit := {|
  http_do := λ _, mret (Err "down");
  wait := λ _, mret None;
  request_error := λ _, None;
|}.

Definition sample_mailer : Smtp.Mailer unit := {| Smtp.SendMail := λ _ _ _ _ _, mret (Smtp.Sent None) |}.
Definition sample_sdk : AnthropicSDK unit := {| messages_new := λ _, mret (Err "down") |}.

Definition sample_ca_lib : CaLib string := {|
  ca_ParseCertificate := λ _, Some true;
  ca_ParsePKCS8 := λ der, Some (EcdsaPrivate der);
  ca_ParseEC := Some;
  ca_ParsePKCS1 := Some;
|}.

Definition sample_file_config : FileConfig :=
  MkFileConfig
    [MkReceiver "ops" "webhook" {[ "url" := "https://hooks/x" ]}; MkReceiver "pager" "carrier-pigeon" ∅]
    [MkRule "all" (MkMatch "" "" "" "") ["ops"; "pager"]] [sample_tenant].

Definition sample_disk (path : string) : result string string :=
  if seqb path "/config/muthur.yaml" then Ok "yaml"
  else if seqb path "hpke" then Ok sample_key_file
  else if bool_decide (path ∈ ["root"; "inter"; "inter.key"; "server.crt"; "server.key"])
  then Ok ("K6b31" +:+ String "010" "") else Err "no such file".

Definition sample_started (env : string → string) : result start_error (System spec_float Memory.t unit string string string) :=
  let HC := unix_seconds_clock in
  (start (HC := HC) (HW := sample_net) (HM := sample_mailer) (HA := sample_sdk) (HH := sample_hpke) (HK := sample_keylib)
    (HP := sample_pem) (HCA := sample_ca_lib)
    env sample_disk (λ _, Some 1) no_floats (λ s, Split s ",") (λ c k, Some (c +:+ k)) (λ _, Some sample_file_config)
    (λ _, Some [sample_tenant]) id Memory.NewMemory (λ _ _, Err "no redis") (λ _, None) (λ _, "") (λ _, true) (λ _, "")
    (λ _, mret tt) (λ _, false) (λ _, "") (0%nat, (MkOpenAIState modeAuto false, tt))).1.

Definition both_transports : string → string :=
  set_env "AUTH_MODES" "mtls, signed" (set_env "HPKE_KEY_FILE" "hpke" sample_env).

Example sample_start :
  match sample_started both_transports with
  | Ok sys =>
      (sys_warned sys, Analyzer_Name (p_evaluator (sys_pipeline sys)), bool_decide (is_Some (sys_limiter sys))) =
        ([("all", "pager")], "anthropic", true) ∧
      is_Some (sys_mtls sys) ∧ is_Some (sys_signed sys) ∧ is_Some (p_notifiers (sys_pipeline sys) !! "ops")
  | Err _ => False
  end.
Proof. vm_compute. split; [reflexivity|]. split_and!; eexists; reflexivity. Qed.

(** A letter for a digit, and the backstop is gone; a switch that says "yes" does
    not isolate the brain; an absent key file stops the start. *)
Example sample_start_malformed :
  let backstop env := match sample_started env with Ok sys => bool_decide (is_Some (sys_limiter sys)) | Err _ => true end in
  backstop (set_env "LLM_MAX_CALLS_PER_MINUTE" "6O" both_transports) = false ∧
  match sample_started (set_env "LLM_AIR_GAPPED" "yes" both_transports) with
  | Ok sys => Analyzer_Name (p_evaluator (sys_pipeline sys)) = "anthropic" | Err _ => False end ∧
  match sample_started (set_env "LLM_AIR_GAPPED" "true" both_transports) with
  | Err (StartEvaluator AirGappedAnthropic) => True | _ => False end ∧
  match sample_started (set_env "HPKE_KEY_FILE" "missing" both_transports) with
  | Err (StartKeys (Some ErrReadKey)) => True | _ => False end.
Proof. vm_compute. split_and!; done. Qed.
