(* ===== verification/Shutdown.v ===== *)
(** * Shutdown

    The end of [run] in [cmd/muthur/main.go]: with the listeners stopped, the
    pipeline is drained, and the process exits when the goroutines of the ingest
    handler are done or the deadline has passed. The steps are those of [Service];
    here is what they guarantee, and what they do not. *)
From S2P Require Import Prelude GoStrings GoEncoding Sha256 Proto Identity Store Dedup Tenants Signer Routing Limiter Correlator.
From S2P Require Import Analysis Providers Feedback Notify SilenceClient HttpSig Sealed Trust Ingest GrpcSrv SignedSrv Pipeline.
From S2P Require Import Goroutines Service.
From Stdlib Require Import Ascii SpecFloat.

Open Scope Z_scope.

(** The drain stops the timers of the buckets it has found. *)
Definition stops {W} (e : event W) : bool :=
  match e with Did _ (Action (StopTimers _) _) => true | _ => false end.

Definition drained {W} (es : list (event W)) : bool := existsb stops es.

(** The alert a step buffers. *)
Definition buffers {W} (e : event W) : list (ref AlertPayload) :=
  match e with Did _ x => added_of (deeds x) | _ => [] end.

(** The alerts buffered after the drain has looked for buckets. *)
Fixpoint late {W} (es : list (event W)) : list (ref AlertPayload) :=
  match es with
  | [] => []
  | e :: es => if stops e then es ≫= buffers else late es
  end.

(** ** Lemmas *)

Lemma drained_snoc {W} (es : list (event W)) e : drained (es ++ [e]) = drained es || stops e.
Proof. unfold drained. rewrite existsb_app. cbn. by rewrite orb_false_r. Qed.

Lemma late_snoc {W} (es : list (event W)) e :
  late (es ++ [e]) = if drained es then (late es ++ buffers e)%list else [].
Proof.
  induction es as [|e0 es IH]; cbn [app late drained existsb orb]; [by destruct (stops e)|].
  destruct (stops e0); [|exact IH]. rewrite bind_app. cbn. by rewrite app_nil_r.
Qed.

(** The keys whose buckets are asked for in some deeds. *)
Definition keys_of (l : list deed) : list string := l ≫= λ d, match d with Took key _ => [key] | _ => [] end.

(** The keys the drain has found. *)
Definition found {W} (x : action W) : option (list string) :=
  match x with
  | Action o b => match o in op _ B return B → option (list string) with
                  | StopTimers _ => λ keys, Some keys
                  | _ => λ _, None
                  end b
  end.

Definition mains {W} (live : list (goroutine W)) : list (list string → list string) :=
  live ≫= λ x, match g_owner x with Main order => [order] | _ => [] end.

Section closing.
Context `{HC : !Clock} {T S W : Type} `{HN : !Num T, HS : !Store.Store S, HW : !Net W}.
Context (FF : spec_float → string) (PF : string → option spec_float).
Context (sort : list verdictEntry → list verdictEntry) (i64 : spec_float → Z).
Context (p : Pipeline W) {HO : Observer p} (on : bool).

(** The drain is over. *)
Definition ended (ph : phase) : bool := match ph with Waiting _ | Exited _ => true | _ => false end.

(** The drain has not begun, and will ask for all it finds; or it has, and each
    alert that is buffered came late or will be asked for. *)
Definition awaits (es : list (event W)) (c : Correlator.Correlator) (x : goroutine W) : Prop :=
  (∀ t, traces (g_rest x) t tt → ∃ y t' keys, t = y :: t' ∧ found y = Some keys ∧
     ∀ key, key ∈ keys → key ∈ keys_of (t' ≫= deeds)) ∨
  drained es = true ∧ ∀ a, a ∈ Schedule.buffered c →
    a ∈ late es ∨ ∀ t, traces (g_rest x) t tt → groupKey a ∈ keys_of (t ≫= deeds).

Record closing (es : list (event W)) (ph : phase) (live : list (goroutine W)) (h : list (ref AlertPayload))
    (c : Correlator.Correlator) : Prop := {
  cl_mains : length (mains live) = match ph with Draining _ => 1%nat | _ => O end;
  cl_order order : order ∈ mains live → ∀ l, order l ≡ₚ l;
  cl_awaits x order : x ∈ live → g_owner x = Main order → awaits es c x;
  cl_late : ended ph = true → drained es = true ∧ ∀ a, a ∈ Schedule.buffered c → a ∈ late es;
  cl_clean : ph = Exited true → h = [];
}.

(** What one access does to the buffered alerts. *)
Lemma buffered_access {B} w (o : op W B) n c (r : Rest T S W) b n' c' r' a :
  exec FF PF sort p o (n, (c, r)) = (b, (n', (c', r'))) → allowed p w B o →
  (∀ k b a, Correlator.buckets c !! k = Some b → a ∈ alerts b → groupKey a = k) →
  a ∈ Schedule.buffered c' →
  a ∈ Schedule.buffered c ∧ groupKey a ∉ keys_of (deeds (Action o b)) ∨ a ∈ added_of (deeds (Action o b)).
Proof.
  intros He Ha Hk Hin. destruct (exec_effect FF PF sort p w o n c r b n' c' r' He Ha) as (Hc & _ & _).
  destruct o; cbn in Hc |- *; try (by left; split; [subst c'|apply not_elem_of_nil]).
  - left. split; [by destruct Hc as [<- _]|apply not_elem_of_nil].
  - apply Add_buffered in Hc. assert (a ∈ a0 :: Schedule.buffered c) as H.
    { rewrite Hc. apply elem_of_app. by left. }
    apply elem_of_cons in H as [->|H]; [right; by left|left; by split; [|apply not_elem_of_nil]].
  - apply take_bucket_spec in Hc as (_ & -> & _). left. unfold Schedule.buffered in *. cbn in Hin.
    apply list_elem_of_bind in Hin as (bk & Ha' & ([k b'] & -> & Hb)%list_elem_of_fmap).
    apply elem_of_map_to_list in Hb. apply lookup_delete_Some in Hb as [Hne Hb]. split.
    + apply list_elem_of_bind. exists b'. split; [done|]. apply list_elem_of_fmap. exists (k, b'). split; [done|].
      by apply elem_of_map_to_list.
    + cbn in Ha'. rewrite (Hk k b' a Hb Ha'). intros H. apply list_elem_of_singleton in H. by rewrite H in Hne.
  - apply drain_keys_spec in Hc as (_ & _ & ts & -> & _). left. by split; [|apply not_elem_of_nil].
Qed.

(** An access of any goroutine, seen from the drain. *)
Lemma awaits_access {B} es c c' n n' (r r' : Rest T S W) w (o : op W B) b x :
  exec FF PF sort p o (n, (c, r)) = (b, (n', (c', r'))) → allowed p w B o →
  (∀ k b a, Correlator.buckets c !! k = Some b → a ∈ alerts b → groupKey a = k) →
  awaits es c x → awaits (es ++ [Did w (Action o b)]) c' x.
Proof.
  intros He Ha Hk [Hx|[Hd Hx]]; [by left|]. right. rewrite drained_snoc, late_snoc, Hd. split; [done|]. intros a Hin.
  destruct (buffered_access w o n c r b n' c' r' a He Ha Hk Hin) as [[Hb _]|Hb].
  - destruct (Hx a Hb) as [Hl|Hl]; [|by right]. left. apply elem_of_app. by left.
  - left. apply elem_of_app. by right.
Qed.

(** An access of the drain itself. *)
Lemma awaits_own es c c' n n' (r r' : Rest T S W) order past {B} (o : op W B) k b :
  exec FF PF sort p o (n, (c, r)) = (b, (n', (c', r'))) → allowed p (Main order) B o → (∀ l, order l ≡ₚ l) →
  (∀ k b a, Correlator.buckets c !! k = Some b → a ∈ alerts b → groupKey a = k) →
  awaits es c (MkGoroutine (Main order) past (Call o k)) →
  awaits (es ++ [Did (Main order) (Action o b)]) c' (MkGoroutine (Main order) (past ++ [Action o b]) (k b)).
Proof.
  intros He Ha Ho Hk Hx. right. rewrite drained_snoc, late_snoc. cbn [g_rest]. destruct Hx as [Hx|[Hd Hx]].
  - destruct (traces_total (λ _, True) (k b)) as (t & [] & Ht & _).
    { intros B' o'. destruct (sound_answer true B' o') as [b' _]. by exists b'. }
    destruct (Hx (Action o b :: t)) as (y & t' & keys & [= <- <-] & Hf & _); [by exists b, t|].
    assert (∀ a, a ∈ Schedule.buffered c' → groupKey a ∈ keys) as Hall.
    { destruct o; try done. cbn in Ha, Hf. injection Ha as <-. injection Hf as ->.
      apply (exec_effect FF PF sort p (Main order)) in He as [He _]; [|done]. apply drain_keys_spec in He as (_ & -> & ts & -> & _).
      intros a (bk & Hin & ([key b'] & -> & Hb)%list_elem_of_fmap)%list_elem_of_bind. rewrite Ho.
      apply list_elem_of_fmap. exists (key, b'). split; [|done]. cbn in *. apply elem_of_map_to_list in Hb. by eapply Hk. }
    split; [by destruct o; try done; rewrite orb_true_r|]. intros a Hin. right. intros t1 Ht1.
    destruct (Hx (Action o b :: t1)) as (y & t2 & keys2 & [= <- <-] & Hf2 & Hkeys); [by exists b, t1|].
    rewrite Hf in Hf2. injection Hf2 as <-. auto.
  - rewrite Hd. split; [done|]. intros a Hin. destruct (buffered_access _ o n c r b n' c' r' a He Ha Hk Hin) as [[Hb Hn]|Hb].
    2: { left. apply elem_of_app. by right. }
    destruct (Hx a Hb) as [Hl|Hl]; [left; apply elem_of_app; by left|]. right. intros t Ht.
    assert (groupKey a ∈ keys_of ((Action o b :: t) ≫= deeds)) as Hin'. { apply Hl. by exists b, t. }
    cbn in Hin'. unfold keys_of in Hin'. rewrite bind_app in Hin'. apply elem_of_app in Hin' as [?|?]; [by destruct Hn|done].
Qed.

(** The goroutine of the drain, when it starts. *)
Lemma drain_traces order t : traces (body i64 p (Main order)) t tt → ∃ y t' keys, t = y :: t' ∧ found y = Some keys ∧
  ∀ key, key ∈ keys → key ∈ keys_of (t' ≫= deeds).
Proof.
  cbn [body]. unfold go_Drain. intros (h1 & h2 & keys & -> & (b & h' & -> & -> & ->) & Ht)%traces_bind.
  exists (Action (StopTimers order) b), h2, b. split; [done|]. split; [done|]. revert h2 Ht.
  induction b as [|key0 b IH]; intros h2 Ht key Hin; [by apply elem_of_nil in Hin|].
  cbn [each] in Ht. apply traces_bind in Ht as (h3 & h4 & u & -> & H3 & H4). unfold keys_of. rewrite !bind_app.
  apply elem_of_cons in Hin as [->|Hin]; apply elem_of_app; [left|right; by apply IH].
  unfold go_flushKey in H3. apply traces_bind in H3 as (h5 & h6 & o & -> & (g & h7 & -> & -> & ->) & _). by left.
Qed.

(** Goroutines that are not the drain come and go. *)
Lemma closing_same es e ph live live' h h' c c' :
  closing es ph live h c → mains live' = mains live → stops e = false → buffers e = [] →
  (∀ x order, x ∈ live' → g_owner x = Main order → x ∈ live) → (∀ a, a ∈ Schedule.buffered c' → a ∈ Schedule.buffered c) →
  (ph = Exited true → h' = []) → closing (es ++ [e]) ph live' h' c'.
Proof.
  intros [H1 Ho H2 H3 H4] Hm Hs Hb Hl Hc Hh. split; [by rewrite Hm|by rewrite Hm| | |exact Hh].
  - intros x order Hx Hw. destruct (H2 x order (Hl x order Hx Hw) Hw) as [Ha|[Hd Ha]]; [by left|]. right.
    rewrite drained_snoc, late_snoc, Hd, Hb, app_nil_r. split; [done|]. intros a Hin. by apply Ha, Hc.
  - intros He. destruct (H3 He) as [Hd Ha]. rewrite drained_snoc, late_snoc, Hd, Hb, app_nil_r.
    split; [done|]. intros a Hin. by apply Ha, Hc.
Qed.

Lemma closing_phase es ph ph' live h c :
  closing es ph live h c → match ph with Draining _ => False | _ => True end → match ph' with Draining _ => False | _ => True end →
  (ended ph' = true → ended ph = true) → (ph' = Exited true → h = []) → closing es ph' live h c.
Proof.
  intros [H1 Ho H2 H3 H4] Hp Hp' He Hh. split; [by destruct ph, ph'|done..| |done]. intros E. by apply H3, He.
Qed.

Lemma mains_app live live' : mains (live ++ live') = (mains (W := W) live ++ mains live')%list.
Proof. apply bind_app. Qed.

Lemma mains_insert live i w past g past' (g' : proc W unit) :
  live !! i = Some (MkGoroutine w past g) → mains (<[i := MkGoroutine w past' g']> live) = mains live.
Proof.
  intros Hl. unfold mains. rewrite <- (take_drop_middle live i _ Hl) at 2.
  rewrite insert_take_drop by (by eapply lookup_lt_Some). by rewrite !bind_app, !bind_cons.
Qed.

Lemma mains_delete live i (x : goroutine W) : live !! i = Some x →
  match g_owner x with
  | Main _ => length (mains live) = Datatypes.S (length (mains (delete i live)))
  | _ => mains (delete i live) = mains live
  end.
Proof.
  intros (l1 & l2 & -> & ->)%list_elem_of_split_length. rewrite delete_middle. unfold mains. rewrite !bind_app, !bind_cons.
  destruct (g_owner x); cbn [app]; [done..|]. rewrite !length_app. cbn. lia.
Qed.

Lemma closing_access es ph live h c c' n n' (r r' : Rest T S W) i w past {B} (o : op W B) k b :
  closing es ph live h c → live !! i = Some (MkGoroutine w past (Call o k)) →
  exec FF PF sort p o (n, (c, r)) = (b, (n', (c', r'))) → allowed p w B o →
  (∀ k b a, Correlator.buckets c !! k = Some b → a ∈ alerts b → groupKey a = k) →
  closing (es ++ [Did w (Action o b)]) ph (<[i := MkGoroutine w (past ++ [Action o b])%list (k b)]> live) h c'.
Proof.
  intros [H1 Ho H2 H3 H4] Hl He Ha Hk. split; [by rewrite (mains_insert _ _ _ _ _ _ _ Hl)| | | |done].
  { by rewrite (mains_insert _ _ _ _ _ _ _ Hl). }
  - intros x order (j & Hx)%list_elem_of_lookup_1 Hw. apply list_lookup_insert_Some in Hx as [(<- & <- & _)|[_ Hx]].
    + cbn in Hw. subst w. pose proof (list_elem_of_lookup_2 _ _ _ Hl) as Hin. eapply awaits_own; [exact He|exact Ha| |exact Hk|].
      * apply Ho. unfold mains. apply list_elem_of_bind. exists (MkGoroutine (Main order) past (Call o k)). split; [by left|done].
      * by eapply H2.
    + eapply awaits_access; [exact He|exact Ha|exact Hk|]. eapply H2; [by eapply list_elem_of_lookup_2|done].
  - intros E. destruct (H3 E) as [Hd Hla]. rewrite drained_snoc, late_snoc, Hd. split; [done|]. intros a Hin.
    apply elem_of_app. destruct (buffered_access w o n c r b n' c' r' a He Ha Hk Hin) as [[Hb _]|Hb]; [left; by apply Hla|by right].
Qed.
End closing.

Section shutdown.
Context `{HC : !Clock, HL : !CertLib} {T S W : Type} `{HN : !Num T, HS : !Store.Store S, HW : !Net W}.
Context {PK ESK SK HPK K CK CA : Type}.
Context `{HE : !Ecdsa PK ESK, HX : !X509 PK, HH : !Hpke SK HPK K, HG : !Gcm, HP : !PayloadLib CK CA, HWi : !Wire}.
Context (FF : spec_float → string) (PF : string → option spec_float).
Context (sort : list verdictEntry → list verdictEntry) (i64 : spec_float → Z) (IsPrint : Z → bool).
Context (yaml_tenants : string → option (list Tenant)).
Context (p : Pipeline W) {HO : Observer p} (sv : option Server) (d : option (Deps SK CK)).

Abbreviation step := (step (T := T) FF PF sort i64 IsPrint yaml_tenants p sv d).
Abbreviation steps := (steps (T := T) FF PF sort i64 IsPrint yaml_tenants p sv d).
Abbreviation sent_in g := (sent (seen_in (p := p) (outside (pg_core g).2))) (only parsing).

Definition closing_of (es : list (event W)) (g : program T S W) : Prop :=
  closing es (pg_phase g) (pg_live g) (inflight (pg_ingest g)) (pg_core g).1.

Lemma closing_call {A} es (m : M (Brain S) A) n (g : program T S W) r n' g' new :
  takes m → closing_of es g → pg_phase g ≠ Exited true → on_brain m (n, g) = (r, (n', g')) →
  closing_of (es ++ [Called (pg_tenants g) new]) (start_alerts i64 p new g').
Proof.
  intros Hm Hc Hph Hb. destruct (on_brain_takes m n g r n' g' Hm Hb) as (Hp & _ & Hl & _ & Hcore & _).
  unfold closing_of, start_alerts, set_live. cbn [pg_phase pg_live pg_ingest pg_core]. rewrite Hp, Hl, Hcore. cbn [fst].
  eapply closing_same; [exact Hc| |done|done| |done|done].
  - rewrite mains_app. unfold mains at 2. rewrite bind_map. cbn. by rewrite bind_nil, app_nil_r.
  - intros x order [?|(a & -> & _)%list_elem_of_fmap]%elem_of_app Hw; [done|]. done.
Qed.

Lemma step_closing on es e s s' :
  step e s s' → run_inv i64 p on es s.2 → closing_of es s.2 → closing_of (es ++ [e]) s'.2.
Proof.
  assert (∀ g : program T S W, alive g = true → pg_phase g ≠ Exited true) as Hal.
  { intros g Hg E. unfold alive in Hg. by rewrite E in Hg. }
  destruct 1 as [srv serial req ctx r n g n' g' new Ha _ _ Hb Hn|deps dr rq r n g n' g' new Ha _ _ Hb Hn
    |method path id verdict r n g n' s' _ _ _|i w past B o k b n [x t h live over [c r]] n' [c' r'] _ Hl He
    |i j a past n x t h live over c Ha Hl Hj|i key past n x t h live over c Ha Hl
    |id key when n [x t h live over c] Ha _ _|expired order n [x t h live over c] Ha Hp Ho
    |i order past e n t h live over c _ Hl|e n g Ha Hp Hw|e n g Ha Hp|n g Ha Hp|stat read n g _|st n n' g _|n n' g _];
    cbn [snd]; intros Hi Hc; try apply Hal in Ha.
  - eapply closing_call; [apply serve_takes|exact Hc|exact Ha|exact Hb].
  - eapply closing_call; [apply serve_http_takes|exact Hc|exact Ha|exact Hb].
  - eapply closing_same; [exact Hc|done..|apply Hc].
  - pose proof (list_elem_of_lookup_2 _ _ _ Hl) as Hin.
    eapply (closing_access FF PF sort p); [exact Hc|exact Hl|exact He|apply (iv_allowed _ _ _ _ _ _ _ _ _ Hi _ Hin)|].
    intros k0 b0 a0 Hk0 Ha0. by apply (iv_bucket _ _ _ _ _ _ _ _ _ Hi k0 b0 a0).
  - eapply closing_same; [exact Hc| |done|done| |done|done].
    + apply (mains_delete _ _ _ Hl).
    + intros x0 order Hx _. apply (list_elem_of_delete_inv _ _ _ Hx).
  - eapply closing_same; [exact Hc| |done|done| |done|done].
    + apply (mains_delete _ _ _ Hl).
    + intros x0 order Hx _. apply (list_elem_of_delete_inv _ _ _ Hx).
  - unfold closing_of, set_core, set_live. cbn [pg_phase pg_live pg_ingest pg_core fst snd].
    eapply closing_same; [exact Hc| |done|done| |done|done].
    + rewrite mains_app. unfold mains at 2. cbn. by rewrite app_nil_r.
    + intros x0 order [?|Hx%list_elem_of_singleton]%elem_of_app Hw; [done|]. by rewrite Hx in Hw.
  - destruct Hc as [H1 H2 H3 H4 H5]. cbn in Hp. subst x. unfold closing_of, set_phase, set_live.
    cbn [pg_phase pg_live pg_ingest pg_core fst snd] in *. apply nil_length_inv in H1.
    assert (mains (live ++ [spawn i64 p (Main order)]) = [order]) as Hm by (by rewrite mains_app, H1).
    split; [by rewrite Hm|by rewrite Hm; intros ? ->%list_elem_of_singleton| |done|done].
    intros x0 order0 [Hx|Hx%list_elem_of_singleton]%elem_of_app Hw.
    + exfalso. assert (order0 ∈ mains live) as Hin.
      { apply list_elem_of_bind. exists x0. rewrite Hw. split; [by left|done]. }
      rewrite H1 in Hin. by apply elem_of_nil in Hin.
    + left. subst x0. cbn [g_rest spawn]. intros tr. apply drain_traces.
  - destruct Hc as [H1 H2 H3 H4 H5]. unfold closing_of.
    cbn [pg_phase pg_live pg_ingest pg_core fst snd] in *.
    pose proof (mains_delete _ _ _ Hl) as Hm. cbn in Hm. rewrite H1 in Hm. injection Hm as Hm. symmetry in Hm.
    assert (∀ y, y ∈ mains (delete i live) → False) as Hno.
    { intros y Hy. destruct (mains (delete i live)); [by apply elem_of_nil in Hy|done]. }
    split; [done|by intros y ?%Hno| | |done].
    + intros x0 order0 Hx Hw. exfalso. apply (Hno order0). apply list_elem_of_bind. exists x0. rewrite Hw. split; [by left|done].
    + destruct (H3 _ order (list_elem_of_lookup_2 _ _ _ Hl) eq_refl) as [Hx|[Hd Hx]].
      { destruct (Hx [] ltac:(done)) as (? & ? & ? & ? & _). done. }
      rewrite drained_snoc, late_snoc, Hd. split; [done|]. intros a Hin. rewrite app_nil_r.
      destruct (Hx a Hin) as [?|Hx']; [done|]. exfalso. specialize (Hx' [] ltac:(done)).
      by apply elem_of_nil in Hx'.
  - eapply closing_phase; [eapply closing_same; [exact Hc|done..|by apply Hc]|by cbn; rewrite Hp|done|by cbn; rewrite Hp|].
    intros _. unfold Wait in Hw. cbn. by destruct (inflight (pg_ingest g)).
  - eapply closing_phase; [eapply closing_same; [exact Hc|done..|by apply Hc]|by cbn; rewrite Hp|done|by cbn; rewrite Hp|done].
  - eapply closing_phase; [eapply closing_same; [exact Hc|done..|by apply Hc]|by cbn; rewrite Hp|done|done|done].
  - eapply closing_same; [exact Hc|done..|apply Hc].
  - eapply closing_same; [exact Hc|done..|apply Hc].
  - eapply closing_same; [exact Hc|done..|apply Hc].
Qed.

Lemma steps_closing es s s' : steps es s s' → idle p s.2 → (∀ a, a ∈ accepted es → renders a) → closing_of es s'.2.
Proof.
  intros Hs H0. induction Hs as [s|es e s s' s'' Hs IH Hstep]; intros Hr.
  - destruct H0 as (Hp & Hh & Hl & _). unfold closing_of. rewrite Hp, Hl.
    split; [done|by intros ? ?%elem_of_nil|by intros ? ? ?%elem_of_nil|done|done].
  - assert (∀ a, a ∈ accepted es → renders a) as Hr' by (intros a Ha; apply Hr; rewrite accepted_app; apply elem_of_app; by left).
    eapply step_closing; [exact Hstep| |by apply IH]. by eapply steps_inv.
Qed.

(** Without correlation a goroutine that is not an alert's has nothing to do. *)
Lemma off_idle es (g : program T S W) x : run_inv i64 p false es g → (∀ a, a ∈ accepted es → renders a) →
  x ∈ pg_live g → own (g_owner x) = [] → in_hand x = [] ∧ half_sent x = [].
Proof.
  intros Hi Hr Hx Ho. destruct (live_flow i64 p false _ _ _ _ _ _ x Hi Hr Hx) as (msgs & [_ H2 _ H4]).
  destruct (iv_buffer _ _ _ _ _ _ _ _ _ Hi) as (fulls & Hb & _).
  assert (added_of (deeds_in (records_of (pg_live g) (pg_over g))) = []) as Ha.
  { destruct (added_of (deeds_in (records_of (pg_live g) (pg_over g)))) as [|a l] eqn:E; [reflexivity|].
    destruct (added_own i64 p false es _ _ _ _ _ a Hi Hr) as [_ ?]; [|done]. rewrite E. by left. }
  rewrite Ha in Hb. apply Permutation_nil in Hb. apply app_eq_nil in Hb as [Ht _].
  assert (taken_of (g_done x ≫= deeds) = []) as Htx.
  { apply list_elem_of_lookup_1 in Hx as [i Hl]. apply list_elem_of_split_length in Hl as (l1 & l2 & E & _).
    unfold records_of, deeds_in in Ht. rewrite E, map_app in Ht. cbn in Ht. rewrite <- app_assoc, bind_app, taken_of_app in Ht.
    apply app_eq_nil in Ht as [_ Ht]. cbn in Ht. fold (deeds_in (W := W)) in Ht. unfold taken_of in Ht. rewrite bind_app in Ht.
    by apply app_eq_nil in Ht as [Ht _]. }
  rewrite Ho, Htx in H2. apply Permutation_nil in H2. apply app_eq_nil in H2 as [_ H2]. apply app_eq_nil in H2 as [_ H2].
  apply app_eq_nil in H2 as [_ Hh]. split; [done|]. destruct H4 as [?|(msg & rest & _ & Hab & (rep & Hrep & _))]; [done|].
  by rewrite Hab, Hh in Hrep.
Qed.

(** C9: a clean exit loses nothing when correlation is off: every accepted alert was
    found to be a duplicate or announced, to all its receivers. With correlation
    on, the goroutines that are left when the process ends are timers' alone; an
    accepted alert was a duplicate or announced unless such a goroutine has it in
    its hands, or it was buffered after the drain had looked for buckets, or was in
    a full bucket that was replaced. *)
Theorem shutdown_accounts_for_alerts (es : list (event W)) (n n' : nat) (g g' : program T S W) :
  steps es (n, g) (n', g') → idle p g → (∀ a, a ∈ accepted es → renders a) → pg_phase g' = Exited true →
  Forall (λ x, ∃ key, g_owner x = Timer key) (pg_live g') ∧
  (∀ a, a ∈ Schedule.buffered (pg_core g').1 → a ∈ late es) ∧
  ∃ msgs fulls,
    (accepted es ≡ₚ (pg_live g' ≫= in_hand) ++ Schedule.buffered (pg_core g').1 ++ mjoin fulls ++
       dups_of (deeds_in (records g')) ++ (msgs ≫= about))%list ∧
    (sent_in g' ≡ₚ (msgs ≫= deliveries p) ++ (pg_live g' ≫= half_sent))%list ∧
    Forall (λ l, Correlator.maxGroup (pg_core g').1 <= Z.of_nat (length l)) fulls ∧
    (Correlator.enabled (pg_core g).1 = false →
       (accepted es ≡ₚ dups_of (deeds_in (records g')) ++ (msgs ≫= about))%list ∧
       sent_in g' ≡ₚ msgs ≫= deliveries p).
Proof.
  intros Hs Hid Hr Hx. pose proof (steps_inv FF PF sort i64 IsPrint yaml_tenants p sv d es _ _ Hs Hid Hr) as Hi.
  pose proof (steps_closing es _ _ Hs Hid Hr) as [H1 _ _ H4 H5]. cbn [snd] in *. rewrite Hx in H1, H4. apply nil_length_inv in H1.
  assert (Forall (λ x, ∃ key, g_owner x = Timer key) (pg_live g')) as Hlive.
  { apply Forall_forall. intros x Hin. destruct (g_owner x) as [a|key|order] eqn:Ew; [|by exists key|].
    - exfalso. pose proof (iv_inflight _ _ _ _ _ _ _ _ _ Hi) as Hf. rewrite (H5 Hx) in Hf. symmetry in Hf.
      apply Permutation_nil_r in Hf. assert (a ∈ pg_live g' ≫= (λ x, own (g_owner x))) as Ha.
      { apply list_elem_of_bind. exists x. rewrite Ew. split; [by left|done]. }
      rewrite Hf in Ha. by apply elem_of_nil in Ha.
    - exfalso. assert (order ∈ mains (pg_live g')) as Ho.
      { apply list_elem_of_bind. exists x. rewrite Ew. split; [by left|done]. }
      rewrite H1 in Ho. by apply elem_of_nil in Ho. }
  split; [done|]. split; [by apply H4|].
  destruct (inv_account i64 p _ es g' Hi Hr) as (msgs & fulls & [A1 A2 _ A4 _ A6]).
  exists msgs, fulls. split_and!; [done..|]. intros Hoff. rewrite <- (iv_on _ _ _ _ _ _ _ _ _ Hi) in Hoff.
  destruct (A6 Hoff) as [E1 E2]. rewrite <- (iv_on _ _ _ _ _ _ _ _ _ Hi), Hoff in Hi.
  assert (pg_live g' ≫= in_hand = [] ∧ pg_live g' ≫= half_sent = []) as [E3 E4].
  { assert (∀ x, x ∈ pg_live g' → in_hand x = [] ∧ half_sent x = []) as Hall.
    { intros x Hin. eapply off_idle; [exact Hi|done..|]. rewrite Forall_forall in Hlive. by destruct (Hlive x Hin) as [key ->]. }
    clear -Hall. induction (pg_live g') as [|x l IH]; [done|]. destruct (Hall x) as [Ea Eb]; [by left|].
    destruct IH as [I1 I2]; [by intros y Hy; apply Hall; right|]. rewrite !bind_cons, Ea, Eb. by split. }
  by rewrite E1, E2, E3 in A1; rewrite E4, app_nil_r in A2.
Qed.
End shutdown.

(** ** Alerts left behind

    Correlation is on, and a collector pushes one alert. *)
Section left_behind.
#[local] Existing Instances run_clock run_certlib run_net run_observer run_ecdsa run_x509 run_hpke run_gcm run_payload_lib run_wire.

Definition grouping_program : program spec_float Memory.t seen :=
  MkProgram Serving (br_tenants sample_brain) NewHandler [] [] (correlator_New true 60 25, fresh_rest).

Abbreviation run_schedule ms :=
  (default ([], (0%nat, grouping_program))
    (schedule (T := spec_float) (λ _, "0") (λ _, None) merge_newest (λ _, 0) (λ _, None) failing_pipeline (Some sample_server)
       ms (0%nat, grouping_program))) (only parsing).

Definition push : move := MCall None (IngestRequest run_alert) sample_ctx.

(** Its goroutine reaches the correlator after the drain. *)
Definition late_schedule : list move :=
  ([push; MSignal false; MAccess 1; MDrained 1] ++ repeat (MAccess 0) 4 ++ [MReturn 0 0; MExit])%list.

(** Its timer's goroutine has taken the group when the signal comes. *)
Definition flush_schedule : list move :=
  ([push] ++ repeat (MAccess 0) 4 ++
   [MReturn 0 0; MTime 70; MTimer 0; MAccess 0; MSignal false; MAccess 1; MDrained 1; MExit])%list.

Definition late_run : list (event seen) * (nat * program spec_float Memory.t seen) := run_schedule late_schedule.
Definition flush_run : list (event seen) * (nat * program spec_float Memory.t seen) := run_schedule flush_schedule.

(** The program reports a clean drain, the alert stays in its bucket, and no
    receiver hears of it. *)
Example late_alert_lost :
  pg_phase late_run.2.2 = Exited true ∧ Schedule.buffered (pg_core late_run.2.2).1 = [run_alert] ∧
  late late_run.1 = [run_alert] ∧ sent (outside (pg_core late_run.2.2).2) = [].
Proof. vm_compute. done. Qed.

(** The process exits, again after a clean drain, although the timer's goroutine has
    yet to announce the alert: nothing waits for it. *)
Example flush_left_behind :
  pg_phase flush_run.2.2 = Exited true ∧ pg_live flush_run.2.2 ≫= in_hand = [run_alert] ∧
  sent (outside (pg_core flush_run.2.2).2) = [].
Proof. vm_compute. done. Qed.

Lemma late_steps : steps (T := spec_float) (λ _, "0") (λ _, None) merge_newest (λ _, 0) (λ _, true) (λ _, None) failing_pipeline
  (Some sample_server) (Some sample_deps) late_run.1 (0%nat, grouping_program) (late_run.2.1, late_run.2.2).
Proof. apply (scheduled _ _ _ _ _ _ _ _ _ late_schedule). vm_compute. reflexivity. Qed.

Lemma late_renders a : a ∈ accepted late_run.1 → renders a.
Proof.
  assert (accepted late_run.1 = [run_alert]) as -> by (vm_compute; reflexivity).
  intros ->%list_elem_of_singleton. apply sample_renderable.
Qed.

Lemma shutdown_accounts_for_alerts_witness :
  let g := grouping_program in let g' := late_run.2.2 in
  Forall (λ x, ∃ key, g_owner x = Timer key) (pg_live g') ∧
  (∀ a, a ∈ Schedule.buffered (pg_core g').1 → a ∈ late late_run.1) ∧
  ∃ msgs fulls,
    (accepted late_run.1 ≡ₚ (pg_live g' ≫= in_hand) ++ Schedule.buffered (pg_core g').1 ++ mjoin fulls ++
       dups_of (deeds_in (records g')) ++ (msgs ≫= about))%list ∧
    (sent (seen_in (outside (pg_core g').2)) ≡ₚ (msgs ≫= deliveries failing_pipeline) ++ (pg_live g' ≫= half_sent))%list ∧
    Forall (λ l, Correlator.maxGroup (pg_core g').1 <= Z.of_nat (length l)) fulls ∧
    (Correlator.enabled (pg_core g).1 = false →
       (accepted late_run.1 ≡ₚ dups_of (deeds_in (records g')) ++ (msgs ≫= about))%list ∧
       sent (seen_in (outside (pg_core g').2)) ≡ₚ msgs ≫= deliveries failing_pipeline).
Proof.
  intros g g'.
  apply (shutdown_accounts_for_alerts (λ _, "0") (λ _, None) merge_newest (λ _, 0) (λ _, true) (λ _, None) failing_pipeline
    (Some sample_server) (Some sample_deps) late_run.1 0 late_run.2.1 g g').
  - exact late_steps.
  - split_and!; reflexivity.
  - exact late_renders.
  - vm_compute. reflexivity.
Defined.
End left_behind.
