(* ===== verification/Records.v ===== *)
(** * Records

    What the goroutines of the running brain have done: the accesses of a run are
    those in the records of its goroutines, and each record is the beginning of a
    trace of the goroutine's program. Questions about a run, like how many messages
    a receiver got, become questions about the traces of one goroutine. *)
From S2P Require Import Prelude GoStrings Proto Identity Store Tenants Signer Limiter Correlator Providers Feedback.
From S2P Require Import HttpSig Sealed Trust Ingest GrpcSrv SignedSrv SilenceClient Pipeline Goroutines Service.
From Stdlib Require Import Ascii SpecFloat.

Open Scope Z_scope.

(** ** Counting *)

Definition count {A} (f : A → bool) (l : list A) : nat := length (filter (λ x, f x = true) l).

Lemma count_app {A} (f : A → bool) l l' : count f (l ++ l') = (count f l + count f l')%nat.
Proof. unfold count. by rewrite filter_app, length_app. Qed.

#[export] Instance count_perm {A} (f : A → bool) : Proper ((≡ₚ) ==> (=)) (count f).
Proof. intros l l' H. unfold count. by rewrite H. Qed.

Lemma count_cons {A} (f : A → bool) x l : count f (x :: l) = ((if f x then 1 else 0) + count f l)%nat.
Proof. unfold count. rewrite filter_cons. destruct (f x); by destruct (decide _). Qed.

(** ** The accesses of a run *)

(** What the goroutines did in a run. *)
Definition dids {W} (es : list (event W)) : list (action W) :=
  es ≫= λ e, match e with Did _ x => [x] | _ => [] end.

Lemma dids_app {W} (es es' : list (event W)) : dids (es ++ es') = (dids es ++ dids es')%list.
Proof. apply bind_app. Qed.

Section acts.
Context `{HC : !Clock, HL : !CertLib} {T S W : Type} `{HN : !Num T, HS : !Store.Store S, HW : !Net W}.
Context {PK ESK SK HPK K CK CA : Type}.
Context `{HE : !Ecdsa PK ESK, HX : !X509 PK, HH : !Hpke SK HPK K, HG : !Gcm, HP : !PayloadLib CK CA, HWi : !Wire}.
Context (FF : spec_float → string) (PF : string → option spec_float).
Context (sort : list verdictEntry → list verdictEntry) (i64 : spec_float → Z) (IsPrint : Z → bool).
Context (yaml_tenants : string → option (list Tenant)).
Context (p : Pipeline W) (sv : option Server) (d : option (Deps SK CK)).

Abbreviation step := (step (T := T) FF PF sort i64 IsPrint yaml_tenants p sv d).
Abbreviation steps := (steps (T := T) FF PF sort i64 IsPrint yaml_tenants p sv d).

(** Everything the records tell. *)
Definition acts_in (rs : list (owner * list (action W))) : list (action W) := rs ≫= snd.

#[local] Instance acts_in_perm : Proper ((≡ₚ) ==> (≡ₚ)) acts_in.
Proof. intros x y H. unfold acts_in. by rewrite H. Qed.

Lemma acts_spawn (live : list (goroutine W)) over ws :
  acts_in (map record (live ++ map (spawn i64 p) ws) ++ over) = acts_in (map record live ++ over).
Proof.
  assert (acts_in (map record (map (spawn i64 p) ws)) = []) as H by (clear; induction ws as [|w ws IH]; [done|exact IH]).
  unfold acts_in in *. by rewrite map_app, !bind_app, H, app_nil_r.
Qed.

Lemma acts_return (live : list (goroutine W)) over i w past :
  live !! i = Some (MkGoroutine w past (Return tt)) →
  acts_in (map record (delete i live) ++ over ++ [(w, past)]) ≡ₚ acts_in (map record live ++ over).
Proof.
  intros Hl. pose proof (delete_Permutation _ _ _ Hl) as Hp. rewrite Hp at 2. cbn [map].
  rewrite (assoc_L (++)), (Permutation_app_comm _ [_]). done.
Qed.

Lemma acts_access (live : list (goroutine W)) over i w past {B} (o : op W B) k b :
  live !! i = Some (MkGoroutine w past (Call o k)) →
  acts_in (map record (<[i := MkGoroutine w (past ++ [Action o b])%list (k b)]> live) ++ over) ≡ₚ
  (acts_in (map record live ++ over) ++ [Action o b])%list.
Proof.
  intros Hl. destruct (insert_perm live i _ (MkGoroutine w (past ++ [Action o b])%list (k b)) Hl) as (l' & Hp & Hp').
  rewrite Hp', Hp. unfold acts_in. cbn. solve_Permutation.
Qed.

Lemma step_acts e s s' : step e s s' → acts_in (records s'.2) ≡ₚ (acts_in (records s.2) ++ dids [e])%list.
Proof.
  assert (∀ {A} (m : M (Brain S) A) n g r n' (g' : program T S W) new, takes m → on_brain m (n, g) = (r, (n', g')) →
    acts_in (records (start_alerts i64 p new g')) = acts_in (records g)) as Hcall.
  { intros A m n g r n' g' new Hm Hb. destruct (on_brain_takes m n g r n' g' Hm Hb) as (_ & _ & Hl & Ho & _).
    unfold records, start_alerts, set_live. cbn [pg_live pg_over]. rewrite Hl, Ho.
    rewrite <- (map_map Alert (spawn i64 p)). apply acts_spawn. }
  destruct 1 as [srv serial req ctx r n g n' g' new _ _ _ Hb Hn|deps dr rq r n g n' g' new _ _ _ Hb Hn
    |method path id verdict r n g n' s' _ _ _|i w past B o k b n [x t h live over [c r]] n' [c' r'] _ Hl He
    |i j a past n x t h live over c _ Hl Hj|i key past n x t h live over c _ Hl
    |id key when n [x t h live over c] _ _ _|expired order n [x t h live over c] _ _ _
    |i order past e n t h live over c _ Hl|e n g _ _ _|e n g _ _|n g _ _|stat read n g _|st n n' g _|n n' g _];
    cbn [snd]; try (match goal with |- context [dids [?e]] => change (dids [e]) with (@nil (action W)) end; rewrite app_nil_r); try done.
  - by rewrite (Hcall _ _ _ _ _ _ _ new (serve_takes _ _ _ _) Hb).
  - by rewrite (Hcall _ _ _ _ _ _ _ new (serve_http_takes _ _ _ _) Hb).
  - by apply acts_access.
  - by apply acts_return.
  - by apply acts_return.
  - apply reflexive_eq, (acts_spawn live over [Timer key]).
  - apply reflexive_eq, (acts_spawn live over [Main order]).
  - by apply acts_return.
Qed.

(** A brain in which no goroutine has run yet. *)
Definition unused (g : program T S W) : Prop := pg_live g = [] ∧ pg_over g = [].

Lemma steps_acts es s s' : steps es s s' → unused s.2 → acts_in (records s'.2) ≡ₚ dids es.
Proof.
  intros Hs (Hl & Ho). induction Hs as [s|es e s s' s'' Hs IH Hstep].
  - unfold records. by rewrite Hl, Ho.
  - rewrite (step_acts _ _ _ Hstep), (IH Hl Ho). unfold dids. by rewrite bind_app.
Qed.

(** Each goroutine is somewhere in its program, or has been through it. *)
Definition traced (g : program T S W) : Prop :=
  (∀ x t, x ∈ pg_live g → traces (g_rest x) t tt → traces (body i64 p (g_owner x)) (g_done x ++ t)%list tt) ∧
  ∀ w t, (w, t) ∈ pg_over g → traces (body i64 p w) t tt.

Lemma traced_spawn g g' ws : traced g → pg_live g' = (pg_live g ++ map (spawn i64 p) ws)%list → pg_over g' = pg_over g → traced g'.
Proof.
  intros [H1 H2] El Eo. split; [|by rewrite Eo]. intros x t. rewrite El.
  intros [Hx|(w & -> & _)%list_elem_of_fmap]%elem_of_app Ht; [by apply H1|done].
Qed.

Lemma traced_return g g' i w past : traced g → pg_live g !! i = Some (MkGoroutine w past (Return tt)) →
  pg_live g' = delete i (pg_live g) → pg_over g' = (pg_over g ++ [(w, past)])%list → traced g'.
Proof.
  intros [H1 H2] Hl El Eo. split.
  - intros x t. rewrite El. intros Hx. apply H1. by apply (list_elem_of_delete_inv _ i).
  - intros w' t. rewrite Eo. intros [Hin|[= -> ->]%list_elem_of_singleton]%elem_of_app; [by apply H2|].
    rewrite <- (app_nil_r past). by apply (H1 (MkGoroutine w past (Return tt)) []); [eapply list_elem_of_lookup_2|].
Qed.

Lemma traced_access g g' i w past {B} (o : op W B) k b : traced g → pg_live g !! i = Some (MkGoroutine w past (Call o k)) →
  pg_live g' = <[i := MkGoroutine w (past ++ [Action o b])%list (k b)]> (pg_live g) → pg_over g' = pg_over g → traced g'.
Proof.
  intros [H1 H2] Hl El Eo. split; [|by rewrite Eo]. intros x t. rewrite El. intros Hx Ht.
  destruct (insert_perm _ _ _ (MkGoroutine w (past ++ [Action o b])%list (k b)) Hl) as (l' & Hp & Hp').
  rewrite Hp' in Hx. apply elem_of_cons in Hx as [->|Hx].
  - cbn [g_owner g_done]. rewrite <- app_assoc.
    apply (H1 (MkGoroutine w past (Call o k))); [by eapply list_elem_of_lookup_2|]. by exists b, t.
  - apply H1; [|done]. rewrite Hp. by right.
Qed.

Lemma step_traced e s s' : step e s s' → traced s.2 → traced s'.2.
Proof.
  destruct 1 as [srv serial req ctx r n g n' g' new _ _ _ Hb _|deps dr rq r n g n' g' new _ _ _ Hb _
    |method path id verdict r n g n' s' _ _ _|i w past B o k b n g n' c' _ Hl _
    |i j a past n x t h live over c _ Hl _|i key past n x t h live over c _ Hl
    |id key when n g _ _ _|expired order n g _ _ _
    |i order past e n t h live over c _ Hl|e n g _ _ _|e n g _ _|n g _ _|stat read n g _|st n n' g _|n n' g _];
    cbn [snd]; intros Hg; try exact Hg; try (by eapply traced_return).
  - apply on_brain_takes in Hb as (_ & _ & Hl & Ho & _); [|apply serve_takes].
    apply (traced_spawn g _ (map Alert new) Hg); [by cbn; rewrite Hl, map_map|done].
  - apply on_brain_takes in Hb as (_ & _ & Hl & Ho & _); [|apply serve_http_takes].
    apply (traced_spawn g _ (map Alert new) Hg); [by cbn; rewrite Hl, map_map|done].
  - by eapply traced_access.
  - by apply (traced_spawn g _ [Timer key] Hg).
  - by apply (traced_spawn g _ [Main order] Hg).
Qed.

(** Every record begins a trace of its goroutine's program. *)
Lemma steps_traced es s s' w t : steps es s s' → unused s.2 → (w, t) ∈ records s'.2 →
  ∃ t', traces (body i64 p w) (t ++ t')%list tt.
Proof.
  intros Hs (Hl & Ho). assert (traced s'.2) as [H1 H2].
  { induction Hs as [s|es e s s1 s2 _ IH Hstep]; [|by eapply step_traced; [|apply IH]].
    split; [intros x u|intros x u]; rewrite ?Hl, ?Ho; by intros ?%elem_of_nil. }
  intros [(x & [= -> ->] & Hx)%list_elem_of_fmap|Hx]%elem_of_app.
  - destruct (traces_total (λ _, True) (g_rest x)) as (t' & [] & Ht & _); [|by exists t'; apply H1].
    intros B o. by destruct (sound_answer true B o) as [b _]; exists b.
  - exists []. rewrite app_nil_r. by apply H2.
Qed.
End acts.

(** ** Protocols

    A state that follows the accesses of a goroutine ([after]), and what an access
    owes to it ([ok]). *)
Section protocol.
Context {W St : Type} (after : St → action W → St) (ok : St → action W → bool).

(** A program that keeps to the protocol from the state [h] to [h']. *)
Fixpoint goes {A} (h : St) (g : proc W A) (h' : St) : Prop :=
  match g with
  | Return _ => h = h'
  | Call o k => ∀ b, ok h (Action o b) = true ∧ goes (after h (Action o b)) (k b) h'
  end.

Lemma goes_bind {A B} h h1 h2 (g : proc W A) (k : A → proc W B) :
  goes h g h1 → (∀ a, goes h1 (k a) h2) → goes h (g ≫= k) h2.
Proof.
  intros Hg Hk. revert h Hg. induction g as [a|B' o k' IH]; intros h; cbn; [intros ->; apply Hk|].
  intros Hg b. destruct (Hg b) as [Ho Hg']. split; [done|]. by apply IH.
Qed.

Lemma goes_each {X} h (l : list X) (f : X → proc W unit) : (∀ x, goes h (f x) h) → goes h (each l f) h.
Proof. intros Hf. induction l as [|x l IH]; [done|]. cbn [each]. by eapply goes_bind. Qed.
End protocol.

Ltac goes_tac :=
  repeat first
    [ progress intros
    | match goal with |- goes _ _ _ (_ ≫= _) _ => eapply goes_bind end
    | match goal with |- goes _ _ _ (each _ _) _ => apply goes_each end
    | match goal with |- goes _ _ _ (call _) _ => by cbn end
    | reflexivity
    | progress cbn [negb]
    | match goal with |- goes _ _ _ match ?x with _ => _ end _ => destruct x end ].
