(* ===== verification/Backstop.v ===== *)
(** * The cost backstop in the running brain

    The goroutines of [Service] take a slot of their cluster's limiter before they
    ask the LLM and give it back afterwards. [Limiter] bounds the slots of one
    limiter at the grain of its critical sections; here the whole brain is bounded,
    whatever its goroutines do. *)
From S2P Require Import Prelude GoStrings Proto Identity Store Tenants Signer Limiter Correlator Providers Feedback.
From S2P Require Import HttpSig Sealed Trust Ingest GrpcSrv SignedSrv SilenceClient Metrics Pipeline Goroutines Service Records.
From Stdlib Require Import Ascii SpecFloat.

Open Scope Z_scope.

(** ** Slots *)

Section slots.
Context {W : Type}.

(** The slot a goroutine keeps after an access, and whether the access is in
    order: one slot at a time, given back to the cluster it was taken from, and no
    question without one. *)
Definition slot_after (h : option string) (x : action W) : option string :=
  match x with
  | Action o b =>
      match o in op _ B return B → option string with
      | Acquire id => λ ok, if ok then Some id else h
      | Release _ => λ _, None
      | _ => λ _, h
      end b
  end.

Definition in_order (h : option string) (x : action W) : bool :=
  match x with
  | Action (Acquire _) _ => match h with None => true | Some _ => false end
  | Action (Release id) _ => match h with Some i => seqb i id | None => false end
  | Action (Ask _ _) _ | Action (AskGroup _ _) _ => match h with Some _ => true | None => false end
  | _ => true
  end.

Fixpoint all_in_order (h : option string) (t : list (action W)) : bool :=
  match t with
  | [] => true
  | x :: t => in_order h x && all_in_order (slot_after h x) t
  end.

Definition keeps_slot (t : list (action W)) : option string := foldl slot_after None t.
Definition holding (x : goroutine W) : option string := keeps_slot (g_done x).

(** The goroutines that hold a slot of a cluster. *)
Definition holds_slot (id : string) (x : goroutine W) : nat := if decide (holding x = Some id) then 1 else 0.
Definition holders (id : string) (live : list (goroutine W)) : nat := sum_list_with (holds_slot id) live.

Lemma all_in_order_snoc h t x : all_in_order h (t ++ [x]) = all_in_order h t && in_order (foldl slot_after h t) x.
Proof.
  revert h. induction t as [|y t IH]; intros h; cbn; [by rewrite andb_true_r|]. rewrite IH. by rewrite andb_assoc.
Qed.
End slots.

(** A program that is in order from the slot [h] to the slot [h']. *)
Abbreviation tidy := (goes slot_after in_order) (only parsing).

Section bodies.
Context {W : Type} (i64 : spec_float → Z) (p : Pipeline W).

Lemma go_evaluate_tidy a : tidy None (go_evaluate (W := W) a) None.
Proof.
  unfold go_evaluate. eapply goes_bind; [by cbn|]. intros [c|]; [done|]. intros [|]; (split; [done|]); [|done].
  intros examples. split; [done|]. intros [[res|e]|]; (split; [done|]); cbn; [intros []; split; [done|]| |];
    (intros []; split; [by apply seqb_refl|done]).
Qed.

Lemma go_evaluateIncident_tidy rep l : tidy None (go_evaluateIncident (W := W) rep l) None.
Proof.
  unfold go_evaluateIncident. intros [|]; (split; [done|]); [|done]. intros examples. split; [done|].
  intros r. split; [done|]. intros []. split; [by apply seqb_refl|done].
Qed.

Lemma go_maybeSilence_tidy a an : tidy None (go_maybeSilence (W := W) a an) None.
Proof. unfold go_maybeSilence. goes_tac. Qed.

Lemma go_deliver_tidy a msg : tidy None (go_deliver p a msg) None.
Proof. unfold go_deliver, go_send. goes_tac. Qed.

Lemma go_announce_tidy rep an msg : tidy None (go_announce i64 p rep an msg) None.
Proof. unfold go_announce, go_attachFeedback. goes_tac; try apply go_deliver_tidy. Qed.

Lemma go_processIncident_tidy l : tidy None (go_processIncident i64 p l) None.
Proof.
  unfold go_processIncident. goes_tac;
    first [apply go_evaluate_tidy|apply go_evaluateIncident_tidy|apply go_maybeSilence_tidy|apply go_announce_tidy].
Qed.

Lemma body_tidy w : tidy None (body i64 p w) None.
Proof.
  destruct w as [a|key|order]; cbn [body].
  - unfold go_Process, go_processSingle, go_processResolved. goes_tac;
      first [apply go_evaluate_tidy|apply go_maybeSilence_tidy|apply go_announce_tidy|apply go_deliver_tidy].
  - unfold go_flushKey. goes_tac. apply go_processIncident_tidy.
  - unfold go_Drain, go_flushKey. goes_tac. apply go_processIncident_tidy.
Qed.
End bodies.

(** ** The pool *)

Abbreviation slots_of pool id := (slots (Some pool) id) (only parsing).

Section pool.
Context `{HC : !Clock} {T : Type} `{HN : !Num T}.

(** Every bucket is a limiter with the configured number of slots. *)
Definition pool_ok (m : Z) (pool : Pool T) : Prop :=
  maxConcurrent pool = m ∧ 0 < m ∧ 0 < callsPerMinute pool ∧
  ∀ id b, Limiter.buckets pool !! id = Some b → ∃ l, b = Some l ∧ cap l = Z.to_nat m ∧ (used l ≤ cap l)%nat.

Lemma slots_of_bound m pool id : pool_ok m pool → (slots_of pool id ≤ Z.to_nat m)%nat.
Proof.
  intros (_ & _ & _ & Hb). unfold slots. destruct (Limiter.buckets pool !! id) as [b|] eqn:E; [|lia].
  destruct (Hb id b E) as (l & -> & <- & ?). lia.
Qed.

Lemma pool_ok_set m pool id l : pool_ok m pool → cap l = Z.to_nat m → (used l ≤ cap l)%nat →
  pool_ok m (set_bucket id (Some l) pool) ∧
  ∀ id', slots_of (set_bucket id (Some l) pool) id' = if decide (id' = id) then used l else slots_of pool id'.
Proof.
  intros (H1 & H2 & H3 & H4) Hc Hu. split.
  - split_and!; [done..|]. intros id' b. cbn. intros [[<- <-]|[_ H]]%lookup_insert_Some; [by exists l|by apply (H4 id')].
  - intros id'. by rewrite slots_set.
Qed.

(** The bucket of a cluster is there, or is made. *)
Lemma bucket_ok m pool id n : pool_ok m pool → ∃ l n' pool',
  Limiter.bucket id (n, pool) = (Some l, (n', pool')) ∧ pool_ok m pool' ∧ cap l = Z.to_nat m ∧ used l = slots_of pool id ∧
  (used l ≤ cap l)%nat ∧ ∀ id', slots_of pool' id' = slots_of pool id'.
Proof.
  intros Hp. pose proof Hp as (H1 & H2 & H3 & H4). unfold Limiter.bucket. munfold.
  destruct (Limiter.buckets pool !! id) as [b|] eqn:E.
  - destruct (H4 id b E) as (l & -> & Hc & Hu). exists l, n, pool. split_and!; try done. unfold slots. by rewrite E.
  - unfold Limiter_New. destruct (Z.leb_spec (callsPerMinute pool) 0); [lia|].
    destruct (Z.leb_spec (maxConcurrent pool) 0); [lia|]. cbn [orb]. munfold. mstep.
    match goal with |- context [set_bucket id (Some ?x)] => set (l := x) end.
    destruct (pool_ok_set m pool id l Hp) as [Ho Hs]; [by cbn; rewrite H1|cbn; lia|].
    exists l, (Datatypes.S n), (set_bucket id (Some l) pool). split_and!; try done.
    + cbn. by rewrite H1.
    + unfold slots. by rewrite E.
    + cbn. lia.
    + intros id'. rewrite Hs. destruct (decide (id' = id)) as [->|]; [|done]. unfold slots. by rewrite E.
Qed.

Lemma Pool_Acquire_takes m pool id n b n' o : pool_ok m pool → Pool_Acquire id (n, Some pool) = (b, (n', o)) →
  ∃ pool', o = Some pool' ∧ pool_ok m pool' ∧
    ∀ id', slots_of pool' id' = (slots_of pool id' + if decide (b = true ∧ id' = id) then 1 else 0)%nat.
Proof.
  intros Hp. destruct (bucket_ok m pool id n Hp) as (l & n1 & pool1 & Hb & Hp1 & Hc & Hu & Hle & Hs).
  unfold Pool_Acquire, on_bucket, mbind at 1, M_bind at 1. rewrite Hb. cbn [Limiter_Acquire].
  unfold limiter_Acquire, take_slot, take_token, give_slot. munfold.
  assert (∀ l', cap l' = Z.to_nat m → (used l' ≤ cap l')%nat → ∀ b, used l' = (used l + if b : bool then 1 else 0)%nat → ∃ pool',
    Some (set_bucket id (Some l') pool1) = Some pool' ∧ pool_ok m pool' ∧
    ∀ id', slots_of pool' id' = (slots_of pool id' + if decide (b = true ∧ id' = id) then 1 else 0)%nat) as Hset.
  { intros l' Hc' Hu' b' E. destruct (pool_ok_set m pool1 id l' Hp1 Hc' Hu') as [Ho Hs'].
    exists (set_bucket id (Some l') pool1). split; [done|]. split; [done|]. intros id'. rewrite Hs'.
    destruct (decide (id' = id)) as [->|]; [rewrite E, Hu|rewrite Hs];
      destruct b'; repeat destruct (decide _); try tauto; try lia; naive_solver lia. }
  destruct (Nat.ltb_spec (used l) (cap l)); cbn [negb fst snd].
  - mstep. destruct (n_ltb _ _); cbn [negb]; munfold; intros [= <- <- <-]; (apply Hset; [done|cbn; lia|cbn; lia]).
  - intros [= <- <- <-]. apply Hset; [done|lia|lia].
Qed.

Lemma Pool_Release_gives m pool id n u n' o : pool_ok m pool → Pool_Release id (n, Some pool) = (u, (n', o)) →
  ∃ pool', o = Some pool' ∧ pool_ok m pool' ∧
    ∀ id', slots_of pool' id' = (slots_of pool id' - if decide (id' = id) then 1 else 0)%nat.
Proof.
  intros Hp. destruct (bucket_ok m pool id n Hp) as (l & n1 & pool1 & Hb & Hp1 & Hc & Hu & Hle & Hs).
  unfold Pool_Release, on_bucket, mbind at 1, M_bind at 1. rewrite Hb. cbn [Limiter_Release].
  unfold limiter_Release, give_slot. munfold. intros [= <- <- <-].
  destruct (pool_ok_set m pool1 id (set_used (pred (used l)) l) Hp1) as [Ho Hs']; [done|cbn; lia|].
  eexists. split; [done|]. split; [done|]. intros id'. rewrite Hs'. destruct (decide (id' = id)) as [->|]; cbn [used set_used]; [lia|].
  by rewrite Hs, Nat.sub_0_r.
Qed.
End pool.

(** ** The invariant *)

Section backstop.
Context `{HC : !Clock, HL : !CertLib} {T S W : Type} `{HN : !Num T, HS : !Store.Store S, HW : !Net W}.
Context {PK ESK SK HPK K CK CA : Type}.
Context `{HE : !Ecdsa PK ESK, HX : !X509 PK, HH : !Hpke SK HPK K, HG : !Gcm, HP : !PayloadLib CK CA, HWi : !Wire}.
Context (FF : spec_float → string) (PF : string → option spec_float).
Context (sort : list verdictEntry → list verdictEntry) (i64 : spec_float → Z) (IsPrint : Z → bool).
Context (yaml_tenants : string → option (list Tenant)).
Context (p : Pipeline W) (sv : option Server) (d : option (Deps SK CK)) (m : Z).

Abbreviation step := (step (T := T) FF PF sort i64 IsPrint yaml_tenants p sv d).
Abbreviation steps := (steps (T := T) FF PF sort i64 IsPrint yaml_tenants p sv d).

Lemma exec_limiter {B} (o : op W B) n c (r : Rest T S W) b n' c' r' :
  exec FF PF sort p o (n, (c, r)) = (b, (n', (c', r'))) →
  match o in op _ B return B → Prop with
  | Acquire id => λ b, Pool_Acquire id (n, limiter r) = (b, (n', limiter r'))
  | Release id => λ u, Pool_Release id (n, limiter r) = (u, (n', limiter r'))
  | _ => λ _, limiter r' = limiter r
  end b.
Proof.
  destruct o; cbn [exec]; try (unfold on_rest, zoom; cbn [fst snd];
      match goal with |- context [ask ?call (n, r)] => destruct (ask_run call n r) as (? & ? & ? & _ & ->) end;
      by intros [= <- <- <- <-]);
    try (match goal with |- context [Metrics.fits ?i ?values] => destruct (Metrics.fits i values) end; by intros [= <- <- <- <-]);
    unfold on_rest, on_storage, on_limiter, on_outside, on_correlator, panic, zoom; cbn [fst snd];
    try (munfold; by intros [= <- <- <- <-]);
    match goal with
    | |- context [?f (n, storage r)] => destruct (f (n, storage r)) as [? [? ?]]
    | |- context [?f (n, outside r)] => destruct (f (n, outside r)) as [? [? ?]]
    | |- context [?f (n, limiter r)] => destruct (f (n, limiter r)) as [? [? ?]]
    | |- context [?f (n, c)] => destruct (f (n, c)) as [? [? ?]]
    end; by intros [= <- <- <- <-].
Qed.

(** As many slots are taken of a cluster's limiter as goroutines hold one. *)
Record slots_inv (live : list (goroutine W)) (over : list (owner * list (action W))) (r : Rest T S W) : Prop := {
  sl_tidy x : x ∈ live → tidy (holding x) (g_rest x) None;
  sl_live x : x ∈ live → all_in_order None (g_done x) = true;
  sl_over w t : (w, t) ∈ over → all_in_order None t = true ∧ keeps_slot t = None;
  sl_pool : ∃ pool, limiter r = Some pool ∧ pool_ok m pool ∧ ∀ id, slots_of pool id = holders id live;
}.

Lemma slots_access live over c r i w past {B} (o : op W B) k b n n' c' r' :
  slots_inv live over r → live !! i = Some (MkGoroutine w past (Call o k)) →
  exec FF PF sort p o (n, (c, r)) = (b, (n', (c', r'))) →
  slots_inv (<[i := MkGoroutine w (past ++ [Action o b])%list (k b)]> live) over r'.
Proof.
  intros [H1 H2 H3 (pool & H4 & H5 & H6)] Hl He. pose proof (list_elem_of_lookup_2 _ _ _ Hl) as Hin.
  destruct (H1 _ Hin b) as [Ho Ht]. change (holding _) with (keeps_slot past) in Ho, Ht.
  set (x' := MkGoroutine w (past ++ [Action o b])%list (k b)).
  assert (holding x' = slot_after (keeps_slot past) (Action o b)) as Hx' by (unfold holding, keeps_slot; cbn; by rewrite foldl_app).
  assert (∀ y, y ∈ <[i:=x']> live → y = x' ∨ y ∈ live) as Hy.
  { intros y (j & Hj)%list_elem_of_lookup_1. apply list_lookup_insert_Some in Hj as [(_ & <- & _)|[_ Hj]]; [by left|right].
    by eapply list_elem_of_lookup_2. }
  split.
  - intros y [->|Hyl]%Hy; [by rewrite Hx'|by apply H1].
  - intros y [->|Hyl]%Hy; [|by apply H2]. cbn [g_done x']. rewrite all_in_order_snoc. apply andb_true_iff. split; [by apply (H2 _ Hin)|exact Ho].
  - done.
  - assert (∀ id, (holders id (<[i:=x']> live) + holds_slot id (MkGoroutine w past (Call o k)) =
      holders id live + holds_slot id x')%nat) as Hsum.
    { intros id. by apply (Interleaving.sum_list_with_insert (holds_slot id)). }
    unfold holds_slot in Hsum. rewrite Hx' in Hsum. change (holding (MkGoroutine w past (Call o k))) with (keeps_slot past) in Hsum.
    apply exec_limiter in He. destruct o; cbn in Ho, Hsum, He;
      try (exists pool; split; [by rewrite He|]; split; [done|]; intros id'; specialize (Hsum id'); rewrite H6; lia).
    + destruct (keeps_slot past) eqn:Ek; [done|]. rewrite H4 in He.
      destruct (Pool_Acquire_takes m pool id n b n' _ H5 He) as (pool' & E & Hok & Hs). exists pool'. split_and!; [done..|].
      intros id'. specialize (Hsum id'). rewrite Hs, H6. destruct b; repeat case_decide; simplify_eq; intuition (congruence || lia).
    + destruct (keeps_slot past) as [j|] eqn:Ek; [|done]. apply seqb_true in Ho. subst j. rewrite H4 in He.
      destruct (Pool_Release_gives m pool id n b n' _ H5 He) as (pool' & E & Hok & Hs). exists pool'. split_and!; [done..|].
      intros id'. specialize (Hsum id'). rewrite Hs, H6. repeat case_decide; simplify_eq; intuition (congruence || lia).
Qed.

Lemma slots_spawn live over r ws : slots_inv live over r → slots_inv (live ++ map (spawn i64 p) ws) over r.
Proof.
  intros [H1 H2 H3 (pool & H4 & H5 & H6)].
  assert (∀ x, x ∈ (live ++ map (spawn i64 p) ws)%list → x ∈ live ∨ ∃ w, x = spawn i64 p w) as Hx.
  { intros x [?|(w & -> & _)%list_elem_of_fmap]%elem_of_app; eauto. }
  split; [| |done|].
  - intros x [Hin|[w ->]]%Hx; [by apply H1|apply body_tidy].
  - intros x [Hin|[w ->]]%Hx; [by apply H2|done].
  - exists pool. split_and!; [done..|]. intros id. rewrite H6. unfold holders. rewrite sum_list_with_app.
    assert (sum_list_with (holds_slot id) (map (spawn i64 p) ws) = 0%nat) as ->; [|lia].
    clear. induction ws as [|w ws IH]; cbn; [done|]. by rewrite IH.
Qed.

Lemma slots_return live over r i w past :
  slots_inv live over r → live !! i = Some (MkGoroutine w past (Return tt)) →
  slots_inv (delete i live) (over ++ [(w, past)])%list r.
Proof.
  intros [H1 H2 H3 (pool & H4 & H5 & H6)] Hl. pose proof (list_elem_of_lookup_2 _ _ _ Hl) as Hin.
  pose proof (H1 _ Hin : keeps_slot past = None) as Hk. split.
  - intros x Hx. by apply H1, (list_elem_of_delete_inv _ i).
  - intros x Hx. by apply H2, (list_elem_of_delete_inv _ i).
  - intros w' t [Hx|Hx%list_elem_of_singleton]%elem_of_app; [by apply (H3 w')|]. injection Hx as -> ->.
    split; [by apply (H2 _ Hin)|done].
  - exists pool. split_and!; [done..|]. intros id. rewrite H6. unfold holders.
    apply list_elem_of_split_length in Hl as (l1 & l2 & -> & ->). rewrite delete_middle, !sum_list_with_app.
    cbn [sum_list_with]. assert (holds_slot id (MkGoroutine w past (Return tt)) = 0%nat) as ->; [|lia].
    unfold holds_slot. change (holding _) with (keeps_slot past). by rewrite Hk.
Qed.

Lemma slots_same live over r r' : slots_inv live over r → limiter r' = limiter r → slots_inv live over r'.
Proof. intros [H1 H2 H3 H4] E. split; [done..|]. by rewrite E. Qed.

Definition slots_kept (g : program T S W) : Prop := slots_inv (pg_live g) (pg_over g) (pg_core g).2.

Lemma slots_call {A} (f : M (Brain S) A) n (g : program T S W) r n' g' new :
  takes f → slots_kept g → on_brain f (n, g) = (r, (n', g')) → slots_kept (start_alerts i64 p new g').
Proof.
  intros Hm Hs Hb. destruct (on_brain_takes f n g r n' g' Hm Hb) as (_ & _ & Hl & Ho & Hc & _).
  unfold slots_kept, start_alerts, set_live. cbn [pg_live pg_over pg_core]. rewrite Hl, Ho.
  replace (map (λ a, spawn i64 p (Alert a)) new) with (map (spawn i64 p) (map Alert new)) by (by rewrite map_map).
  apply slots_spawn. eapply slots_same; [exact Hs|]. by rewrite Hc.
Qed.

Lemma step_slots e s s' : step e s s' → slots_kept s.2 → slots_kept s'.2.
Proof.
  destruct 1 as [srv serial req ctx r n g n' g' new _ _ _ Hb Hn|deps dr rq r n g n' g' new _ _ _ Hb Hn
    |method path id verdict r n g n' s' _ _ _|i w past B o k b n [x t h live over [c r]] n' [c' r'] _ Hl He
    |i j a past n x t h live over c _ Hl Hj|i key past n x t h live over c _ Hl
    |id key when n [x t h live over c] _ _ _|expired order n [x t h live over c] _ _ _
    |i order past e n t h live over c _ Hl|e n g _ _ _|e n g _ _|n g _ _|stat read n g _|st n n' g _|n n' g _];
    cbn [snd]; intros Hi; try exact Hi.
  - by eapply slots_call; [apply serve_takes|..].
  - by eapply slots_call; [apply serve_http_takes|..].
  - by eapply slots_same.
  - by eapply slots_access.
  - by eapply slots_return.
  - by eapply slots_return.
  - by apply (slots_spawn _ _ _ [Timer key]).
  - by apply (slots_spawn _ _ _ [Main order]).
  - by eapply slots_return.
  - by eapply slots_same.
Qed.

Lemma steps_slots es s s' : steps es s s' → slots_kept s.2 → slots_kept s'.2.
Proof. induction 1; eauto using step_slots. Qed.

(** A brain that has just started, with limits configured. *)
Lemma fresh_slots (g : program T S W) c b :
  pg_live g = [] → pg_over g = [] → limiter (pg_core g).2 = NewPool c b m → 0 < c → 0 < m → slots_kept g.
Proof.
  intros Hl Ho Hlim Hc Hm. split; rewrite ?Hl, ?Ho; try (by intros ? ?%elem_of_nil); [by intros ? ? ?%elem_of_nil|].
  revert Hlim. unfold NewPool. destruct (Z.leb_spec c 0); [lia|]. destruct (Z.leb_spec m 0); [lia|]. intros ->.
  eexists. split; [done|]. split; [|done]. split_and!; [done..|]. intros id x. cbn. by rewrite lookup_empty.
Qed.

Lemma slots_bound g id : slots_kept g → Z.of_nat (holders id (pg_live g)) <= m.
Proof.
  intros [_ _ _ (pool & _ & Hp & Hslots)]. rewrite <- Hslots. pose proof (slots_of_bound m pool id Hp).
  destruct Hp as (_ & ? & _). lia.
Qed.

(** C11: the cost backstop holds in the running brain: with limits configured, at
    any moment of any interleaving at most [maxConcurrent] goroutines are between
    taking a slot of a cluster and giving it back; every question to the LLM was
    asked in between, every slot went back to the cluster it was taken from, and a
    goroutine that returned keeps none. *)
Theorem llm_questions_bounded (es : list (event W)) (n n' : nat) (g g' : program T S W) (c b : Z) :
  steps es (n, g) (n', g') → pg_live g = [] → pg_over g = [] →
  limiter (pg_core g).2 = NewPool c b m → 0 < c → 0 < m →
  (∀ id, Z.of_nat (holders id (pg_live g')) <= m) ∧
  Forall (λ r, all_in_order None r.2 = true) (records g') ∧
  Forall (λ r, keeps_slot r.2 = None) (pg_over g').
Proof.
  intros Hs Hl Ho Hlim Hc Hm. assert (slots_kept g') as Hg by (eapply (steps_slots _ _ _ Hs), fresh_slots; done).
  pose proof Hg as [_ H2 H3 _]. split_and!; [intros id; by apply slots_bound| |].
  - unfold records. rewrite Forall_app. split; apply Forall_forall.
    + intros r (x & -> & Hx)%list_elem_of_fmap. by apply H2.
    + intros [w t] Hx. by apply (H3 w).
  - apply Forall_forall. intros [w t] Hx. by apply (H3 w).
Qed.
End backstop.

Section sample.
#[local] Existing Instances run_clock run_certlib run_net run_ecdsa run_x509 run_hpke run_gcm run_payload_lib run_wire.

(** The goroutine of the sample has taken its slot and is about to ask. *)
Definition asking_schedule : list move := (MCall None (IngestRequest run_alert) sample_ctx :: repeat (MAccess 0) 6)%list.

Definition asking_run : list (event seen) * (nat * program spec_float Memory.t seen) :=
  default ([], (0%nat, run_program))
    (schedule (T := spec_float) (λ _, "0") (λ _, None) merge_newest (λ _, 0) (λ _, None) failing_pipeline (Some sample_server)
       asking_schedule (0%nat, run_program)).

Lemma llm_questions_bounded_witness :
  (∀ id, Z.of_nat (holders id (pg_live asking_run.2.2)) <= 2) ∧
  Forall (λ r, all_in_order None r.2 = true) (records asking_run.2.2) ∧
  Forall (λ r, keeps_slot r.2 = None) (pg_over asking_run.2.2).
Proof.
  apply (llm_questions_bounded (λ _, "0") (λ _, None) merge_newest (λ _, 0) (λ _, true) (λ _, None) failing_pipeline
    (Some sample_server) (Some sample_deps) 2 asking_run.1 0 asking_run.2.1 run_program asking_run.2.2 60 0).
  - apply (scheduled _ _ _ _ _ _ _ _ _ asking_schedule). vm_compute. reflexivity.
  - reflexivity.
  - reflexivity.
  - reflexivity.
  - lia.
  - lia.
Defined.

Example asking_holds_slot : holders "prod-a" (pg_live asking_run.2.2) = 1%nat.
Proof. vm_compute. reflexivity. Qed.
End sample.
