(* ===== verification/Spares.v ===== *)
(** * What the program leaves alone

    The components of the brain share one store. Each has its own keys: nothing the
    program does, from a call of a transport to an access of a goroutine, touches a
    key that another component reserves, but by trying to set it ([spares]). So what
    is proved of one client against every evolution of the store ([evolves]) holds
    in the running brain ([step_spares]). *)
From S2P Require Import Prelude GoStrings Sha256 GoEncoding Proto Identity Store Dedup Replay Tenants Signer Issue Routing.
From S2P Require Import Limiter Correlator Analysis Providers Embed Cache Feedback History Notify SilenceClient HttpSig Sealed.
From S2P Require Import Trust Ingest GrpcSrv SignedSrv Metrics Pipeline Goroutines Service.
From Stdlib Require Import Ascii SpecFloat.

Open Scope Z_scope.

(** ** Keys *)

(** The key of the marker [Process] sets for an alert. *)
Definition marker_key (a : AlertPayload) : string :=
  if seqb (Status a) "resolved" then "dedup:resolved:" +:+ resolvedKey a else "dedup:" +:+ dedup_key a.

(** A key that the cache, the feedback links and the incident history never write. *)
Class Reserved (k : string) : Prop := {
  reserved_cache x : "cache:" +:+ x ≠ k;
  reserved_vec x : "vec:" +:+ x ≠ k;
  reserved_pending id : pending_key id ≠ k;
  reserved_verdict name x : verdict_prefix name +:+ x ≠ k;
  reserved_incident x : keyPrefix +:+ x ≠ k;
}.

#[export] Instance marker_reserved a : Reserved (marker_key a).
Proof. unfold marker_key. by split; intros; destruct (seqb _ _). Qed.

(** The markers of bootstrap tokens are others, under every prefix. *)
Lemma marker_not_used prefix cluster a : usedKey prefix cluster ≠ marker_key a.
Proof.
  intros H. assert (lacks "t" (marker_key a) = true) as Hm.
  { unfold marker_key, dedup_key, resolvedKey.
    destruct (seqb _ _); rewrite lacks_append.
    - destruct (sha256_hex_decodes (raw5 a)) as [v Hv]. by apply (hex_decode_lacks "t"%char) in Hv as ->.
    - destruct (sha256_hex_decodes (raw4 a)) as [v Hv]. by apply (hex_decode_lacks "t"%char) in Hv as ->. }
  rewrite <- H in Hm. unfold usedKey in Hm. rewrite lacks_append in Hm.
  apply andb_true_iff in Hm as [_ Hm]. by cbn in Hm.
Qed.

(** ** What leaves a key alone *)

(** The clock does not run backwards. *)
Definition forward {X A} (m : M X A) : Prop := ∀ n x, (n ≤ (m (n, x)).2.1)%nat.

Section spares.
Context `{HC : !Clock} {S : Type} `{HS : !Store S, HSp : !StoreSpec S} (k : string).

(** Code on a state that contains a store does to [k] what others may do. *)
Definition spares {X A} (π : X → S) (m : M X A) : Prop := ∀ n x,
  rtc (evolves k) (n, π x) ((m (n, x)).2.1, π (m (n, x)).2.2).

Lemma spares_ret {X A} π (a : A) : spares (X := X) π (mret a).
Proof. intros n x. apply rtc_refl. Qed.

Lemma spares_get {X} (π : X → S) : spares π get.
Proof. intros n x. apply rtc_refl. Qed.

Lemma spares_now {X} (π : X → S) : spares π time_Now.
Proof. intros n x. apply rtc_once, ev_time. cbn. lia. Qed.

Lemma spares_bind {X A B} π (m : M X A) (f : A → M X B) :
  spares π m → (∀ a, spares π (f a)) → spares π (m ≫= f).
Proof.
  intros Hm Hf n x. unfold mbind, M_bind. specialize (Hm n x). destruct (m (n, x)) as [a [n1 x1]].
  etrans; [exact Hm|]. apply Hf.
Qed.

Lemma spares_let {X A B C} π (x : A * B) (f : A → B → M X C) :
  (∀ a b, spares π (f a b)) → spares π (let '(a, b) := x in f a b).
Proof. destruct x. eauto. Qed.

(** Inside a larger state. *)
Lemma spares_zoom {X Y A} (π : X → S) (ρ : Y → S) proj upd (m : M X A) :
  spares π m → (∀ y, π (proj y) = ρ y) → (∀ x y, ρ (upd x y) = π x) → spares ρ (zoom proj upd m).
Proof.
  intros Hm Hp Hu n y. unfold zoom. cbn [fst snd]. specialize (Hm n (proj y)).
  destruct (m (n, proj y)) as [a [n1 x1]]. cbn [fst snd] in *. by rewrite Hu, <- Hp.
Qed.

(** Beside the store: only time passes. *)
Lemma spares_beside {X Y A} (ρ : Y → S) proj upd (m : M X A) :
  forward m → (∀ x y, ρ (upd x y) = ρ y) → spares ρ (zoom proj upd m).
Proof.
  intros Hm Hu n y. unfold zoom. cbn [fst snd]. specialize (Hm n (proj y)).
  destruct (m (n, proj y)) as [a [n1 x1]]. cbn [fst snd] in *. rewrite Hu. by apply rtc_once, ev_time.
Qed.

Lemma spares_Get k' : spares id (store_Get k').
Proof. intros n s. destruct (store_Get k' (n, s)) as [r [n' s']] eqn:E. by eapply rtc_once, ev_get. Qed.

(** Other replicas meddle with the listed keys only. *)
Lemma spares_List p : glob_free p = true → (∀ x, p +:+ x ≠ k) → spares id (store_ListByPrefix p).
Proof.
  intros Hg Hp n s. destruct (store_ListByPrefix p (n, s)) as [r [n' s']] eqn:E. eapply rtc_once, ev_list; [|exact E].
  apply ListByPrefix_spec in E as (_ & _ & Hm). intros Hk. apply (proj1 (Hm Hg)), HasPrefix_spec in Hk as [x ->].
  by apply (Hp x).
Qed.

Lemma spares_SetNX k' v ttl : spares id (store_SetNX k' v ttl).
Proof. intros n s. destruct (store_SetNX k' v ttl (n, s)) as [r [n' s']] eqn:E. by eapply rtc_once, ev_setnx. Qed.

Lemma spares_Set k' v ttl : k' ≠ k → spares id (store_Set k' v ttl).
Proof. intros Hk n s. destruct (store_Set k' v ttl (n, s)) as [r [n' s']] eqn:E. by eapply rtc_once, ev_set. Qed.

Lemma spares_Delete k' : k' ≠ k → spares id (store_Delete k').
Proof. intros Hk n s. destruct (store_Delete k' (n, s)) as [r [n' s']] eqn:E. by eapply rtc_once, ev_delete. Qed.
End spares.

#[export] Hint Resolve spares_ret spares_get spares_now spares_Get spares_List spares_SetNX spares_Set spares_Delete : muthur.
Lemma vec_glob_free : glob_free "vec:" = true.
Proof. done. Qed.

#[export] Hint Resolve verdict_prefix_glob_free vec_glob_free : muthur.
#[export] Hint Resolve reserved_cache reserved_vec reserved_pending reserved_verdict reserved_incident : muthur.

(** Walk through code: binds, tests and leaves. *)
Ltac spares_tac :=
  repeat first
    [ solve [auto with muthur]
    | apply spares_bind; [|intros ?]
    | apply spares_let; intros ? ?
    | match goal with |- spares _ _ (match ?x with _ => _ end) => destruct x end ].

(** *** The clients of the store *)

Section clients.
Context `{HC : !Clock, HL : !CertLib} {S : Type} `{HS : !Store S, HSp : !StoreSpec S} (k : string) `{HR : !Reserved k}.
Context (FF : spec_float → string) (PF : string → option spec_float).

Abbreviation spares := (spares k (id (A := S))) (only parsing).

Lemma IsDuplicate_spares d a : spares (IsDuplicate d a).
Proof. unfold IsDuplicate. spares_tac. Qed.

Lemma IsDuplicateResolved_spares d a : spares (IsDuplicateResolved d a).
Proof. unfold IsDuplicateResolved. spares_tac. Qed.

Lemma cache_Get_spares c a : spares (cache_Get PF c a).
Proof. unfold cache_Get, semanticLookup. spares_tac. Qed.

Lemma cache_Set_spares c a analysis : spares (cache_Set FF c a analysis).
Proof. unfold cache_Set. spares_tac. Qed.

Lemma Examples_spares sort m a : spares (Examples sort m a).
Proof. unfold Examples. spares_tac. Qed.

Lemma feedback_Record_spares m a analysis : spares (feedback_Record m a analysis).
Proof. unfold feedback_Record. spares_tac. Qed.

Lemma feedback_ServeHTTP_spares m i verdict : spares (feedback_ServeHTTP m i verdict).
Proof. unfold feedback_ServeHTTP. spares_tac. Qed.

Lemma history_Record_spares h rep analysis alerts : spares (history_Record h rep analysis alerts).
Proof. unfold history_Record. spares_tac. Qed.

Lemma Verify_spares g i ts nonce : spares (Verify g i ts nonce).
Proof. unfold Verify. spares_tac. Qed.

Lemma Bootstrap_Issue_spares prefix sg tenants serial inp :
  (∀ c, usedKey prefix c ≠ k) → spares (Bootstrap_Issue prefix sg tenants serial inp).
Proof. intros Hu. unfold Bootstrap_Issue, past_expiry, marker_ttl, Sign. spares_tac. Qed.

Lemma Renew_Issue_spares sg tenants i serial csr : spares (Renew_Issue sg tenants i serial csr).
Proof. unfold Renew_Issue, Sign. spares_tac. Qed.

Lemma serve_public_spares m method path i verdict : spares (serve_public m method path i verdict).
Proof. unfold serve_public. pose proof feedback_ServeHTTP_spares. spares_tac. Qed.
End clients.

(** *** The servers *)

Section servers.
Context `{HC : !Clock, HL : !CertLib} {S : Type} `{HS : !Store S, HSp : !StoreSpec S} (k : string) `{HR : !Reserved k}.

Abbreviation spares := (spares k (@br_store S)) (only parsing).

Lemma on_store_spares {A} (m : M S A) : Spares.spares k id m → spares (on_store m).
Proof. intros Hm. by eapply spares_zoom. Qed.

Lemma on_ingest_spares {A} (m : M Handler A) : forward m → spares (on_ingest m).
Proof. intros Hm. by apply spares_beside. Qed.

Lemma Ingest_forward ctx payload : forward (Ingest ctx payload).
Proof. intros n h. rewrite Ingest_spec. destruct ctx as [i|]; [|done]. by destruct (seqb _ _). Qed.

Lemma dispatch_spares srv serial req ctx :
  (∀ c, usedKey (sv_prefix srv) c ≠ k) → spares (dispatch srv serial req ctx).
Proof.
  intros Hu. unfold dispatch, Server_Ingest, Server_BootstrapCert, Server_SignCSR.
  pose proof (λ ctx p, on_ingest_spares _ (Ingest_forward ctx p)).
  pose proof (λ tenants inp, on_store_spares _ (Bootstrap_Issue_spares k _ (sv_signer srv) tenants serial inp Hu)).
  pose proof (λ tenants i csr, on_store_spares _ (Renew_Issue_spares k (sv_signer srv) tenants i serial csr)).
  spares_tac.
Qed.

Lemma serve_spares srv serial req ctx :
  (∀ c, usedKey (sv_prefix srv) c ≠ k) → spares (serve srv serial req ctx).
Proof.
  intros Hu. unfold serve. cbn [chain]. unfold AuthInterceptor, RevocationInterceptor, ReplayInterceptor.
  pose proof (λ ctx, dispatch_spares srv serial req ctx Hu).
  pose proof (λ i ts nonce, on_store_spares _ (Verify_spares k (sv_guard srv) i ts nonce)). spares_tac.
Qed.

Context {PK ESK SK HPK K CK CA : Type} (IsPrint : Z → bool).
Context `{HE : !Ecdsa PK ESK, HX : !X509 PK, HH : !Hpke SK HPK K, HG : !Gcm, HP : !PayloadLib CK CA, HWi : !Wire}.
Context (d : Deps SK CK) (Hu : ∀ c, usedKey (sv_prefix (dp_server d)) c ≠ k).

Lemma answer_spares dr path ts nonce kid body ctx call :
  (∀ ctx plain, spares (call ctx plain)) → spares (answer d dr path ts nonce kid body ctx call).
Proof. intros Hc. unfold answer. spares_tac. Qed.

Lemma handle_spares dr rq path authenticated call :
  (∀ ctx plain, spares (call ctx plain)) → spares (handle IsPrint d dr rq path authenticated call).
Proof.
  intros Hc. unfold handle, authenticate, answer.
  pose proof (λ i ts nonce, on_store_spares _ (Verify_spares k (sv_guard (dp_server d)) i ts nonce)). spares_tac.
Qed.

Lemma serve_http_spares dr rq : spares (serve_http IsPrint d dr rq).
Proof.
  pose proof (λ serial req ctx, dispatch_spares (dp_server d) serial req ctx Hu).
  unfold serve_http, serve_keys, bootstrap, ingest, signCSR.
  spares_tac; apply handle_spares; intros ctx plain; spares_tac.
Qed.
End servers.

(** *** The accesses of the goroutines *)

Section forward.
Context {X : Type}.

Lemma forward_ret {A} (a : A) : forward (X := X) (mret a).
Proof. by intros n x. Qed.

Lemma forward_modify (f : X → X) : forward (modify f).
Proof. by intros n x. Qed.

Lemma forward_put (x : X) : forward (put x).
Proof. by intros n y. Qed.

Lemma forward_get : forward (get (S := X)).
Proof. by intros n x. Qed.

Lemma forward_now `{!Clock} : forward (X := X) time_Now.
Proof. intros n x. cbn. lia. Qed.

Lemma forward_bind {A B} (m : M X A) (f : A → M X B) : forward m → (∀ a, forward (f a)) → forward (m ≫= f).
Proof.
  intros Hm Hf n x. unfold mbind, M_bind. specialize (Hm n x). destruct (m (n, x)) as [a [n1 x1]].
  specialize (Hf a n1 x1). cbn in *. lia.
Qed.

Lemma forward_let {A B C} (x : A * B) (f : A → B → M X C) :
  (∀ a b, forward (f a b)) → forward (let '(a, b) := x in f a b).
Proof. destruct x. eauto. Qed.

Lemma forward_each {A} (l : list A) (body : A → M X unit) : (∀ a, forward (body a)) → forward (for_each l body).
Proof. intros Hb. induction l as [|a l IH]; [apply forward_ret|]. by apply forward_bind. Qed.
End forward.

#[export] Hint Resolve forward_ret forward_modify forward_put forward_get forward_now forward_each : muthur.

Ltac forward_tac :=
  repeat first
    [ solve [auto with muthur]
    | apply forward_bind; [|intros ?]
    | apply forward_let; intros ? ?
    | match goal with |- forward (match ?x with _ => _ end) => destruct x end ].

Section accesses.
Context `{HC : !Clock} {T W : Type} `{HN : !Num T, HW : !Net W}.

Lemma Add_forward a : forward (Correlator.Add a).
Proof. unfold Correlator.Add, AfterFunc. forward_tac. Qed.

Lemma take_bucket_forward key : forward (take_bucket key).
Proof. unfold take_bucket. forward_tac. Qed.

Lemma drain_keys_forward order : forward (drain_keys order).
Proof. unfold drain_keys. forward_tac. Qed.

(** On a limiter that may be nil. *)
Lemma forward_option {X A} (a0 : A) (m : M X A) : forward m →
  forward (λ '(n, o), match o with
                      | None => (a0, (n, None))
                      | Some x => let '(a, (n, x)) := m (n, x) in (a, (n, Some x))
                      end).
Proof.
  intros Hm n [x|]; [|done]. specialize (Hm n x). by destruct (m (n, x)) as [a [n1 x1]].
Qed.

Lemma on_bucket_forward {A} i (m : M (option (Limiter T)) A) : forward m → forward (on_bucket i m).
Proof.
  intros Hm. unfold on_bucket, Limiter.bucket, Limiter_New. forward_tac.
  intros n x. specialize (Hm n a). cbn. by destruct (m (n, a)) as [r [n1 l1]].
Qed.

Lemma Acquire_forward i : forward (Pool_Acquire (T := T) i).
Proof.
  apply (forward_option true (on_bucket i Limiter_Acquire)), on_bucket_forward.
  apply (forward_option true limiter_Acquire). unfold limiter_Acquire, take_slot, take_token, give_slot. forward_tac.
Qed.

Lemma Release_forward i : forward (Pool_Release (T := T) i).
Proof.
  apply (forward_option tt (on_bucket i Limiter_Release)), on_bucket_forward.
  apply (forward_option tt limiter_Release). unfold limiter_Release, give_slot. forward_tac.
Qed.

Lemma CreateSilence_forward c payload reason :
  (∀ req, forward (http_do req)) → forward (CreateSilence c payload reason).
Proof. intros Hh. unfold CreateSilence. forward_tac. Qed.
End accesses.

(** No receiver, no LLM and no AlertManager makes the clock run backwards. *)
Class Onward {W : Type} `{!Net W} (p : Pipeline W) : Prop := {
  onward_Send name notifier msg : p_notifiers p !! name = Some notifier → forward (Send notifier msg);
  onward_Analyze ctx payload examples : forward (Analyze (p_evaluator p) ctx payload examples);
  onward_AnalyzeIncident ctx payloads examples : forward (AnalyzeIncident (p_evaluator p) ctx payloads examples);
  onward_http req : forward (http_do req);
}.

#[export] Hint Resolve IsDuplicate_spares IsDuplicateResolved_spares cache_Get_spares cache_Set_spares Examples_spares
  feedback_Record_spares history_Record_spares : muthur.
#[export] Hint Resolve Add_forward take_bucket_forward drain_keys_forward Acquire_forward Release_forward
  CreateSilence_forward onward_Send onward_Analyze onward_AnalyzeIncident onward_http : muthur.

Section exec.
Context `{HC : !Clock} {T S W : Type} `{HN : !Num T, HS : !Store.Store S, HSp : !StoreSpec S, HW : !Net W}.
Context (FF : spec_float → string) (PF : string → option spec_float) (sort : list verdictEntry → list verdictEntry).
Context (p : Pipeline W) `{HO : !Onward p} (k : string) `{HR : !Reserved k}.

Definition core_store (c : Correlator.Correlator * Rest T S W) : S := storage c.2.

Lemma on_storage_spares {A} (m : M S A) : spares k id m → spares k core_store (on_rest (on_storage m)).
Proof. intros Hm. eapply (spares_zoom k storage); [|done..]. by eapply spares_zoom. Qed.

Lemma on_limiter_spares {A} (m : M (option (Limiter.Pool T)) A) : forward m → spares k core_store (on_rest (on_limiter m)).
Proof. intros Hm. eapply (spares_zoom k storage); [|done..]. by eapply spares_beside. Qed.

Lemma on_outside_spares {A} (m : M W A) : forward m → spares k core_store (on_rest (on_outside m)).
Proof. intros Hm. eapply (spares_zoom k storage); [|done..]. by eapply spares_beside. Qed.

Lemma ask_spares (call : M W (option (result Evaluator.run_error Analysis))) : forward call → spares k core_store (on_rest (ask call)).
Proof.
  intros Hm. eapply (spares_zoom k storage); [|done..]. apply spares_bind; [by eapply spares_beside|].
  intros [x|]; [apply spares_ret|]. apply spares_bind; [intros n c; apply rtc_refl|]. intros _. apply spares_ret.
Qed.

Lemma on_correlator_spares {A} (m : M Correlator.Correlator A) : forward m → spares k core_store (on_correlator m).
Proof. intros Hm. by eapply spares_beside. Qed.

(** No access of a goroutine touches a reserved key, but by trying to set it. *)
Lemma exec_spares {B} w (o : op W B) : allowed p w B o → spares k core_store (exec FF PF sort p o).
Proof.
  intros Ha. destruct o; cbn [exec allowed] in *; try rewrite Ha;
    first [ apply on_storage_spares | apply on_limiter_spares | apply on_outside_spares | apply on_correlator_spares
          | apply ask_spares
          | apply spares_ret | intros n c; apply rtc_refl ]; eauto with muthur.
Qed.
End exec.

(** ** Calm runs *)

(** Two servers may be mounted, one for each transport. *)
Definition mounted {SK CK} (sv : option Server) (d : option (Deps SK CK)) (srv : Server) : Prop :=
  sv = Some srv ∨ ∃ deps, d = Some deps ∧ dp_server deps = srv.

(** The access asks for the marker [k]. *)
Definition asks {W} (k : string) (x : action W) : bool :=
  match x with
  | Action (IsDup a) _ => seqb ("dedup:" +:+ dedup_key (deref a)) k
  | Action (IsDupResolved a) _ => seqb ("dedup:resolved:" +:+ resolvedKey (deref a)) k
  | _ => false
  end.

(** It is let through: not a duplicate. *)
Definition passes {W} (k : string) (x : action W) : bool :=
  match x with
  | Action o b =>
      match o in op _ B return B → bool with
      | IsDup a => λ dup, seqb ("dedup:" +:+ dedup_key (deref a)) k && negb dup
      | IsDupResolved a => λ dup, seqb ("dedup:resolved:" +:+ resolvedKey (deref a)) k && negb dup
      | _ => λ _, false
      end b
  end.

Section calm.
Context `{HC : !Clock, HL : !CertLib} {T S W : Type} `{HN : !Num T, HS : !Store.Store S, HSp : !StoreSpec S, HW : !Net W}.
Context {PK ESK SK HPK K CK CA : Type}.
Context `{HE : !Ecdsa PK ESK, HX : !X509 PK, HH : !Hpke SK HPK K, HG : !Gcm, HP : !PayloadLib CK CA, HWi : !Wire}.
Context (FF : spec_float → string) (PF : string → option spec_float).
Context (sort : list verdictEntry → list verdictEntry) (i64 : spec_float → Z) (IsPrint : Z → bool).
Context (yaml_tenants : string → option (list Tenant)).
Context (p : Pipeline W) (sv : option Server) (d : option (Deps SK CK)) (k : string).

Abbreviation step := (step (T := T) FF PF sort i64 IsPrint yaml_tenants p sv d).
Abbreviation steps := (steps (T := T) FF PF sort i64 IsPrint yaml_tenants p sv d).

Definition on_disk (s : nat * program T S W) : nat * S := (s.1, storage (pg_core s.2).2).

(** What happens elsewhere leaves the key alone, and the store answers when a
    goroutine asks for it. *)
Definition calm (e : event W) (s s' : nat * program T S W) : Prop :=
  match e with
  | Elsewhere => rtc (evolves k) (on_disk s) (on_disk s')
  | Did _ x => asks k x = true → is_Ok (store_SetNX k "1" (Dedup.window (p_dedup p)) (on_disk s)).1 = true
  | _ => True
  end.

Inductive calm_steps : list (event W) → nat * program T S W → nat * program T S W → Prop :=
| cs_nil s : calm_steps [] s s
| cs_snoc es e s s' s'' : calm_steps es s s' → step e s' s'' → calm e s' s'' → calm_steps (es ++ [e])%list s s''.

Lemma calm_steps_steps es s s' : calm_steps es s s' → steps es s s'.
Proof. induction 1; [constructor|by eapply sr_snoc]. Qed.

Context `{HR : !Reserved k, HO : !Onward p} (Hu : ∀ srv, mounted sv d srv → ∀ c, usedKey (sv_prefix srv) c ≠ k).

Lemma on_brain_spares {A} (m : M (Brain S) A) n (g : program T S W) r n' g' new :
  spares k br_store m → on_brain m (n, g) = (r, (n', g')) →
  rtc (evolves k) (on_disk (n, g)) (on_disk (n', start_alerts i64 p new g')).
Proof.
  intros Hm. specialize (Hm n (MkBrain (storage (pg_core g).2) (pg_tenants g) (pg_ingest g))).
  unfold on_brain, zoom. cbn [fst snd]. destruct (m _) as [a [n1 b1]]. by intros [= <- <- <-].
Qed.

(** Every goroutine does only what its owner may do. *)
Definition disciplined (g : program T S W) : Prop :=
  ∀ x, x ∈ pg_live g → always (allowed p (g_owner x)) (g_rest x).

Lemma disciplined_spawn g live ws : disciplined g → live = pg_live g →
  ∀ x, x ∈ (live ++ map (spawn i64 p) ws)%list → always (allowed p (g_owner x)) (g_rest x).
Proof. intros Hg -> x [Hx|(w & -> & _)%list_elem_of_fmap]%elem_of_app; [by apply Hg|apply body_allowed]. Qed.

Lemma step_disciplined e s s' : step e s s' → disciplined s.2 → disciplined s'.2.
Proof.
  assert (∀ {A} (m : M (Brain S) A) n g r n' (g' : program T S W) new, on_brain m (n, g) = (r, (n', g')) →
    disciplined g → disciplined (start_alerts i64 p new g')) as Hcall.
  { intros A m n g r n' g' new Hb Hg x. unfold start_alerts, set_live. cbn [pg_live].
    rewrite <- (map_map Alert (spawn i64 p)). apply (disciplined_spawn g); [done|].
    revert Hb. unfold on_brain, zoom. destruct (m _) as [a [n1 b1]]. by intros [= _ _ <-]. }
  assert (∀ i (live : list (goroutine W)) x, x ∈ delete i live → x ∈ live) as Hdel.
  { intros i live x. apply list_elem_of_delete_inv. }
  destruct 1 as [srv serial req ctx r n g n' g' new _ _ _ Hb _|deps dr rq r n g n' g' new _ _ _ Hb _
    |method path id verdict r n g n' s' _ _ _|i w past B o k' b n g n' c' _ Hl _
    |i j a past n x t h live over c _ _ _|i key past n x t h live over c _ _
    |id key when n g _ _ _|expired order n g _ _ _
    |i order past e n t h live over c _ _|e n g _ _ _|e n g _ _|n g _ _|stat read n g _|st n n' g _|n n' g _];
    cbn [snd]; intros Hg; try exact Hg; try (intros y Hy; by apply Hg, (Hdel i)).
  - by eapply Hcall.
  - by eapply Hcall.
  - intros y Hy. cbn [pg_live set_core set_live] in Hy.
    destruct (Hg _ (list_elem_of_lookup_2 _ _ _ Hl)) as [_ Hk].
    destruct (insert_perm (pg_live g) i _ (MkGoroutine w (past ++ [Action o b])%list (k' b)) Hl) as (l' & Hp & Hp').
    rewrite Hp' in Hy. apply elem_of_cons in Hy as [->|Hy]; [apply Hk|]. apply Hg. rewrite Hp. by right.
  - intros y Hy. by apply (disciplined_spawn g (pg_live g) [Timer key]).
  - intros y Hy. by apply (disciplined_spawn g (pg_live g) [Main order]).
Qed.

Lemma steps_disciplined es s s' : steps es s s' → disciplined s.2 → disciplined s'.2.
Proof. induction 1; eauto using step_disciplined. Qed.

(** No step of the program touches the key, but by trying to set it. *)
Lemma step_spares e s s' :
  step e s s' → (e = Elsewhere → rtc (evolves k) (on_disk s) (on_disk s')) → disciplined s.2 →
  rtc (evolves k) (on_disk s) (on_disk s').
Proof.
  destruct 1 as [srv serial req ctx r n g n' g' new _ _ Hsv Hb Hn|deps dr rq r n g n' g' new _ _ Hd Hb Hn
    |method path id verdict r n g n' s' _ _ Hp|i w past B o k' b n g n' c' _ Hl He
    |i j a past n x t h live over c _ Hl Hj|i key past n x t h live over c _ Hl
    |id key when n g _ _ _|expired order n g _ _ _
    |i order past e n t h live over c _ Hl|e n g _ _ _|e n g _ _|n g _ _|stat read n g _|st n n' g _|n n' g Ht];
    intros Hc Ha; try (by apply Hc); try apply rtc_refl.
  - eapply on_brain_spares; [|exact Hb]. apply serve_spares. apply Hu. by left.
  - eapply on_brain_spares; [|exact Hb]. apply serve_http_spares. apply Hu. right. by exists deps.
  - pose proof (serve_public_spares k (p_feedback p) method path id verdict n (storage (pg_core g).2)) as H.
    rewrite Hp in H. exact H.
  - destruct (Ha _ (list_elem_of_lookup_2 _ _ _ Hl)) as [Ho _].
    pose proof (exec_spares FF PF sort p k w o Ho n (pg_core g)) as H. rewrite He in H. exact H.
  - by apply rtc_once, ev_time.
Qed.

Lemma calm_spares es s s' : calm_steps es s s' → disciplined s.2 → rtc (evolves k) (on_disk s) (on_disk s').
Proof.
  induction 1 as [s|es e s s' s'' Hs IH Hstep Hc]; intros Hd; [apply rtc_refl|].
  etrans; [by apply IH|]. eapply step_spares; [done|by intros ->|]. by eapply steps_disciplined; [apply calm_steps_steps|].
Qed.
End calm.

(** The clock of the running brain does not run backwards. *)
Section clock.
Context `{HC : !Clock, HL : !CertLib} {T S W : Type} `{HN : !Num T, HS : !Store.Store S, HSp : !StoreSpec S, HW : !Net W}.
Context {PK ESK SK HPK K CK CA : Type}.
Context `{HE : !Ecdsa PK ESK, HX : !X509 PK, HH : !Hpke SK HPK K, HG : !Gcm, HP : !PayloadLib CK CA, HWi : !Wire}.
Context (FF : spec_float → string) (PF : string → option spec_float).
Context (sort : list verdictEntry → list verdictEntry) (i64 : spec_float → Z) (IsPrint : Z → bool).
Context (yaml_tenants : string → option (list Tenant)).
Context (p : Pipeline W) {HO : Onward p} (sv : option Server) (d : option (Deps SK CK)).

Lemma step_forward e s s' :
  step (T := T) FF PF sort i64 IsPrint yaml_tenants p sv d e s s' → disciplined p s.2 → (s.1 ≤ s'.1)%nat.
Proof.
  intros Hs Hd. assert (e = Elsewhere ∨ e ≠ Elsewhere) as [->|He] by (destruct e; by auto); [by inversion Hs|].
  set (a := mk_alert "" "" "" "" "" "" 0 None).
  apply (step_spares FF PF sort i64 IsPrint yaml_tenants p sv d (marker_key a) (λ srv _ c, marker_not_used _ c a)) in Hs;
    [by apply evolves_star_time in Hs|by intros|done].
Qed.
End clock.

(** ** Samples

    On the in-memory store the markers are always answered, and nobody else has it. *)
Section memory.
Context `{HC : !Clock, HL : !CertLib} {T W : Type} `{HN : !Num T, HW : !Net W}.
Context {PK ESK SK HPK K CK CA : Type}.
Context `{HE : !Ecdsa PK ESK, HX : !X509 PK, HH : !Hpke SK HPK K, HG : !Gcm, HP : !PayloadLib CK CA, HWi : !Wire}.
Context (FF : spec_float → string) (PF : string → option spec_float).
Context (sort : list verdictEntry → list verdictEntry) (i64 : spec_float → Z) (IsPrint : Z → bool).
Context (yaml_tenants : string → option (list Tenant)).
Context (p : Pipeline W) (sv : option Server) (d : option (Deps SK CK)) (k : string).

Lemma memory_SetNX_answers v ttl c : is_Ok (Memory.SetNX k v ttl c).1 = true.
Proof.
  destruct c as [n m]. unfold Memory.SetNX. munfold. destruct (match Memory.items m !! k with Some _ => _ | None => _ end); [done|].
  by destruct (Memory.expiry_spec ttl (Datatypes.S n) m) as (te & n1 & -> & _).
Qed.

Definition elsewhere (e : event W) : bool := match e with Elsewhere => true | _ => false end.

Lemma memory_calm es s s' :
  steps (T := T) (S := Memory.t) FF PF sort i64 IsPrint yaml_tenants p sv d es s s' → existsb elsewhere es = false →
  calm_steps FF PF sort i64 IsPrint yaml_tenants p sv d k es s s'.
Proof.
  induction 1 as [s|es e s s' s'' Hs IH Hstep]; intros He; [constructor|].
  rewrite existsb_app in He. apply orb_false_iff in He as [He1 He2]. eapply cs_snoc; [by apply IH|exact Hstep|].
  destruct e; cbn [calm]; try done.
  - intros _. apply memory_SetNX_answers.
Qed.
End memory.

Section sample.
#[local] Existing Instances run_net.

#[local] Instance failing_onward : Onward failing_pipeline.
Proof.
  split; try (intros; intros n w; cbn; lia).
  intros name notifier msg ->%trace_notifiers n w. cbn. lia.
Qed.
End sample.
