(* ===== verification/Budget.v ===== *)
(** * The LLM budget in the running brain

    [Limiter] bounds the rate of one limiter at the grain of its critical sections;
    here it bounds the questions of the whole brain: however goroutines interleave,
    no more of them ask the LLM about a cluster's alerts than the cluster's bucket
    has tokens for. *)
From S2P Require Import Prelude GoStrings Proto Identity Store Tenants Signer Limiter Float64 Correlator Analysis Providers Feedback.
From S2P Require Import HttpSig Sealed Trust Ingest GrpcSrv SignedSrv SilenceClient Notify Dedup Pipeline Goroutines Service Records Backstop Spares.
From Stdlib Require Import Ascii SpecFloat QArith Lqa.

Open Scope Z_scope.

(** ** Questions and grants *)

(** The cluster a question to the LLM is charged to: that of the alert, or of the
    representative of the group. *)
Definition asked_for {W} (x : action W) : option string :=
  match x with
  | Action (Ask payload _) _ => Some (ClusterId payload)
  | Action (AskGroup payloads _) _ => a ← Representative (map (Ref 0) payloads); Some (ClusterId (deref a))
  | _ => None
  end.

(** The limiter of the cluster was asked, and granted the call. *)
Definition tried_for {W} (x : action W) : option string :=
  match x with Action (Acquire id) _ => Some id | _ => None end.

Definition granted_to {W} (x : action W) : option string :=
  match x with
  | Action o b => match o in op _ B return B → option string with
                  | Acquire id => λ ok, if ok then Some id else None
                  | _ => λ _, None
                  end b
  end.

Definition questions {W} (id : string) : list (action W) → nat := count (λ x, bool_decide (asked_for x = Some id)).
Definition grants {W} (id : string) : list (action W) → nat := count (λ x, bool_decide (granted_to x = Some id)).
Definition tries {W} (id : string) : list (action W) → nat := count (λ x, bool_decide (tried_for x = Some id)).

(** ** One question per grant *)

Section billing.
Context {W : Type}.

(** The grant a goroutine has not used yet. *)
Definition bill_after (h : option string) (x : action W) : option string :=
  match granted_to x with
  | Some id => Some id
  | None => match asked_for x with
            | Some _ => None
            | None => match x with Action (Release _) _ => None | _ => h end
            end
  end.

(** A question uses one, of its cluster. *)
Definition billed (h : option string) (x : action W) : bool :=
  match asked_for x with Some id => bool_decide (h = Some id) | None => true end.

Lemma questions_granted {A} h (g : proc W A) h' t t' a id :
  goes bill_after billed h g h' → traces g (t ++ t')%list a →
  (questions id t ≤ (if decide (h = Some id) then 1 else 0) + grants id t)%nat.
Proof.
  revert h g. induction t as [|x t IH]; intros h g Hg Ht; [cbn; lia|].
  destruct g as [a'|B o k]; [by destruct Ht|]. destruct Ht as (b & h2 & E & Ht). injection E as -> <-.
  destruct (Hg b) as [Hok Hg']. specialize (IH _ _ Hg' Ht). unfold questions, grants in *. rewrite !count_cons.
  unfold billed in Hok. unfold bill_after in IH. set (x := Action o b) in *.
  assert (granted_to x = None ∨ asked_for x = None) as Hx by (unfold x; destruct o; auto).
  destruct (asked_for x) as [i|] eqn:Ea.
  - destruct Hx as [Eg|]; [|done]. rewrite Eg in *. apply bool_decide_eq_true in Hok as ->.
    repeat (destruct (decide _) || case_bool_decide); simplify_eq; lia.
  - destruct (granted_to x) as [i|] eqn:Eg; [|destruct o]; repeat (destruct (decide _) || case_bool_decide); simplify_eq; lia.
Qed.
End billing.

Lemma Representative_deref l a : Representative l = Some a →
  ∃ a', Representative (map (Ref 0) (map deref l)) = Some a' ∧ deref a' = deref a.
Proof.
  destruct l as [|x l]; [done|]. intros [= <-]. cbn. eexists. split; [done|].
  assert (∀ y y', deref y' = deref y → deref (foldl pick y' (map (Ref 0) (map deref l))) = deref (foldl pick y l)) as H; [|by apply H].
  clear x. induction l as [|z l IH]; intros y y' E; [done|]. cbn. apply IH. unfold pick. rewrite E. cbn.
  by destruct (_ <? _).
Qed.

Section bodies.
Context {W : Type} (i64 : spec_float → Z) (p : Pipeline W).

Lemma go_evaluate_pays a : goes bill_after billed None (go_evaluate (W := W) a) None.
Proof.
  unfold go_evaluate. eapply goes_bind; [by cbn|]. intros [c|]; [done|]. intros [|]; (split; [done|]); [|done].
  intros examples. split; [done|]. intros [[res|e]|]; (split; [by apply bool_decide_eq_true|]); cbn.
  - intros []. split; [done|]. intros []. by split.
  - intros []. by split.
  - intros []. by split.
Qed.

Lemma go_evaluateIncident_pays rep l : Representative l = Some rep →
  goes bill_after billed None (go_evaluateIncident (W := W) rep l) None.
Proof.
  intros (a & Ha & E)%Representative_deref. unfold go_evaluateIncident.
  intros [|]; (split; [done|]); [|done]. intros examples. split; [done|].
  intros r. split. { unfold billed. cbn [asked_for]. rewrite Ha. cbn. rewrite E. by apply bool_decide_eq_true. }
  intros []. split; [done|]. cbn. by destruct r as [[]|].
Qed.

Lemma go_maybeSilence_pays a an : goes bill_after billed None (go_maybeSilence (W := W) a an) None.
Proof. unfold go_maybeSilence. goes_tac. Qed.

Lemma go_deliver_pays a msg : goes bill_after billed None (go_deliver p a msg) None.
Proof. unfold go_deliver, go_send. goes_tac. Qed.

Lemma go_announce_pays rep an msg : goes bill_after billed None (go_announce i64 p rep an msg) None.
Proof. unfold go_announce, go_attachFeedback. goes_tac; try apply go_deliver_pays. Qed.

Lemma go_processIncident_pays l : goes bill_after billed None (go_processIncident i64 p l) None.
Proof.
  unfold go_processIncident. destruct (Representative l) as [rep|] eqn:E; goes_tac;
    first [apply go_evaluate_pays|by apply go_evaluateIncident_pays|apply go_maybeSilence_pays|apply go_announce_pays].
Qed.

Lemma body_pays w : goes bill_after billed None (body i64 p w) None.
Proof.
  destruct w as [a|key|order]; cbn [body].
  - unfold go_Process, go_processSingle, go_processResolved. goes_tac;
      first [apply go_evaluate_pays|apply go_maybeSilence_pays|apply go_announce_pays|apply go_deliver_pays].
  - unfold go_flushKey. goes_tac. apply go_processIncident_pays.
  - unfold go_Drain, go_flushKey. goes_tac. apply go_processIncident_pays.
Qed.
End bodies.

(** ** The bucket of a cluster *)

Section charged.
Context `{HC : !Clock} {T : Type} `{HN : !Num T} {B eps : Q} `{HL : !NumLaws T B eps}.
Context (c b : Z) (id : string) (n0 : nat).
Context (Hc : 0 < c <= 2 ^ 53) (Hb : depth c b <= 2 ^ 53) (HB : (inject_Z (depth c b) <= B)%Q).

(** The [granted] calls and the tokens left came from the burst, from refills since
    [n0], and from rounding in [tried] attempts. *)
Definition covered (granted tried : nat) (l : Limiter T) : Prop :=
  (inject_Z (Z.of_nat granted) + toQ (tokens l) <=
   inject_Z (depth c b) + toQ (per_sec c) * elapsed (last l - clk n0) + inject_Z (Z.of_nat tried) * (2 # 1) * eps)%Q.

(** The limiter of the cluster, once there is one, covers what it granted. *)
Definition charged (granted tried n : nat) (pool : Pool T) : Prop :=
  callsPerMinute pool = c ∧ burst pool = b ∧ 0 < maxConcurrent pool ∧ (n0 ≤ n)%nat ∧
  match Limiter.buckets pool !! id with
  | None => granted = 0%nat
  | Some o => ∃ l, o = Some l ∧ sane (B := B) (depth c b) c n l ∧ clk n0 <= last l ∧ covered granted tried l
  end.

Lemma depth_pos : 0 < depth c b.
Proof. unfold depth. destruct (Z.leb_spec b 0); lia. Qed.

Lemma charged_later granted tried n n' pool : (n ≤ n')%nat → charged granted tried n pool → charged granted tried n' pool.
Proof.
  intros Hn (H1 & H2 & H3 & H4 & H). split_and!; [done..|lia|].
  destruct (Limiter.buckets pool !! id) as [o|]; [|done]. destruct H as (l & -> & [Hm Hr Ht (k & Hk & Hkn)] & Hl & Hcov).
  exists l. split; [done|]. split; [|done]. split; [done..|]. exists k. split; [done|lia].
Qed.

Lemma covered_again granted tried l : covered granted tried l → covered granted (Datatypes.S tried) l.
Proof.
  unfold covered. rewrite Nat2Z.inj_succ, <- Z.add_1_r, inject_Z_plus. pose proof eps_range. change (inject_Z 1) with 1%Q. lra.
Qed.

(** The bucket of the cluster, made if it is not there. *)
Lemma charged_bucket granted tried n pool : charged granted tried n pool →
  ∃ l n1 pool1, Limiter.bucket id (n, pool) = (Some l, (n1, pool1)) ∧ (n ≤ n1)%nat ∧ charged granted tried n1 pool1 ∧
    sane (B := B) (depth c b) c n1 l ∧ clk n0 <= last l ∧ covered granted tried l.
Proof.
  intros Hch. pose proof Hch as (H1 & H2 & H3 & H4 & H). unfold Limiter.bucket. munfold.
  destruct (Limiter.buckets pool !! id) as [o|] eqn:E.
  - destruct H as (l & -> & H5 & H6 & H7). exists l, n, pool. by split_and!.
  - subst granted. unfold Limiter_New. rewrite H1, H2. destruct (Z.leb_spec c 0); [lia|]. destruct (Z.leb_spec (maxConcurrent pool) 0); [lia|].
    cbn [orb]. munfold. mstep. fold (depth c b). set (l := MkLimiter _ _ _ _ _ _).
    pose proof depth_pos as Hd. pose proof (of_Z_exact (depth c b) (conj Hd Hb)) as Hex.
    assert (0 <= inject_Z (depth c b))%Q as Hd0. { change 0%Q with (inject_Z 0). rewrite <- Zle_Qle. lia. }
    assert (sane (B := B) (depth c b) c (Datatypes.S n) l) as Hsane.
    { split; [done|done|cbn; rewrite Hex; lra|]. exists n. split; [done|lia]. }
    assert (clk n0 <= last l) as Hlast by (cbn; by apply clk_mono).
    assert (covered 0 tried l) as Hcov.
    { unfold covered. cbn [tokens last l]. rewrite Hex. pose proof eps_range. pose proof (rate_nonneg c Hc) as Hr.
      assert (0 <= elapsed (clk n - clk n0))%Q as He.
      { apply (Qle_trans _ (elapsed 0)); [by vm_compute|]. apply elapsed_mono. pose proof (clk_mono _ _ H4). lia. }
      assert (0 <= inject_Z (Z.of_nat tried))%Q as Ht. { change 0%Q with (inject_Z 0). rewrite <- Zle_Qle. lia. }
      pose proof (Qmult_le_0_compat _ _ Hr He). assert (0 <= inject_Z (Z.of_nat tried) * eps)%Q as Hte by (apply Qmult_le_0_compat; lra).
      change (inject_Z (Z.of_nat 0)) with 0%Q. lra. }
    exists l, (Datatypes.S n), (set_bucket id (Some l) pool). split_and!; try done; [lia|].
    split_and!; [done..|lia|]. cbn. rewrite lookup_insert_eq. by exists l.
Qed.

Lemma charged_set granted tried n pool l : charged granted tried n pool →
  sane (B := B) (depth c b) c n l → clk n0 <= last l → ∀ granted' tried', covered granted' tried' l →
  charged granted' tried' n (set_bucket id (Some l) pool).
Proof.
  intros (H1 & H2 & H3 & H4 & _) Hs Hl granted' tried' Hcov. split_and!; [done..|]. cbn. rewrite lookup_insert_eq. by exists l.
Qed.

(** An attempt, and the return of a slot. *)
Lemma charged_Acquire granted tried n pool r n' o :
  charged granted tried n pool → Pool_Acquire id (n, Some pool) = (r, (n', o)) →
  ∃ pool', o = Some pool' ∧ charged (granted + if r then 1 else 0) (Datatypes.S tried) n' pool'.
Proof.
  intros Hch. destruct (charged_bucket granted tried n pool Hch) as (l & n1 & pool1 & Hbk & Hn & Hch1 & Hs & Hl & Hcov).
  unfold Pool_Acquire, on_bucket, mbind at 1, M_bind at 1. rewrite Hbk. cbn [Limiter_Acquire]. unfold limiter_Acquire.
  unfold mbind at 1, M_bind at 1. destruct (take_slot (n1, l)) as [ok [n2 l2]] eqn:Et. apply take_slot_same in Et as [-> [u ->]].
  destruct ok; cbn [negb].
  2: { intros [= <- <- <-]. eexists. split; [done|]. rewrite Nat.add_0_r. eapply charged_set; [exact Hch1|by apply sane_used|done|].
       apply covered_again, Hcov. }
  unfold mbind at 1, M_bind at 1. destruct (take_token (n1, set_used u l)) as [tok [n3 l3]] eqn:Ek.
  assert (n3 = Datatypes.S n1) as -> by (revert Ek; unfold take_token; munfold; mstep; destruct (n_ltb _ _); by intros [= _ <- _]).
  destruct (take_token_spend (depth c b) c n1 (set_used u l) tok _ l3 (sane_used _ _ _ _ u Hs) (conj depth_pos Hb) HB Hc Ek)
    as (Hs3 & Hl3 & Hsp). cbn [last tokens set_used] in Hl3, Hsp.
  assert (covered (granted + if tok then 1 else 0) (Datatypes.S tried) l3) as Hcov3.
  { unfold covered in *. rewrite Nat2Z.inj_succ, <- Z.add_1_r, Nat2Z.inj_add, !inject_Z_plus.
    replace (last l3 - clk n0) with ((last l - clk n0) + (last l3 - last l)) by lia. rewrite elapsed_add.
    change (inject_Z 1) with 1%Q.
    replace (Z.of_nat (if tok then 1 else 0)%nat) with (if tok then 1 else 0) by by destruct tok. lra. }
  assert (∀ u', charged (granted + if tok then 1 else 0) (Datatypes.S tried) (Datatypes.S n1)
    (set_bucket id (Some (set_used u' l3)) pool1)) as Hfin.
  { intros u'. eapply charged_set; [eapply charged_later; [|exact Hch1]; lia|by apply sane_used|cbn; lia|exact Hcov3]. }
  destruct tok; cbn [negb].
  - intros [= <- <- <-]. eexists. split; [done|]. specialize (Hfin (used l3)). by destruct l3.
  - unfold mbind, M_bind. destruct (give_slot (Datatypes.S n1, l3)) as [v [n4 l4]] eqn:Eg. apply give_slot_same in Eg as [-> [u' ->]].
    intros [= <- <- <-]. eexists. split; [done|]. apply Hfin.
Qed.

Lemma charged_Release granted tried n pool u n' o :
  charged granted tried n pool → Pool_Release id (n, Some pool) = (u, (n', o)) →
  ∃ pool', o = Some pool' ∧ charged granted tried n' pool'.
Proof.
  intros Hch. destruct (charged_bucket granted tried n pool Hch) as (l & n1 & pool1 & Hbk & Hn & Hch1 & Hs & Hl & Hcov).
  unfold Pool_Release, on_bucket, mbind at 1, M_bind at 1. rewrite Hbk. cbn [Limiter_Release]. unfold limiter_Release.
  destruct (give_slot (n1, l)) as [v [n2 l2]] eqn:Eg. apply give_slot_same in Eg as [-> [u' ->]]. intros [= _ <- <-].
  eexists. split; [done|]. eapply charged_set; [exact Hch1|by apply sane_used|done|exact Hcov].
Qed.
End charged.

(** ** The running brain *)

Section budget.
Context `{HC : !Clock, HL : !CertLib} {T S W : Type} `{HN : !Num T, HS : !Store.Store S, HSp : !StoreSpec S, HW : !Net W}.
Context {B eps : Q} `{HQ : !NumLaws T B eps}.
Context {PK ESK SK HPK K CK CA : Type}.
Context `{HE : !Ecdsa PK ESK, HX : !X509 PK, HH : !Hpke SK HPK K, HG : !Gcm, HP : !PayloadLib CK CA, HWi : !Wire}.
Context (FF : spec_float → string) (PF : string → option spec_float).
Context (sort : list verdictEntry → list verdictEntry) (i64 : spec_float → Z) (IsPrint : Z → bool).
Context (yaml_tenants : string → option (list Tenant)).
Context (p : Pipeline W) {HO : Onward p} (sv : option Server) (d : option (Deps SK CK)).
Context (c b : Z) (id : string) (n0 : nat).
Context (Hc : 0 < c <= 2 ^ 53) (Hb : depth c b <= 2 ^ 53) (HB : (inject_Z (depth c b) <= B)%Q).

Abbreviation step := (step (T := T) FF PF sort i64 IsPrint yaml_tenants p sv d).
Abbreviation steps := (steps (T := T) FF PF sort i64 IsPrint yaml_tenants p sv d).
Abbreviation charged := (charged (B := B) (eps := eps) c b id n0).

(** Another cluster's attempt. *)
Lemma charged_other {A} granted tried n pool id' (m : M (option (Limiter T)) A) r n' pool' :
  id' ≠ id → forward m → on_bucket id' m (n, pool) = (r, (n', pool')) → charged granted tried n pool → charged granted tried n' pool'.
Proof.
  intros Hne Hm H Hch. pose proof (on_bucket_forward id' m Hm n pool) as Hn. rewrite H in Hn. cbn in Hn.
  apply (charged_later _ _ _ _ _ _ _ _ _ Hn) in Hch. destruct Hch as (H1 & H2 & H3 & H4 & H5).
  unfold on_bucket, mbind, M_bind in H. destruct (Limiter.bucket id' (n, pool)) as [bk [n1 pool1]] eqn:Eb.
  assert (callsPerMinute pool1 = callsPerMinute pool ∧ burst pool1 = burst pool ∧ maxConcurrent pool1 = maxConcurrent pool) as (E1 & E2 & E3).
  { revert Eb. unfold Limiter.bucket, Limiter_New. munfold. destruct (Limiter.buckets pool !! id'); [by intros [= _ _ <-]|].
    destruct (_ || _); by intros [= _ _ <-]. }
  destruct (bucket_local id' pool pool n bk n1 pool1 Eb) as [Hoth _].
  destruct (m (n1, bk)) as [a [n2 bk2]]. injection H as <- <- <-. split_and!; cbn; try congruence.
  rewrite lookup_insert_ne by done. by rewrite Hoth.
Qed.

Definition paid (g : nat) (t : nat) (s : nat * program T S W) : Prop :=
  ∃ pool, limiter (pg_core s.2).2 = Some pool ∧ charged g t s.1 pool.

Lemma paid_same granted tried s s' :
  limiter (pg_core s'.2).2 = limiter (pg_core s.2).2 → (s.1 ≤ s'.1)%nat → paid granted tried s → paid granted tried s'.
Proof. intros E Hn (pool & Hp & Hch). exists pool. split; [by rewrite E|]. by eapply charged_later. Qed.

Lemma on_brain_limiter {A} (m : M (Brain S) A) n (g : program T S W) r n' g' :
  on_brain m (n, g) = (r, (n', g')) → limiter (pg_core g').2 = limiter (pg_core g).2.
Proof. unfold on_brain, zoom. destruct (m _) as [a [n1 b1]]. by intros [= _ _ <-]. Qed.

(** An access is paid for. *)
Lemma paid_access {A} (o : op W A) r n n' (g : program T S W) c' live :
  exec FF PF sort p o (n, pg_core g) = (r, (n', c')) → (n ≤ n')%nat → ∀ granted tried, paid granted tried (n, g) →
  paid (granted + grants id [Action o r]) (tried + tries id [Action o r]) (n', set_core c' (set_live live g)).
Proof.
  intros He Hn granted tried Hp. destruct (pg_core g) as [c0 r0] eqn:Eg, c' as [c1 r1].
  pose proof (exec_limiter FF PF sort p o n c0 r0 r n' c1 r1 He) as H.
  assert (limiter r1 = limiter r0 → grants id [Action o r] = 0%nat → tries id [Action o r] = 0%nat →
    paid (granted + grants id [Action o r]) (tried + tries id [Action o r]) (n', set_core (c1, r1) (set_live live g))) as Hsame.
  { intros E -> ->. rewrite !Nat.add_0_r. apply (paid_same granted tried (n, g)); [cbn; by rewrite E, Eg|exact Hn|exact Hp]. }
  destruct Hp as (pool & Hpool & Hch). cbn in Hpool. rewrite Eg in Hpool. cbn [snd fst] in Hpool, Hch.
  destruct o as [| | | | | | | |i|i| | | | | | | | | |]; try (by apply Hsame); cbn in H.
  - rewrite Hpool in H. unfold grants, tries. rewrite !count_cons. unfold granted_to, tried_for.
    destruct (decide (i = id)) as [->|Hne].
    + destruct (charged_Acquire c b id n0 Hc Hb HB granted tried n pool r n' _ Hch H) as (pool' & E & Hch').
      exists pool'. split; [exact E|]. rewrite (bool_decide_eq_true_2 (Some id = Some id)) by done.
      destruct r; [rewrite (bool_decide_eq_true_2 (Some id = Some id)) by done|rewrite (bool_decide_eq_false_2 (None = Some id)) by done];
        cbn in *; by rewrite ?Nat.add_1_r, ?Nat.add_0_r in *.
    + unfold Pool_Acquire in H. destruct (on_bucket i Limiter_Acquire (n, pool)) as [r2 [n2 pool2]] eqn:Eb. injection H as -> <- E.
      exists pool2. split; [exact (eq_sym E)|]. rewrite (bool_decide_eq_false_2 (Some i = Some id)) by congruence.
      rewrite (bool_decide_eq_false_2 (_ = Some id)) by (destruct r; congruence). cbn. rewrite !Nat.add_0_r.
      eapply (charged_other _ _ _ _ i); [done| |exact Eb|exact Hch]. apply (forward_option true limiter_Acquire).
      unfold limiter_Acquire, take_slot, take_token, give_slot. forward_tac.
  - rewrite Hpool in H. cbn. change (grants id [Action (Release i) r]) with 0%nat. change (tries id [Action (Release i) r]) with 0%nat.
    rewrite !Nat.add_0_r. destruct (decide (i = id)) as [->|Hne].
    + destruct (charged_Release c b id n0 Hc Hb HB granted tried n pool r n' _ Hch H) as (pool' & E & Hch'). by exists pool'.
    + unfold Pool_Release in H. destruct (on_bucket i Limiter_Release (n, pool)) as [r2 [n2 pool2]] eqn:Eb. injection H as _ <- E.
      exists pool2. split; [exact (eq_sym E)|]. eapply (charged_other _ _ _ _ i); [done| |exact Eb|exact Hch].
      apply (forward_option tt limiter_Release). unfold limiter_Release, give_slot. forward_tac.
Qed.

Lemma step_paid e s s' granted tried : step e s s' → disciplined p s.2 → paid granted tried s →
  paid (granted + grants id (dids [e])) (tried + tries id (dids [e])) s'.
Proof.
  intros Hs Hd Hp. pose proof (step_forward _ _ _ _ _ _ _ _ _ _ _ _ Hs Hd) as Hn.
  assert (limiter (pg_core s'.2).2 = limiter (pg_core s.2).2 → dids [e] = [] →
    paid (granted + grants id (dids [e])) (tried + tries id (dids [e])) s') as Hsame.
  { intros E ->. cbn. rewrite !Nat.add_0_r. by eapply paid_same. }
  destruct Hs as [srv serial req ctx r n g n' g' new _ _ _ Hb' _|deps dr rq r n g n' g' new _ _ _ Hb' _
    | |i w past A o k r n g n' c' _ _ He| | | | | | | | | | |]; try (by apply Hsame).
  - apply Hsame; [exact (on_brain_limiter _ _ _ _ _ _ Hb')|done].
  - apply Hsame; [exact (on_brain_limiter _ _ _ _ _ _ Hb')|done].
  - change (dids [Did w (Action o r)]) with [Action o r]. by eapply paid_access.
Qed.

Lemma steps_paid es s s' : steps es s s' → disciplined p s.2 → paid 0 0 s →
  paid (grants id (dids es)) (tries id (dids es)) s'.
Proof.
  intros Hs Hd H0. induction Hs as [s|es e s s1 s2 Hs IH Hstep]; [done|].
  unfold grants, tries in *. rewrite dids_app, !count_app. apply step_paid with s1; [done| |by apply IH].
  by eapply steps_disciplined.
Qed.

(** The questions of a run are no more than the grants. *)
Lemma run_questions es s s' : steps es s s' → unused s.2 → (questions id (dids es) ≤ grants id (dids es))%nat.
Proof.
  intros Hs Hun. pose proof (steps_acts _ _ _ _ _ _ _ _ _ _ _ _ Hs Hun) as Hp.
  unfold questions, grants. rewrite <- Hp. fold (questions (W := W) id) (grants (W := W) id).
  assert (∀ r, r ∈ records s'.2 → (questions id r.2 ≤ grants id r.2)%nat) as Hr.
  { intros [w t] Hin. destruct (steps_traced _ _ _ _ _ _ _ _ _ _ _ _ w t Hs Hun Hin) as [t' Ht].
    pose proof (questions_granted None (body i64 p w) None t t' tt id (body_pays i64 p w) Ht) as H. by destruct (decide _). }
  revert Hr. clear. induction (records s'.2) as [|[w t] rs IH]; intros Hr; [done|].
  change (acts_in ((w, t) :: rs)) with (t ++ acts_in rs)%list. unfold questions, grants in *. rewrite !count_app.
  apply Nat.add_le_mono; [apply (Hr (w, t)); by left|]. apply IH. intros r Hin. apply Hr. by right.
Qed.
End budget.

(** Over any numbers that keep the laws, up to the rounding of two operations per attempt. *)
Lemma budget_kept `{HC : !Clock, HL : !CertLib} {T S W : Type} `{HN : !Num T, HS : !Store.Store S, HSp : !StoreSpec S, HW : !Net W}
    {B eps : Q} `{HQ : !NumLaws T B eps} {PK ESK SK HPK K CK CA : Type}
    `{HE : !Ecdsa PK ESK, HX : !X509 PK, HH : !Hpke SK HPK K, HG : !Gcm, HP : !PayloadLib CK CA, HWi : !Wire}
    (FF : spec_float → string) (PF : string → option spec_float) (sort : list verdictEntry → list verdictEntry)
    (i64 : spec_float → Z) (IsPrint : Z → bool) (yaml_tenants : string → option (list Tenant))
    (p : Pipeline W) {HO : Onward p} (sv : option Server) (d : option (Deps SK CK)) (c b m : Z) (cluster : string)
    (es : list (event W)) (n n' : nat) (g g' : program T S W) :
  steps (T := T) FF PF sort i64 IsPrint yaml_tenants p sv d es (n, g) (n', g') → unused g →
  limiter (pg_core g).2 = NewPool c b m → 0 < c <= 2 ^ 53 → 0 < m → depth c b <= 2 ^ 53 → (inject_Z (depth c b) <= B)%Q →
  (inject_Z (Z.of_nat (questions cluster (dids es))) <=
     inject_Z (depth c b) + toQ (per_sec c) * elapsed (clk n' - clk n)
     + inject_Z (Z.of_nat (tries cluster (dids es))) * (2 # 1) * eps)%Q.
Proof.
  intros Hs Hun Hlim Hc Hm Hb HB. pose proof Hun as [Hl _].
  assert (paid c b cluster n 0 0 (n, g)) as H0.
  { revert Hlim. unfold NewPool. destruct (Z.leb_spec c 0); [lia|]. destruct (Z.leb_spec m 0); [lia|]. intros Hlim.
    eexists. split; [exact Hlim|]. split_and!; done. }
  assert (disciplined p g) as Hd by (intros x; rewrite Hl; by intros ?%elem_of_nil).
  destruct (steps_paid FF PF sort i64 IsPrint yaml_tenants p sv d c b cluster n Hc Hb HB _ _ _ Hs Hd H0) as (pool & _ & Hch).
  pose proof (run_questions FF PF sort i64 IsPrint yaml_tenants p sv d cluster _ _ _ Hs Hun) as Hq.
  destruct Hch as (_ & _ & _ & Hn & Hbk). pose proof (rate_nonneg c Hc) as Hr. pose proof eps_range as He. cbn [fst] in Hn, Hbk.
  assert (inject_Z (Z.of_nat (questions cluster (dids es))) <= inject_Z (Z.of_nat (grants cluster (dids es))))%Q as Hqg
    by (rewrite <- Zle_Qle; lia).
  assert (0 <= inject_Z (Z.of_nat (tries cluster (dids es))) * eps)%Q as Ht.
  { apply Qmult_le_0_compat; [|lra]. change 0%Q with (inject_Z 0). rewrite <- Zle_Qle. lia. }
  destruct (Limiter.buckets pool !! cluster) as [o|].
  - destruct Hbk as (l & -> & [_ _ [Htok _] (k & Hk & Hkn)] & Hlast & Hcov). unfold covered in Hcov.
    assert (toQ (per_sec c) * elapsed (last l - clk n) <= toQ (per_sec c) * elapsed (clk n' - clk n))%Q as Hmul.
    { rewrite (Qmult_comm _ (elapsed (last l - _))), (Qmult_comm _ (elapsed _)).
      apply Qmult_le_compat_r; [|done]. apply elapsed_mono. rewrite Hk. pose proof (clk_mono _ _ Hkn). lia. }
    lra.
  - rewrite Hbk in Hqg. change (inject_Z (Z.of_nat 0)) with 0%Q in Hqg.
    assert (0 <= toQ (per_sec c) * elapsed (clk n' - clk n))%Q as Hmul.
    { apply Qmult_le_0_compat; [done|]. apply (Qle_trans _ (elapsed 0)); [by vm_compute|]. apply elapsed_mono.
      pose proof (clk_mono _ _ Hn). lia. }
    assert (0 <= inject_Z (depth c b))%Q. { change 0%Q with (inject_Z 0). rewrite <- Zle_Qle. unfold depth. destruct (Z.leb_spec b 0); lia. }
    lra.
Qed.

Lemma steps_forward `{HC : !Clock, HL : !CertLib} {T S W : Type} `{HN : !Num T, HS : !Store.Store S, HSp : !StoreSpec S, HW : !Net W}
    {PK ESK SK HPK K CK CA : Type}
    `{HE : !Ecdsa PK ESK, HX : !X509 PK, HH : !Hpke SK HPK K, HG : !Gcm, HP : !PayloadLib CK CA, HWi : !Wire}
    FF PF sort i64 IsPrint yaml_tenants (p : Pipeline W) {HO : Onward p} (sv : option Server) (d : option (Deps SK CK)) es s s' :
  steps (T := T) (S := S) FF PF sort i64 IsPrint yaml_tenants p sv d es s s' → disciplined p s.2 → (s.1 ≤ s'.1)%nat.
Proof.
  intros Hs Hd. induction Hs as [s|es e s s1 s2 Hs IH Hstep]; [done|]. etrans; [by apply IH|].
  eapply (step_forward FF PF sort i64 IsPrint yaml_tenants p sv d); [exact Hstep|]. by eapply steps_disciplined.
Qed.

(** C12: the LLM budget of a cluster holds in the running brain, in the [float64]
    arithmetic the code uses. With limits configured, in any interleaving of calls,
    goroutines, timers and the shutdown, the questions to the LLM that are charged to a
    cluster (alone, or for a group with its representative in the cluster) are at most
    the burst plus the sustained rate times the elapsed time, and rounding adds at most
    one question per 16384 attempts, as long as the bucket is at most 2^30 deep; the
    cache, failures of the LLM and refusals only make them fewer. *)
Theorem llm_budget_kept `{HC : !Clock, HL : !CertLib} {S W : Type} `{HS : !Store.Store S, HSp : !StoreSpec S, HW : !Net W}
    {PK ESK SK HPK K CK CA : Type}
    `{HE : !Ecdsa PK ESK, HX : !X509 PK, HH : !Hpke SK HPK K, HG : !Gcm, HP : !PayloadLib CK CA, HWi : !Wire}
    (FF : spec_float → string) (PF : string → option spec_float) (sort : list verdictEntry → list verdictEntry)
    (i64 : spec_float → Z) (IsPrint : Z → bool) (yaml_tenants : string → option (list Tenant))
    (p : Pipeline W) {HO : Onward p} (sv : option Server) (d : option (Deps SK CK)) (c b m : Z) (cluster : string)
    (es : list (event W)) (n n' : nat) (g g' : program spec_float S W) :
  steps (T := spec_float) FF PF sort i64 IsPrint yaml_tenants p sv d es (n, g) (n', g') → unused g →
  limiter (pg_core g).2 = NewPool c b m → 0 < c <= 2 ^ 53 → 0 < m → depth c b <= 2 ^ 30 →
  (inject_Z (Z.of_nat (questions cluster (dids es))) <=
     inject_Z (depth c b) + inject_Z c / 60 * (1 + (1 # 2 ^ 51)) * elapsed (clk n' - clk n)
     + inject_Z (Z.of_nat (tries cluster (dids es))) * (1 # 16384))%Q.
Proof.
  intros Hs Hun Hlim Hc Hm Hb.
  pose proof (budget_kept (HQ := f64_laws) FF PF sort i64 IsPrint yaml_tenants p sv d c b m cluster es n n' g g' Hs Hun Hlim Hc Hm) as H.
  specialize (H ltac:(lia) ltac:(by rewrite <- Zle_Qle)). cbn [toQ f64_laws] in H.
  destruct (rate_val c Hc) as (Hf & Hr & _). rewrite <- toQ64_fin in Hr by done.
  assert (toQ64 (per_sec c) * elapsed (clk n' - clk n) <= inject_Z c / 60 * (1 + 2 * ulp) * elapsed (clk n' - clk n))%Q as Hm'.
  { apply Qmult_le_compat_r; [done|]. apply (Qle_trans _ (elapsed 0)); [by vm_compute|]. apply elapsed_mono.
    assert (disciplined p g) as Hd by (intros x; rewrite (proj1 Hun); by intros ?%elem_of_nil).
    pose proof (clk_mono _ _ (steps_forward _ _ _ _ _ _ _ _ _ _ _ _ Hs Hd)) as Hcl. cbn [fst] in Hcl. lia. }
  rewrite ulp_eq in Hm'. change (2 ^ 51)%positive with 2251799813685248%positive. lra.
Qed.

(** ** A run

    The alert of the sample: its one question is charged to its
    cluster. *)
Section sample.
#[local] Existing Instances failing_onward run_clock run_certlib run_net run_ecdsa run_x509 run_hpke run_gcm run_payload_lib run_wire.

Definition float_program : program spec_float Memory.t seen :=
  MkProgram Serving (br_tenants sample_brain) NewHandler [] []
    (correlator_New false 60 25, MkRest (NewPool 60 0 2) Memory.NewMemory (MkSeen [] [] []) false).

Definition budget_schedule : list move := (MCall None (IngestRequest run_alert) sample_ctx :: repeat (MAccess 0) 15 ++ [MReturn 0 0])%list.

Definition budget_run : list (event seen) * (nat * program spec_float Memory.t seen) :=
  default ([], (0%nat, float_program))
    (schedule (T := spec_float) (λ _, "0") (λ _, None) merge_newest (λ _, 0) (λ _, None) failing_pipeline (Some sample_server)
       budget_schedule (0%nat, float_program)).

Lemma llm_budget_kept_witness :
  (inject_Z (Z.of_nat (questions "prod-a" (dids budget_run.1))) <=
     inject_Z 60 + inject_Z 60 / 60 * (1 + (1 # 2 ^ 51)) * elapsed (clk budget_run.2.1 - clk 0) + inject_Z (Z.of_nat (tries "prod-a" (dids budget_run.1))) * (1 # 16384))%Q.
Proof.
  apply (llm_budget_kept (λ _, "0") (λ _, None) merge_newest (λ _, 0) (λ _, true) (λ _, None)
    failing_pipeline (Some sample_server) (Some sample_deps) 60 0 2 "prod-a" budget_run.1 0 budget_run.2.1 float_program budget_run.2.2).
  - apply (scheduled _ _ _ _ _ _ _ _ _ budget_schedule). vm_compute. reflexivity.
  - split; reflexivity.
  - reflexivity.
  - lia.
  - lia.
  - vm_compute. discriminate.
Defined.

Example budget_asked : questions "prod-a" (dids budget_run.1) = 1%nat ∧ tries "prod-a" (dids budget_run.1) = 1%nat.
Proof. vm_compute. done. Qed.
End sample.
