(* ===== verification/Replays.v ===== *)
(** * Replays

    [Replay] shows that the guard refuses a request it has accepted. Here that holds
    for the running brain: whoever captures a push that was accepted, over mTLS or
    over the signed transport, cannot have it accepted again, over either. *)
From S2P Require Import Prelude GoStrings GoEncoding Sha256 Proto Identity Store Dedup Replay Tenants Signer Issue Routing.
From S2P Require Import Limiter Correlator Analysis Providers Feedback Notify SilenceClient HttpSig Sealed Trust.
From S2P Require Import Ingest GrpcSrv SignedSrv Pipeline Goroutines Service Spares.
From Stdlib Require Import Ascii SpecFloat.

Open Scope Z_scope.

(** ** Keys *)

(** A prefix that keeps the keys of the guard apart from those of the cache, the
    feedback links and the history; the default is ["muthur:"]. *)
Definition apart (prefix : string) : bool :=
  match prefix with
  | EmptyString => true
  | String c _ => negb (Ascii.eqb c "c" || Ascii.eqb c "v" || Ascii.eqb c "f" || Ascii.eqb c "i")
  end.

Lemma nonce_reserved g i nonce : apart (rg_prefix g) = true → Reserved (nonceKey g i nonce).
Proof.
  unfold nonceKey. destruct (rg_prefix g) as [|c prefix]; cbn [apart]; intros Hc.
  - by split.
  - split; intros; cbn; intros H; injection H as <- _; by cbn in Hc.
Qed.

Lemma nonce_not_used g i nonce prefix cluster : rg_prefix g = prefix → usedKey prefix cluster ≠ nonceKey g i nonce.
Proof. unfold usedKey, nonceKey. intros -> H. by apply append_inv_l in H. Qed.

(** ** Pushes over both transports *)

Inductive push :=
| OverGrpc (serial : option Z) (payload : ref AlertPayload) (ctx : Ctx)
| OverHttp (dr : Draws) (rq : HttpRequest).

Section replays.
Context `{HC : !Clock, HL : !CertLib} {S : Type} `{HS : !Store.Store S, HSp : !StoreSpec S}.
Context {PK ESK SK HPK K CK CA : Type}.
Context `{HE : !Ecdsa PK ESK, HX : !X509 PK, HH : !Hpke SK HPK K, HG : !Gcm, HP : !PayloadLib CK CA, HWi : !Wire}.
Context (IsPrint : Z → bool) (srv : Server) (d : Deps SK CK).

(** Whose request it is by its certificate, and its timestamp and nonce. *)
Definition claims (q : push) : option (Identity * string * string) :=
  match q with
  | OverGrpc _ _ ctx =>
      i ← cert_identity ctx;
      Some (i, firstMeta (ctx_md ctx) MetaTimestamp, firstMeta (ctx_md ctx) MetaNonce)
  | OverHttp _ rq =>
      leaf ← parseCertHeader (PK := PK) (Header_Get (rq_header rq) HeaderCert);
      match ExtractFromCert (Some (cert_info leaf)) with
      | Ok i => Some (i, rq_timestamp rq, rq_nonce rq)
      | Err _ => None
      end
  end.

Definition deliver_push (q : push) : M (Brain S) unit :=
  match q with
  | OverGrpc serial payload ctx => _ ← serve srv serial (IngestRequest payload) ctx; mret tt
  | OverHttp dr rq => _ ← serve_http IsPrint d dr rq; mret tt
  end.

(** What an accepted push went through. *)
Definition verified (k : string) (q : push) (n : nat) (b : Brain S) (n' : nat) (b' : Brain S) : Prop :=
  ∃ i ts nonce m n1 s1, claims q = Some (i, ts, nonce) ∧ m ∈ [n; Datatypes.S n] ∧
    Verify (sv_guard srv) (Some i) ts nonce (m, br_store b) = (None, (n1, s1)) ∧
    rtc (evolves k) (n1, s1) (n', br_store b').

Context (k : string) {HR : Reserved k}.

Lemma grpc_verified serial payload ctx n b n' b' a :
  deliver_push (OverGrpc serial payload ctx) (n, b) = (tt, (n', b')) →
  inflight (br_ingest b') = (inflight (br_ingest b) ++ [a])%list → verified k (OverGrpc serial payload ctx) n b n' b'.
Proof.
  unfold deliver_push. munfold.
  destruct (serve_gates srv serial (IngestRequest payload) ctx n b ltac:(by vm_compute))
    as [(code & s' & n1 & -> & _)|(i & n1 & s1 & Hi & _ & Hv & ->)].
  - intros [= <- <-] Hin. cbn in Hin. exfalso. by apply (f_equal length) in Hin; rewrite length_app in Hin; cbn in Hin; lia.
  - intros Hd _. exists i, (firstMeta (ctx_md ctx) MetaTimestamp), (firstMeta (ctx_md ctx) MetaNonce), n, n1, s1.
    split_and!; [cbn; by rewrite Hi|by left|exact Hv|].
    pose proof (on_ingest_spares k _ (Ingest_forward (ctx_identity (with_identity ctx i)) payload)
      n1 (MkBrain s1 (br_tenants b) (br_ingest b))) as Hs.
    unfold dispatch, Server_Ingest in Hd. munfold. destruct (on_ingest _ _) as [[e|] [n2 b2]]; injection Hd as <- <-; exact Hs.
Qed.

Lemma http_verified dr rq n b n' b' a : sv_guard (dp_server d) = sv_guard srv →
  deliver_push (OverHttp dr rq) (n, b) = (tt, (n', b')) →
  inflight (br_ingest b') = (inflight (br_ingest b) ++ [a])%list → verified k (OverHttp dr rq) n b n' b'.
Proof.
  intros Hg. unfold deliver_push. munfold. pose proof (serve_http_spec IsPrint d dr rq n b) as H.
  destruct (serve_http IsPrint d dr rq (n, b)) as [r [n1 b1]] eqn:E. intros [= <- <-] Hin.
  destruct H as (_ & new & Hi & Hc & _). rewrite Hin in Hi. apply app_inv_head in Hi as <-.
  destruct (proj1 (Hc a) eq_refl) as (Hm & Hp & _). rewrite (serve_http_ingest IsPrint d dr rq Hp), Hm in E.
  change (ingest IsPrint d dr rq (n, b) = (r, (n1, b1))) in E. unfold ingest in E. set (call := λ ctx plain, _) in E.
  destruct (handle_gates IsPrint d dr rq PathIngest call n b)
    as [(reply & n2 & s2 & E2 & _)|(body & i & n2 & s2 & Had & _ & E2)]; rewrite E2 in E.
  - injection E as _ _ <-. cbn in Hin. exfalso. apply (f_equal length) in Hin. rewrite length_app in Hin. cbn in Hin. lia.
  - destruct Had as (_ & _ & _ & _ & (leaf & pub & Hleaf & _ & _ & _ & Hid) & _ & Hv). unfold replay_passes in Hv. rewrite Hg in Hv.
    exists i, (rq_timestamp rq), (rq_nonce rq), (Datatypes.S n), n2, s2.
    split_and!; [cbn [claims]; rewrite Hleaf; cbn [mbind option_bind]; by rewrite Hid|right; by left|exact Hv|].
    assert (∀ ctx plain, spares k br_store (call ctx plain)) as Hcall.
    { intros ctx plain. unfold call. destruct (unmarshal_alert plain) as [payload|]; [|apply spares_ret].
      unfold dispatch, Server_Ingest. apply spares_bind; [apply on_ingest_spares, Ingest_forward|].
      intros [e|]; apply spares_ret. }
    pose proof (answer_spares k d dr PathIngest (rq_timestamp rq) (rq_nonce rq) (rq_kid rq) body (with_identity no_ctx i)
      call Hcall n2 (MkBrain s2 (br_tenants b) (br_ingest b))) as Hs. rewrite E in Hs. exact Hs.
Qed.

(** A push hands over one alert or none. *)
Lemma push_one q n b n' b' : deliver_push q (n, b) = (tt, (n', b')) →
  inflight (br_ingest b') = inflight (br_ingest b) ∨ ∃ a, inflight (br_ingest b') = (inflight (br_ingest b) ++ [a])%list.
Proof.
  destruct q as [serial payload ctx|dr rq]; unfold deliver_push; munfold.
  - destruct (serve_gates srv serial (IngestRequest payload) ctx n b ltac:(by vm_compute))
      as [(code & s' & n1 & -> & _)|(i & n1 & s1 & _ & _ & _ & ->)]; [intros [= <- <-]; by left|].
    unfold dispatch, Server_Ingest, on_ingest, zoom. munfold. cbn [br_ingest br_store br_tenants ctx_identity with_identity].
    rewrite Ingest_spec. destruct (WithContext _ _) as [id|]; [|intros [= <- <-]; by left].
    destruct (seqb _ _); intros [= <- <-]; [right; by exists payload|by left].
  - pose proof (serve_http_spec IsPrint d dr rq n b) as H. destruct (serve_http IsPrint d dr rq (n, b)) as [r [n1 b1]].
    intros [= <- <-]. destruct H as (_ & [|a [|]] & -> & _ & Hl & _); [left; by rewrite app_nil_r|right; by exists a|cbn in Hl; lia].
Qed.
End replays.

(** The guard tells callers apart by tenant and cluster, not by certificate. *)
Lemma Verify_identity `{HC : !Clock} {S : Type} `{HS : !Store.Store S} g i i' ts nonce (c : nat * S) :
  Identity_String i' = Identity_String i → Verify g (Some i') ts nonce c = Verify g (Some i) ts nonce c.
Proof. intros H. unfold Verify, nonceKey. by rewrite H. Qed.

(** ** The theorem *)

Section running.
Context `{HC : !Clock, HL : !CertLib} {T S W : Type} `{HN : !Num T, HS : !Store.Store S, HSp : !StoreSpec S, HW : !Net W}.
Context {PK ESK SK HPK K CK CA : Type}.
Context `{HE : !Ecdsa PK ESK, HX : !X509 PK, HH : !Hpke SK HPK K, HG : !Gcm, HP : !PayloadLib CK CA, HWi : !Wire}.
Context (FF : spec_float → string) (PF : string → option spec_float).
Context (sort : list verdictEntry → list verdictEntry) (i64 : spec_float → Z) (IsPrint : Z → bool).
Context (yaml_tenants : string → option (list Tenant)).
Context (p : Pipeline W) {HOb : Observer p} {HO : Onward p} (srv : Server) (d : Deps SK CK).

Abbreviation steps := (steps (T := T) FF PF sort i64 IsPrint yaml_tenants p (Some srv) (Some d)).
Abbreviation deliver_push := (deliver_push (S := S) IsPrint srv d).
Abbreviation guard := (sv_guard srv) (only parsing).

(** Both transports check with one guard, under the prefix of the bootstrap markers. *)
Definition one_guard : Prop :=
  sv_guard (dp_server d) = guard ∧ sv_prefix srv = rg_prefix guard ∧ sv_prefix (dp_server d) = rg_prefix guard ∧
  apart (rg_prefix guard) = true ∧ guard_ok guard.

Lemma push_verified k `{HR : !Reserved k} q n (g : program T S W) n' g' a :
  one_guard → on_brain (deliver_push q) (n, g) = (tt, (n', g')) →
  inflight (pg_ingest g') = (inflight (pg_ingest g) ++ [a])%list →
  ∃ i ts nonce m c1, claims (PK := PK) q = Some (i, ts, nonce) ∧ m ∈ [n; Datatypes.S n] ∧
    Verify guard (Some i) ts nonce (m, storage (pg_core g).2) = (None, c1) ∧ rtc (evolves k) c1 (on_disk (n', g')).
Proof.
  intros (Hg & _) Hb Hin. unfold on_brain, zoom in Hb. cbn [fst snd] in Hb. set (b := MkBrain _ _ _) in Hb.
  destruct (deliver_push q (n, b)) as [[] [n1 b1]] eqn:E. injection Hb as <- <-. cbn [pg_ingest] in Hin.
  assert (verified srv k q n b n1 b1) as (i & ts & nonce & m & n2 & s2 & H).
  { destruct q as [serial payload ctx|dr rq]; [by eapply grpc_verified|by eapply http_verified]. }
  by exists i, ts, nonce, m, (n2, s2).
Qed.

(** C8: a captured push is not accepted again. In any run of the brain, once a push
    was accepted over one of the transports, no push of the same tenant's cluster
    with its timestamp and nonce is, over either transport and under whatever
    certificate, whatever calls arrive, goroutines do, and others do to the store
    short of overwriting or deleting the nonce.
    Either the second call takes no measurable time, or it ends within twice the
    window of the first; the window is a whole number of milliseconds. *)
Theorem no_replay_over_either_transport (q q' : push) (a : ref AlertPayload) (i i' : Identity) (ts nonce : string)
    (before es : list (event W)) (n0 n n1 n2 n3 : nat) (g0 g g1 g2 g3 : program T S W) :
  one_guard → steps before (n0, g0) (n, g) → idle p g0 →
  on_brain (deliver_push q) (n, g) = (tt, (n1, g1)) → inflight (pg_ingest g1) = (inflight (pg_ingest g) ++ [a])%list →
  claims (PK := PK) q = Some (i, ts, nonce) →
  calm_steps FF PF sort i64 IsPrint yaml_tenants p (Some srv) (Some d) (nonceKey guard i nonce) es
    (n1, start_alerts i64 p [a] g1) (n2, g2) →
  on_brain (deliver_push q') (n2, g2) = (tt, (n3, g3)) → claims (PK := PK) q' = Some (i', ts, nonce) →
  TenantID i' = TenantID i → ClusterID i' = ClusterID i →
  clk n3 = clk n2 ∨ clk n3 <= clk n + 2 * rg_window guard →
  inflight (pg_ingest g3) = inflight (pg_ingest g2).
Proof.
  intros Hone Hpre H0 Hq Hin Hc Hs Hq' Hc' Hten Hclu Hclk.
  assert (inflight (pg_ingest g3) = inflight (pg_ingest g2) ∨ ∃ b, inflight (pg_ingest g3) = inflight (pg_ingest g2) ++ [b])%list
    as [?|[b Hin']]; [|done|exfalso].
  { revert Hq'. unfold on_brain, zoom. cbn [fst snd]. set (x := MkBrain _ _ _).
    destruct (deliver_push q' (n2, x)) as [[] [nx bx]] eqn:Ex. intros [= <- <-]. by apply push_one in Ex. }
  pose proof Hone as (_ & Hp1 & Hp2 & Hap & Hok). pose proof (nonce_reserved guard i nonce Hap) as HR.
  destruct (push_verified _ q n g n1 g1 a Hone Hq Hin) as (i1 & ts1 & nonce1 & m & c1 & E1 & Hm & Hv & Hev).
  destruct (push_verified _ q' n2 g2 n3 g3 b Hone Hq' Hin') as (i2 & ts2 & nonce2 & m' & c3 & E2 & Hm' & Hv' & Hev').
  rewrite Hc in E1. injection E1 as <- <- <-. rewrite Hc' in E2. injection E2 as <- <- <-.
  rewrite (Verify_identity guard i i') in Hv' by (unfold Identity_String; by rewrite Hten, Hclu).
  assert (disciplined p (start_alerts i64 p [a] g1)) as Hd.
  { assert (disciplined p g) as Hg.
    { apply steps_disciplined in Hpre; [exact Hpre|]. destruct H0 as (_ & _ & Hl & _). intros x. cbn [snd].
      rewrite Hl. by intros ?%elem_of_nil. }
    intros x. apply (disciplined_spawn i64 p g _ [Alert a] Hg).
    revert Hq. unfold on_brain, zoom. destruct (deliver_push q _) as [u [nu bu]]. by intros [= _ _ <-]. }
  assert (∀ srv', mounted (Some srv) (Some d) srv' → ∀ c, usedKey (sv_prefix srv') c ≠ nonceKey guard i nonce) as Hu.
  { intros srv' [[= <-]|(d' & Ed & <-)] c; [by apply nonce_not_used|]. injection Ed as <-. by apply nonce_not_used. }
  apply (calm_spares _ _ _ _ _ _ _ _ _ _ Hu) in Hs; [|exact Hd].
  assert (n2 ≤ m')%nat as Hn2 by (apply elem_of_cons in Hm' as [-> | ->%list_elem_of_singleton]; lia).
  assert (n ≤ m)%nat as Hn by (apply elem_of_cons in Hm as [-> | ->%list_elem_of_singleton]; lia).
  pose proof (evolves_star_time _ _ _ (Verify_spares (nonceKey guard i nonce) guard (Some i) ts nonce m' (storage (pg_core g2).2))) as Hf.
  rewrite Hv' in Hf. apply evolves_star_time in Hev'. cbn [fst snd on_disk] in Hf, Hev'.
  apply clk_mono in Hn, Hf, Hev'. pose proof (clk_mono _ _ Hn2).
  apply (Verify_again guard i ts nonce _ _ (m', storage (pg_core g2).2) _ _ Hok Hv) in Hv'; [done| |].
  - etrans; [exact Hev|]. etrans; [exact Hs|]. by apply rtc_once, ev_time.
  - cbn [fst snd]. lia.
Qed.
End running.

(** ** A run

    A collector pushes an alert over mTLS; while its goroutine is at work, the edge
    posts what it has captured under the same identity, timestamp and nonce. *)
Section sample.
#[local] Existing Instances failing_onward run_clock run_certlib run_net run_observer run_x509 run_hpke run_gcm run_payload_lib run_wire.
#[local] Instance post_ecdsa : Ecdsa unit unit := sample_ecdsa sample_sent_digest.

Definition first_push : push := OverGrpc None run_alert sample_ctx.
Definition second_push : push := OverHttp sample_draws sample_post.

Definition first_state : nat * program spec_float Memory.t seen :=
  (on_brain (deliver_push (λ _, true) sample_server sample_deps first_push) (0%nat, run_program)).2.

Definition meanwhile : list (event seen) * (nat * program spec_float Memory.t seen) :=
  default ([], (0%nat, run_program))
    (schedule (T := spec_float) (λ _, "0") (λ _, None) merge_newest (λ _, 0) (λ _, None) failing_pipeline (Some sample_server)
       (repeat (MAccess 0) 9) (first_state.1, start_alerts (λ _, 0) failing_pipeline [run_alert] first_state.2)).

Definition second_state : nat * program spec_float Memory.t seen :=
  (on_brain (deliver_push (λ _, true) sample_server sample_deps second_push) meanwhile.2).2.

Lemma no_replay_over_either_transport_witness : inflight (pg_ingest second_state.2) = inflight (pg_ingest meanwhile.2.2).
Proof.
  apply (no_replay_over_either_transport (λ _, "0") (λ _, None) merge_newest (λ _, 0) (λ _, true) (λ _, None) failing_pipeline
    sample_server sample_deps first_push second_push run_alert
    (MkIdentity "acme" "prod-a" 0 "1f") (MkIdentity "acme" "prod-a" 0 "1f") "0" "00112233445566778899aabbccddeeff"
    [] meanwhile.1 0 0 first_state.1 meanwhile.2.1 second_state.1 run_program run_program first_state.2 meanwhile.2.2 second_state.2).
  - do 4 (split; [reflexivity|]). apply NewReplayGuard_ok; vm_compute; reflexivity.
  - constructor.
  - exact run_idle.
  - vm_compute. reflexivity.
  - vm_compute. reflexivity.
  - vm_compute. reflexivity.
  - apply memory_calm; [|vm_compute; reflexivity]. apply (scheduled _ _ _ _ _ _ _ _ _ (repeat (MAccess 0) 9)). vm_compute. reflexivity.
  - vm_compute. reflexivity.
  - vm_compute. reflexivity.
  - reflexivity.
  - reflexivity.
  - right. apply Z.leb_le. vm_compute. reflexivity.
Defined.

(** Without the first push the second is accepted: nothing else is wrong with it. *)
Example second_alone :
  length (inflight (pg_ingest
    (on_brain (deliver_push (λ _, true) sample_server sample_deps second_push) (0%nat, run_program)).2.2)) = 1%nat.
Proof. vm_compute. reflexivity. Qed.
End sample.
