(* ===== verification/Once.v ===== *)
(** * Once per window

    [Dedup] shows that one marker lets one of two calls through, whatever happens to
    the store in between. Here that is lifted to the running brain: however
    goroutines, calls and timers interleave, a receiver is told of one alert at most
    once in each window. *)
From S2P Require Import Prelude GoStrings Sha256 GoEncoding Proto Identity Store Dedup Replay Tenants Signer Issue Routing.
From S2P Require Import Limiter Correlator Analysis Providers Embed Cache Feedback History Notify SilenceClient HttpSig Sealed.
From S2P Require Import Trust Ingest GrpcSrv SignedSrv Metrics Pipeline Goroutines Service Records Spares.
From Stdlib Require Import Ascii SpecFloat.

Open Scope Z_scope.

(** ** One pass per window *)

(** How often a marker that lasts [w] can be set within [elapsed]. *)
Definition allowance (w : Duration) (elapsed : Z) : Z := if w <=? 0 then 1 else 1 + elapsed / w.

(** The marker is set, and was set [m] times since [n0]. *)
Definition set_times `{!Clock} {S} `{!Store S, !StoreSpec S} (k : string) (w : Duration) (n0 m : nat) (c : nat * S) : Prop :=
  m = 0%nat ∨ ∃ te, clk n0 <= te <= clk c.1 ∧ holds_until k "1" (expires te w) c ∧
    if w <=? 0 then m = 1%nat else (Z.of_nat m - 1) * w <= te - clk n0.

Section set_times.
Context `{HC : !Clock} {S : Type} `{HS : !Store S, HSp : !StoreSpec S} (k : string) (w : Duration).

Lemma set_times_later n0 m c c' : set_times k w n0 m c → rtc (evolves k) c c' → set_times k w n0 m c'.
Proof.
  intros [->|(te & Ht & Hh & Hm)] Hev; [by left|right]. exists te. split; [|split; [|done]].
  - pose proof (clk_mono _ _ (evolves_star_time _ _ _ Hev)). lia.
  - by eapply holds_until_star.
Qed.

Lemma set_times_again n0 m c c' :
  w mod ms = 0 → (n0 ≤ c.1)%nat → set_times k w n0 m c → store_SetNX k "1" w c = (Ok true, c') →
  set_times k w n0 (Datatypes.S m) c'.
Proof.
  destruct c as [n s], c' as [n' s']. cbn [fst]. intros Hw Hn Hm H.
  apply SetNX_spec in H as (Hn' & _ & tc & te & e & Htc & Hte & Hl & Hb & Hs).
  symmetry in Hb. apply bool_decide_eq_true in Hb. pose proof (clk_mono _ _ Hn). right. exists te. cbn [fst].
  split; [lia|]. split. { intros t _ He. cbn. rewrite Hs. unfold written. by rewrite (lifetime_before te w). }
  destruct Hm as [->|(te0 & Ht0 & Hh & Hm)]; [destruct (w <=? 0); [done|lia]|]. cbn [fst] in Ht0.
  assert (before tc (expires te0 w) = false) as Hlate.
  { destruct (before _ _) eqn:E; [|done]. assert (sview s tc k = Some "1") as Hv; [|congruence].
    apply (Hh tc); [cbn; lia|done]. }
  unfold expires in Hlate. rewrite (whole_exact w Hw) in Hlate. destruct (Z.leb_spec w 0); [done|]. cbn in Hlate.
  apply Z.leb_gt in Hlate. lia.
Qed.

Lemma set_times_bound n0 m c : (n0 ≤ c.1)%nat → set_times k w n0 m c → Z.of_nat m <= allowance w (clk c.1 - clk n0).
Proof.
  intros Hn Hm. pose proof (clk_mono _ _ Hn). unfold allowance.
  destruct Hm as [->|(te & Ht & _ & Hm)]; destruct (Z.leb_spec w 0); try lia.
  - pose proof (Z.div_pos (clk c.1 - clk n0) w). lia.
  - assert (Z.of_nat m - 1 <= (clk c.1 - clk n0) / w); [|lia]. apply Z.div_le_lower_bound; lia.
Qed.
End set_times.

Section passes.
Context `{HC : !Clock, HL : !CertLib} {T S W : Type} `{HN : !Num T, HS : !Store.Store S, HSp : !StoreSpec S, HW : !Net W}.
Context {PK ESK SK HPK K CK CA : Type}.
Context `{HE : !Ecdsa PK ESK, HX : !X509 PK, HH : !Hpke SK HPK K, HG : !Gcm, HP : !PayloadLib CK CA, HWi : !Wire}.
Context (FF : spec_float → string) (PF : string → option spec_float).
Context (sort : list verdictEntry → list verdictEntry) (i64 : spec_float → Z) (IsPrint : Z → bool).
Context (yaml_tenants : string → option (list Tenant)).
Context (p : Pipeline W) {HOb : Observer p} (sv : option Server) (d : option (Deps SK CK)) (k : string).
Context `{HR : !Reserved k, HO : !Onward p} (Hu : ∀ srv, mounted sv d srv → ∀ c, usedKey (sv_prefix srv) c ≠ k).

Abbreviation step := (step (T := T) FF PF sort i64 IsPrint yaml_tenants p sv d).
Abbreviation calm_steps := (calm_steps (T := T) FF PF sort i64 IsPrint yaml_tenants p sv d k).
Abbreviation window := (Dedup.window (p_dedup p)) (only parsing).
Context (Hms : window mod ms = 0).

(** Who passes has set the marker. *)
Lemma passes_sets w x s s' : step (Did w x) s s' → calm p k (Did w x) s s' → passes k x = true →
  store_SetNX k "1" window (on_disk s) = (Ok true, on_disk s').
Proof.
  intros Hs. remember (Did w x) as e eqn:Ee. destruct Hs as [| | |i w' past B o k' b n g n' c' _ Hl He| | | | | | | | | | |]; try done.
  injection Ee as -> <-. intros Hc Hp. cbn [calm] in Hc.
  assert (∀ key, seqb key k = true → mark (p_dedup p) key (n, storage (pg_core g).2) = (false, (n', storage c'.2)) →
    (seqb key k = true → is_Ok (store_SetNX k "1" window (n, storage (pg_core g).2)).1 = true) →
    store_SetNX k "1" window (n, storage (pg_core g).2) = (Ok true, (n', storage c'.2))) as Hkey.
  { intros key Hk Hm Hok. specialize (Hok Hk). apply seqb_true in Hk as ->.
    apply mark_false in Hm as [[er Hm]|Hm]; [by rewrite Hm in Hok|done]. }
  unfold on_disk in *. cbn [fst snd set_core set_live pg_core] in *.
  destruct o as [a|a| | | | | | | | | | | | | | | | | |]; try done; cbn in Hp, b, He;
    apply andb_true_iff in Hp as [Hk Hb]; destruct b; try done;
    (eapply Hkey; [exact Hk| |exact Hc]).
  all: destruct c' as [c1 r1]; destruct (pg_core g) as [c0 r0]; unfold on_rest, on_storage, zoom in He; cbn in He |- *.
  - change (IsDuplicate (p_dedup p) (deref a)) with (mark (p_dedup p) ("dedup:" +:+ dedup_key (deref a)) (S := S)) in He.
    destruct (mark _ _ _) as [b0 [n0 s0]]. by injection He as -> -> <- <-.
  - change (IsDuplicateResolved (p_dedup p) (deref a)) with (mark (p_dedup p) ("dedup:resolved:" +:+ resolvedKey (deref a)) (S := S)) in He.
    destruct (mark _ _ _) as [b0 [n0 s0]]. by injection He as -> -> <- <-.
Qed.

Lemma step_passes e s s' n0 m :
  step e s s' → calm p k e s s' → disciplined p s.2 →
  (n0 ≤ s.1)%nat → set_times k window n0 m (on_disk s) →
  (n0 ≤ s'.1)%nat ∧ set_times k window n0 (m + count (passes k) (dids [e])) (on_disk s').
Proof.
  intros Hs Hc Ha Hn Hm. assert (rtc (evolves k) (on_disk s) (on_disk s')) as Hev.
  { eapply (step_spares _ _ _ _ _ _ _ _ _ k Hu); [exact Hs|by intros ->|exact Ha]. }
  split. { apply evolves_star_time in Hev. cbn in Hev. lia. }
  assert (count (passes k) (dids [e]) = 0%nat ∨ ∃ w x, e = Did w x ∧ passes k x = true) as [->|(w & x & -> & Hp)].
  { destruct e as [| |w x| | |]; try by left. destruct (passes k x) eqn:Hp; [right; by exists w, x|left].
    change (dids [Did w x]) with [x]. by rewrite count_cons, Hp. }
  - rewrite Nat.add_0_r. by eapply set_times_later.
  - change (dids [Did w x]) with [x]. rewrite count_cons, Hp, Nat.add_comm. apply (set_times_again k window n0 m (on_disk s)); [exact Hms|done..|].
    by eapply passes_sets.
Qed.

(** Every goroutine that gets through sets the marker anew: that is possible once
    per window. *)
Lemma passes_bounded es s s' : calm_steps es s s' → disciplined p s.2 →
  (s.1 ≤ s'.1)%nat ∧ set_times k window s.1 (count (passes k) (dids es)) (on_disk s').
Proof.
  intros Hs H0. induction Hs as [s|es e s s' s'' Hs IH Hstep Hc]; [by split; [|left]|].
  destruct (IH H0) as [Hn Hm]. rewrite dids_app, count_app.
  eapply step_passes; [exact Hstep|exact Hc| |exact Hn|exact Hm].
  by eapply steps_disciplined; [eapply calm_steps_steps|].
Qed.
End passes.

(** ** One message per pass *)

(** *** What receivers hear of an alert *)

Definition keyed (k : string) (a : ref AlertPayload) : bool := seqb (marker_key (deref a)) k.

(** A message to [name] that tells of an alert with the marker [k]. *)
Definition tells (name k : string) (x : string * Message) : bool :=
  seqb x.1 name && existsb (keyed k) (about x.2).

Lemma count_existsb {A} (f : A → bool) l : ((if existsb f l then 1 else 0) ≤ count f l)%nat.
Proof. induction l as [|x l IH]; cbn [existsb]; [cbn; lia|]. rewrite count_cons. destruct (f x); cbn [orb]; lia. Qed.

Lemma count_to name k msg l : NoDup l →
  (count (tells name k) (map (λ n, (n, msg)) l) ≤ if existsb (keyed k) (about msg) then 1 else 0)%nat.
Proof.
  assert (∀ l, name ∉ l → count (tells name k) (map (λ n, (n, msg)) l) = 0%nat) as H0.
  { clear. induction l as [|x l IH]; [done|]. intros [Hx Hl]%not_elem_of_cons. cbn [map]. rewrite count_cons.
    unfold tells at 1. cbn [fst snd]. rewrite (proj2 (seqb_false x name)) by congruence. cbn. by apply IH. }
  induction 1 as [|x l Hx Hl IH]; cbn [map]; [change (0 ≤ if existsb (keyed k) (about msg) then 1 else 0)%nat; lia|]. rewrite count_cons. unfold tells at 1. cbn [fst snd].
  destruct (seqb x name) eqn:E; cbn [andb]; [|exact IH].
  apply seqb_true in E as ->. rewrite (H0 l Hx). destruct (existsb _ _); lia.
Qed.

Section hears.
Context {W : Type} (p : Pipeline W) (name k : string).
Context (Honce : ∀ r, r ∈ rules (p_router p) → NoDup (Receivers r)).

Lemma receivers_NoDup a : NoDup (receivers_of p a).
Proof.
  unfold receivers_of, Route. apply NoDup_ListNoDup, List.NoDup_filter, NoDup_ListNoDup.
  induction (rules (p_router p)) as [|r rs IH]; [constructor|]. cbn [route_rules].
  destruct (Matches r a); [apply Honce; by left|]. apply IH. intros r' Hr. apply Honce. by right.
Qed.

Lemma count_deliveries msg : (count (tells name k) (deliveries p msg) ≤ count (keyed k) (about msg))%nat.
Proof. etrans; [apply count_to, receivers_NoDup|]. apply count_existsb. Qed.

(** A goroutine tells a receiver of no more alerts than it was given, took or
    found to be no duplicates. *)
Lemma flow_tells w l msgs held part : flow p w l msgs held part →
  (count (tells name k) (told_of l) + count (keyed k) (added_of l) ≤
   count (keyed k) (own w) + count (keyed k) (taken_of l))%nat.
Proof.
  intros [H1 H2 _ H4]. rewrite <- count_app, H2, H1, !count_app.
  assert (count (tells name k) (msgs ≫= deliveries p) ≤ count (keyed k) (msgs ≫= about))%nat as Hm.
  { clear - Honce. induction msgs as [|m msgs IH]; [cbn; lia|]. change (count (tells name k) (deliveries p m ++ (msgs ≫= deliveries p)) ≤
      count (keyed k) (about m ++ (msgs ≫= about)))%nat. rewrite !count_app. pose proof (count_deliveries m). lia. }
  assert (count (tells name k) part ≤ count (keyed k) held)%nat as Hp.
  { destruct H4 as [->|(msg & rest & E & <- & _)]; [cbn; lia|]. etrans; [|apply count_deliveries]. rewrite <- E, count_app. lia. }
  lia.
Qed.
End hears.

Section trace.
Context {W : Type} (i64 : spec_float → Z) (p : Pipeline W).

(** Who does not pass the deduplicator announces and buffers nothing. *)
Lemma go_Process_stops a t t' : traces (go_Process i64 p a) (t ++ t')%list tt → count (passes (marker_key (deref a))) t = 0%nat →
  told_of (t ≫= deeds) = [] ∧ added_of (t ≫= deeds) = [].
Proof.
  unfold go_Process, marker_key. intros (u & h & E & H) Hn. destruct t as [|x t]; [done|].
  cbn [app] in E. injection E as -> <-. rewrite count_cons in Hn. cbn [passes Nat.add] in Hn. revert H Hn.
  destruct (seqb _ _); intros (dup & h & E & H) Hn; (destruct t as [|x t]; [done|]); cbn [app] in E; injection E as -> <-;
    rewrite count_cons in Hn; cbn [passes] in Hn; rewrite seqb_refl in Hn; (destruct dup; [|done]);
    destruct H as [[-> _]%app_eq_nil _]; done.
Qed.

Lemma record_tells name k w t t' msgs held part :
  (∀ r, r ∈ rules (p_router p) → NoDup (Receivers r)) →
  traces (body i64 p w) (t ++ t')%list tt → flow p w (t ≫= deeds) msgs held part →
  (count (tells name k) (told_of (t ≫= deeds)) + count (keyed k) (added_of (t ≫= deeds)) ≤
   count (passes k) t + count (keyed k) (taken_of (t ≫= deeds)))%nat.
Proof.
  intros Honce Ht Hf. pose proof (flow_tells p name k Honce _ _ _ _ _ Hf) as H.
  destruct w as [a|key|order]; cbn [own] in H; try (change (count (keyed k) []) with 0%nat in H; lia).
  rewrite count_cons in H. destruct (keyed k a) eqn:Hk; [|cbn in H; lia].
  destruct (count (passes k) t) eqn:Hn; [|cbn in H; lia].
  apply seqb_true in Hk as <-. destruct (go_Process_stops a t t' Ht Hn) as [-> ->]. cbn. lia.
Qed.
End trace.

(** ** The theorem *)

Section once.
Context `{HC : !Clock, HL : !CertLib} {T S W : Type} `{HN : !Num T, HS : !Store.Store S, HSp : !StoreSpec S, HW : !Net W}.
Context {PK ESK SK HPK K CK CA : Type}.
Context `{HE : !Ecdsa PK ESK, HX : !X509 PK, HH : !Hpke SK HPK K, HG : !Gcm, HP : !PayloadLib CK CA, HWi : !Wire}.
Context (FF : spec_float → string) (PF : string → option spec_float).
Context (sort : list verdictEntry → list verdictEntry) (i64 : spec_float → Z) (IsPrint : Z → bool).
Context (yaml_tenants : string → option (list Tenant)).
Context (p : Pipeline W) {HOb : Observer p} (sv : option Server) (d : option (Deps SK CK)).

Abbreviation steps := (steps (T := T) FF PF sort i64 IsPrint yaml_tenants p sv d).
Abbreviation sent_in g := (sent (seen_in (p := p) (outside (pg_core g).2))) (only parsing).

Lemma records_tell name k (rs : list (owner * list (action W))) :
  (∀ r, r ∈ rs → count (tells name k) (told_of (r.2 ≫= deeds)) + count (keyed k) (added_of (r.2 ≫= deeds)) ≤
    count (passes k) r.2 + count (keyed k) (taken_of (r.2 ≫= deeds)))%nat →
  (count (tells name k) (told_of (deeds_in rs)) + count (keyed k) (added_of (deeds_in rs)) ≤
   count (passes k) (acts_in rs) + count (keyed k) (taken_of (deeds_in rs)))%nat.
Proof.
  induction rs as [|[w t] rs IH]; intros H; [cbn; lia|].
  change (acts_in ((w, t) :: rs)) with (t ++ acts_in rs)%list.
  rewrite deeds_in_cons, told_of_app, added_of_app, taken_of_app, !count_app.
  pose proof (H (w, t) ltac:(by left)). cbn [snd] in *. specialize (IH ltac:(intros; apply H; by right)). lia.
Qed.

(** The messages that tell a receiver of an alert are no more than the goroutines
    that the deduplicator let through for it. *)
Lemma told_passed name k es s s' :
  steps es s s' → idle p s.2 → (∀ a, a ∈ accepted es → renders a) →
  (∀ r, r ∈ rules (p_router p) → NoDup (Receivers r)) →
  (count (tells name k) (sent_in s'.2) ≤ count (passes k) (dids es))%nat.
Proof.
  intros Hs H0 Hr Honce. assert (unused s.2) as Hun by (split; apply H0).
  pose proof (steps_inv _ _ _ _ _ _ _ _ _ _ _ _ Hs H0 Hr) as Hi.
  rewrite (iv_sent _ _ _ _ _ _ _ _ _ Hi), <- (steps_acts _ _ _ _ _ _ _ _ _ _ _ _ Hs Hun).
  destruct (iv_buffer _ _ _ _ _ _ _ _ _ Hi) as (fulls & Hb & _). apply (count_perm (keyed k)) in Hb. rewrite count_app in Hb.
  set (on := Correlator.enabled _) in *.
  cut (∀ r, r ∈ records s'.2 → count (tells name k) (told_of (r.2 ≫= deeds)) + count (keyed k) (added_of (r.2 ≫= deeds)) ≤
    count (passes k) r.2 + count (keyed k) (taken_of (r.2 ≫= deeds)))%nat.
  { intros H%records_tell. unfold records, records_of in *. lia. }
  intros [w t] Hin. destruct (steps_traced _ _ _ _ _ _ _ _ _ _ _ _ w t Hs Hun Hin) as [t' Ht].
  assert (∃ msgs held part, flow p w (t ≫= deeds) msgs held part) as (msgs & held & part & Hf).
  { apply elem_of_app in Hin as [(x & [= -> ->] & Hx)%list_elem_of_fmap|Hx].
    - destruct (live_flow i64 p on _ _ _ _ _ _ x Hi Hr Hx) as [msgs Hf]. eauto.
    - destruct (script_closed p on w (t ≫= deeds)) as [msgs Hf]; [by eapply over_script|]. eauto. }
  exact (record_tells i64 p name k _ _ _ _ _ _ Honce Ht Hf).
Qed.

(** C7: a receiver is told of one alert at most once per window. However calls over
    both transports, goroutines, groups, timers, reloads and the shutdown
    interleave, and whatever others do to the store short of overwriting or deleting
    the alert's marker: the messages to one receiver that tell of an alert with the
    identity of [a] (cluster, name, namespace, pod; for a resolved alert also the
    firing time), in groups too, are no more than the windows that fit into the run,
    and one; only one if the window is not positive. The store must answer the
    goroutines that ask for the marker: the deduplicator fails open, so each alert that
    meets an outage is told anew. No rule may name a receiver twice, the window is a
    whole number of milliseconds, and no accepted alert has byte metrics that are no
    numbers. *)
Theorem alert_told_once_per_window `{HO : !Onward p} (a : AlertPayload) (name : string)
    (es : list (event W)) (n n' : nat) (g g' : program T S W) :
  calm_steps FF PF sort i64 IsPrint yaml_tenants p sv d (marker_key a) es (n, g) (n', g') → idle p g →
  (∀ b, b ∈ accepted es → renders b) → (∀ r, r ∈ rules (p_router p) → NoDup (Receivers r)) →
  Dedup.window (p_dedup p) mod ms = 0 →
  Z.of_nat (count (tells name (marker_key a)) (sent_in g')) <= allowance (Dedup.window (p_dedup p)) (clk n' - clk n).
Proof.
  intros Hs H0 Hr Honce Hms.
  destruct (passes_bounded FF PF sort i64 IsPrint yaml_tenants p sv d (marker_key a)
    (λ srv _ c, marker_not_used (sv_prefix srv) c a) Hms es _ _ Hs) as [Hn Hm].
  { destruct H0 as (_ & _ & Hl & _). intros x. cbn [snd]. rewrite Hl. by intros ?%elem_of_nil. }
  apply (set_times_bound _ _ _ _ (n', _)) in Hm; [|exact Hn]. cbn [fst] in Hm.
  pose proof (told_passed name (marker_key a) es _ _ (calm_steps_steps _ _ _ _ _ _ _ _ _ _ _ _ _ Hs) H0 Hr Honce) as Ht.
  cbn [snd] in Ht. lia.
Qed.
End once.

(** ** A run *)

Section sample.
#[local] Existing Instances failing_onward run_clock run_certlib run_net run_observer run_ecdsa run_x509 run_hpke run_gcm run_payload_lib run_wire.

(** A collector pushes one alert three times: twice at once, and again after the
    window of five minutes. *)
Definition push_at (ts nonce : string) : move :=
  MCall None (IngestRequest run_alert)
    (MkCtx (ctx_peer sample_ctx) {[ MetaTimestamp := [ts]; MetaNonce := [nonce] ]} None).

Definition thrice : list move :=
  ([push_at "0" "00112233445566778899aabbccddee00"; push_at "0" "00112233445566778899aabbccddee01";
    MAccess 1; MAccess 0; MAccess 0; MAccess 1; MReturn 1 1] ++ repeat (MAccess 0) 13 ++ [MReturn 0 0; MTime 400;
    push_at "400" "00112233445566778899aabbccddee02"] ++ repeat (MAccess 0) 15 ++ [MReturn 0 0])%list.

Definition thrice_run : list (event seen) * (nat * program spec_float Memory.t seen) :=
  default ([], (0%nat, run_program))
    (schedule (T := spec_float) (λ _, "0") (λ _, None) merge_newest (λ _, 0) (λ _, None) failing_pipeline (Some sample_server)
       thrice (0%nat, run_program)).

(** Three alerts are accepted, each receiver gets two messages: as many as the
    window allows. *)
Example thrice_told :
  accepted thrice_run.1 = [run_alert; run_alert; run_alert] ∧
  map fst (sent (outside (pg_core thrice_run.2.2).2)) = ["ops"; "pager"; "ops"; "pager"] ∧
  allowance (Dedup.window (p_dedup failing_pipeline)) (clk thrice_run.2.1 - clk 0) = 2.
Proof. vm_compute. done. Qed.

Lemma alert_told_once_per_window_witness :
  Z.of_nat (count (tells "ops" (marker_key (deref run_alert))) (sent (seen_in (outside (pg_core thrice_run.2.2).2)))) <=
  allowance (Dedup.window (p_dedup failing_pipeline)) (clk thrice_run.2.1 - clk 0).
Proof.
  apply (alert_told_once_per_window (λ _, "0") (λ _, None) merge_newest (λ _, 0) (λ _, true) (λ _, None) failing_pipeline
    (Some sample_server) (Some sample_deps) (deref run_alert) "ops" thrice_run.1 0 thrice_run.2.1 run_program thrice_run.2.2).
  - apply memory_calm.
    + apply (scheduled _ _ _ _ _ _ _ _ _ thrice). vm_compute. reflexivity.
    + vm_compute. reflexivity.
  - split_and!; reflexivity.
  - assert (accepted thrice_run.1 = [run_alert; run_alert; run_alert]) as -> by (vm_compute; reflexivity).
    intros b Hb. repeat (apply elem_of_cons in Hb as [->|Hb]; [apply sample_renderable|]). by apply elem_of_nil in Hb.
  - intros r ->%list_elem_of_singleton. apply (bool_decide_unpack (NoDup ["ops"; "absent"; "pager"])). vm_compute. exact I.
  - reflexivity.
Defined.
End sample.
