(* ===== verification/Instruments.v ===== *)
(** * What the instruments say

    The instruments of [Metrics] that [internal/pipeline/pipeline.go] feeds, as the
    goroutines of [Service] feed them: their values agree with what happened. *)
From S2P Require Import Prelude GoStrings Proto Identity Store Tenants Signer Limiter Correlator Analysis Providers Feedback Notify.
From S2P Require Import HttpSig Sealed Trust Ingest GrpcSrv SignedSrv SilenceClient Metrics Pipeline Goroutines Service.
From Stdlib Require Import Ascii SpecFloat.

Open Scope Z_scope.

(** ** Readings *)

(** What an access tells an instrument, and what it is to be compared with: a group
    taken out of the correlator, a message sent with its outcome. *)
Inductive reading :=
| Moved (delta : Z)
| Counted (metric : string) (values : list string)
| Flushed (group : list (ref AlertPayload))
| SentTo (name : string) (err : option string).

Definition readings {W} (x : action W) : list reading :=
  match x with
  | Action o b =>
      match o in op _ B return B → list reading with
      | Gauge _ delta => λ _, [Moved delta]
      | Count i values => λ _, [Counted (I_Name i) values]
      | TakeBucket _ => λ group, match group with Some l => [Flushed l] | None => [] end
      | SendTo name _ _ => λ err, [SentTo name err]
      | _ => λ _, []
      end b
  end.

Definition moved (l : list reading) : Z := foldr Z.add 0 (map (λ x, match x with Moved z => z | _ => 0 end) l).
Definition counts (i : Instrument) (l : list reading) : list (list string) :=
  l ≫= λ x, match x with Counted name values => if seqb name (I_Name i) then [values] else [] | _ => [] end.
Definition flushed (l : list reading) : list (list (ref AlertPayload)) :=
  l ≫= λ x, match x with Flushed group => [group] | _ => [] end.
Definition outcomes (l : list reading) : list (list string) :=
  l ≫= λ x, match x with SentTo name err => [[name; match err with Some _ => "error" | None => "ok" end]] | _ => [] end.

(** The labels of an alert, and of the size of an incident. *)
Definition received_as (a : ref AlertPayload) : list string := [ClusterId (deref a); statusLabel (deref a)].
Definition size_label (group : list (ref AlertPayload)) : list string := [IncidentSizeBucket (Z.of_nat (length group))].

(** Readings that leave the gauge where it is and count each message once. *)
Record tally (l : list reading) (received incidents : list (list string)) (groups : list (list (ref AlertPayload))) : Prop := {
  ta_moved : moved l = 0;
  ta_received : counts AlertsReceived l = received;
  ta_incidents : counts Incidents l = incidents;
  ta_notifications : counts Notifications l = outcomes l;
  ta_flushed : flushed l = groups;
}.

Lemma moved_app l l' : moved (l ++ l') = moved l + moved l'.
Proof. unfold moved. rewrite map_app. induction l as [|x l IH]; [done|]. cbn. rewrite IH. lia. Qed.

Lemma tally_app l l' r r' s s' g g' :
  tally l r s g → tally l' r' s' g' → tally (l ++ l') (r ++ r') (s ++ s') (g ++ g').
Proof.
  intros [A1 A2 A3 A4 A5] [B1 B2 B3 B4 B5]. unfold counts, flushed, outcomes in *.
  split; unfold counts, flushed, outcomes; rewrite ?moved_app, ?bind_app; try congruence. lia.
Qed.

(** A stretch of a program inside [Inc] and [Dec]. *)
Lemma tally_around l r s g : tally l r s g → tally (Moved 1 :: l ++ [Moved (-1)])%list r s g.
Proof.
  intros [A1 A2 A3 A4 A5]. change (Moved 1 :: l ++ [Moved (-1)])%list with ([Moved 1] ++ l ++ [Moved (-1)])%list.
  unfold counts, flushed, outcomes in *.
  split; unfold counts, flushed, outcomes; rewrite ?moved_app, ?bind_app, ?A1; cbn; rewrite ?app_nil_r; try done.
Qed.

(** ** The bodies of the goroutines *)

Section bodies.
Context {W : Type} (i64 : spec_float → Z) (p : Pipeline W) (on : bool).

Abbreviation emits := (emits (readings (W := W)) (sound on)).

Definition neutral {A} (g : proc W A) : Prop := emits g (λ _ l, tally l [] [] []).

Lemma neutral_bind {A B} (g : proc W A) (k : A → proc W B) : neutral g → (∀ a, neutral (k a)) → neutral (g ≫= k).
Proof.
  intros Hg Hk. apply emits_bind. eapply emits_mono; [exact Hg|]. intros a l Hl. eapply emits_mono; [apply Hk|].
  intros b l' Hl'. by apply (tally_app l l' [] [] [] [] [] []).
Qed.

Lemma neutral_ret {A} (a : A) : neutral (mret a).
Proof. by apply emits_ret. Qed.

Lemma neutral_each {X} (l : list X) (f : X → proc W unit) : (∀ x, neutral (f x)) → neutral (each l f).
Proof. intros Hf. induction l as [|x l IH]; [apply neutral_ret|]. by apply neutral_bind. Qed.

Ltac neutral_tac :=
  repeat first
    [ progress intros
    | match goal with |- neutral (_ ≫= _) => apply neutral_bind end
    | match goal with |- neutral (each _ _) => apply neutral_each end
    | match goal with |- neutral (mret _) => apply neutral_ret end
    | match goal with |- neutral (call _) => by apply emits_call end
    | progress cbn [negb]
    | match goal with |- neutral match ?x with _ => _ end => destruct x end ].

Lemma go_evaluate_neutral a : neutral (go_evaluate a).
Proof. unfold go_evaluate. neutral_tac. Qed.

Lemma go_evaluateIncident_neutral rep l : neutral (go_evaluateIncident rep l).
Proof. unfold go_evaluateIncident. neutral_tac. Qed.

Lemma go_maybeSilence_neutral a an : neutral (go_maybeSilence a an).
Proof. unfold go_maybeSilence. neutral_tac. Qed.

Lemma go_send_neutral msg name : neutral (go_send p msg name).
Proof.
  unfold go_send. destruct (p_notifiers p !! name) as [nt|]; [|apply neutral_ret].
  apply emits_bind, emits_call. intros err _. apply emits_call. intros [] _. by destruct err.
Qed.

Lemma go_deliver_neutral a msg : neutral (go_deliver p a msg).
Proof. apply neutral_each. intros. apply go_send_neutral. Qed.

Lemma go_announce_neutral rep an msg : neutral (go_announce i64 p rep an msg).
Proof. unfold go_announce, go_attachFeedback. neutral_tac. apply go_deliver_neutral. Qed.

(** The gauge goes up and down again. *)
Lemma around (g : proc W unit) r s gr : emits g (λ _ l, tally l r s gr) →
  emits (call (Gauge PipelineInFlight 1);; g;; call (Gauge PipelineInFlight (-1))) (λ _ l, tally l r s gr).
Proof.
  intros Hg. apply emits_bind, emits_call. intros ? _. apply emits_bind. eapply emits_mono; [exact Hg|].
  intros ? l Hl. apply emits_call. intros ? _. by apply tally_around.
Qed.

(** A stretch that ends with [Dec]. *)
Definition leaves (g : proc W unit) (incidents : list (list string)) : Prop :=
  emits g (λ _ l, ∃ l', l = (l' ++ [Moved (-1)])%list ∧ tally l' [] incidents []).

Lemma leaves_dec : leaves (call (Gauge PipelineInFlight (-1))) [].
Proof. apply emits_call. intros ? _. by exists []. Qed.

Lemma leaves_bind {A} (g : proc W A) k inc : neutral g → (∀ a, leaves (k a) inc) → leaves (g ≫= k) inc.
Proof.
  intros Hg Hk. apply emits_bind. eapply emits_mono; [exact Hg|]. intros x l Hl. eapply emits_mono; [apply Hk|].
  intros ? l2 (l' & -> & Hl'). exists (l ++ l')%list. split; [by rewrite app_assoc|].
  by apply (tally_app l l' [] [] [] inc [] []).
Qed.

Lemma leaves_inc g inc : leaves g inc → emits (call (Gauge PipelineInFlight 1);; g) (λ _ l, tally l [] inc []).
Proof.
  intros Hg. apply emits_bind, emits_call. intros ? _. eapply emits_mono; [exact Hg|].
  intros ? l (l' & -> & Hl'). by apply tally_around.
Qed.

Lemma go_processSingle_tally a : neutral (go_processSingle i64 p a).
Proof.
  unfold go_processSingle. apply leaves_inc. apply leaves_bind; [apply go_evaluate_neutral|]. intros an.
  apply leaves_bind; [apply go_maybeSilence_neutral|]. intros _. apply leaves_bind; [by apply emits_call|]. intros _.
  apply leaves_bind; [apply go_announce_neutral|]. intros _. apply leaves_dec.
Qed.

(** The end of both branches of [processIncident]. *)
Lemma report_tally (ev : proc W (option Analysis)) rep group fmt :
  neutral ev → emits
    (analysis ← ev;
     go_maybeSilence (deref rep) analysis;;
     call (RecordIncident rep analysis group);;
     go_announce i64 p rep analysis (fmt analysis);;
     call (Count Incidents (size_label group))) (λ _ l, tally l [] [size_label group] []).
Proof.
  intros Hev.
  assert (∀ A (g : proc W A) k, neutral g → (∀ a, emits (k a) (λ _ l, tally l [] [size_label group] [])) →
    emits (g ≫= k) (λ (_ : unit) l, tally l [] [size_label group] [])) as Hnext.
  { intros A g k Hg Hk. apply emits_bind. eapply emits_mono; [exact Hg|]. intros x l Hl. eapply emits_mono; [apply Hk|].
    intros ? l' Hl'. by apply (tally_app l l' [] [] [] [size_label group] [] []). }
  apply Hnext; [done|]. intros an. apply Hnext; [apply go_maybeSilence_neutral|]. intros _.
  apply Hnext; [by apply emits_call|]. intros _. apply Hnext; [apply go_announce_neutral|]. intros _.
  by apply emits_call.
Qed.

Lemma go_processIncident_tally group : group ≠ [] →
  emits (go_processIncident i64 p group) (λ _ l, tally l [] [size_label group] []).
Proof.
  intros Hne. unfold go_processIncident. destruct (Representative group) as [rep|] eqn:Hrep; [|by destruct group].
  apply around. destruct (length group =? 1)%nat eqn:El.
  - apply Nat.eqb_eq in El. replace [IncidentSizeBucket 1] with (size_label group) by (unfold size_label; by rewrite El).
    apply report_tally, go_evaluate_neutral.
  - apply (report_tally _ rep group (FormatIncidentMessage rep group)), go_evaluateIncident_neutral.
Qed.

(** What the instruments have been told when a goroutine returns. *)
Definition told_instruments (w : owner) (l : list reading) : Prop :=
  ∃ groups, tally l (map received_as (own w)) (map size_label groups) groups.

Lemma go_flushKey_tally key : emits (go_flushKey i64 p key) (λ _ l, ∃ groups, tally l [] (map size_label groups) groups).
Proof.
  unfold go_flushKey. apply emits_bind, emits_call. intros [group|] Hok; [|apply emits_ret; by exists []].
  destruct (Hok group eq_refl) as [Hne _]. eapply emits_mono; [by apply go_processIncident_tally|].
  intros ? l Hl. exists [group]. apply (tally_app [Flushed group] l [] [] [] [size_label group] [group] []); [|done].
  by split.
Qed.

Theorem body_instruments w : emits (body i64 p w) (λ _, told_instruments w).
Proof.
  destruct w as [a|key|order]; cbn [body].
  - unfold go_Process. apply emits_bind, emits_call. intros [] _.
    assert (∀ g : proc W unit, neutral g → emits g (λ _ l, told_instruments (Alert a)
      ([Counted (I_Name AlertsReceived) (received_as a)] ++ l)%list)) as Hrest.
    { intros g Hg. eapply emits_mono; [exact Hg|]. intros ? l Hl. exists []. cbn [own map].
      by apply (tally_app _ l [received_as a] [] [] [] [] []). }
    apply Hrest. destruct (seqb _ _).
    + apply neutral_bind; [by apply emits_call; intros []|]. intros [|]; [apply neutral_ret|apply go_deliver_neutral].
    + apply neutral_bind; [by apply emits_call; intros []|]. intros [|]; [apply neutral_ret|].
      apply neutral_bind; [by apply emits_call|]. intros [|]; [by apply emits_call|apply go_processSingle_tally].
  - apply go_flushKey_tally.
  - unfold go_Drain. apply emits_bind, emits_call. intros keys _. cbn [readings app].
    induction keys as [|key keys IH]; [apply emits_ret; by exists []|]. cbn [each]. apply emits_bind.
    eapply emits_mono; [apply go_flushKey_tally|]. intros ? l (gs & Hl). eapply emits_mono; [exact IH|].
    intros ? l' (gs' & Hl'). exists (gs ++ gs')%list. rewrite map_app.
    by apply (tally_app l l' [] [] _ _ gs gs').
Qed.
End bodies.

(** ** The running brain *)

Definition readings_in {W} (rs : list (owner * list (action W))) : list reading := rs ≫= λ r, r.2 ≫= readings.

(** Each count has a value for each label of its instrument. *)
Definition labelled {W} (x : action W) : Prop :=
  match x with Action (Count i values) _ => fits i values = true | _ => True end.

Lemma always_traces {W A} (P : ∀ B, op W B → Prop) (g : proc W A) t a :
  always P g → traces g t a → Forall (λ x, match x with Action o _ => P _ o end) t.
Proof.
  revert t. induction g as [b|B o k IH]; intros t; cbn; [by intros _ [-> _]; constructor|].
  intros [Ho Hk] (b & t' & -> & Ht). constructor; [done|]. by apply (IH b).
Qed.

(** The messages sent are those told. *)
Lemma outcomes_told {W} (t : list (action W)) : omap head (outcomes (t ≫= readings)) = (told_of (t ≫= deeds)).*1.
Proof.
  induction t as [|[B o b] t IH]; [done|]. rewrite !bind_cons. unfold outcomes, told_of in *. rewrite !bind_app, omap_app, fmap_app, IH.
  f_equal. destruct o; try destruct b; done.
Qed.

Section instruments.
Context `{HC : !Clock, HL : !CertLib} {T S W : Type} `{HN : !Num T, HS : !Store.Store S, HW : !Net W}.
Context {PK ESK SK HPK K CK CA : Type}.
Context `{HE : !Ecdsa PK ESK, HX : !X509 PK, HH : !Hpke SK HPK K, HG : !Gcm, HP : !PayloadLib CK CA, HWi : !Wire}.
Context (FF : spec_float → string) (PF : string → option spec_float).
Context (sort : list verdictEntry → list verdictEntry) (i64 : spec_float → Z) (IsPrint : Z → bool).
Context (yaml_tenants : string → option (list Tenant)).
Context (p : Pipeline W) {HO : Observer p} (sv : option Server) (d : option (Deps SK CK)).

Abbreviation steps := (steps (T := T) FF PF sort i64 IsPrint yaml_tenants p sv d).
Abbreviation sent_in g := (sent (seen_in (p := p) (outside (pg_core g).2))) (only parsing).

(** The tallies of several goroutines make one. *)
Lemma tallies on (over : list (owner * list (action W))) :
  (∀ w t, (w, t) ∈ over → traces (body i64 p w) t tt ∧ Forall (sound on) t) →
  ∃ groups, tally (readings_in over) (map received_as (over.*1 ≫= own)) (map size_label groups) groups.
Proof.
  induction over as [|[w t] over IH]; intros Ho; [by exists []|].
  destruct IH as [gs Hgs]; [by intros w' t' H; apply Ho; right|].
  destruct (Ho w t) as [Ht Hs]; [by left|]. destruct (body_instruments i64 p on w t tt Ht Hs) as [gs0 Hgs0].
  exists (gs0 ++ gs)%list. change (((w, t) :: over).*1 ≫= own) with (own w ++ (over.*1 ≫= own))%list. rewrite !map_app.
  exact (tally_app _ _ _ _ _ _ _ _ Hgs0 Hgs).
Qed.

(** C39: the instruments of the pipeline tell the truth. When no goroutine is at
    work, the in-flight gauge is back at zero, the received counter has counted
    each accepted alert once under its cluster and status, the notifications
    counter each message once under its receiver and outcome, the incidents counter
    each group that came out of the correlator once under its size; and no count
    ever panicked for a wrong number of labels. *)
Theorem instruments_agree (es : list (event W)) (n n' : nat) (g g' : program T S W) :
  steps es (n, g) (n', g') → idle p g → (∀ a, a ∈ accepted es → renders a) → pg_live g' = [] →
  let rs := readings_in (pg_over g') in
  moved rs = 0 ∧
  counts AlertsReceived rs ≡ₚ map received_as (accepted es) ∧
  counts Notifications rs = outcomes rs ∧ omap head (outcomes rs) ≡ₚ (sent_in g').*1 ∧
  counts Incidents rs = map size_label (flushed rs) ∧
  Forall (λ r, Forall labelled r.2) (pg_over g').
Proof.
  intros Hs Hid Hr Hlive rs. pose proof (steps_inv FF PF sort i64 IsPrint yaml_tenants p sv d es _ _ Hs Hid Hr) as Hi.
  cbn [snd] in Hi. unfold run_inv in Hi. rewrite Hlive in Hi.
  destruct (tallies (Correlator.enabled (pg_core g).1) (pg_over g')) as (groups & [H1 H2 H3 H4 H5]).
  { intros w t Hin. split; [by apply (iv_over _ _ _ _ _ _ _ _ _ Hi)|]. by apply (iv_sound _ _ _ _ _ _ _ _ _ Hi w). }
  split_and!; [done| |done| | |].
  - subst rs. rewrite H2. change (map received_as) with (fmap (M := list) received_as). apply fmap_Permutation.
    symmetry. apply (iv_alerts _ _ _ _ _ _ _ _ _ Hi).
  - rewrite (iv_sent _ _ _ _ _ _ _ _ _ Hi). subst rs. unfold deeds_in, records_of. cbn [map app]. clear.
    induction (pg_over g') as [|[w t] l IH]; [done|]. unfold readings_in in *. rewrite !bind_cons. cbn [snd].
    rewrite told_of_app, fmap_app, <- IH. unfold outcomes. rewrite bind_app, omap_app. fold (outcomes (t ≫= readings)).
    by rewrite outcomes_told.
  - subst rs. by rewrite H3, H5.
  - apply Forall_forall. intros [w t] Hin. apply (iv_over _ _ _ _ _ _ _ _ _ Hi) in Hin. cbn [snd].
    pose proof (always_traces _ _ _ _ (body_allowed i64 p w) Hin) as Ha. eapply Forall_impl; [exact Ha|].
    intros [B o b]. by destruct o.
Qed.
End instruments.

Section sample.
#[local] Existing Instances run_clock run_certlib run_net run_observer run_ecdsa run_x509 run_hpke run_gcm run_payload_lib run_wire.

Lemma instruments_agree_witness :
  let rs := readings_in (pg_over run_done) in
  moved rs = 0 ∧
  counts AlertsReceived rs ≡ₚ map received_as (accepted run_events) ∧
  counts Notifications rs = outcomes rs ∧
  omap head (outcomes rs) ≡ₚ (sent (seen_in (outside (pg_core run_done).2))).*1 ∧
  counts Incidents rs = map size_label (flushed rs) ∧
  Forall (λ r, Forall labelled r.2) (pg_over run_done).
Proof.
  apply (instruments_agree (λ _, "0") (λ _, None) merge_newest (λ _, 0) (λ _, true) (λ _, None) failing_pipeline
    (Some sample_server) (Some sample_deps) run_events 0 run_result.2.1 run_program run_done).
  - exact run_steps.
  - exact run_idle.
  - exact run_renders.
  - vm_compute. reflexivity.
Defined.

Example run_counts : counts Notifications (readings_in (pg_over run_done)) = [["ops"; "error"]; ["pager"; "error"]].
Proof. vm_compute. reflexivity. Qed.
End sample.
