(* ===== verification/Meters.v ===== *)
(** * The counters of the running brain

    Every access of a goroutine of [Service], and every visit to the public
    listener, with what it counts ([Counts]): counting changes nothing of a run, and
    the counters of a run agree with what its goroutines did. *)
From S2P Require Import Prelude GoStrings Proto Identity Store Dedup Tenants Signer Limiter Correlator Analysis Prompt Providers Evaluator.
From S2P Require Import Cache Feedback History SilenceClient Notify HttpSig Sealed Trust Ingest GrpcSrv SignedSrv Metrics Counts.
From S2P Require Import Pipeline Goroutines Service Records Spares.
From Stdlib Require Import SpecFloat.

Open Scope Z_scope.

(** ** Code that counts *)

Section on.
Context {T S W A : Type}.
Definition counted_on_limiter : K (option (Limiter.Pool T)) A → K (Rest T S W) A :=
  kzoom limiter (λ l r, MkRest l (storage r) (outside r) (panicked r)).
Definition counted_on_storage : K S A → K (Rest T S W) A :=
  kzoom storage (λ s r, MkRest (limiter r) s (outside r) (panicked r)).
(** A question: a panic leaves it unanswered, and the samples told before it stand. *)
Definition counted_ask (k : K W (result run_error Analysis)) :
    K (Rest T S W) (option (result run_error Analysis)) := λ '(n, (r, l)),
  let '(a, (n', (w', l'))) := k (n, (outside r, l)) in
  (Some a, (n', (MkRest (limiter r) (storage r) w' (match a with None => true | Some _ => panicked r end), l'))).
Definition counted_on_outside : K W A → K (Rest T S W) A :=
  kzoom outside (λ w r, MkRest (limiter r) (storage r) w (panicked r)).
Definition counted_on_rest : K (Rest T S W) A → K (Correlator.Correlator * Rest T S W) A := kzoom snd (λ r s, (s.1, r)).
End on.

Section exec.
Context `{HC : !Clock} {T S W : Type} `{HN : !Num T, HS : !Store.Store S, HW : !Net W}.
Context (FF : spec_float → string) (PF : string → option spec_float).
Context (sort : list verdictEntry → list verdictEntry) (p : Pipeline W).
Context (IsPrint : Z → bool) (json_error : string → string) (emit : audit_record → M W unit) (e : Evaluator.Evaluator W).

(** An access, when the analyzer of [p] is the evaluator [e]. *)
Definition counted_exec {A} (o : op W A) : K (Correlator.Correlator * Rest T S W) A :=
  match o in op _ A return K (Correlator.Correlator * Rest T S W) A with
  | IsDup a => counted_on_rest (counted_on_storage (counted_IsDuplicate (p_dedup p) (deref a)))
  | IsDupResolved a => counted_on_rest (counted_on_storage (counted_IsDuplicateResolved (p_dedup p) (deref a)))
  | CacheGet payload => counted_on_rest (counted_on_storage (counted_Get PF (p_cache p) payload))
  | Acquire id => counted_on_rest (counted_on_limiter (counted_Pool_Acquire id))
  | Ask payload examples =>
      counted_on_rest (counted_ask (counted_Evaluate IsPrint json_error emit e None payload examples))
  | AskGroup payloads examples =>
      counted_on_rest (counted_ask (counted_EvaluateIncident IsPrint json_error emit e None payloads examples))
  | RequestSilence payload reason => counted_on_rest (counted_on_outside (counted_CreateSilence (p_silence p) payload reason))
  | RecordIncident rep analysis alerts =>
      counted_on_rest (counted_on_storage (counted_Record (p_history p) (Some rep) analysis alerts))
  | Count i values => WithLabels_Inc i values
  | o => quietly (exec FF PF sort p o)
  end.

(** What an access answered with [b] counts; nothing is said of a panic. *)
Definition access_told {A} (o : op W A) (b : A) (new : list sample) : Prop :=
  match o in op _ A return A → Prop with
  | IsDup a | IsDupResolved a => λ dup, dedup_told (deref a) dup new
  | CacheGet _ => λ o, lookup_told (p_cache p) o new
  | Acquire id => λ ok, refusal_told id ["rate"; "concurrency"] ok new
  | Ask _ _ | AskGroup _ _ => λ r, ∀ x, r = Some x → ∃ replies, llm_told (llm_labels e None) replies x new
  | RequestSilence payload _ => λ r, silence_told (p_silence p) payload r new
  | RecordIncident _ _ _ => λ _, new = [] ∨ new = [Added IncidentsRecorded [] one]
  | Count i values => λ _, new = [Added i values one]
  | _ => λ _, new = []
  end b.

Context (Hp : p_evaluator p = evaluator_analyzer IsPrint json_error emit e) (Hmr : 0 <= maxRetries e).

Lemma counted_ask_tells prompt c :
  tells False (counted_ask (T := T) (S := S) (counted_run IsPrint json_error emit e None prompt))
    (ask (uncounted (counted_run IsPrint json_error emit e None prompt))) c
    (λ r _ new, ∀ x, r = Some x → ∃ replies, llm_told (llm_labels e None) replies x new).
Proof.
  intros l. destruct c as [n r]. cbn [counted_ask fst snd]. rewrite additive_run.
  destruct (ask_run (uncounted (counted_run IsPrint json_error emit e None prompt)) n r) as (o & n1 & w1 & E & ->).
  unfold uncounted in E. destruct (counted_run _ _ _ _ _ _ (n, (outside r, []))) as [a [n' [w' l']]] eqn:Ek.
  injection E as <- <- <-. split; [by destruct a|]. exists l'. split; [done|]. intros x ->.
  pose proof (counted_run_tells IsPrint json_error emit e (λ _ _ _, True) ltac:(done) ltac:(done) ltac:(done) None prompt
    (n, outside r) Hmr []) as H. cbn [fst snd] in H. rewrite Ek in H. destruct H as (_ & new & -> & replies & _ & H). by exists replies.
Qed.

Lemma counted_exec_tells {A} (o : op W A) c :
  (match o with Count i values => fits i values = true | _ => True end) →
  tells False (counted_exec o) (exec FF PF sort p o) c (λ b _, access_told o b).
Proof.
  intros Hfits.
  assert (∀ B (k : K W B) m (Q : B → list sample → Prop), (∀ c, tells False k m c (λ b _, Q b)) →
    tells False (counted_on_rest (counted_on_outside k)) (on_rest (T := T) (S := S) (on_outside m)) c (λ b _, Q b)) as Hout.
  { intros. by apply tells_zoom, tells_zoom. }
  assert (∀ B (k : K S B) m (Q : B → list sample → Prop), (∀ c, tells False k m c (λ b _, Q b)) →
    tells False (counted_on_rest (counted_on_storage k)) (on_rest (T := T) (W := W) (on_storage m)) c (λ b _, Q b)) as Hst.
  { intros B k m Q Hk. apply tells_zoom, tells_zoom. by eapply tells_may; [apply Hk|]. }
  destruct o; cbn [counted_exec exec access_told]; try (by apply tells_quietly).
  - apply Hst. intros. apply IsDuplicate_tells.
  - apply Hst. intros. apply IsDuplicateResolved_tells.
  - apply Hst. intros. apply Get_tells.
  - apply tells_zoom, tells_zoom. eapply tells_may; [apply Pool_Acquire_tells|done].
  - rewrite Hp. apply tells_zoom, counted_ask_tells.
  - rewrite Hp. apply tells_zoom, counted_ask_tells.
  - apply Hout. intros. eapply tells_may; [apply CreateSilence_tells|done].
  - apply Hst. intros. eapply tells_mono; [apply Record_tells|]. unfold recorded_told. intros ? ? new ->.
    destruct (p_history p); [|by left]. destruct (is_Ok _); [by right|by left].
  - rewrite Hfits. by apply tells_inc_last.
Qed.
End exec.

(** The counters an access may feed. *)
Definition feeds {W B} (o : op W B) : list string :=
  match o with
  | IsDup _ | IsDupResolved _ => [I_Name AlertsDeduped]
  | CacheGet _ => [I_Name CacheLookups]
  | Acquire _ => [I_Name LLMThrottled]
  | Ask _ _ | AskGroup _ _ => llm_names
  | RequestSilence _ _ => [I_Name Silences]
  | RecordIncident _ _ _ => [I_Name IncidentsRecorded]
  | Count i _ => [I_Name i]
  | _ => []
  end.

Lemma added_other j i values a : existsb (seqb (I_Name j)) [I_Name i] = false → added j [Added i values a] = [].
Proof.
  cbn [existsb]. rewrite orb_false_r. intros H%seqb_false. unfold added. cbn. destruct (seqb (I_Name i) (I_Name j)) eqn:E; [|done].
  apply seqb_true in E. by rewrite E in H.
Qed.

Lemma access_feeds {W} `{HW : !Net W} p ev {B} (o : op W B) b new j :
  access_told p ev o b new → unanswered (Action o b) = false → existsb (seqb (I_Name j)) (feeds o) = false → added j new = [].
Proof.
  destruct o; cbn [access_told feeds]; intros H Hu Hj; try (by subst).
  - unfold dedup_told in H. destruct b; subst; [by apply added_other|done].
  - unfold dedup_told in H. destruct b; subst; [by apply added_other|done].
  - unfold lookup_told in H. destruct (Cache.enabled _); [|by destruct H as [_ ->]].
    destruct H as (r & -> & _). by apply added_other.
  - unfold refusal_told in H. destruct b; [by subst|]. destruct H as (r & _ & ->). by apply added_other.
  - destruct b as [r|]; [|done]. destruct (H r eq_refl) as (replies & Ht). by apply of_llm_added; [apply Ht|].
  - destruct b as [r|]; [|done]. destruct (H r eq_refl) as (replies & Ht). by apply of_llm_added; [apply Ht|].
  - unfold silence_told in H. destruct (negb _); [by destruct H as [_ ->]|].
    destruct (_ || _); [destruct H as [_ ->]; by apply added_other|].
    destruct (request_error _); [by destruct H as [_ ->]|]. subst. by apply added_other.
  - destruct H as [->| ->]; [done|by apply added_other].
  - subst. by apply added_other.
Qed.

(** The public listener. *)
Definition counted_serve_public `{!Clock} {S} `{!Store.Store S} (m : Manager) (method path id verdict : string) : K S public_reply :=
  if seqb path "/feedback" then
    if seqb method "GET" then '(status, body) ← counted_ServeHTTP m id verdict; mret (PublicFeedback status body)
    else mret PublicMethodNotAllowed
  else if seqb path "/metrics" then mret PublicMetrics
  else if seqb path "/healthz" then if seqb method "GET" then mret PublicOK else mret PublicMethodNotAllowed
  else mret PublicNotFound.

(** What a visit with its reply counts. *)
Definition visit_counts (verdict : string) (r : public_reply) : list sample :=
  match r with
  | PublicFeedback status _ => if status =? 200 then [Added FeedbackVerdicts [verdict] one] else []
  | _ => []
  end.

Lemma counted_serve_public_tells `{HC : !Clock} {S} `{HS : !Store.Store S} m method path id verdict c :
  tells False (counted_serve_public (S := S) m method path id verdict) (serve_public m method path id verdict) c
    (λ r _ new, new = visit_counts verdict r).
Proof.
  unfold counted_serve_public, serve_public. destruct (seqb path "/feedback"); [|by tell]. destruct (seqb method "GET"); [|by tell].
  apply tells_bind. eapply tells_mono; [apply ServeHTTP_tells|]. intros [status body] c' new Hv. apply tells_ret.
  rewrite app_nil_r. cbn in *. destruct Hv as [(-> & _ & ->)|[Hs ->]]; [done|]. by destruct (Z.eqb_spec status 200).
Qed.

(** ** Judgements

    Whether an alert or group that is being processed has got its judgement: a hit of
    the cache, a refusal of the limiter or a question to the LLM. *)
Section judgement.
Context {W : Type}.

Definition is_hit (x : action W) : bool :=
  match x with
  | Action o b => match o in op _ B return B → bool with
                  | CacheGet _ => λ r, match r with Some _ => true | None => false end
                  | _ => λ _, false
                  end b
  end.

(** The cluster that was refused. *)
Definition refused (x : action W) : list string :=
  match x with
  | Action o b => match o in op _ B return B → list string with
                  | Acquire id => λ ok, if ok then [] else [id]
                  | _ => λ _, []
                  end b
  end.

(** Whether a question was answered with an analysis. *)
Definition answered (x : action W) : list bool :=
  match x with
  | Action o b => match o in op _ B return B → list bool with
                  | Ask _ _ | AskGroup _ _ => λ r, [match r with Some (Ok _) => true | _ => false end]
                  | _ => λ _, []
                  end b
  end.

(** The end of the processing, up to the announcement. *)
Definition is_processed (x : action W) : bool :=
  match x with Action (RecordIncident _ _ _) _ => true | _ => false end.

(** The instruments the pipeline itself feeds. *)
Definition pipeline_counter (i : Instrument) : bool :=
  existsb (λ j, seqb (I_Name i) (I_Name j)) [AlertsReceived; Silences; Notifications; Incidents].

Definition judgements (x : action W) : nat := (if is_hit x then 1 else 0) + length (refused x) + length (answered x).

Definition judged_after (h : bool) (x : action W) : bool :=
  if is_processed x then false else h || negb (judgements x =? 0)%nat.

(** At most one judgement at a time, and none missing when the processing ends. *)
Definition judged (h : bool) (x : action W) : bool :=
  match x with
  | Action (Count i _) _ => pipeline_counter i
  | _ => if is_processed x then h else negb h || (judgements x =? 0)%nat
  end.

Lemma judged_once {A} h (g : proc W A) h' t a :
  goes judged_after judged h g h' → traces g t a →
  (sum_list_with judgements t + (if h then 1 else 0) = count is_processed t + (if h' then 1 else 0))%nat ∧
  ∀ i values (b : unit), Action (Count i values) b ∈ t → pipeline_counter i = true.
Proof.
  revert h t. induction g as [a'|B o k IH]; intros h t; cbn [goes traces].
  { intros -> [-> _]. split; [done|]. by intros ? ? ? ?%elem_of_nil. }
  intros Hg (b & t' & -> & Ht). destruct (Hg b) as [Hok Hg']. destruct (IH b _ _ Hg' Ht) as [IH1 IH2]. split.
  - rewrite count_cons. cbn [sum_list_with]. clear -Hok IH1. revert IH1 Hok. unfold judged_after.
    assert (judgements (Action o b) ≤ 1)%nat as Hj.
    { unfold judgements. destruct o; cbn; try lia; try (destruct b; cbn; lia). }
    destruct o; cbn [judged is_processed]; intros IH1 Hok;
      destruct (judgements _) as [|[|]] eqn:Ej; try (cbn in Ej; discriminate); cbn in *; try lia;
      destruct h; cbn in *; try discriminate; lia.
  - intros i values u [E|Hin]%elem_of_cons; [|by eapply IH2]. destruct o; inversion E. by subst.
Qed.
End judgement.

Section bodies.
Context {W : Type} (i64 : spec_float → Z) (p : Pipeline W).

Lemma go_evaluate_judges a : goes judged_after judged false (go_evaluate (W := W) a) true.
Proof.
  unfold go_evaluate. intros [c|]; (split; [done|]); cbn; [done|]. intros [|]; (split; [done|]); cbn; [|done].
  intros examples. split; [done|]. intros [[res|e]|]; (split; [done|]); cbn.
  - intros []. split; [done|]. intros []. by split.
  - intros []. by split.
  - intros []. by split.
Qed.

Lemma go_evaluateIncident_judges rep l : goes judged_after judged false (go_evaluateIncident (W := W) rep l) true.
Proof.
  unfold go_evaluateIncident. intros [|]; (split; [done|]); cbn; [|done]. intros examples. split; [done|].
  intros r. split; [done|]. intros []. by split.
Qed.

Lemma go_maybeSilence_judges a an : goes judged_after judged true (go_maybeSilence (W := W) a an) true.
Proof. unfold go_maybeSilence. goes_tac. Qed.

Lemma go_deliver_judges a msg : goes judged_after judged false (go_deliver p a msg) false.
Proof. unfold go_deliver, go_send. goes_tac. Qed.

Lemma go_announce_judges rep an msg : goes judged_after judged false (go_announce i64 p rep an msg) false.
Proof. unfold go_announce, go_attachFeedback. goes_tac; try apply go_deliver_judges. Qed.

Lemma go_processIncident_judges l : goes judged_after judged false (go_processIncident i64 p l) false.
Proof.
  unfold go_processIncident. goes_tac;
    first [apply go_evaluate_judges|apply go_evaluateIncident_judges|apply go_maybeSilence_judges|apply go_announce_judges|by cbn].
Qed.

Lemma body_judges w : goes judged_after judged false (body i64 p w) false.
Proof.
  destruct w as [a|key|order]; cbn [body].
  - unfold go_Process, go_processSingle, go_processResolved. goes_tac;
      first [apply go_evaluate_judges|apply go_maybeSilence_judges|apply go_announce_judges|apply go_deliver_judges|by cbn].
  - unfold go_flushKey. goes_tac. apply go_processIncident_judges.
  - unfold go_Drain, go_flushKey. goes_tac. apply go_processIncident_judges.
Qed.
End bodies.

(** ** Runs that count *)

Section service.
Context `{HC : !Clock, HL : !CertLib} {T S W : Type} `{HN : !Num T, HS : !Store.Store S, HW : !Net W}.
Context {PK ESK SK HPK K CK CA : Type}.
Context `{HE : !Ecdsa PK ESK, HX : !X509 PK, HH : !Hpke SK HPK K, HG : !Gcm, HP : !PayloadLib CK CA, HWi : !Wire}.
Context (FF : spec_float → string) (PF : string → option spec_float).
Context (sort : list verdictEntry → list verdictEntry) (i64 : spec_float → Z) (IsPrint : Z → bool).
Context (yaml_tenants : string → option (list Tenant)).
Context (p : Pipeline W) (sv : option Server) (d : option (Deps SK CK)).
Context (IsPrint' : Z → bool) (json_error : string → string) (emit : audit_record → M W unit) (ev : Evaluator.Evaluator W).

Abbreviation step := (step (T := T) FF PF sort i64 IsPrint yaml_tenants p sv d).
Abbreviation steps := (steps (T := T) FF PF sort i64 IsPrint yaml_tenants p sv d).
Abbreviation counted_exec := (counted_exec (T := T) (S := S) FF PF sort p IsPrint' json_error emit ev).

(** A step of the running brain, and the samples before and after it. *)
Definition counted_step (e : event W) (s : nat * program T S W) (l : list sample) (s' : nat * program T S W) (l' : list sample) : Prop :=
  step e s s' ∧
  match e with
  | Did _ (Action o b) => counted_exec o (s.1, (pg_core s.2, l)) = (Some b, (s'.1, (pg_core s'.2, l')))
  | Visited method path id verdict r =>
      counted_serve_public (p_feedback p) method path id verdict (s.1, (storage (pg_core s.2).2, l)) =
        (Some r, (s'.1, (storage (pg_core s'.2).2, l')))
  | _ => l' = l
  end.

(** The samples after a step, as its code computes them. *)
Definition count_after (e : event W) (s : nat * program T S W) (l : list sample) : list sample :=
  match e with
  | Did _ (Action o _) => (counted_exec o (s.1, (pg_core s.2, l))).2.2.2
  | Visited method path id verdict _ =>
      (counted_serve_public (p_feedback p) method path id verdict (s.1, (storage (pg_core s.2).2, l))).2.2.2
  | _ => l
  end.

Inductive counted_steps : list (event W) → nat * program T S W → list sample → nat * program T S W → list sample → Prop :=
| kt_nil s l : counted_steps [] s l s l
| kt_snoc es e s l s' l' s'' l'' :
    counted_steps es s l s' l' → counted_step e s' l' s'' l'' → counted_steps (es ++ [e])%list s l s'' l''.

(** What an event counts. *)
Definition event_told (e : event W) (new : list sample) : Prop :=
  match e with
  | Did _ (Action o b) => access_told p ev o b new
  | Visited _ _ _ verdict r => new = visit_counts verdict r
  | _ => new = []
  end.

Lemma counted_steps_steps es s l s' l' : counted_steps es s l s' l' → steps es s s'.
Proof. induction 1 as [|? ? ? ? ? ? ? ? _ IH [Hs _]]; by econstructor. Qed.

Context (Hp : p_evaluator p = evaluator_analyzer IsPrint' json_error emit ev) (Hmr : 0 <= maxRetries ev).

Lemma counted_step_told e s l s' l' : counted_step e s l s' l' → ∃ new, l' = (l ++ new)%list ∧ event_told e new.
Proof.
  intros [_ H]. destruct e as [t a|method path id v r|w [B o b]| | |]; cbn [event_told]; try (exists []; by rewrite app_nil_r).
  - pose proof (counted_serve_public_tells (p_feedback p) method path id v (s.1, storage (pg_core s.2).2) l) as Ht.
    cbn [fst snd] in Ht. rewrite H in Ht. destruct Ht as (_ & new & -> & Ht). by exists new.
  - assert (match o with Count i values => fits i values = true | _ => True end) as Hf.
    { destruct o; try done. cbn [Meters.counted_exec] in H. unfold WithLabels_Inc, WithLabels_Add in H. by destruct (fits i values). }
    pose proof (counted_exec_tells FF PF sort p IsPrint' json_error emit ev Hp Hmr o (s.1, pg_core s.2) Hf l) as Ht.
    cbn [fst snd] in Ht. rewrite H in Ht. destruct Ht as (_ & new & -> & Ht). by exists new.
Qed.

Lemma counted_steps_told es s l s' l' :
  counted_steps es s l s' l' → ∃ ls, l' = (l ++ mjoin ls)%list ∧ Forall2 event_told es ls.
Proof.
  induction 1 as [s l|es e s l s1 l1 s2 l2 _ (ls & -> & IH) Hs].
  - exists []. by rewrite app_nil_r.
  - apply counted_step_told in Hs as (new & -> & Hn). exists (ls ++ [new])%list. split; [|by apply Forall2_app, Forall2_cons].
    by rewrite join_app, (assoc_L (++)); cbn; rewrite app_nil_r.
Qed.

Lemma step_counted e s s' l :
  disciplined p s.2 → step e s s' → counted_step e s l s' (count_after e s l).
Proof.
  intros Hd Hs. unfold counted_step, count_after. revert Hd. destruct Hs as [srv serial req ctx r n g n' g' new Ha1 Ha2 Ha3 Hb Hn
    |deps dr rq r n g n' g' new Ha1 Ha2 Ha3 Hb Hn|method path id verdict r n g n' s' Ha1 Ha2 Hv|i w past B o k b n g n' c' Ha Hl He
    |i j a past n x t h live over c Ha Hl Hj|i key past n x t h live over c Ha Hl
    |id key when n g Ha Ht Hw|expired order n g Ha1 Ha2 Ho
    |i order past e n t h live over c Ha Hl|e n g Ha1 Ha2 Ha3|e n g Ha1 Ha2|n g Ha1 Ha2|stat read n g Ha|st n n' g Ha|n n' g Ha];
    intros Hd; try (split; [by econstructor|done]).
  { split; [by apply s_public|]. cbn [fst snd pg_core set_core set_storage storage].
    pose proof (counted_serve_public_tells (p_feedback p) method path id verdict (n, storage (pg_core g).2) l) as Ht.
    cbn [fst snd] in Ht. destruct (counted_serve_public _ _ _ _ _ _) as [[r'|] [n1 [s1 l1]]]; [|done].
    destruct Ht as (E & _). rewrite Hv in E. by injection E as -> -> ->. }
  split; [by apply s_access|]. cbn [fst snd].
  assert (match o with Count i values => fits i values = true | _ => True end) as Hf.
  { apply list_elem_of_lookup_2 in Hl. apply Hd in Hl as [Ho _]. by destruct o. }
  pose proof (counted_exec_tells FF PF sort p IsPrint' json_error emit ev Hp Hmr o (n, pg_core g) Hf l) as Ht. cbn [fst snd] in Ht. rewrite He in Ht.
  destruct (counted_exec o (n, (pg_core g, l))) as [[b'|] [n1 [c1 l1]]] eqn:Ec; [|done].
  destruct Ht as (E & _). injection E as -> -> ->. by destruct g.
Qed.

(** Counting changes nothing of a run and stops none: the panics of the counters are
    those of the run. *)
Theorem counting_is_silent es s s' l :
  disciplined p s.2 → steps es s s' ↔ ∃ l', counted_steps es s l s' l'.
Proof.
  intros Hd. split; [|intros [l' H]; by eapply counted_steps_steps].
  induction 1 as [s|es e s s1 s2 Hs IH Hstep]; [by eexists; constructor|]. destruct (IH Hd) as [l1 H1].
  eexists. econstructor; [exact H1|]. apply step_counted; [|done]. by eapply steps_disciplined.
Qed.

(** Execute chosen steps ([Service.schedule]) and count. *)
Fixpoint counted_schedule (ms : list move) (s : nat * program T S W) (l : list sample) :
    option (list (event W) * (nat * program T S W) * list sample) :=
  match ms with
  | [] => Some ([], s, l)
  | m :: ms =>
      '(e, s') ← perform FF PF sort i64 yaml_tenants p sv m s;
      '(es, s'', l'') ← counted_schedule ms s' (count_after e s l);
      Some (e :: es, s'', l'')
  end.

Lemma counted_schedule_steps ms s0 l0 s l es es' s' l' :
  disciplined p s0.2 → counted_steps es s0 l0 s l → counted_schedule ms s l = Some (es', s', l') →
  counted_steps (es ++ es')%list s0 l0 s' l'.
Proof.
  intros Hd. revert es es' s l. induction ms as [|m ms IH]; intros es es' s l Hs; cbn [counted_schedule].
  { intros [= <- <- <-]. by rewrite app_nil_r. }
  destruct (perform _ _ _ _ _ _ _ m s) as [[e s1]|] eqn:Ep; [|discriminate]. cbn.
  destruct (counted_schedule ms s1 (count_after e s l)) as [[[es1 s2] l2]|] eqn:Es; [|discriminate]. cbn. intros [= <- <- <-].
  specialize (IH (es ++ [e])%list es1 s1). rewrite <- app_assoc in IH. eapply IH; [|exact Es].
  econstructor; [exact Hs|]. apply step_counted.
  - eapply steps_disciplined; [by eapply counted_steps_steps|done].
  - by eapply perform_step.
Qed.

Lemma counted_scheduled ms s l es s' l' :
  disciplined p s.2 → counted_schedule ms s l = Some (es, s', l') → counted_steps es s l s' l'.
Proof. intros Hd. apply (counted_schedule_steps ms s l s l []); [done..|constructor]. Qed.

(** Samples of a run, instrument by instrument. *)
Lemma gather {X} (f : list sample → list X) (h : event W → list X) es ls :
  (∀ a b, f (a ++ b) = f a ++ f b)%list → f [] = [] → Forall2 event_told es ls →
  (∀ e new, e ∈ es → event_told e new → f new = h e) → f (mjoin ls) = (es ≫= h).
Proof.
  intros Happ Hnil H Hf. induction H as [|e new es ls He _ IH]; [done|]. cbn. rewrite Happ. f_equal; [by apply Hf; [left|]|].
  apply IH. intros e' new' Hin. apply Hf. by right.
Qed.

(** The goroutines that returned went through their whole programs. *)
Lemma steps_over es s s' w t : steps es s s' → unused s.2 → (w, t) ∈ pg_over s'.2 → traces (body i64 p w) t tt.
Proof.
  intros Hs (Hl & Ho). assert (traced i64 p s'.2) as [_ H]; [|by apply H].
  induction Hs as [s|es e s s1 s2 _ IH Hstep]; [|by eapply step_traced; [|apply IH]].
  split; [intros x u|intros x u]; rewrite ?Hl, ?Ho; by intros ?%elem_of_nil.
Qed.

(** A question that made the analyzer panic leaves its goroutine where it is. *)
Lemma exec_unanswered {A} (o : op W A) b n (c : Correlator.Correlator * Rest T S W) n' c' :
  exec FF PF sort p o (n, c) = (b, (n', c')) → unanswered (Action o b) = true → panicked c'.2 = true.
Proof.
  destruct c as [c r], c' as [c' r']. intros He Hu. destruct o; try discriminate; cbn [exec snd] in *;
    apply ask_effect in He as (_ & -> & _); by destruct b.
Qed.

Lemma step_unanswered e s s' : step e s s' → alive s.2 = false →
  panicked (pg_core s.2).2 = true ∧ pg_live s.2 ≠ [] → panicked (pg_core s'.2).2 = true ∧ pg_live s'.2 ≠ [].
Proof. destruct 1; cbn [snd] in *; intros Ha; try congruence. done. Qed.

Lemma step_asked e s s' : step e s s' →
  match e with Did _ x => unanswered x = true → panicked (pg_core s'.2).2 = true ∧ pg_live s'.2 ≠ [] | _ => True end.
Proof.
  destruct 1 as [| | |i w past B o k b n g n' c' _ Hl He| | | | | | | | | | |]; try done. intros Hu. split.
  - by eapply exec_unanswered.
  - apply lookup_lt_Some in Hl. cbn. destruct (pg_live g); [cbn in Hl; lia|by destruct i].
Qed.

Lemma alive_unpanicked (g : program T S W) : panicked (pg_core g).2 = true → alive g = false.
Proof. unfold alive. intros ->. apply andb_false_r. Qed.

Lemma steps_unanswered es s s' : steps es s s' → Exists analyzer_panicked es →
  panicked (pg_core s'.2).2 = true ∧ pg_live s'.2 ≠ [].
Proof.
  induction 1 as [s|es e s s1 s2 _ IH Hs]; [by intros ?%Exists_nil|]. intros [Hx|Hx]%analyzer_panicked_snoc.
  - destruct (IH Hx) as [Hpan Hl]. apply (step_unanswered e s1 s2 Hs); [by apply alive_unpanicked|done].
  - destruct Hx as (w & x & -> & Hu). exact (step_asked (Did w x) s1 s2 Hs Hu).
Qed.

Lemma run_answered es s s' : steps es s s' → pg_live s'.2 = [] → ∀ x, x ∈ dids es → unanswered x = false.
Proof.
  intros Hs Hlive x (e & Hx & He)%list_elem_of_bind. destruct e as [| |w y| | |]; try by apply elem_of_nil in Hx.
  apply list_elem_of_singleton in Hx as ->. destruct (unanswered y) eqn:Hu; [|done].
  destruct (steps_unanswered es s s' Hs) as [_ []]; [|done]. apply Exists_exists. exists (Did w y). split; [done|].
  by apply analyzer_panicked_did.
Qed.

(** Everything a finished run did was judged once, and counted by the pipeline on
    its own instruments only. *)
Lemma run_judged es s s' : steps es s s' → unused s.2 → pg_live s'.2 = [] →
  sum_list_with judgements (dids es) = count is_processed (dids es) ∧
  ∀ i values (b : unit), Action (Count i values) b ∈ dids es → pipeline_counter i = true.
Proof.
  intros Hs Hun Hlive. pose proof (steps_acts _ _ _ _ _ _ _ _ _ _ _ _ Hs Hun) as Hperm.
  unfold records in Hperm. rewrite Hlive in Hperm. cbn [map app] in Hperm.
  assert (∀ w t, (w, t) ∈ pg_over s'.2 →
    (sum_list_with judgements t = count is_processed t)%nat ∧
    ∀ i values (b : unit), Action (Count i values) b ∈ t → pipeline_counter i = true) as Hover.
  { intros w t Hin. pose proof (steps_over es s s' w t Hs Hun Hin) as Ht.
    destruct (judged_once false (body i64 p w) false t tt (body_judges i64 p w) Ht) as [H1 H2]. split; [lia|exact H2]. }
  rewrite <- Hperm. split.
  - revert Hover. clear. induction (pg_over s'.2) as [|[w t] l IH]; intros H; [done|].
    change (acts_in ((w, t) :: l)) with (t ++ acts_in l)%list. rewrite sum_list_with_app, count_app.
    rewrite IH by (intros ? ? ?; eapply H; by right). destruct (H w t) as [-> _]; [by left|done].
  - intros i values b. rewrite <- Hperm. intros (w & Hx & Hw)%list_elem_of_bind. destruct w as [w t].
    by apply (Hover w t Hw) in Hx.
Qed.

(** ** What the counters say *)

Lemma of_acts {X} (f : list sample → list X) (h : action W → list X) es ls :
  (∀ a b, f (a ++ b) = f a ++ f b)%list → f [] = [] → (∀ v r, f (visit_counts v r) = []) → Forall2 event_told es ls →
  (∀ w B (o : op W B) b new, Did w (Action o b) ∈ es → access_told p ev o b new → f new = h (Action o b)) →
  f (mjoin ls) = (dids es ≫= h).
Proof.
  intros Happ Hnil Hv Ht Hf. rewrite (gather f (λ e, match e with Did _ x => h x | _ => [] end) es ls Happ Hnil Ht).
  - clear. induction es as [|e es IH]; [done|]. rewrite bind_cons, IH. rewrite (dids_app [e] es : dids (e :: es) = _).
    rewrite bind_app. f_equal. destruct e; try done. cbn. by rewrite app_nil_r.
  - intros e new Hin He. destruct e as [t a|method path id v r|w [B o b]| | |]; cbn in He; subst; try done. by eapply Hf.
Qed.

(** The verdicts that were accepted. *)
Definition verdicts (es : list (event W)) : list string :=
  es ≫= λ e, match e with Visited _ _ _ v (PublicFeedback status _) => if status =? 200 then [v] else [] | _ => [] end.

(** The pipeline's own counters are other counters. *)
Lemma count_elsewhere i j values : pipeline_counter i = true → pipeline_counter j = false → added j [Added i values one] = [].
Proof.
  intros Hi Hj. apply added_other. cbn [existsb]. rewrite orb_false_r. apply seqb_false. intros E.
  unfold pipeline_counter in *. rewrite E in Hj. by rewrite Hi in Hj.
Qed.

Lemma bind_single {X} (l : list X) : l ≫= (λ x, [x]) = l.
Proof. induction l as [|x l IH]; [done|]. by rewrite bind_cons, IH. Qed.

Lemma bind_mapped {X Y Z'} (f : Y → Z') (g : X → list Y) l : l ≫= (λ x, map f (g x)) = map f (l ≫= g).
Proof. induction l as [|x l IH]; [done|]. by rewrite !bind_cons, IH, map_app. Qed.

Section finished.
Context (es : list (event W)) (ls : list (list sample)) (Hls : Forall2 event_told es ls).
Context (Hcount : ∀ i values (b : unit), Action (Count i values) b ∈ dids es → pipeline_counter i = true).
Context (Hanswer : ∀ x, x ∈ dids es → unanswered x = false).

Lemma did_in w x : Did w x ∈ es → x ∈ dids es.
Proof. intros H. apply list_elem_of_bind. exists (Did w x). split; [by left|done]. Qed.

(** One counter, from the accesses that feed it. *)
Lemma counter_of {X} j (f : list string * spec_float → list X) (h : action W → list X) :
  pipeline_counter j = false → (∀ v r, added j (visit_counts v r) = []) →
  (∀ B (o : op W B) b new, access_told p ev o b new → unanswered (Action o b) = false →
     if existsb (seqb (I_Name j)) (feeds o) then match o with Count _ _ => True | _ => added j new ≫= f = h (Action o b) end
     else h (Action o b) = []) →
  (∀ i values b, h (Action (Count i values) b) = []) →
  added j (mjoin ls) ≫= f = dids es ≫= h.
Proof.
  intros Hj Hv Ho Hc. apply (of_acts (λ l, added j l ≫= f) h es ls).
  - intros a b. by rewrite added_app, bind_app.
  - done.
  - intros v r. by rewrite Hv.
  - exact Hls.
  - intros w B o b new Hin He. pose proof (Hanswer _ (did_in _ _ Hin)) as Hu. specialize (Ho B o b new He Hu).
    destruct (existsb (seqb (I_Name j)) (feeds o)) eqn:Hf.
    + destruct o; try exact Ho. cbn in He. subst new. rewrite count_elsewhere; [by rewrite Hc| |done].
      by eapply Hcount, did_in.
    + by rewrite (access_feeds p ev o b new j He Hu Hf), Ho.
Qed.

Lemma visit_other j v r : existsb (seqb (I_Name j)) [I_Name FeedbackVerdicts] = false → added j (visit_counts v r) = [].
Proof. intros H. destruct r as [st bd| | | |]; try done. cbn. destruct (st =? 200); [by apply added_other|done]. Qed.

Lemma calls_counted :
  added LLMCalls (mjoin ls) =
    map (λ ok : bool, ((if ok then "ok" else "error") :: llm_labels ev None, one)) (dids es ≫= answered).
Proof.
  rewrite <- (bind_single (added _ _)), <- bind_mapped. apply counter_of; [done|intros; by apply visit_other| |done].
  intros B o b new He Hu. destruct o; try reflexivity; try (by destruct (existsb _ _)); (destruct b as [r|]; [|done]);
    destruct (He r eq_refl) as (replies & [H1 _ _ _ _ _ _]);
    change (added LLMCalls new ≫= (λ x, [x]) = [((if match Some r with Some (Ok _) => true | _ => false end then "ok" else "error") :: llm_labels ev None, one)]);
    rewrite H1; by destruct r.
Qed.

Lemma refusals_counted : map (λ x, tail x.1) (added LLMThrottled (mjoin ls)) = map (λ id, [id]) (dids es ≫= refused).
Proof.
  rewrite <- (bind_single (map _ (added _ _))), <- bind_mapped.
  assert (∀ l : list (list string * spec_float), map (λ x, tail x.1) l ≫= (λ x, [x]) = l ≫= λ x, [tail x.1]) as ->
    by (intros l; rewrite bind_single; induction l as [|x l IH]; [done|]; by rewrite bind_cons, <- IH).
  apply counter_of; [done|intros; by apply visit_other| |done].
  intros B o b new He Hu. destruct o; try reflexivity; try (by destruct (existsb _ _)). cbn in He. unfold refusal_told in He. destruct b; [by subst|].
  by destruct He as (reason & _ & ->).
Qed.

(** Lookups that found an analysis. *)
Definition hits (l : list sample) : list unit :=
  added CacheLookups l ≫= λ x, if bool_decide (x.1 = ["miss"]) then [] else [tt].

Lemma hits_counted : hits (mjoin ls) = dids es ≫= λ x, if is_hit x then [tt] else [].
Proof.
  apply counter_of; [done|intros; by apply visit_other| |done].
  intros B o b new He Hu. destruct o; try reflexivity; try (by destruct (existsb _ _)). cbn in He. unfold lookup_told in He.
  destruct (Cache.enabled _); [|by destruct He as [-> ->]]. destruct He as (r & -> & Hr). destruct b.
  - apply elem_of_cons in Hr as [->|Hr%list_elem_of_singleton]; [done|by subst].
  - by apply list_elem_of_singleton in Hr as ->.
Qed.

Lemma duplicates_counted :
  added AlertsDeduped (mjoin ls) = map (λ a, ([ClusterId (deref a)], one)) (dids es ≫= λ x, dups_of (deeds x)).
Proof.
  rewrite <- (bind_single (added _ _)), <- bind_mapped. apply counter_of; [done|intros; by apply visit_other| |done].
  intros B o b new He Hu. destruct o; try reflexivity; try (by destruct (existsb _ _)); cbn in He; unfold dedup_told in He; by destruct b; subst.
Qed.

Lemma verdicts_counted : added FeedbackVerdicts (mjoin ls) = map (λ v, ([v], one)) (verdicts es).
Proof.
  unfold verdicts. rewrite <- bind_mapped. apply gather; [apply added_app|done|done|].
  intros e new Hin He. destruct e as [t a|method path id v r|w [B o b]| | |]; cbn in He; subst; try done.
  - destruct r as [status body| | | |]; try done. cbn [visit_counts]. by destruct (status =? 200).
  - destruct (existsb (seqb (I_Name FeedbackVerdicts)) (feeds o)) eqn:Hf;
      [|by rewrite (access_feeds p ev o b new _ He (Hanswer _ (did_in _ _ Hin)) Hf)].
    destruct o; try (vm_compute in Hf; discriminate). cbn in He. subst new. rewrite count_elsewhere; [done| |done].
    by eapply Hcount, did_in.
Qed.
End finished.

Lemma judgements_sum (l : list (action W)) :
  sum_list_with judgements l = (count is_hit l + length (l ≫= refused) + length (l ≫= answered))%nat.
Proof.
  induction l as [|x l IH]; [done|]. rewrite count_cons, !bind_cons, !length_app. cbn [sum_list_with]. rewrite IH.
  unfold judgements. lia.
Qed.

Lemma recorded_at_most es ls : Forall2 event_told es ls →
  (∀ i values (b : unit), Action (Count i values) b ∈ dids es → pipeline_counter i = true) →
  (∀ x, x ∈ dids es → unanswered x = false) →
  (length (added IncidentsRecorded (mjoin ls)) ≤ count is_processed (dids es))%nat.
Proof.
  induction 1 as [|e new es ls He _ IH]; intros Hc Ha; [cbn; lia|].
  rewrite (dids_app [e] es : dids (e :: es) = _) in *. cbn [mjoin list_join]. rewrite added_app, length_app, count_app.
  apply Nat.add_le_mono; [|apply IH; [intros i v b Hin; apply (Hc i v b)|intros x Hin; apply Ha]; apply elem_of_app; by right].
  destruct e as [t a|method path id v r|w [B o b]| | |]; cbn in He; subst; try (cbn; lia).
  - destruct r as [status body| | | |]; try (cbn; lia). unfold visit_counts. destruct (status =? 200); [rewrite added_other by done|]; cbn; lia.
  - destruct (existsb (seqb (I_Name IncidentsRecorded)) (feeds o)) eqn:Hf; [|rewrite (access_feeds p ev o b new _ He (Ha (Action o b) ltac:(by left)) Hf); cbn; lia].
    destruct o; try (vm_compute in Hf; discriminate).
    + transitivity 1%nat; [cbn in He; destruct He as [->| ->]; [apply Nat.le_0_l|apply le_n]|]. match goal with |- context [dids [Did _ ?x]] => change (dids [Did w x]) with [x] end. rewrite count_cons. cbn. lia.
    + cbn in He. subst new. rewrite count_elsewhere; [cbn; lia| |done]. apply (Hc i values b). by left.
Qed.

Lemma count_unit {X} (f : X → bool) (l : list X) : length (l ≫= λ x, if f x then [tt] else []) = count f l.
Proof. induction l as [|x l IH]; [done|]. rewrite count_cons, bind_cons, length_app, IH. by destruct (f x). Qed.

(** C40: the counters agree with what the brain did. When no goroutine of a run is at
    work, each alert or group that was processed had exactly one judgement counted: a
    call of the LLM under its outcome, a refusal under the cluster's name, or a hit of
    the cache; each duplicate is counted under its cluster, each accepted verdict
    once, and no more incidents are counted as recorded than were processed. *)
Theorem counters_agree (es : list (event W)) (n n' : nat) (g g' : program T S W) (l : list sample) :
  counted_steps es (n, g) [] (n', g') l → unused g → pg_live g' = [] →
  let acts := dids es in
  added LLMCalls l = map (λ ok : bool, ((if ok then "ok" else "error") :: llm_labels ev None, one)) (acts ≫= answered) ∧
  map (λ x, tail x.1) (added LLMThrottled l) = map (λ id, [id]) (acts ≫= refused) ∧
  length (hits l) = count is_hit acts ∧
  (length (added LLMCalls l) + length (added LLMThrottled l) + length (hits l) = count is_processed acts)%nat ∧
  added AlertsDeduped l = map (λ a, ([ClusterId (deref a)], one)) (acts ≫= λ x, dups_of (deeds x)) ∧
  added FeedbackVerdicts l = map (λ v, ([v], one)) (verdicts es) ∧
  (length (added IncidentsRecorded l) ≤ count is_processed acts)%nat.
Proof.
  intros Hs Hun Hlive acts.
  destruct (run_judged es _ _ (counted_steps_steps _ _ _ _ _ Hs) Hun Hlive) as [Hj Hc].
  pose proof (run_answered es _ _ (counted_steps_steps _ _ _ _ _ Hs) Hlive) as Ha.
  destruct (counted_steps_told _ _ _ _ _ Hs) as (ls & -> & Hls). cbn [app]. rewrite judgements_sum in Hj.
  pose proof (calls_counted es ls Hls Hc Ha) as H1. pose proof (refusals_counted es ls Hls Hc Ha) as H2.
  pose proof (f_equal length (hits_counted es ls Hls Hc Ha)) as H3. rewrite count_unit in H3.
  pose proof (f_equal length H2) as H2'. rewrite !length_map in H2'.
  split_and!; [done|done|done| |by apply duplicates_counted|by apply verdicts_counted|by apply recorded_at_most].
  rewrite H1, length_map, H2', H3. etransitivity; [|exact Hj]. by rewrite Nat.add_comm, (Nat.add_comm (length (acts ≫= answered))), Nat.add_assoc.
Qed.
End service.

(** ** A run

    The alert of [Service]'s sample, with a provider that gives an analysis. *)
Section sample.
#[local] Existing Instances run_clock run_certlib run_net run_ecdsa run_x509 run_hpke run_gcm run_payload_lib run_wire.

Definition answering : Evaluator.Evaluator seen :=
  MkEvaluator (MkProvider "sample" "m" (mret true) (λ _, mret (Ok (marshal_analysis sample_analysis, MkUsage 3 4)))) 1 AuditOff.

Definition answering_pipeline : Pipeline seen :=
  MkPipeline (p_dedup failing_pipeline) (evaluator_analyzer (λ _, true) (λ _, "") (λ _, mret tt) answering)
    (p_cache failing_pipeline) (p_router failing_pipeline) (p_notifiers failing_pipeline) (p_silence failing_pipeline)
    (MkManager "https://muthur" 3600000000000 3600000000000 3) (p_history failing_pipeline) (p_evidence failing_pipeline).

(** The alert arrives, is processed and judged useful, and arrives again under another
    nonce. *)
Definition again_ctx : Ctx :=
  MkCtx (Some (TLSInfo [MkCertificate 31 [MkURL "spiffe" "muthur" "/acme/prod-a"] "prod-a" 0]))
    {[ MetaTimestamp := ["0"]; MetaNonce := ["ffeeddccbbaa99887766554433221100"] ]} None.

Definition meter_schedule : list move :=
  (MCall None (IngestRequest run_alert) sample_ctx :: repeat (MAccess 0) 18 ++ [MReturn 0 0] ++
   MVisit "GET" "/feedback" (alertkey.ID (deref run_alert)) "useful" ::
   MVisit "GET" "/feedback" "unknown" "wrong" ::
   MCall None (IngestRequest run_alert) again_ctx :: repeat (MAccess 0) 2 ++ [MReturn 0 0])%list.

Definition meter_run : list (event seen) * (nat * program spec_float Memory.t seen) * list sample :=
  default ([], (0%nat, run_program), [])
    (counted_schedule (T := spec_float) (λ _, "0") (λ _, None) merge_newest (λ _, 0) (λ _, None) answering_pipeline
       (Some sample_server) (λ _, true) (λ _, "") (λ _, mret tt) answering meter_schedule (0%nat, run_program) []).

Lemma meter_steps : counted_steps (T := spec_float) (λ _, "0") (λ _, None) merge_newest (λ _, 0) (λ _, true) (λ _, None) answering_pipeline
  (Some sample_server) (Some sample_deps) (λ _, true) (λ _, "") (λ _, mret tt) answering
  meter_run.1.1 (0%nat, run_program) [] (meter_run.1.2.1, meter_run.1.2.2) meter_run.2.
Proof.
  apply (counted_scheduled (T := spec_float) (λ _, "0") (λ _, None) merge_newest (λ _, 0) (λ _, true) (λ _, None) answering_pipeline
    (Some sample_server) (Some sample_deps) (λ _, true) (λ _, "") (λ _, mret tt) answering eq_refl ltac:(done) meter_schedule).
  - by intros x ?%elem_of_nil.
  - vm_compute. reflexivity.
Qed.

Lemma counters_agree_witness :
  let acts := dids meter_run.1.1 in
  let l := meter_run.2 in
  added LLMCalls l = map (λ ok : bool, ((if ok then "ok" else "error") :: llm_labels answering None, one)) (acts ≫= answered) ∧
  map (λ x, tail x.1) (added LLMThrottled l) = map (λ id, [id]) (acts ≫= refused) ∧
  length (hits l) = count is_hit acts ∧
  (length (added LLMCalls l) + length (added LLMThrottled l) + length (hits l) = count is_processed acts)%nat ∧
  added AlertsDeduped l = map (λ a, ([ClusterId (deref a)], one)) (acts ≫= λ x, dups_of (deeds x)) ∧
  added FeedbackVerdicts l = map (λ v, ([v], one)) (verdicts meter_run.1.1) ∧
  (length (added IncidentsRecorded l) ≤ count is_processed acts)%nat.
Proof.
  apply (counters_agree (T := spec_float) (λ _, "0") (λ _, None) merge_newest (λ _, 0) (λ _, true) (λ _, None) answering_pipeline
    (Some sample_server) (Some sample_deps) (λ _, true) (λ _, "") (λ _, mret tt) answering eq_refl ltac:(done)
    meter_run.1.1 0 meter_run.1.2.1 run_program meter_run.1.2.2 meter_run.2).
  - exact meter_steps.
  - split; reflexivity.
  - vm_compute. reflexivity.
Defined.

(** One alert processed, the second one a duplicate; one verdict accepted. *)
Example meter_counts : added LLMCalls meter_run.2 = [(["ok"; "sample"; "m"; ""], one)] ∧
  added AlertsDeduped meter_run.2 = [(["prod-a"], one)] ∧ added IncidentsRecorded meter_run.2 = [([], one)] ∧
  added FeedbackVerdicts meter_run.2 = [(["useful"], one)] ∧ verdicts meter_run.1.1 = ["useful"].
Proof. vm_compute. done. Qed.
End sample.
