(* ===== verification/Boot.v ===== *)
(** * From start to exit

    [main] and [run] of [cmd/muthur/main.go] as one: the brain that [Startup] has
    built is the one that [Service] runs, and the process ends with a status. *)
From S2P Require Import Prelude GoStrings GoEncoding Sha256 Proto Identity Store Dedup Replay Tenants Signer Routing Limiter.
From S2P Require Import Correlator Analysis Providers Evaluator Feedback Notify Channels ChannelText HttpSig Sealed Trust.
From S2P Require Import Ingest GrpcSrv SignedSrv Pipeline Config Goroutines Service Startup Shutdown Backstop.
From Stdlib Require Import Ascii SpecFloat.

Open Scope Z_scope.

(** The system in its first moment; [w] is the world as the start has left it. *)
Definition boot {T S W C SK X} (sys : System T S W C SK X) (w : openai_state * W) : program T S (openai_state * W) :=
  MkProgram Serving (sys_tenants sys) NewHandler [] []
    (sys_correlator sys, MkRest (sys_limiter sys) (sys_store sys) w false).

(** The gRPC server is there when mTLS material was loaded. *)
Definition grpc_server {T S W C SK X} (sys : System T S W C SK X) : option Server :=
  match sys_mtls sys with Some _ => Some (sys_server sys) | None => None end.

(** The status of a process that has ended. *)
Definition exit_code (x : phase) : option Z :=
  match x with Exited _ => Some 0 | Failed => Some 1 | _ => None end.

(** [hpkeKeygen]: [priv] is the key the source of randomness yields, [written] says
    whether standard output takes the text. *)
Definition hpkeKeygen {X SK} `{!KeyLib X SK, !Pem} (priv : option X) (written : string → bool) : bool :=
  match GenerateHPKEKeyPEM priv with Some pem => written pem | None => false end.

Section process.
Context `{HC : !Clock, HL : !CertLib} {T S W : Type} `{HN : !Num T, HS : !Store.Store S}.
Context `{HW : !Net W, HM : !Smtp.Mailer W, HA : !AnthropicSDK W}.
Context {C PK ESK SK HPK K X CA : Type}.
Context `{HE : !Ecdsa PK ESK, HX : !X509 PK, HH : !Hpke SK HPK K, HK : !KeyLib X SK, HP : !Pem, HCA : !CaLib X}.
Context `{HG : !Gcm, HPL : !PayloadLib (CaKey X) CA, HWi : !Wire}.

(** The environment, the files and the libraries, as [Startup] has them. *)
Context (getenv : string → string) (read_file : string → result string string) (mtime : string → option Time).
Context (ParseFloat : string → option spec_float) (pem_certs : string → list string).
Context (X509KeyPair : string → string → option C).
Context (yaml_file : string → option FileConfig) (yaml_tenants : string → option (list Tenant)).
Context (map_order : list (string * string) → list (string * string)).
Context (NewMemory : S) (NewRedis : string → string → result string S) (build_logger : string → option string).
Context (FormatFloat : spec_float → string) (IsPrint : Z → bool) (json_error : string → string).
Context (emit : audit_record → M (openai_state * W) unit) (is_word : Z → bool) (lower_rune : Z → string).

(** And what [Service] needs besides. *)
Context (FF : spec_float → string) (PF : string → option spec_float).
Context (sort : list verdictEntry → list verdictEntry) (i64 : spec_float → Z).

Definition starting : M (openai_state * W) (result start_error (System T S W C SK X)) :=
  start getenv read_file mtime ParseFloat pem_certs X509KeyPair yaml_file yaml_tenants map_order NewMemory NewRedis
    build_logger FormatFloat IsPrint json_error emit is_word lower_rune.

Definition serving (sys : System T S W C SK X) :
    list (event (openai_state * W)) → nat * program T S (openai_state * W) → nat * program T S (openai_state * W) → Prop :=
  steps FF PF sort i64 IsPrint yaml_tenants (sys_pipeline sys) (grpc_server sys) (sys_signed sys).

(** The process of [main] with the arguments [args], up to some moment: what has
    happened, and the status if it has ended. It prints a key; or it fails to
    start, to listen for gRPC, or it serves. *)
Inductive process (args : list string) (c : nat * (openai_state * W)) :
    list (event (openai_state * W)) → option Z → Prop :=
| pr_keygen (priv : option X) written :
    args !! 1%nat = Some "hpke-keygen" →
    process args c [] (Some (if hpkeKeygen priv written then 0 else 1))
| pr_start_error e :
    args !! 1%nat ≠ Some "hpke-keygen" → (starting c).1 = Err e → process args c [] (Some 1)
| pr_listen_error sys :
    args !! 1%nat ≠ Some "hpke-keygen" → (starting c).1 = Ok sys → grpc_server sys ≠ None → process args c [] (Some 1)
| pr_serve sys n w es s :
    args !! 1%nat ≠ Some "hpke-keygen" → starting c = (Ok sys, (n, w)) → serving sys es (n, boot sys w) s →
    process args c es (exit_code (pg_phase s.2)).
End process.

(** ** Lemmas *)

Section lemmas.
Context `{HC : !Clock, HL : !CertLib} {T S W : Type} `{HN : !Num T, HS : !Store.Store S, HW : !Net W}.
Context {PK ESK SK HPK K CK CA : Type}.
Context `{HE : !Ecdsa PK ESK, HX : !X509 PK, HH : !Hpke SK HPK K, HG : !Gcm, HP : !PayloadLib CK CA, HWi : !Wire}.
Context (FF : spec_float → string) (PF : string → option spec_float).
Context (sort : list verdictEntry → list verdictEntry) (i64 : spec_float → Z) (IsPrint : Z → bool).
Context (yaml_tenants : string → option (list Tenant)).
Context (p : Pipeline W) (sv : option Server) (d : option (Deps SK CK)).

Abbreviation steps := (steps (T := T) FF PF sort i64 IsPrint yaml_tenants p sv d).

(** [data] is the file the brain started with, or one that a reload read. *)
Definition file_seen (start : string) (es : list (event W)) (data : string) : Prop :=
  data = start ∨ ∃ stat, Reloaded stat (Some data) ∈ es.

(** The cluster is an active tenant of the file. *)
Definition lists (data cluster : string) : Prop :=
  ∃ shape idx x, yaml_tenants data = Some shape ∧ NewTenants shape = Ok idx ∧ idx !! cluster = Some x ∧ Revoked x = false.

Lemma file_seen_app start es es' data : file_seen start es data → file_seen start (es ++ es') data.
Proof. intros [->|[stat H]]; [by left|]. right. exists stat. apply elem_of_app. by left. Qed.

(** The tenants in force come from a file that was seen. *)
Definition from_file (start : string) (es : list (event W)) (t : TenantsReloader) : Prop :=
  ∀ idx, Current t = Some idx → ∃ data shape, file_seen start es data ∧ yaml_tenants data = Some shape ∧ NewTenants shape = Ok idx.

Lemma reload_from_file start es t stat read :
  from_file start es t → from_file start (es ++ [Reloaded stat read]) (reload yaml_tenants t stat read).2.
Proof.
  intros Ht. assert (from_file start (es ++ [Reloaded stat read]) t) as Ht'.
  { intros idx Hi. destruct (Ht idx Hi) as (data & shape & Hd & Hy). exists data, shape. split; [by apply file_seen_app|done]. }
  unfold reload. destruct stat as [m|]; [|done]. destruct (match cached t with Some c => negb (After m (ts_mtime c)) | None => false end); [done|].
  destruct read as [data|]; [|done]. destruct (yaml_tenants data) as [shape|] eqn:Ey; [|done].
  destruct (NewTenants shape) as [idx|e] eqn:En; [|done]. intros idx' [= <-]. exists data, shape. split; [|done].
  right. exists (Some m). apply elem_of_app. right. by left.
Qed.

Lemma accepted_from_file start es s s' : steps es s s' → from_file start [] (pg_tenants s.2) →
  from_file start es (pg_tenants s'.2) ∧ ∀ a, a ∈ accepted es → ∃ data, file_seen start es data ∧ lists data (ClusterId (deref a)).
Proof.
  intros Hs H0. induction Hs as [|es e s s' s'' Hs IH Hstep]; [split; [done|by intros a ?%elem_of_nil]|].
  destruct (IH H0) as [Ht Ha]. rewrite accepted_app. clear IH H0 Hs.
  assert (∀ a, a ∈ accepted es → ∃ data, file_seen start (es ++ [e]) data ∧ lists data (ClusterId (deref a))) as Hold.
  { intros a (data & Hd & Hl)%Ha. exists data. split; [by apply file_seen_app|done]. }
  assert (∀ t, from_file start es t → from_file start (es ++ [e]) t) as Hmono.
  { intros t Hf idx Hi. destruct (Hf idx Hi) as (data & shape & Hd & Hy). exists data, shape. split; [by apply file_seen_app|done]. }
  assert (∀ {A} (m : M (Brain S) A) n g r n' g' new, takes m → from_file start es (pg_tenants g) →
    on_brain m (n, g) = (r, (n', g')) → inflight (pg_ingest g') = (inflight (pg_ingest g) ++ new)%list →
    from_file start (es ++ [e]) (pg_tenants (g' : program T S W)) ∧ ∀ a, a ∈ (accepted es ++ accepted (W := W) [Called (pg_tenants g) new])%list →
      ∃ data, file_seen start (es ++ [e]) data ∧ lists data (ClusterId (deref a))) as Hcall.
  { intros A m n g r n' g' new Hm Hg Hb Hn. destruct (on_brain_takes m n g r n' g' Hm Hb) as (_ & -> & _ & _ & _ & new' & Hi & Hf).
    split; [by apply Hmono|]. rewrite Hn in Hi. apply app_inv_head in Hi as <-. cbn. rewrite app_nil_r.
    intros a [Hin|Hin]%elem_of_app; [by apply Hold|]. rewrite Forall_forall in Hf. destruct (Hf a Hin) as (x & Hl & Hr).
    destruct (Current (pg_tenants g)) as [idx|] eqn:Ec; [|done]. destruct (Hg idx Ec) as (data & shape & Hd & Hy & Hnt).
    exists data. split; [by apply file_seen_app|]. by exists shape, idx, x. }
  destruct Hstep as [srv serial req ctx r n g n' g' new _ _ _ Hb Hn|deps dr rq r n g n' g' new _ _ _ Hb Hn
    | | | | | | | | | | |stat read n g _| |]; cbn [snd pg_tenants] in *;
    try (rewrite app_nil_r; split; [by apply Hmono|exact Hold]).
  - eapply (Hcall _ _ n g r n' g' new); [apply serve_takes|done..].
  - eapply (Hcall _ _ n g r n' g' new); [apply serve_http_takes|done..].
  - rewrite app_nil_r. split; [by apply reload_from_file|exact Hold].
Qed.

(** How far the process has come, and whether it has drained. *)
Record stage (es : list (event W)) (g : program T S W) : Prop := {
  st_allowed x : x ∈ pg_live g → always (allowed p (g_owner x)) (g_rest x);
  st_main x order : x ∈ pg_live g → g_owner x = Main order → drained es = true ∨
    ∀ t, traces (g_rest x) t tt → ∃ y t' keys, t = y :: t' ∧ found y = Some keys;
  st_phase : match pg_phase g with
             | Serving | Failed => drained es = false ∧ ∀ x order, x ∈ pg_live g → g_owner x ≠ Main order
             | Draining _ => True
             | Waiting _ | Exited _ => drained es = true
             end;
}.

(** Steps that change none of this. *)
Lemma stage_same es e g g' : stage es g → stops e = false → pg_phase g' = pg_phase g →
  (∀ x, x ∈ pg_live g' → x ∈ pg_live g ∨ ∃ w, x = spawn i64 p w ∧ ∀ order, w ≠ Main order) → stage (es ++ [e]) g'.
Proof.
  intros [H1 H2 H3] He Hp Hl. split; rewrite ?Hp, ?drained_snoc, ?He, ?orb_false_r.
  - intros x [Hx|(w & -> & _)]%Hl; [by apply H1|apply body_allowed].
  - intros x order [Hx|(w & -> & Hw)]%Hl Ho; [by eapply H2|]. by destruct (Hw order).
  - destruct (pg_phase g); try done; (destruct H3 as [Hd Hm]; split; [done|]);
      intros x order [Hx|(w & -> & Hw)]%Hl; try (by eapply Hm); apply Hw.
Qed.

Lemma stage_access es i w past {B} (o : op W B) k b (g g' : program T S W) : stage es g →
  pg_live g !! i = Some (MkGoroutine w past (Call o k)) → pg_phase g' = pg_phase g →
  pg_live g' = <[i := MkGoroutine w (past ++ [Action o b])%list (k b)]> (pg_live g) →
  stage (es ++ [Did w (Action o b)]) g'.
Proof.
  intros [H1 H2 H3] Hl Hp Hl'. pose proof (list_elem_of_lookup_2 _ _ _ Hl) as Hin.
  destruct (H1 _ Hin) as [Ha Hk]. set (x' := MkGoroutine w (past ++ [Action o b])%list (k b)) in *.
  assert (∀ y, y ∈ pg_live g' → y = x' ∨ y ∈ pg_live g) as Hy.
  { intros y. rewrite Hl'. intros (j & Hj)%list_elem_of_lookup_1.
    apply list_lookup_insert_Some in Hj as [(_ & <- & _)|[_ Hj]]; [by left|right]. by eapply list_elem_of_lookup_2. }
  assert (∀ order, w = Main order → drained (es ++ [Did w (Action o b)]) = true) as Hmain.
  { intros order ->. rewrite drained_snoc. destruct (H2 _ order Hin eq_refl) as [->|Hx]; [done|].
    destruct (traces_total (λ _, True) (k b)) as (t & [] & Ht & _).
    { intros B' o'. destruct (sound_answer true B' o') as [b' _]. by exists b'. }
    destruct (Hx (Action o b :: t)) as (y & t' & keys & [= <- <-] & Hf); [by exists b, t|].
    destruct o; try done. by rewrite orb_true_r. }
  split; rewrite ?Hp.
  - intros y [->|Hyl]%Hy; [apply Hk|by apply H1].
  - intros y order [->|Hyl]%Hy Ho; [left; by eapply Hmain|].
    destruct (H2 y order Hyl Ho) as [Hd|Hd]; [left; by rewrite drained_snoc, Hd|by right].
  - destruct (pg_phase g); try done; try (by rewrite drained_snoc, H3); destruct H3 as [Hd Hm]; (split;
      [rewrite drained_snoc, Hd; destruct o; try done; exfalso; by eapply (Hm _ order Hin)
      |intros y order [->|Hyl]%Hy; [by apply (Hm _ order Hin)|by apply Hm]]).
Qed.

Lemma step_stage es e s s' : Service.step FF PF sort i64 IsPrint yaml_tenants p sv d e s s' → stage es s.2 → stage (es ++ [e]) s'.2.
Proof.
  destruct 1 as [srv serial req ctx r n g n' g' new _ _ _ Hb Hn|deps dr rq r n g n' g' new _ _ _ Hb Hn
    |method path id verdict r n g n' s' _ _ _|i w past B o k b n [x t h live over [c r]] n' [c' r'] _ Hl He
    |i j a past n x t h live over c _ Hl Hj|i key past n x t h live over c _ Hl
    |id key when n [x t h live over c] _ _ _|expired order n [x t h live over c] _ Hp _
    |i order past e n t h live over c _ Hl|e n g _ Hp _|e n g _ Hp|n g _ Hp|stat read n g _|st n g|n n' g _];
    cbn [snd]; intros Hi.
  - destruct (on_brain_takes _ _ _ _ _ _ (serve_takes srv serial req ctx) Hb) as (Hp & _ & Hl & _).
    eapply stage_same; [exact Hi|done|exact Hp|]. cbn. rewrite Hl.
    intros x [?|(a & -> & _)%list_elem_of_fmap]%elem_of_app; [by left|right]. by exists (Alert a).
  - destruct (on_brain_takes _ _ _ _ _ _ (serve_http_takes IsPrint deps dr rq) Hb) as (Hp & _ & Hl & _).
    eapply stage_same; [exact Hi|done|exact Hp|]. cbn. rewrite Hl.
    intros x [?|(a & -> & _)%list_elem_of_fmap]%elem_of_app; [by left|right]. by exists (Alert a).
  - eapply stage_same; [exact Hi|done..|]. intros x Hx. by left.
  - by eapply stage_access; [exact Hi|exact Hl|..].
  - eapply stage_same; [exact Hi|done..|]. intros y Hy. left. apply (list_elem_of_delete_inv _ _ _ Hy).
  - eapply stage_same; [exact Hi|done..|]. intros y Hy. left. apply (list_elem_of_delete_inv _ _ _ Hy).
  - eapply stage_same; [exact Hi|done..|]. cbn. intros y [?|Hy%list_elem_of_singleton]%elem_of_app; [by left|right].
    by exists (Timer key).
  - cbn in Hp. subst x. destruct Hi as [H1 H2 [H3 H4]]. cbn [pg_phase pg_live] in *.
    split; cbn [pg_phase pg_live set_phase set_live]; [| |done].
    + intros y [?|Hy%list_elem_of_singleton]%elem_of_app; [by apply H1|]. rewrite Hy. apply body_allowed.
    + intros y o [Hy|Hy%list_elem_of_singleton]%elem_of_app Ho; [by destruct (H4 y o Hy)|]. right. intros tr Htr.
      rewrite Hy in Htr. destruct (drain_traces i64 p order tr Htr) as (y' & t' & keys & -> & Hf & _). by exists y', t', keys.
  - destruct Hi as [H1 H2 _]. cbn [pg_phase pg_live] in *. split; cbn [pg_phase pg_live]; rewrite ?drained_snoc.
    + intros y Hy. apply H1, (list_elem_of_delete_inv _ _ _ Hy).
    + intros y o Hy%list_elem_of_delete_inv Ho. destruct (H2 y o Hy Ho) as [->|?]; [by left|by right].
    + destruct (H2 _ order (list_elem_of_lookup_2 _ _ _ Hl) eq_refl) as [->|Hx]; [done|].
      destruct (Hx [] ltac:(done)) as (? & ? & ? & ? & _). done.
  - destruct Hi as [H1 H2 H3]. rewrite Hp in H3. split; cbn; rewrite ?drained_snoc, ?H3; [done|by left|done].
  - destruct Hi as [H1 H2 H3]. rewrite Hp in H3. split; cbn; rewrite ?drained_snoc, ?H3; [done|by left|done].
  - destruct Hi as [H1 H2 H3]. rewrite Hp in H3. destruct H3 as [Hd Hm].
    split; cbn; rewrite ?drained_snoc, ?Hd; [done| |by split]. intros y o Hy Ho. by destruct (Hm y o Hy).
  - eapply stage_same; [exact Hi|done..|]. intros y Hy. by left.
  - eapply stage_same; [exact Hi|done..|]. intros y Hy. by left.
  - eapply stage_same; [exact Hi|done..|]. intros y Hy. by left.
Qed.

Lemma steps_stage es s s' : steps es s s' → pg_phase s.2 = Serving → pg_live s.2 = [] → stage es s'.2.
Proof.
  intros Hs Hp Hl. induction Hs as [s|es e s s' s'' Hs IH Hstep]; [|by eapply step_stage; [|apply IH]].
  split; rewrite ?Hp, ?Hl; try (by intros ? ?%elem_of_nil); [by intros ? ? ?%elem_of_nil|].
  split; [done|]. by intros ? ? ?%elem_of_nil.
Qed.
End lemmas.

(** ** Properties *)

Section properties.
Context `{HC : !Clock, HL : !CertLib} {T S W : Type} `{HN : !Num T, HS : !Store.Store S}.
Context `{HW : !Net W, HM : !Smtp.Mailer W, HA : !AnthropicSDK W}.
Context {C PK ESK SK HPK K X CA : Type}.
Context `{HE : !Ecdsa PK ESK, HX : !X509 PK, HH : !Hpke SK HPK K, HK : !KeyLib X SK, HP : !Pem, HCA : !CaLib X}.
Context `{HG : !Gcm, HPL : !PayloadLib (CaKey X) CA, HWi : !Wire}.
Context (getenv : string → string) (read_file : string → result string string) (mtime : string → option Time).
Context (ParseFloat : string → option spec_float) (pem_certs : string → list string).
Context (X509KeyPair : string → string → option C).
Context (yaml_file : string → option FileConfig) (yaml_tenants : string → option (list Tenant)).
Context (map_order : list (string * string) → list (string * string)).
Context (NewMemory : S) (NewRedis : string → string → result string S) (build_logger : string → option string).
Context (FormatFloat : spec_float → string) (IsPrint : Z → bool) (json_error : string → string).
Context (emit : audit_record → M (openai_state * W) unit) (is_word : Z → bool) (lower_rune : Z → string).
Context (FF : spec_float → string) (PF : string → option spec_float).
Context (sort : list verdictEntry → list verdictEntry) (i64 : spec_float → Z).

Abbreviation starting := (starting (T := T) (SK := SK) (X := X) getenv read_file mtime ParseFloat pem_certs X509KeyPair
  yaml_file yaml_tenants map_order NewMemory NewRedis build_logger FormatFloat IsPrint json_error emit is_word lower_rune).
Abbreviation serving := (serving (T := T) (S := S) (C := C) (X := X) (SK := SK) yaml_tenants IsPrint FF PF sort i64).
Abbreviation process := (process (T := T) (SK := SK) (X := X) getenv read_file mtime ParseFloat pem_certs X509KeyPair
  yaml_file yaml_tenants map_order NewMemory NewRedis build_logger FormatFloat IsPrint json_error emit is_word lower_rune
  FF PF sort i64).

(** C10: what the environment and the files say is what the brain does from its
    start to its exit. It runs under a valid configuration; every alert it accepts,
    over whichever transport is mounted, is of a cluster that is an active tenant
    in the configuration file as it was at the start or as a reload has read it
    since; and with the limits configured positive, at most [LLM_MAX_CONCURRENT]
    goroutines hold a slot of any cluster for a question to the LLM. *)
Theorem brain_runs_as_configured (c : nat * (openai_state * W)) (sys : System T S W C SK X) (n n' : nat) (w : openai_state * W)
    (es : list (event (openai_state * W))) (g' : program T S (openai_state * W)) :
  starting c = (Ok sys, (n, w)) → serving sys es (n, boot sys w) (n', g') →
  let cfg := sys_config sys in
  valid cfg ∧
  (∃ start, read_file (ConfigFile cfg) = Ok start ∧
     ∀ a, a ∈ accepted es → ∃ data, file_seen start es data ∧ lists yaml_tenants data (ClusterId (deref a))) ∧
  (0 < LLMMaxCallsPerMinute cfg → 0 < LLMMaxConcurrent cfg →
     ∀ id, Z.of_nat (holders id (pg_live g')) <= LLMMaxConcurrent cfg).
Proof.
  intros Hst Hs cfg. assert ((starting c).1 = Ok sys) as H1 by (by rewrite Hst).
  apply start_Ok in H1 as [Hl _ _ Ht Hlim].
  assert (valid cfg) as Hv. { apply Load_Ok in Hl as (key & modes & Henv & E). subst cfg. rewrite E. by eapply config_of_valid. }
  split; [done|]. split.
  - unfold start_transports in Ht. apply result_bind_Ok in Ht as (tls & _ & Ht). apply result_bind_Ok in Ht as (ca & _ & Ht).
    apply result_bind_Ok in Ht as (tn & Htn & Ht). apply result_bind_Ok in Ht as (sg & _ & [= _ Etn _ _ _]). subst tn.
    apply start_tenants_Ok in Htn as (_ & data & shape & idx & Hr & Hy & Hn & Hc); [|apply Hv].
    exists data. split; [done|]. eapply accepted_from_file; [exact Hs|]. cbn. intros idx' Hi. rewrite Hc in Hi. injection Hi as <-.
    exists data, shape. split; [by left|done].
  - intros H2 H3 id. apply slots_bound. change (slots_kept (LLMMaxConcurrent cfg) (n', g').2).
    eapply steps_slots; [exact Hs|]. by eapply fresh_slots.
Qed.

(** The status of the process. Apart from printing a key, it reports success
    only after the pipeline was drained; it reports failure when it could not start
    or when a listener failed, and then nothing was drained. *)
Theorem exit_status (args : list string) (c : nat * (openai_state * W)) (es : list (event (openai_state * W))) (z : Z) :
  process args c es (Some z) →
  (z = 0 ∧ (args !! 1%nat = Some "hpke-keygen" ∨ drained es = true)) ∨ (z = 1 ∧ drained es = false).
Proof.
  inversion 1 as [priv written Ha|e Ha He|sys Ha Hst Hg|sys n w es' s Ha Hst Hs]; subst.
  - destruct (hpkeKeygen _ _); [left; split; [done|by left]|right; done].
  - by right.
  - by right.
  - apply steps_stage in Hs as [_ _ Hph]; [|done..]. destruct (pg_phase s.2) as [|e|e|cl|] eqn:Ep; try done.
    + match goal with E : exit_code _ = Some z |- _ => rewrite ?Ep in E; injection E as <- end. left. split; [done|by right].
    + match goal with E : exit_code _ = Some z |- _ => rewrite ?Ep in E; injection E as <- end. right. split; [done|apply Hph].
Qed.
End properties.

(** ** A life

    The brain of [Startup]'s sample accepts an alert, and is asked to stop. *)
Section sample.
#[local] Existing Instances run_clock run_certlib run_ecdsa run_x509 run_hpke run_gcm run_wire.
#[local] Instance life_net : Net unit := sample_net.
#[local] Instance life_mailer : Smtp.Mailer unit := sample_mailer.
#[local] Instance life_sdk : AnthropicSDK unit := sample_sdk.
#[local] Instance life_keylib : KeyLib string string := sample_keylib.
#[local] Instance life_pem : Pem := sample_pem.
#[local] Instance life_ca_lib : CaLib string := sample_ca_lib.
#[local] Instance life_payload_lib : PayloadLib (CaKey string) unit := {|
  signer_kind := λ _, Ed25519Key;
  signer_Sign := λ _ _ p _, Some p;
  ca_kind := λ _, Ed25519Key;
  CheckSignature := λ _ _ p sg, seqb sg p;
|}.

Definition life_tenants (_ : string) : option (list Tenant) :=
  Some [MkTenant "prod-a" "acme" ("sha256:" +:+ sha256_hex "t0ken") 0 false 0 ""].

Definition life_start : nat * (openai_state * unit) := (0%nat, (MkOpenAIState modeAuto false, tt)).

Definition life_starting :=
  starting (T := spec_float) (S := Memory.t) (SK := string) (X := string) both_transports sample_disk (λ _, Some 1) no_floats
    (λ s, Split s ",") (λ c k, Some (c +:+ k)) (λ _, Some sample_file_config) life_tenants id Memory.NewMemory
    (λ _ _, Err "no redis") (λ _, None) (λ _, "") (λ _, true) (λ _, "") (λ _, mret tt) (λ _, false) (λ _, "") life_start.

Definition life_system_opt : option (System spec_float Memory.t unit string string string) :=
  match life_starting.1 with Ok sys => Some sys | Err _ => None end.

Lemma life_starts : is_Some life_system_opt.
Proof. apply (bool_decide_unpack _). vm_compute. exact I. Defined.

Definition life_system : System spec_float Memory.t unit string string string := is_Some_proj life_starts.

Definition life_schedule : list move :=
  [MCall None (IngestRequest run_alert) sample_ctx; MAccess 0; MAccess 0; MSignal true; MAccess 1; MDrained 1].

Definition life_boot : nat * program spec_float Memory.t (openai_state * unit) :=
  (life_starting.2.1, boot life_system life_starting.2.2).

Definition life_run : list (event (openai_state * unit)) * (nat * program spec_float Memory.t (openai_state * unit)) :=
  default ([], life_boot)
    (schedule (T := spec_float) (λ _, "0") (λ _, None) merge_newest (λ _, 0) life_tenants (sys_pipeline life_system)
      (grpc_server life_system) life_schedule life_boot).

Example life_accepts : length (accepted life_run.1) = 1%nat ∧ drained life_run.1 = true.
Proof. vm_compute. done. Qed.

Lemma life_serves : serving (T := spec_float) (S := Memory.t) life_tenants (λ _, true) (λ _, "0") (λ _, None) merge_newest
  (λ _, 0) life_system life_run.1 life_boot (life_run.2.1, life_run.2.2).
Proof. apply (scheduled _ _ _ _ _ _ _ _ _ life_schedule). vm_compute. reflexivity. Qed.

Lemma life_started : life_starting = (Ok life_system, (life_starting.2.1, life_starting.2.2)).
Proof. vm_compute. reflexivity. Qed.

Lemma brain_runs_as_configured_witness :
  let cfg := sys_config life_system in
  valid cfg ∧
  (∃ start, sample_disk (ConfigFile cfg) = Ok start ∧
     ∀ a, a ∈ accepted life_run.1 → ∃ data, file_seen start life_run.1 data ∧ lists life_tenants data (ClusterId (deref a))) ∧
  (0 < LLMMaxCallsPerMinute cfg → 0 < LLMMaxConcurrent cfg →
     ∀ id, Z.of_nat (holders id (pg_live life_run.2.2)) <= LLMMaxConcurrent cfg).
Proof.
  intros cfg. eapply brain_runs_as_configured.
  - exact life_started.
  - exact life_serves.
Defined.

(** It goes on until the process ends. *)
Definition life_end : list (event (openai_state * unit)) * (nat * program spec_float Memory.t (openai_state * unit)) :=
  default ([], life_boot)
    (schedule (T := spec_float) (λ _, "0") (λ _, None) merge_newest (λ _, 0) life_tenants (sys_pipeline life_system)
      (grpc_server life_system) [MSignal true; MAccess 0; MDrained 0; MExit] life_boot).

Lemma life_ends : serving (T := spec_float) (S := Memory.t) life_tenants (λ _, true) (λ _, "0") (λ _, None) merge_newest
  (λ _, 0) life_system life_end.1 life_boot (life_end.2.1, life_end.2.2).
Proof. apply (scheduled _ _ _ _ _ _ _ _ _ [MSignal true; MAccess 0; MDrained 0; MExit]). vm_compute. reflexivity. Qed.

Lemma exit_status_witness :
  (0 = 0 ∧ (["muthur"] !! 1%nat = Some "hpke-keygen" ∨ drained life_end.1 = true)) ∨ (0 = 1 ∧ drained life_end.1 = false).
Proof.
  eapply (exit_status (T := spec_float)).
  replace (Some 0) with (exit_code (pg_phase life_end.2.2)) by (vm_compute; reflexivity).
  exact (pr_serve _ _ _ _ _ _ _ _ _ _ _ _ _ _ _ _ _ _ _ _ _ _ ["muthur"] life_start life_system life_starting.2.1 life_starting.2.2
    life_end.1 (life_end.2.1, life_end.2.2) ltac:(discriminate) life_started life_ends).
Defined.
End sample.
